(* ===== verification/_CoqProject ===== *)
-Q . S2P
Prelude.v
Errors.v
ComputeBudget.v
Runtime.v
RentState.v
Utils.v
Types.v
History.v
EpochStake.v
AccountsDb.v
Vm.v
InnerInstructions.v
Features.v
Svm.v
SvmProps.v
Process.v
ProcessLemmas.v
ProcessProps.v
Fresh.v
Exec.v
Api.v
Reach.v
ExecLemmas.v
ExecProps.v
Ledger.v
Persistence.v
Wire.v
PersistenceFile.v
NodeErrors.v
Text.v
SerdeStr.v
Bytes.v
F64.v
FormatLogs.v
CpiTree.v
CpiRender.v
Base58.v
TestsCpiTree.v
TraceFilter.v
Debugger.v
RegisterTrace.v
Inspect.v
TxBuild.v
Loader.v
Token.v
TokenProps.v
Token2022.v
NodeUtil.v
NodeBudget.v
NodeTypes.v
NodeSysvars.v
NodeProps.v
NodeSvm.v
NodeSvmProps.v
NodeSettings.v
SampleHost.v
SampleWire.v
TestsPersistence.v
Witnesses.v
SampleText.v
TestsText.v
SampleClient.v
HelperWitnesses.v
