(* ===== verification/Prelude.v ===== *)
(** * LiteSVM: a verification development

    LiteSVM (crates/litesvm) is an in-process Solana virtual machine for tests: it
    keeps accounts, sysvars, programs and recent transactions in memory, and runs
    transactions against them with the Solana runtime crates.  Around it are a
    snapshot format (crates/persistence), a parser and renderer of invocation
    trees from logs (crates/cpi-tree), helpers that deploy programs
    (crates/loader) and send token transactions (crates/token), and JavaScript
    bindings (crates/node-litesvm).

    ** Parts and files

    The files in dependency order; paths are under src/crates.

    - [Prelude]: results, outcomes (return or panic), machine-width arithmetic,
      sums, tactics and the hint database shared by all files.
    - [Errors]: the error enums; litesvm/src/error.rs.
    - [ComputeBudget]: the compute budget and its version 1 layout;
      persistence/src/types.rs.
    - [Runtime]: the data exchanged with the Solana crates and their interfaces.
    - [RentState]: litesvm/src/utils/rent.rs.
    - [Utils]: the loaded-size counter and fabricated accounts;
      litesvm/src/utils/mod.rs.
    - [Types]: results and metadata; litesvm/src/types.rs.
    - [History]: litesvm/src/history.rs, over an [IndexMap].
    - [EpochStake]: the stake fields of the instance; litesvm/src/lib.rs.
    - [AccountsDb]: store, sysvar cache and program cache;
      litesvm/src/accounts_db.rs.
    - [Vm]: the transaction-level interfaces, and litesvm/src/message_processor.rs.
    - [InnerInstructions]: litesvm/src/utils/inner_instructions.rs.
    - [Features]: the mainnet table; litesvm/src/features.rs.
    - [Svm], [SvmProps]: the [LiteSVM] struct, its builders, setters, sysvars,
      builtins and programs; litesvm/src/lib.rs, programs/mod.rs, precompiles.rs,
      callback.rs.
    - [Process], [ProcessLemmas], [ProcessProps]: [process_transaction] and its
      helpers; litesvm/src/lib.rs.
    - [Fresh]: what [LiteSVM::new] and [LiteSVM::new_debuggable] leave behind, step
      by step through [into_basic].
    - [Exec], [ExecLemmas], [ExecProps]: [send_transaction],
      [simulate_transaction], [airdrop] and the paths between them and
      [process_transaction]; litesvm/src/lib.rs.
    - [Ledger]: the balance sheet of a sequence of calls, from an abstract ledger.
    - [Api], [Reach]: the fluent builders and getters of litesvm/src/lib.rs, and the
      public operations as a step relation with its invariant.
    - [Persistence], [PersistenceFile]: persistence/src/lib.rs and types.rs.
    - [Wire]: the layout of the snapshot, one schema per wire struct of
      persistence/src/types.rs.
    - [NodeErrors]: node-litesvm/src/transaction_error.rs.
    - [Text], [Bytes], [F64]: strings, little-endian words and binary64 floats, as
      the parts below use them.
    - [SerdeStr]: litesvm/src/utils/serde_with_str.rs.
    - [FormatLogs]: litesvm/src/format_logs.rs.
    - [CpiTree], [CpiRender]: cpi-tree/src/lib.rs and ext.rs.
    - [Base58]: an executable base58, and [TestsCpiTree]: the unit tests of
      cpi-tree, evaluated with it.
    - [TraceFilter]: the filter language of register tracing;
      litesvm/src/register_tracing_filter.rs.
    - [Debugger]: the client of the debugging stub; litesvm/src/debugger.rs.
    - [RegisterTrace]: the default inspection callback and the files it writes;
      litesvm/src/register_tracing.rs.
    - [Inspect]: the inspection callbacks of litesvm/src/lib.rs and the pipeline
      and constructors of the build that has them.
    - [TxBuild]: building and signing transactions, for the two helper crates.
    - [Loader]: loader/src/lib.rs.
    - [Token], [TokenProps]: token/src; [Token2022]: what differs in the build with
      the [token-2022] feature.
    - [NodeUtil]: conversions of BigInts and the accessor pattern;
      node-litesvm/src/util.rs.
    - [NodeBudget]: node-litesvm/src/compute_budget.rs.
    - [NodeTypes], [NodeSysvars], [NodeProps]: the wrapper classes;
      node-litesvm/src/account.rs, feature_set.rs, transaction_metadata.rs, sysvar/.
    - [NodeSvm], [NodeSvmProps], [NodeSettings]: the [LiteSvm] class;
      node-litesvm/src/lib.rs and native_mint.rs.
    - [SampleHost], [SampleWire], [SampleText], [SampleClient]: a concrete host,
      byte encoding, parser library, debug stub, file system, transaction builder
      and script engine; [Witnesses] and [HelperWitnesses]: the theorems at concrete
      inputs on them; [TestsPersistence], [TestsText]: the unit tests of
      persistence/src/lib.rs, of the filter and of the log formatter, evaluated.

    A transaction goes through the parts as follows.  [Exec.send_transaction]
    sanitizes it (resolving lookup tables in [AccountsDb]), checks blockhash and
    history, and calls [Process.process_transaction], which loads the accounts,
    charges the payer in the loaded copy, runs the message ([Vm]) and checks rent
    ([RentState]).  On success the writable accounts are committed with
    [AccountsDb.sync_accounts]; on failure the fee is withdrawn from the store.
    Either way the result goes into [History].  The helper crates and the [LiteSvm]
    class of the bindings are clients of these operations; the theorems of the helpers
    use the lemmas of [ExecProps].
    [Inspect] is the same pipeline with the inspection callback around the message.
    Register tracing is such a callback: before the message it may set a debugger
    port; after it, it writes the traces that the filter selects.

    ** How the code is modelled

    - [&mut self] is explicit state passing; a read-only method returns no state.
    - [Result] is [result E A]; an [unwrap] or [expect] that may fail makes the
      function return [outcome], whose [Panic] is distinct from every error.
    - Unsigned integers are [N]; checked, saturating and truncating operations are
      written out with their bound ([checked_add], [saturating_add], [as_u8]).
      The target is 64-bit, so [usize] has the width of [u64].
    - Hash maps are stdpp's [gmap], an [IndexMap] an ordered association list with
      a capacity, strings lists of Unicode scalar values, bytes [list byte].
    - Addresses, hashes and signatures are numbers: the code only compares, copies
      and prints them.
    - Loops over collections are structural recursion.  The loops that are not have
      fuel, and a theorem or lemma shows that the fuel is enough: decimal and
      hexadecimal printing (the bit length plus one, [Text.to_decimal],
      [Debugger.to_hex]), the nesting of the filter parser (one more than the
      length of the text, [TraceFilter.expr_accepts_grammar]), the chunks of a
      slice (its length, [Loader.upload_covers_program]), and the chunked memory
      read (one more than the size, [Debugger.chunked_read_correct]; with an empty
      chunk size no fuel is enough, [Debugger.chunked_read_zero_diverges]).
    - Effects on files and connections are state passing over an interface.
    - Floats are [SpecFloat]'s binary64.

    ** Interfaces

    The Solana crates, [IndexMap]'s allocator, wincode, base58, nom, napi and the
    operating system are not part of the repository.  Each group of their
    operations is a type class ([Runtime], [Utils], [History], [Vm], [Persistence],
    [CpiTree], [TraceFilter.Nom], [Debugger.Connection], [RegisterTrace.FsApi],
    [Wire.Wincode], [TxBuild.TxBuilder], [Loader.LoaderApi], [Token.TokenApi],
    [Token2022.Token2022Api], [NodeUtil.BigIntApi], [NodeTypes.NodeApi]); [Svm.Host] bundles those
    the instance uses.  What the theorems rely on is a class of laws next to it:
    codecs decode what they encode, and leave the bytes that follow; the sysvar
    cache holds what it was filled with;
    a nonce or system account is recognised by its owner and data; validated
    account locks are distinct; the runtime changes only writable accounts, keeps
    the sum of their balances, and does not rename or reorder them; nom's
    combinators run as documented; files keep what is written to them; a
    transaction's payer is the first key of its message; a BigInt conversion tells
    sign, magnitude and loss.  The sample files implement the classes and prove
    their laws.  [NodeUtil.Accessors] is an interface inside the bindings: what a
    class with numeric properties promises to scripts.

    ** Theorems

    - Sending ([ExecProps]): simulation predicts sending; a failed transaction
      costs exactly its fee and changes nothing else; a successful one conserves
      lamports up to its fee, changes only writable accounts and respects the rent
      transitions; no replay while remembered; the age check is exact.
    - Balances ([Ledger]): over any sequence of client calls the books balance, by
      the fees reported, and no lamport is created.
    - Processing ([ProcessProps], [Fresh]): the fee payer's validation on every
      branch; no panic on the path, under stated invariants of the instance, which a
      fresh instance has; the loaded-size limit bounds the true size in spite of
      saturation.
    - Inspection ([Inspect]): a callback that leaves the invoke context alone does
      not change any result; callbacks are called for exactly the transactions that
      reach the runtime, with the context in which the instructions start and the one
      in which they end.
    - Database ([AccountsDb], [SvmProps]): what a checked insertion does to the store
      and to the seven cached sysvars, and when these stay coherent; committing is
      order-independent; withdrawals; sysvars, clock, blockhash and programs read back
      as written, on success and on error.
    - Smaller components: inner instructions equal a reference grouping; the history
      is a sliding window, and what changing its capacity does; the stake total equals
      the sum; rent transitions are a preorder; the default slot is the latest
      activation.
    - Instances ([Reach]): every instance that the public interface can reach, by
      successful and failing calls in any order, is well formed; the stake total is
      the sum of the stakes unless a list of stakes named an account twice.
    - Snapshots ([Persistence], [Wire], [PersistenceFile], [ComputeBudget]):
      restoring a snapshot gives the instance back with its caches rebuilt, older
      versions migrate, malformed ones are refused; the bytes of each version are
      laid out field by field as the wire structs say (version 1 is read only); files
      and bytes agree.
    - Logs ([CpiTree], [CpiRender]): parsing the logs of a forest gives the forest
      back; one frame per invoke line on any input; the shape of the rendering.
    - Tracing and debugging ([TraceFilter], [RegisterTrace], [Debugger]): the filter
      parser accepts exactly a grammar and the evaluator decides its meaning; a
      filter selects what it means; trace files hold the registers and instructions
      in lockstep, as far as each write was complete; packets round trip; chunked
      reads end and return the memory; connecting succeeds with the first successful
      attempt.
    - Helpers ([Loader], [TokenProps], [Token2022]): the writes of an upload assemble
      the program; a failing token helper costs its payer the fee and nothing else,
      in both builds, which agree where no extension is used.
    - Unit tests ([TestsCpiTree], [TestsPersistence], [TestsText]): the assertions of
      the test modules of cpi-tree, persistence, register_tracing_filter.rs and
      format_logs.rs hold of the model.
    - Bindings ([NodeErrors], [NodeBudget], [NodeProps], [NodeSvmProps],
      [NodeSettings]): the error conversion is injective; properties are independent
      variables of their width; the arithmetic of rent; slot hashes round trip; scripts
      that configure an instance implement an abstract machine of its settings.
    - Behaviours that differ from the documentation or the intent:
      [AccountsDb.rejected_rent_write_loses_cached_rent],
      [AccountsDb.add_account_keeps_cache_coherent] (a removed sysvar stays cached),
      [RegisterTrace.register_trace_files] (the count of a write is ignored),
      [History.set_capacity_on_empty_disables], [History.set_capacity_effect],
      [EpochStake.set_epoch_stakes_duplicate],
      [NodeProps.stake_entry_setters_overwrite_effective],
      [Loader.set_upgrade_authority_unsigned],
      [Debugger.chunked_read_zero_diverges] and
      [TokenProps.freeze_and_thaw_reach_own_account].

    ** Not modelled

    How wincode encodes primitive types, lists, options and foreign structs (an
    interface, with a sample implementation); the Solana runtime, the virtual
    machine and the disassembler behind register tracing (interfaces); [toString]
    glue generated by macros; the unit tests that need a running virtual machine,
    integration tests, benches and test programs.  The instance is the build with the
    [precompiles], [persistence-internal] and [register-tracing] features: the
    tracing flag is part of [LiteSVM], the callback is added by [Inspect].
    [Debugger] and [RegisterTrace] have [sbpf-debugger] too.  Arithmetic overflow
    panics, as in builds with overflow checks; the [debug_assert!]s of
    message_processor.rs and utils/inner_instructions.rs are left out. *)

From stdpp Require Export gmap list fin_maps strings.
From Stdlib Require Export Lia.
From Stdlib.Strings Require Byte.

(** ** Results

    Rust's [Result<A, E>]; the error type comes first so that [result E] is a
    monad. *)

Inductive result (E A : Type) : Type :=
| Ok (a : A)
| Err (e : E).
Arguments Ok {E A} a.
Arguments Err {E A} e.

#[export] Instance result_ret {E} : MRet (result E) := λ A a, Ok a.
#[export] Instance result_bind {E} : MBind (result E) :=
  λ A B f r, match r with Ok a => f a | Err e => Err e end.
#[export] Instance result_fmap {E} : FMap (result E) :=
  λ A B f r, match r with Ok a => Ok (f a) | Err e => Err e end.

Definition map_ok {E A B} (f : A → B) (r : result E A) : result E B :=
  match r with Ok a => Ok (f a) | Err e => Err e end.

Definition map_err {E F A} (f : E → F) (r : result E A) : result F A :=
  match r with Ok a => Ok a | Err e => Err (f e) end.

Definition ok_or {E A} (o : option A) (e : E) : result E A :=
  match o with Some a => Ok a | None => Err e end.

Definition is_ok {E A} (r : result E A) : bool :=
  match r with Ok _ => true | Err _ => false end.

Definition is_err {E A} (r : result E A) : bool := negb (is_ok r).

(** [Result::and]: the second result when the first one is [Ok]. *)
Definition result_and {E A B} (r : result E A) (s : result E B) : result E B :=
  match r with Ok _ => s | Err e => Err e end.

(** ** Panics

    [unwrap], [expect], [unreachable!] and out-of-range indexing end the call
    without a value. *)

Inductive outcome (A : Type) : Type :=
| Ret (a : A)
| Panic.
Arguments Ret {A} a.
Arguments Panic {A}.

#[export] Instance outcome_ret : MRet outcome := λ A a, Ret a.
#[export] Instance outcome_bind : MBind outcome :=
  λ A B f o, match o with Ret a => f a | Panic => Panic end.
#[export] Instance outcome_fmap : FMap outcome :=
  λ A B f o, match o with Ret a => Ret (f a) | Panic => Panic end.

(** [Option::unwrap]. *)
Definition unwrap {A} (o : option A) : outcome A :=
  match o with Some a => Ret a | None => Panic end.

(** [Result::unwrap] and [Result::expect]. *)
Definition is_ret {A} (o : outcome A) : bool :=
  match o with Ret _ => true | Panic => false end.

(** ** Machine integers

    Unsigned integers are values of [N]; their width appears in the bounds and
    in the checked, saturating and narrowing operations. *)

Definition u8_max : N := 255.
Definition u32_max : N := 4294967295.
Definition u64_max : N := 18446744073709551615.

Definition checked_add (max a b : N) : option N :=
  if (a + b <=? max)%N then Some (a + b)%N else None.
Definition checked_sub (a b : N) : option N :=
  if (b <=? a)%N then Some (a - b)%N else None.
Definition saturating_add (max a b : N) : N := N.min max (a + b).
Definition saturating_mul (max a b : N) : N := N.min max (a * b).
(** [as u8]: the low byte. *)
Definition as_u8 (n : N) : N := (n mod 256)%N.

(** [u32::try_from(usize)]. *)
Definition try_into_u32 (n : N) : option N :=
  if (n <=? u32_max)%N then Some n else None.

(** ** Bytes and addresses

    Addresses, hashes and signatures are fixed-size byte arrays, represented by
    their big-endian value, whose order is the lexicographic order of the
    arrays; [Address::default()] is the all-zero array. *)

Abbreviation byte := Byte.byte (only parsing).
Abbreviation bytes := (list Byte.byte) (only parsing).
Abbreviation address := N (only parsing).
Abbreviation hash := N (only parsing).
Abbreviation signature := N (only parsing).

(** A string is the list of its Unicode scalar values. *)
Abbreviation str := (list N) (only parsing).

Definition default_address : address := 0%N.
Definition default_signature : signature := 0%N.

#[export] Instance byte_eq_dec : EqDecision Byte.byte := Byte.byte_eq_dec.

Definition zeros (n : nat) : bytes := replicate n Byte.x00.

Definition len {A} (l : list A) : N := N.of_nat (length l).

(** [slice.get(n..)]. *)
Definition get_from {A} (n : nat) (l : list A) : option (list A) :=
  if decide (n ≤ length l) then Some (drop n l) else None.

(** ** Sums over finite maps *)

Definition map_sum {A} (f : A → N) (m : gmap N A) : N :=
  map_fold (λ _ x acc, f x + acc)%N 0%N m.

Definition list_sum {A} (f : A → N) (l : list A) : N :=
  foldr (λ x acc, f x + acc)%N 0%N l.

(** ** Tactics and hints

    [svm] holds constructors and facts for [eauto]; [svm_sum] distributes counting
    functions over lists. *)

Create HintDb svm discriminated.
Create Rewrite HintDb svm_sum.

(** Destructs the scrutinee of a [match] or an [if] in a hypothesis, keeping
    its equation. *)
Ltac break_match_in H :=
  match type of H with
  | context [match ?x with _ => _ end] =>
      lazymatch x with
      | context [match _ with _ => _ end] => fail
      | _ => let E := fresh "E" in destruct x eqn:E
      end
  end.

(** Inverts equations between results, outcomes and pairs. *)
Ltac inv_res :=
  repeat match goal with
  | H : Ok _ = Ok _ |- _ => injection H as H
  | H : Err _ = Err _ |- _ => injection H as H
  | H : Ret _ = Ret _ |- _ => injection H as H
  | H : Some _ = Some _ |- _ => injection H as H
  | H : (_, _) = (_, _) |- _ => injection H as H
  | H : Ok _ = Err _ |- _ => discriminate H
  | H : Err _ = Ok _ |- _ => discriminate H
  | H : Ret _ = Panic |- _ => discriminate H
  | H : Panic = Ret _ |- _ => discriminate H
  | H : Some _ = None |- _ => discriminate H
  | H : None = Some _ |- _ => discriminate H
  | H : true = false |- _ => discriminate H
  | H : false = true |- _ => discriminate H
  end; subst.

(** Proves an equation between closed terms by evaluation in the virtual machine. *)
Ltac by_evaluation :=
  lazymatch goal with |- ?a = _ => vm_cast_no_check (eq_refl a) end.

(** Proves a closed decidable proposition by evaluation. *)
Ltac by_decision :=
  apply (bool_decide_unpack _); vm_compute; exact I.

(** Proves the premise of a hypothesis first. *)
Ltac forward H :=
  match type of H with
  | ?P → _ => let HP := fresh in assert P as HP; [|specialize (H HP); clear HP]
  end.

(** ** Shared lemmas *)

Lemma get_from_Some {A} n (l r : list A) :
  get_from n l = Some r ↔ n ≤ length l ∧ r = drop n l.
Proof. unfold get_from. case_decide; naive_solver. Qed.

Lemma get_from_app {A} (p q : list A) : get_from (length p) (p ++ q) = Some q.
Proof.
  apply get_from_Some. rewrite length_app, drop_app_length. split; [lia|done].
Qed.

Lemma NoDup_ne {A} (l : list A) i j x y :
  NoDup l → l !! i = Some x → l !! j = Some y → i ≠ j → x ≠ y.
Proof. intros Hnd Hi Hj Hne ->. apply Hne. by eapply NoDup_lookup. Qed.

Section map_sum.
Context {A : Type} (f : A → N).
Implicit Types m : gmap N A.

Lemma map_sum_empty : map_sum f ∅ = 0%N.
Proof. apply map_fold_empty. Qed.

Lemma map_sum_insert m k x :
  m !! k = None → map_sum f (<[k:=x]> m) = (f x + map_sum f m)%N.
Proof.
  intros Hk. unfold map_sum. rewrite (map_fold_insert_L _ _ k x m); auto.
  intros. lia.
Qed.

Lemma map_sum_delete m k x :
  m !! k = Some x → map_sum f m = (f x + map_sum f (delete k m))%N.
Proof.
  intros Hk. rewrite <-(map_sum_insert (delete k m) k x).
  - by rewrite insert_delete_eq, insert_id.
  - apply lookup_delete_eq.
Qed.

Lemma map_sum_le m k x : m !! k = Some x → (f x ≤ map_sum f m)%N.
Proof. intros Hk. rewrite (map_sum_delete m k x Hk). lia. Qed.
End map_sum.

