(* ===== verification/Errors.v ===== *)
(** * Error types

    The error enums the program returns and matches on.  [InstructionError] and
    [TransactionError] are those of the Solana crates, with the variants that
    crates/node-litesvm/src/transaction_error.rs enumerates; the remaining ones are
    crates/litesvm/src/error.rs and the address-lookup errors that
    crates/litesvm/src/accounts_db.rs converts. *)

From S2P Require Import Prelude.

Inductive InstructionError : Type :=
| IE_GenericError
| IE_InvalidArgument
| IE_InvalidInstructionData
| IE_InvalidAccountData
| IE_AccountDataTooSmall
| IE_InsufficientFunds
| IE_IncorrectProgramId
| IE_MissingRequiredSignature
| IE_AccountAlreadyInitialized
| IE_UninitializedAccount
| IE_UnbalancedInstruction
| IE_ModifiedProgramId
| IE_ExternalAccountLamportSpend
| IE_ExternalAccountDataModified
| IE_ReadonlyLamportChange
| IE_ReadonlyDataModified
| IE_DuplicateAccountIndex
| IE_ExecutableModified
| IE_RentEpochModified
| IE_NotEnoughAccountKeys
| IE_AccountDataSizeChanged
| IE_AccountNotExecutable
| IE_AccountBorrowFailed
| IE_AccountBorrowOutstanding
| IE_DuplicateAccountOutOfSync
| IE_InvalidError
| IE_ExecutableDataModified
| IE_ExecutableLamportChange
| IE_ExecutableAccountNotRentExempt
| IE_UnsupportedProgramId
| IE_CallDepth
| IE_MissingAccount
| IE_ReentrancyNotAllowed
| IE_MaxSeedLengthExceeded
| IE_InvalidSeeds
| IE_InvalidRealloc
| IE_ComputationalBudgetExceeded
| IE_PrivilegeEscalation
| IE_ProgramEnvironmentSetupFailure
| IE_ProgramFailedToComplete
| IE_ProgramFailedToCompile
| IE_Immutable
| IE_IncorrectAuthority
| IE_AccountNotRentExempt
| IE_InvalidAccountOwner
| IE_ArithmeticOverflow
| IE_UnsupportedSysvar
| IE_IllegalOwner
| IE_MaxAccountsDataAllocationsExceeded
| IE_MaxAccountsExceeded
| IE_MaxInstructionTraceLengthExceeded
| IE_BuiltinProgramsMustConsumeComputeUnits
| IE_BorshIoError
| IE_Custom (code : N).

Inductive TransactionError : Type :=
| TE_AccountInUse
| TE_AccountLoadedTwice
| TE_AccountNotFound
| TE_ProgramAccountNotFound
| TE_InsufficientFundsForFee
| TE_InvalidAccountForFee
| TE_AlreadyProcessed
| TE_BlockhashNotFound
| TE_CallChainTooDeep
| TE_MissingSignatureForFee
| TE_InvalidAccountIndex
| TE_SignatureFailure
| TE_InvalidProgramForExecution
| TE_SanitizeFailure
| TE_ClusterMaintenance
| TE_AccountBorrowOutstanding
| TE_WouldExceedMaxBlockCostLimit
| TE_UnsupportedVersion
| TE_InvalidWritableAccount
| TE_WouldExceedMaxAccountCostLimit
| TE_WouldExceedAccountDataBlockLimit
| TE_TooManyAccountLocks
| TE_AddressLookupTableNotFound
| TE_InvalidAddressLookupTableOwner
| TE_InvalidAddressLookupTableData
| TE_InvalidAddressLookupTableIndex
| TE_InvalidRentPayingAccount
| TE_WouldExceedMaxVoteCostLimit
| TE_WouldExceedAccountDataTotalLimit
| TE_MaxLoadedAccountsDataSizeExceeded
| TE_ResanitizationNeeded
| TE_InvalidLoadedAccountsDataSizeLimit
| TE_UnbalancedTransaction
| TE_ProgramCacheHitMaxLimit
| TE_CommitCancelled
| TE_InstructionError (index : N) (err : InstructionError)
| TE_DuplicateInstruction (index : N)
| TE_InsufficientFundsForRent (account_index : N)
| TE_ProgramExecutionTemporarilyRestricted (account_index : N).

Inductive InvalidSysvarDataError : Type :=
| ISD_Clock
| ISD_EpochRewards
| ISD_EpochSchedule
| ISD_Fees
| ISD_LastRestartSlot
| ISD_RecentBlockhashes
| ISD_Rent
| ISD_SlotHashes
| ISD_StakeHistory.

(** [InvalidPath] wraps an I/O error and the string payloads are messages. *)
Inductive LiteSVMError : Type :=
| LE_InvalidSysvarData (e : InvalidSysvarDataError)
| LE_Instruction (e : InstructionError)
| LE_InvalidPath
| LE_InvalidLoader (loader_id : address)
| LE_ProgramLoad
| LE_EpochStakeOverflow.

Inductive AddressLookupError : Type :=
| ALE_LookupTableAccountNotFound
| ALE_InvalidAccountOwner
| ALE_InvalidAccountData
| ALE_InvalidLookupIndex.

Inductive AddressLoaderError : Type :=
| AddrLE_LookupTableAccountNotFound
| AddrLE_InvalidAccountOwner
| AddrLE_InvalidAccountData
| AddrLE_InvalidLookupIndex.

Definition into_address_loader_error (err : AddressLookupError) : AddressLoaderError :=
  match err with
  | ALE_LookupTableAccountNotFound => AddrLE_LookupTableAccountNotFound
  | ALE_InvalidAccountOwner => AddrLE_InvalidAccountOwner
  | ALE_InvalidAccountData => AddrLE_InvalidAccountData
  | ALE_InvalidLookupIndex => AddrLE_InvalidLookupIndex
  end.

#[export] Instance InstructionError_eq_dec : EqDecision InstructionError.
Proof. solve_decision. Defined.
#[export] Instance TransactionError_eq_dec : EqDecision TransactionError.
Proof. solve_decision. Defined.
#[export] Instance InvalidSysvarDataError_eq_dec : EqDecision InvalidSysvarDataError.
Proof. solve_decision. Defined.
#[export] Instance LiteSVMError_eq_dec : EqDecision LiteSVMError.
Proof. solve_decision. Defined.
