(* ===== verification/ComputeBudget.v ===== *)
(** * The compute budget and its two wire layouts

    The struct [ComputeBudget] with the fields and the order of
    crates/persistence/src/types.rs ([ComputeBudgetWire]), the layout of
    persistence version 1 ([ComputeBudgetV1]) and the conversion between them. *)

From S2P Require Import Prelude.

Record ComputeBudget : Type := {
  compute_unit_limit : N;
  log_64_units : N;
  create_program_address_units : N;
  invoke_units : N;
  max_instruction_stack_depth : N;
  max_instruction_trace_length : N;
  sha256_base_cost : N;
  sha256_byte_cost : N;
  sha256_max_slices : N;
  max_call_depth : N;
  stack_frame_size : N;
  log_pubkey_units : N;
  cpi_bytes_per_unit : N;
  sysvar_base_cost : N;
  secp256k1_recover_cost : N;
  syscall_base_cost : N;
  curve25519_edwards_validate_point_cost : N;
  curve25519_edwards_add_cost : N;
  curve25519_edwards_subtract_cost : N;
  curve25519_edwards_multiply_cost : N;
  curve25519_edwards_msm_base_cost : N;
  curve25519_edwards_msm_incremental_cost : N;
  curve25519_ristretto_validate_point_cost : N;
  curve25519_ristretto_add_cost : N;
  curve25519_ristretto_subtract_cost : N;
  curve25519_ristretto_multiply_cost : N;
  curve25519_ristretto_msm_base_cost : N;
  curve25519_ristretto_msm_incremental_cost : N;
  heap_size : N;
  heap_cost : N;
  mem_op_base_cost : N;
  alt_bn128_g1_addition_cost : N;
  alt_bn128_g2_addition_cost : N;
  alt_bn128_g1_multiplication_cost : N;
  alt_bn128_g2_multiplication_cost : N;
  alt_bn128_pairing_one_pair_cost_first : N;
  alt_bn128_pairing_one_pair_cost_other : N;
  poseidon_cost_coefficient_a : N;
  poseidon_cost_coefficient_c : N;
  get_remaining_compute_units_cost : N;
  alt_bn128_g1_compress : N;
  alt_bn128_g1_decompress : N;
  alt_bn128_g2_compress : N;
  alt_bn128_g2_decompress : N;
  bls12_381_g1_add_cost : N;
  bls12_381_g2_add_cost : N;
  bls12_381_g1_subtract_cost : N;
  bls12_381_g2_subtract_cost : N;
  bls12_381_g1_multiply_cost : N;
  bls12_381_g2_multiply_cost : N;
  bls12_381_g1_decompress_cost : N;
  bls12_381_g2_decompress_cost : N;
  bls12_381_g1_validate_cost : N;
  bls12_381_g2_validate_cost : N;
  bls12_381_one_pair_cost : N;
  bls12_381_additional_pair_cost : N }.

(** The layout of version 1 has the two modular-exponentiation fields that the
    current struct lacks. *)
Record ComputeBudgetV1 : Type := {
  v1_compute_unit_limit : N;
  v1_log_64_units : N;
  v1_create_program_address_units : N;
  v1_invoke_units : N;
  v1_max_instruction_stack_depth : N;
  v1_max_instruction_trace_length : N;
  v1_sha256_base_cost : N;
  v1_sha256_byte_cost : N;
  v1_sha256_max_slices : N;
  v1_max_call_depth : N;
  v1_stack_frame_size : N;
  v1_log_pubkey_units : N;
  v1_cpi_bytes_per_unit : N;
  v1_sysvar_base_cost : N;
  v1_secp256k1_recover_cost : N;
  v1_syscall_base_cost : N;
  v1_curve25519_edwards_validate_point_cost : N;
  v1_curve25519_edwards_add_cost : N;
  v1_curve25519_edwards_subtract_cost : N;
  v1_curve25519_edwards_multiply_cost : N;
  v1_curve25519_edwards_msm_base_cost : N;
  v1_curve25519_edwards_msm_incremental_cost : N;
  v1_curve25519_ristretto_validate_point_cost : N;
  v1_curve25519_ristretto_add_cost : N;
  v1_curve25519_ristretto_subtract_cost : N;
  v1_curve25519_ristretto_multiply_cost : N;
  v1_curve25519_ristretto_msm_base_cost : N;
  v1_curve25519_ristretto_msm_incremental_cost : N;
  v1_heap_size : N;
  v1_heap_cost : N;
  v1_mem_op_base_cost : N;
  v1_alt_bn128_g1_addition_cost : N;
  v1_alt_bn128_g2_addition_cost : N;
  v1_alt_bn128_g1_multiplication_cost : N;
  v1_alt_bn128_g2_multiplication_cost : N;
  v1_alt_bn128_pairing_one_pair_cost_first : N;
  v1_alt_bn128_pairing_one_pair_cost_other : N;
  v1_big_modular_exponentiation_base_cost : N;
  v1_big_modular_exponentiation_cost_divisor : N;
  v1_poseidon_cost_coefficient_a : N;
  v1_poseidon_cost_coefficient_c : N;
  v1_get_remaining_compute_units_cost : N;
  v1_alt_bn128_g1_compress : N;
  v1_alt_bn128_g1_decompress : N;
  v1_alt_bn128_g2_compress : N;
  v1_alt_bn128_g2_decompress : N;
  v1_bls12_381_g1_add_cost : N;
  v1_bls12_381_g2_add_cost : N;
  v1_bls12_381_g1_subtract_cost : N;
  v1_bls12_381_g2_subtract_cost : N;
  v1_bls12_381_g1_multiply_cost : N;
  v1_bls12_381_g2_multiply_cost : N;
  v1_bls12_381_g1_decompress_cost : N;
  v1_bls12_381_g2_decompress_cost : N;
  v1_bls12_381_g1_validate_cost : N;
  v1_bls12_381_g2_validate_cost : N;
  v1_bls12_381_one_pair_cost : N;
  v1_bls12_381_additional_pair_cost : N }.

Definition compute_budget_from_v1 (value : ComputeBudgetV1) : ComputeBudget := {|
  compute_unit_limit := v1_compute_unit_limit value;
  log_64_units := v1_log_64_units value;
  create_program_address_units := v1_create_program_address_units value;
  invoke_units := v1_invoke_units value;
  max_instruction_stack_depth := v1_max_instruction_stack_depth value;
  max_instruction_trace_length := v1_max_instruction_trace_length value;
  sha256_base_cost := v1_sha256_base_cost value;
  sha256_byte_cost := v1_sha256_byte_cost value;
  sha256_max_slices := v1_sha256_max_slices value;
  max_call_depth := v1_max_call_depth value;
  stack_frame_size := v1_stack_frame_size value;
  log_pubkey_units := v1_log_pubkey_units value;
  cpi_bytes_per_unit := v1_cpi_bytes_per_unit value;
  sysvar_base_cost := v1_sysvar_base_cost value;
  secp256k1_recover_cost := v1_secp256k1_recover_cost value;
  syscall_base_cost := v1_syscall_base_cost value;
  curve25519_edwards_validate_point_cost := v1_curve25519_edwards_validate_point_cost value;
  curve25519_edwards_add_cost := v1_curve25519_edwards_add_cost value;
  curve25519_edwards_subtract_cost := v1_curve25519_edwards_subtract_cost value;
  curve25519_edwards_multiply_cost := v1_curve25519_edwards_multiply_cost value;
  curve25519_edwards_msm_base_cost := v1_curve25519_edwards_msm_base_cost value;
  curve25519_edwards_msm_incremental_cost := v1_curve25519_edwards_msm_incremental_cost value;
  curve25519_ristretto_validate_point_cost := v1_curve25519_ristretto_validate_point_cost value;
  curve25519_ristretto_add_cost := v1_curve25519_ristretto_add_cost value;
  curve25519_ristretto_subtract_cost := v1_curve25519_ristretto_subtract_cost value;
  curve25519_ristretto_multiply_cost := v1_curve25519_ristretto_multiply_cost value;
  curve25519_ristretto_msm_base_cost := v1_curve25519_ristretto_msm_base_cost value;
  curve25519_ristretto_msm_incremental_cost := v1_curve25519_ristretto_msm_incremental_cost value;
  heap_size := v1_heap_size value;
  heap_cost := v1_heap_cost value;
  mem_op_base_cost := v1_mem_op_base_cost value;
  alt_bn128_g1_addition_cost := v1_alt_bn128_g1_addition_cost value;
  alt_bn128_g2_addition_cost := v1_alt_bn128_g2_addition_cost value;
  alt_bn128_g1_multiplication_cost := v1_alt_bn128_g1_multiplication_cost value;
  alt_bn128_g2_multiplication_cost := v1_alt_bn128_g2_multiplication_cost value;
  alt_bn128_pairing_one_pair_cost_first := v1_alt_bn128_pairing_one_pair_cost_first value;
  alt_bn128_pairing_one_pair_cost_other := v1_alt_bn128_pairing_one_pair_cost_other value;
  poseidon_cost_coefficient_a := v1_poseidon_cost_coefficient_a value;
  poseidon_cost_coefficient_c := v1_poseidon_cost_coefficient_c value;
  get_remaining_compute_units_cost := v1_get_remaining_compute_units_cost value;
  alt_bn128_g1_compress := v1_alt_bn128_g1_compress value;
  alt_bn128_g1_decompress := v1_alt_bn128_g1_decompress value;
  alt_bn128_g2_compress := v1_alt_bn128_g2_compress value;
  alt_bn128_g2_decompress := v1_alt_bn128_g2_decompress value;
  bls12_381_g1_add_cost := v1_bls12_381_g1_add_cost value;
  bls12_381_g2_add_cost := v1_bls12_381_g2_add_cost value;
  bls12_381_g1_subtract_cost := v1_bls12_381_g1_subtract_cost value;
  bls12_381_g2_subtract_cost := v1_bls12_381_g2_subtract_cost value;
  bls12_381_g1_multiply_cost := v1_bls12_381_g1_multiply_cost value;
  bls12_381_g2_multiply_cost := v1_bls12_381_g2_multiply_cost value;
  bls12_381_g1_decompress_cost := v1_bls12_381_g1_decompress_cost value;
  bls12_381_g2_decompress_cost := v1_bls12_381_g2_decompress_cost value;
  bls12_381_g1_validate_cost := v1_bls12_381_g1_validate_cost value;
  bls12_381_g2_validate_cost := v1_bls12_381_g2_validate_cost value;
  bls12_381_one_pair_cost := v1_bls12_381_one_pair_cost value;
  bls12_381_additional_pair_cost := v1_bls12_381_additional_pair_cost value |}.

(** The struct update [ComputeBudget { compute_unit_limit, heap_size, ..base }]. *)
Definition with_limit_and_heap (base : ComputeBudget) (limit heap : N) : ComputeBudget := {|
  compute_unit_limit := limit;
  log_64_units := log_64_units base;
  create_program_address_units := create_program_address_units base;
  invoke_units := invoke_units base;
  max_instruction_stack_depth := max_instruction_stack_depth base;
  max_instruction_trace_length := max_instruction_trace_length base;
  sha256_base_cost := sha256_base_cost base;
  sha256_byte_cost := sha256_byte_cost base;
  sha256_max_slices := sha256_max_slices base;
  max_call_depth := max_call_depth base;
  stack_frame_size := stack_frame_size base;
  log_pubkey_units := log_pubkey_units base;
  cpi_bytes_per_unit := cpi_bytes_per_unit base;
  sysvar_base_cost := sysvar_base_cost base;
  secp256k1_recover_cost := secp256k1_recover_cost base;
  syscall_base_cost := syscall_base_cost base;
  curve25519_edwards_validate_point_cost := curve25519_edwards_validate_point_cost base;
  curve25519_edwards_add_cost := curve25519_edwards_add_cost base;
  curve25519_edwards_subtract_cost := curve25519_edwards_subtract_cost base;
  curve25519_edwards_multiply_cost := curve25519_edwards_multiply_cost base;
  curve25519_edwards_msm_base_cost := curve25519_edwards_msm_base_cost base;
  curve25519_edwards_msm_incremental_cost := curve25519_edwards_msm_incremental_cost base;
  curve25519_ristretto_validate_point_cost := curve25519_ristretto_validate_point_cost base;
  curve25519_ristretto_add_cost := curve25519_ristretto_add_cost base;
  curve25519_ristretto_subtract_cost := curve25519_ristretto_subtract_cost base;
  curve25519_ristretto_multiply_cost := curve25519_ristretto_multiply_cost base;
  curve25519_ristretto_msm_base_cost := curve25519_ristretto_msm_base_cost base;
  curve25519_ristretto_msm_incremental_cost := curve25519_ristretto_msm_incremental_cost base;
  heap_size := heap;
  heap_cost := heap_cost base;
  mem_op_base_cost := mem_op_base_cost base;
  alt_bn128_g1_addition_cost := alt_bn128_g1_addition_cost base;
  alt_bn128_g2_addition_cost := alt_bn128_g2_addition_cost base;
  alt_bn128_g1_multiplication_cost := alt_bn128_g1_multiplication_cost base;
  alt_bn128_g2_multiplication_cost := alt_bn128_g2_multiplication_cost base;
  alt_bn128_pairing_one_pair_cost_first := alt_bn128_pairing_one_pair_cost_first base;
  alt_bn128_pairing_one_pair_cost_other := alt_bn128_pairing_one_pair_cost_other base;
  poseidon_cost_coefficient_a := poseidon_cost_coefficient_a base;
  poseidon_cost_coefficient_c := poseidon_cost_coefficient_c base;
  get_remaining_compute_units_cost := get_remaining_compute_units_cost base;
  alt_bn128_g1_compress := alt_bn128_g1_compress base;
  alt_bn128_g1_decompress := alt_bn128_g1_decompress base;
  alt_bn128_g2_compress := alt_bn128_g2_compress base;
  alt_bn128_g2_decompress := alt_bn128_g2_decompress base;
  bls12_381_g1_add_cost := bls12_381_g1_add_cost base;
  bls12_381_g2_add_cost := bls12_381_g2_add_cost base;
  bls12_381_g1_subtract_cost := bls12_381_g1_subtract_cost base;
  bls12_381_g2_subtract_cost := bls12_381_g2_subtract_cost base;
  bls12_381_g1_multiply_cost := bls12_381_g1_multiply_cost base;
  bls12_381_g2_multiply_cost := bls12_381_g2_multiply_cost base;
  bls12_381_g1_decompress_cost := bls12_381_g1_decompress_cost base;
  bls12_381_g2_decompress_cost := bls12_381_g2_decompress_cost base;
  bls12_381_g1_validate_cost := bls12_381_g1_validate_cost base;
  bls12_381_g2_validate_cost := bls12_381_g2_validate_cost base;
  bls12_381_one_pair_cost := bls12_381_one_pair_cost base;
  bls12_381_additional_pair_cost := bls12_381_additional_pair_cost base |}.

(** The fields in wire order. *)
Definition wire_fields (b : ComputeBudget) : list N :=
  [compute_unit_limit b;
   log_64_units b;
   create_program_address_units b;
   invoke_units b;
   max_instruction_stack_depth b;
   max_instruction_trace_length b;
   sha256_base_cost b;
   sha256_byte_cost b;
   sha256_max_slices b;
   max_call_depth b;
   stack_frame_size b;
   log_pubkey_units b;
   cpi_bytes_per_unit b;
   sysvar_base_cost b;
   secp256k1_recover_cost b;
   syscall_base_cost b;
   curve25519_edwards_validate_point_cost b;
   curve25519_edwards_add_cost b;
   curve25519_edwards_subtract_cost b;
   curve25519_edwards_multiply_cost b;
   curve25519_edwards_msm_base_cost b;
   curve25519_edwards_msm_incremental_cost b;
   curve25519_ristretto_validate_point_cost b;
   curve25519_ristretto_add_cost b;
   curve25519_ristretto_subtract_cost b;
   curve25519_ristretto_multiply_cost b;
   curve25519_ristretto_msm_base_cost b;
   curve25519_ristretto_msm_incremental_cost b;
   heap_size b;
   heap_cost b;
   mem_op_base_cost b;
   alt_bn128_g1_addition_cost b;
   alt_bn128_g2_addition_cost b;
   alt_bn128_g1_multiplication_cost b;
   alt_bn128_g2_multiplication_cost b;
   alt_bn128_pairing_one_pair_cost_first b;
   alt_bn128_pairing_one_pair_cost_other b;
   poseidon_cost_coefficient_a b;
   poseidon_cost_coefficient_c b;
   get_remaining_compute_units_cost b;
   alt_bn128_g1_compress b;
   alt_bn128_g1_decompress b;
   alt_bn128_g2_compress b;
   alt_bn128_g2_decompress b;
   bls12_381_g1_add_cost b;
   bls12_381_g2_add_cost b;
   bls12_381_g1_subtract_cost b;
   bls12_381_g2_subtract_cost b;
   bls12_381_g1_multiply_cost b;
   bls12_381_g2_multiply_cost b;
   bls12_381_g1_decompress_cost b;
   bls12_381_g2_decompress_cost b;
   bls12_381_g1_validate_cost b;
   bls12_381_g2_validate_cost b;
   bls12_381_one_pair_cost b;
   bls12_381_additional_pair_cost b].

Definition wire_fields_v1 (b : ComputeBudgetV1) : list N :=
  [v1_compute_unit_limit b;
   v1_log_64_units b;
   v1_create_program_address_units b;
   v1_invoke_units b;
   v1_max_instruction_stack_depth b;
   v1_max_instruction_trace_length b;
   v1_sha256_base_cost b;
   v1_sha256_byte_cost b;
   v1_sha256_max_slices b;
   v1_max_call_depth b;
   v1_stack_frame_size b;
   v1_log_pubkey_units b;
   v1_cpi_bytes_per_unit b;
   v1_sysvar_base_cost b;
   v1_secp256k1_recover_cost b;
   v1_syscall_base_cost b;
   v1_curve25519_edwards_validate_point_cost b;
   v1_curve25519_edwards_add_cost b;
   v1_curve25519_edwards_subtract_cost b;
   v1_curve25519_edwards_multiply_cost b;
   v1_curve25519_edwards_msm_base_cost b;
   v1_curve25519_edwards_msm_incremental_cost b;
   v1_curve25519_ristretto_validate_point_cost b;
   v1_curve25519_ristretto_add_cost b;
   v1_curve25519_ristretto_subtract_cost b;
   v1_curve25519_ristretto_multiply_cost b;
   v1_curve25519_ristretto_msm_base_cost b;
   v1_curve25519_ristretto_msm_incremental_cost b;
   v1_heap_size b;
   v1_heap_cost b;
   v1_mem_op_base_cost b;
   v1_alt_bn128_g1_addition_cost b;
   v1_alt_bn128_g2_addition_cost b;
   v1_alt_bn128_g1_multiplication_cost b;
   v1_alt_bn128_g2_multiplication_cost b;
   v1_alt_bn128_pairing_one_pair_cost_first b;
   v1_alt_bn128_pairing_one_pair_cost_other b;
   v1_big_modular_exponentiation_base_cost b;
   v1_big_modular_exponentiation_cost_divisor b;
   v1_poseidon_cost_coefficient_a b;
   v1_poseidon_cost_coefficient_c b;
   v1_get_remaining_compute_units_cost b;
   v1_alt_bn128_g1_compress b;
   v1_alt_bn128_g1_decompress b;
   v1_alt_bn128_g2_compress b;
   v1_alt_bn128_g2_decompress b;
   v1_bls12_381_g1_add_cost b;
   v1_bls12_381_g2_add_cost b;
   v1_bls12_381_g1_subtract_cost b;
   v1_bls12_381_g2_subtract_cost b;
   v1_bls12_381_g1_multiply_cost b;
   v1_bls12_381_g2_multiply_cost b;
   v1_bls12_381_g1_decompress_cost b;
   v1_bls12_381_g2_decompress_cost b;
   v1_bls12_381_g1_validate_cost b;
   v1_bls12_381_g2_validate_cost b;
   v1_bls12_381_one_pair_cost b;
   v1_bls12_381_additional_pair_cost b].

(** ** Properties *)

(** Migrating a version 1 compute budget keeps every field in its place: the
    current layout is the old one without the two modular-exponentiation entries
    (positions 37 and 38), which are the only values dropped. *)
Theorem compute_budget_migration (value : ComputeBudgetV1) :
  wire_fields (compute_budget_from_v1 value)
  = take 37 (wire_fields_v1 value) ++ drop 39 (wire_fields_v1 value) ∧
  length (wire_fields_v1 value) = length (wire_fields (compute_budget_from_v1 value)) + 2.
Proof. by destruct value. Qed.
