(* ===== verification/Runtime.v ===== *)
(** * Data and interfaces of the Solana crates

    LiteSVM drives the Solana runtime crates, which are not part of the
    repository.  This file declares the plain data structures they exchange with
    it (accounts, sysvars, messages, configurations) as records, and the
    behaviour LiteSVM calls as type classes: one class of operations per group of
    crates, and for each a class of laws with the documented behaviour that
    LiteSVM relies on.  Every definition of the development that calls the
    runtime takes the operations as class arguments. *)

From S2P Require Import Prelude Errors ComputeBudget.

(** ** Accounts *)

Record account : Type := Account {
  lamports : N;
  data : bytes;
  owner : address;
  executable : bool;
  rent_epoch : N }.

#[export] Instance account_eq_dec : EqDecision account.
Proof. solve_decision. Defined.

(** [AccountSharedData::default()]. *)
Definition default_account : account := Account 0 [] default_address false 0.

(** [AccountSharedData::new(lamports, space, owner)]. *)
Definition new_account (lamports : N) (space : nat) (owner : address) : account :=
  Account lamports (zeros space) owner false 0.

Definition set_lamports (a : account) (l : N) : account :=
  Account l (data a) (owner a) (executable a) (rent_epoch a).
Definition set_data (a : account) (d : bytes) : account :=
  Account (lamports a) d (owner a) (executable a) (rent_epoch a).
Definition set_owner (a : account) (o : address) : account :=
  Account (lamports a) (data a) o (executable a) (rent_epoch a).
Definition set_executable (a : account) (b : bool) : account :=
  Account (lamports a) (data a) (owner a) b (rent_epoch a).
Definition set_rent_epoch (a : account) (e : N) : account :=
  Account (lamports a) (data a) (owner a) (executable a) e.

(** [WritableAccount::checked_sub_lamports]. *)
Definition checked_sub_lamports (a : account) (l : N) : option account :=
  set_lamports a <$> checked_sub (lamports a) l.

(** ** Sysvars with fields the program reads or writes *)

Record Clock : Type := {
  slot : N;
  epoch_start_timestamp : Z;
  epoch : N;
  leader_schedule_epoch : N;
  unix_timestamp : Z }.

Definition default_clock : Clock :=
  {| slot := 0; epoch_start_timestamp := 0; epoch := 0;
     leader_schedule_epoch := 0; unix_timestamp := 0 |}.

Definition set_slot (c : Clock) (s : N) : Clock :=
  {| slot := s; epoch_start_timestamp := epoch_start_timestamp c; epoch := epoch c;
     leader_schedule_epoch := leader_schedule_epoch c;
     unix_timestamp := unix_timestamp c |}.

(** The threshold is the byte array of a 64-bit float. *)
Record Rent : Type := {
  lamports_per_byte : N;
  exemption_threshold : bytes;
  burn_percent : N }.

(** ** Fees and configuration *)

Record FeeBin : Type := { limit : N; fee_of_bin : N }.

Record FeeStructure : Type := {
  lamports_per_signature : N;
  lamports_per_write_lock : N;
  compute_fee_bins : list FeeBin }.

Record TransactionConfiguration : Type := {
  tc_compute_unit_limit : N;
  tc_updated_heap_bytes : N;
  tc_priority_fee_lamports : N;
  tc_loaded_accounts_data_size_limit : N }.

(** ** Messages and transactions

    A sanitized message is known through the methods the program calls on it. *)

Record CompiledInstruction : Type := {
  program_id_index : N;
  ix_accounts : list N;
  ix_data : bytes }.

Record SanitizedMessage : Type := {
  account_keys : list address;
  instructions : list CompiledInstruction;
  program_instructions_iter : list (address * CompiledInstruction);
  recent_blockhash : hash;
  is_writable : nat → bool;
  is_instruction_account : nat → bool;
  is_invoked : nat → bool;
  num_lookup_tables : N;
  get_durable_nonce : option address;
  get_ix_signers : nat → list address }.

Record SanitizedTransaction : Type := {
  message : SanitizedMessage;
  tx_signature : signature }.

Record MessageAddressTableLookup : Type := {
  account_key : address;
  writable_indexes : list N;
  readonly_indexes : list N }.

Record LoadedAddresses : Type := {
  la_writable : list address;
  la_readonly : list address }.

Record TransactionReturnData : Type := {
  rd_program_id : address;
  rd_data : bytes }.

Definition default_return_data : TransactionReturnData :=
  {| rd_program_id := default_address; rd_data := [] |}.

Record InnerInstruction : Type := {
  ii_instruction : CompiledInstruction;
  ii_stack_height : N }.

(** An entry of the instruction trace, through the getters the program calls;
    a getter that returns a [Result] is an [option] here. *)
Record InstructionContext : Type := {
  get_stack_height : N;
  get_index_of_caller : N;
  get_index_of_program_account : option N;
  get_instruction_data : bytes;
  get_instruction_accounts : list (option N) }.

Inductive SystemAccountKind : Type := System | Nonce.

(** ** Well-known addresses (the sdk-ids and feature-set crates) *)

Class SdkIds : Type := {
  native_loader_id : address;
  bpf_loader_id : address;
  bpf_loader_deprecated_id : address;
  bpf_loader_upgradeable_id : address;
  loader_v4_id : address;
  system_program_id : address;
  config_program_id : address;
  stake_config_id : address;
  stake_program_id : address;
  address_lookup_table_id : address;
  incinerator_id : address;
  sysvar_owner_id : address;
  instructions_id : address;
  clock_id : address;
  epoch_rewards_id : address;
  epoch_schedule_id : address;
  fees_id : address;
  last_restart_slot_id : address;
  recent_blockhashes_id : address;
  rent_id : address;
  slot_hashes_id : address;
  slot_history_id : address;
  stake_history_id : address;
  (** [agave_feature_set::<name>::ID] *)
  feature_id : string → address }.

Definition raise_cpi_nesting_limit_to_8 `{SdkIds} : address :=
  feature_id "raise_cpi_nesting_limit_to_8".
Definition deprecate_rent_exemption_threshold `{SdkIds} : address :=
  feature_id "deprecate_rent_exemption_threshold".
Definition increase_tx_account_lock_limit `{SdkIds} : address :=
  feature_id "increase_tx_account_lock_limit".
Definition replace_spl_token_with_p_token `{SdkIds} : address :=
  feature_id "replace_spl_token_with_p_token".

(** The sysvar addresses that the accounts database dispatches on. *)
Definition handled_sysvars `{SdkIds} : list address :=
  [clock_id; epoch_rewards_id; epoch_schedule_id; fees_id; last_restart_slot_id;
   recent_blockhashes_id; rent_id; slot_hashes_id; stake_history_id].

Definition loader_ids `{SdkIds} : list address :=
  [native_loader_id; bpf_loader_id; bpf_loader_deprecated_id;
   bpf_loader_upgradeable_id; loader_v4_id].

Class SdkIdsLaws `{SdkIds} : Prop := {
  sysvar_ids_distinct : NoDup (instructions_id :: slot_history_id :: handled_sysvars);
  loader_ids_distinct : NoDup loader_ids }.

(** ** Feature sets and reserved keys *)

Class FeatureApi : Type := {
  FeatureSet : Type;
  fs_default : FeatureSet;
  fs_new : list (address * N) → list address → FeatureSet;
  fs_is_active : FeatureSet → address → bool;
  fs_activate : FeatureSet → address → N → FeatureSet;
  fs_active : FeatureSet → list (address * N);
  fs_inactive : FeatureSet → list address;
  ReservedAccountKeys : Type;
  rk_default : ReservedAccountKeys;
  rk_update_active_set : ReservedAccountKeys → FeatureSet → ReservedAccountKeys;
  rk_active : ReservedAccountKeys → list address }.

Class FeatureLaws `{FeatureApi} : Prop := {
  fs_new_collections fs : fs_new (fs_active fs) (fs_inactive fs) = fs }.

(** ** Rent arithmetic *)

Class RentApi : Type := {
  default_rent : Rent;
  default_lamports_per_byte : N;
  rent_is_exempt : Rent → N → N → bool;
  rent_minimum_balance : Rent → N → N;
  rent_try_minimum_balance : Rent → N → option N }.

(** A balance is rent exempt exactly when it reaches the minimum. *)
Class RentLaws `{RentApi} : Prop := {
  rent_is_exempt_spec r l n : rent_is_exempt r l n = (rent_minimum_balance r n <=? l)%N }.

(** ** Sysvar encodings and the sysvar cache *)

Class Codec (T : Type) : Type := {
  serialize : T → bytes;
  deserialize_from : bytes → option T }.

(** Reading back what was written, whatever zero padding follows it. *)
Class CodecLaws (T : Type) `{Codec T} : Prop := {
  deserialize_serialize x n : deserialize_from (serialize x ++ zeros n) = Some x }.

Class SysvarApi : Type := {
  EpochRewards : Type; EpochSchedule : Type; Fees : Type; LastRestartSlot : Type;
  RecentBlockhashes : Type; SlotHashes : Type; SlotHistory : Type; StakeHistory : Type;
  clock_codec :: Codec Clock;
  rent_codec :: Codec Rent;
  epoch_rewards_codec :: Codec EpochRewards;
  epoch_schedule_codec :: Codec EpochSchedule;
  fees_codec :: Codec Fees;
  last_restart_slot_codec :: Codec LastRestartSlot;
  recent_blockhashes_codec :: Codec RecentBlockhashes;
  slot_hashes_codec :: Codec SlotHashes;
  slot_history_codec :: Codec SlotHistory;
  stake_history_codec :: Codec StakeHistory;
  default_epoch_rewards : EpochRewards;
  default_epoch_schedule : EpochSchedule;
  default_fees : Fees;
  fees_lamports_per_signature : Fees → N;
  default_last_restart_slot : LastRestartSlot;
  recent_blockhashes_from_iter : list (N * hash * N) → RecentBlockhashes;
  slot_hashes_new : list (N * hash) → SlotHashes;
  default_slot_history : SlotHistory;
  default_stake_history : StakeHistory;
  (** [solana_slot_hashes::SIZE] *)
  slot_hashes_size : nat;
  SysvarCache : Type;
  cache_default : SysvarCache;
  cache_reset : SysvarCache → SysvarCache;
  (** [fill_missing_entries]; the closure gives the data of a sysvar account. *)
  cache_fill : SysvarCache → (address → option bytes) → SysvarCache;
  cache_get_clock : SysvarCache → option Clock;
  cache_get_rent : SysvarCache → option Rent;
  cache_get_slot_hashes : SysvarCache → option SlotHashes;
  cache_get_epoch_schedule : SysvarCache → option EpochSchedule;
  cache_get_epoch_rewards : SysvarCache → option EpochRewards;
  cache_get_last_restart_slot : SysvarCache → option LastRestartSlot;
  cache_get_stake_history : SysvarCache → option StakeHistory }.

(** After a reset, filling reads every entry from the closure; an entry whose
    data is absent or does not deserialize stays missing. *)
Class SysvarLaws `{SdkIds} `{SysvarApi} : Prop := {
  clock_codec_laws :: CodecLaws Clock;
  rent_codec_laws :: CodecLaws Rent;
  recent_blockhashes_codec_laws :: CodecLaws RecentBlockhashes;
  cache_fill_ext c f g : (∀ a, f a = g a) → cache_fill c f = cache_fill c g;
  cache_get_clock_fill c f :
    cache_get_clock (cache_fill (cache_reset c) f) = f clock_id ≫= deserialize_from;
  cache_get_rent_fill c f :
    cache_get_rent (cache_fill (cache_reset c) f) = f rent_id ≫= deserialize_from;
  cache_get_slot_hashes_fill c f :
    cache_get_slot_hashes (cache_fill (cache_reset c) f)
    = f slot_hashes_id ≫= deserialize_from;
  cache_get_epoch_schedule_fill c f :
    cache_get_epoch_schedule (cache_fill (cache_reset c) f)
    = f epoch_schedule_id ≫= deserialize_from;
  cache_get_epoch_rewards_fill c f :
    cache_get_epoch_rewards (cache_fill (cache_reset c) f)
    = f epoch_rewards_id ≫= deserialize_from;
  cache_get_last_restart_slot_fill c f :
    cache_get_last_restart_slot (cache_fill (cache_reset c) f)
    = f last_restart_slot_id ≫= deserialize_from;
  cache_get_stake_history_fill c f :
    cache_get_stake_history (cache_fill (cache_reset c) f)
    = f stake_history_id ≫= deserialize_from }.

(** ** Programs: loader states, cache entries, runtime environments *)

Class ProgramApi : Type := {
  RuntimeEnvironment : Type;
  mock_environment : RuntimeEnvironment;
  ProgramCacheEntry : Type;
  ProgramCache : Type;
  Registerer : Type;
  (** [ProgramCacheEntry::new] and [::reload]: loader, environment, deployment
      slot, effective slot, ELF bytes, account size. *)
  entry_new : address → RuntimeEnvironment → N → N → bytes → N → option ProgramCacheEntry;
  entry_reload : address → RuntimeEnvironment → N → N → bytes → N → option ProgramCacheEntry;
  entry_new_builtin : N → N → Registerer → ProgramCacheEntry;
  (** [new_tombstone(slot, LoaderV3, Closed)] *)
  entry_closed_tombstone : N → ProgramCacheEntry;
  entry_set_effective_slot : ProgramCacheEntry → N → ProgramCacheEntry;
  cache_new : N → ProgramCache;
  cache_replenish : ProgramCache → address → ProgramCacheEntry → ProgramCache;
  cache_find : ProgramCache → address → option ProgramCacheEntry;
  cache_set_slot : ProgramCache → N → ProgramCache;
  (** [UpgradeableLoaderState]: the address in a [Program] state, if it is one. *)
  deserialize_program_state : bytes → option address;
  serialize_program_state : address → bytes;
  (** [ProgramData { slot, upgrade_authority_address: None }] *)
  serialize_programdata_state : N → bytes;
  size_of_programdata_metadata : nat;
  loader_v4_program_data_offset : nat;
  find_program_address : address → address → address;
  delay_visibility_slot_offset : N }.

Class ProgramLaws `{ProgramApi} : Prop := {
  program_state_roundtrip a : deserialize_program_state (serialize_program_state a) = Some a;
  programdata_state_fits s :
    (length (serialize_programdata_state s) ≤ size_of_programdata_metadata)%nat;
  cache_find_replenish_eq c k e : is_Some (cache_find (cache_replenish c k e) k);
  cache_find_replenish_ne c k k' e :
    k ≠ k' → cache_find (cache_replenish c k e) k' = cache_find c k';
  (** Moving the slot may delay the visibility of an entry but drops none. *)
  cache_find_set_slot c n k :
    is_Some (cache_find (cache_set_slot c n) k) ↔ is_Some (cache_find c k) }.

(** ** System accounts and nonces *)

Class SystemApi : Type := {
  get_system_account_kind : account → option SystemAccountKind;
  (** [solana_nonce::state::State::size()] *)
  nonce_state_size : N;
  (** [verify_nonce_account], through the authority of the nonce data. *)
  verify_nonce_account : account → hash → option address;
  (** [DurableNonce::from_blockhash(h).as_hash()] *)
  durable_nonce_from_blockhash : hash → hash }.

(** The kind of a system account is read off its owner and its data. *)
Class SystemLaws `{SystemApi} : Prop := {
  system_kind_rent_epoch a e :
    get_system_account_kind (set_rent_epoch a e) = get_system_account_kind a }.

(** ** Address lookup tables *)

Class LookupApi `{SysvarApi} : Type := {
  LookupTable : Type;
  lookup_table_deserialize : bytes → option LookupTable;
  lookup_table_lookup :
    LookupTable → N → list N → SlotHashes → result AddressLookupError (list address);
  (** Collecting an iterator of [LoadedAddresses] into one. *)
  loaded_addresses_collect : list LoadedAddresses → LoadedAddresses }.

(** ** [itertools::partition]

    Reorders a slice in place so that the elements satisfying the predicate come
    first; the order within each part is not specified. *)

Class PartitionApi : Type := {
  partition : ∀ {A : Type}, (A → bool) → list A → list A }.

Class PartitionLaws `{PartitionApi} : Prop := {
  partition_permutation {A} (p : A → bool) l : partition p l ≡ₚ l;
  partition_split {A} (p : A → bool) l :
    ∃ l1 l2, partition p l = l1 ++ l2 ∧ Forall (λ x, p x = true) l1
             ∧ Forall (λ x, p x = false) l2 }.
