(* ===== verification/RentState.v ===== *)
(** * Rent states (crates/litesvm/src/utils/rent.rs)

    The rent state of an account, the transitions a transaction may make between
    two of them, and the check applied to each writable account. *)

From S2P Require Import Prelude Errors ComputeBudget Runtime.

Inductive RentState : Type :=
| Uninitialized
| RentPaying (rs_lamports data_size : N)
| RentExempt.

#[export] Instance RentState_eq_dec : EqDecision RentState.
Proof. solve_decision. Defined.

Definition transition_allowed (pre_rent_state post_rent_state : RentState) : bool :=
  match post_rent_state with
  | Uninitialized | RentExempt => true
  | RentPaying post_lamports post_data_size =>
      match pre_rent_state with
      | Uninitialized | RentExempt => false
      | RentPaying pre_lamports pre_data_size =>
          (post_data_size =? pre_data_size)%N && (post_lamports <=? pre_lamports)%N
      end
  end.

Definition get_account_rent_state `{RentApi} (rent : Rent)
    (account_lamports account_size : N) : RentState :=
  if (account_lamports =? 0)%N then Uninitialized
  else if rent_is_exempt rent account_lamports account_size then RentExempt
  else RentPaying account_lamports account_size.

Definition check_rent_state_with_account `{SdkIds}
    (pre_rent_state post_rent_state : RentState) (addr : address) (account_index : N)
    : result TransactionError () :=
  if negb (addr =? incinerator_id)%N
     && negb (transition_allowed pre_rent_state post_rent_state)
  then Err (TE_InsufficientFundsForRent (as_u8 account_index))
  else Ok ().

(** ** Lemmas *)

(** A relational reading of the transition function: what an allowed transition
    may be. *)
Inductive rent_step : RentState → RentState → Prop :=
| step_close pre : rent_step pre Uninitialized
| step_exempt pre : rent_step pre RentExempt
| step_paying l l' n : (l' ≤ l)%N → rent_step (RentPaying l n) (RentPaying l' n).

#[export] Hint Constructors rent_step : svm.

Lemma transition_allowed_spec pre post :
  transition_allowed pre post = true ↔ rent_step pre post.
Proof.
  split.
  - destruct post as [|l' n'|]; simpl; eauto with svm.
    destruct pre as [|l n|]; try done.
    intros [->%N.eqb_eq ?%N.leb_le]%andb_prop. eauto with svm.
  - intros [|?|l l' n Hl]; simpl; [by destruct pre..|].
    rewrite N.eqb_refl. by apply N.leb_le.
Qed.

#[export] Instance rent_step_preorder : PreOrder rent_step.
Proof.
  split.
  - intros [|l n|]; eauto with svm.
  - intros x y z Hxy Hyz.
    destruct Hyz as [| |l l' n Hl]; eauto with svm.
    inversion Hxy; subst. constructor. lia.
Qed.

Lemma check_rent_state_Ok `{SdkIds} pre post addr i :
  check_rent_state_with_account pre post addr i = Ok ()
  ↔ addr = incinerator_id ∨ rent_step pre post.
Proof.
  unfold check_rent_state_with_account. rewrite <-transition_allowed_spec.
  destruct (N.eqb_spec addr incinerator_id), (transition_allowed pre post);
    simpl; naive_solver.
Qed.

Lemma check_rent_state_Err `{SdkIds} pre post addr i e :
  check_rent_state_with_account pre post addr i = Err e →
  e = TE_InsufficientFundsForRent (as_u8 i) ∧ addr ≠ incinerator_id ∧ ¬ rent_step pre post.
Proof.
  unfold check_rent_state_with_account. rewrite <-transition_allowed_spec.
  destruct (N.eqb_spec addr incinerator_id), (transition_allowed pre post);
    simpl; naive_solver.
Qed.

Section states.
Context `{RentApi}.

Context `{!RentLaws}.

(** Debiting an account without resizing it is allowed unless it moves an exempt
    account into the paying range. *)
Lemma debit_rent_step rent l l' n :
  (l' ≤ l)%N →
  rent_step (get_account_rent_state rent l n) (get_account_rent_state rent l' n)
  ↔ l' = 0%N ∨ (rent_minimum_balance rent n ≤ l')%N ∨ (l < rent_minimum_balance rent n)%N.
Proof.
  intros Hle. unfold get_account_rent_state. rewrite !rent_is_exempt_spec.
  destruct (N.eqb_spec l' 0), (N.leb_spec (rent_minimum_balance rent n) l');
    destruct (N.eqb_spec l 0), (N.leb_spec (rent_minimum_balance rent n) l);
    split; intros Hs; try (by eauto with svm); try lia; try (inversion Hs; lia).
  all: constructor; lia.
Qed.
End states.

(** ** Properties *)

(** [transition_allowed] decides a preorder that contains exactly the
    moves to [Uninitialized] or [RentExempt] and the uncredited, unresized
    [RentPaying] ones: a check made per transaction composes over a sequence of
    them. *)
Theorem transition_allowed_preorder :
  (∀ s, transition_allowed s s = true) ∧
  (∀ s1 s2 s3, transition_allowed s1 s2 = true → transition_allowed s2 s3 = true →
     transition_allowed s1 s3 = true) ∧
  (∀ pre post, transition_allowed pre post = true ↔ rent_step pre post).
Proof.
  split; [|split]; intros; rewrite ?transition_allowed_spec in *.
  - reflexivity.
  - etransitivity; eauto.
  - reflexivity.
Qed.

(** With the documented meaning of rent exemption, paying a fee out of an
    account of unchanged size passes the rent check exactly when the account is
    the incinerator, is emptied, stays exempt, or was already below the
    minimum. *)
Theorem fee_debit_rent_check `{SdkIds} `{RentApi} `{!RentLaws} rent l fee n addr i
  (Hfee : (fee ≤ l)%N) :
  check_rent_state_with_account (get_account_rent_state rent l n)
    (get_account_rent_state rent (l - fee) n) addr i = Ok ()
  ↔ addr = incinerator_id ∨ (l - fee = 0)%N ∨ (rent_minimum_balance rent n ≤ l - fee)%N
    ∨ (l < rent_minimum_balance rent n)%N.
Proof. rewrite check_rent_state_Ok, debit_rent_step by lia. tauto. Qed.
