(* ===== verification/Utils.v ===== *)
(** * Shared helpers (crates/litesvm/src/utils/mod.rs)

    The loaded-accounts size counter and the accounts LiteSVM fabricates. *)

From S2P Require Import Prelude Errors ComputeBudget Runtime.

Definition TRANSACTION_ACCOUNT_BASE_SIZE : N := 64.
Definition ADDRESS_LOOKUP_TABLE_BASE_SIZE : N := 8248.

(** The hasher of the sha256 crate. *)
Class HashApi : Type := {
  sha256 : bytes → hash;
  hash_to_bytes : hash → bytes }.

Definition create_blockhash `{HashApi} (b : bytes) : hash := sha256 b.

(** Serializing the decompiled instructions fails above 64 KiB of offsets. *)
Definition construct_instructions_account `{SdkIds}
    (construct_instructions_data : SanitizedMessage → option bytes)
    (msg : SanitizedMessage) : result TransactionError account :=
  match construct_instructions_data msg with
  | None => Err TE_SanitizeFailure
  | Some d =>
      Ok (Account (lamports default_account) d sysvar_owner_id
            (executable default_account) (rent_epoch default_account))
  end.

Definition create_loadable_account_with_fields `{SdkIds} (name : bytes)
    (fields : N * N) : account :=
  Account fields.1 name native_loader_id true fields.2.

Definition create_loadable_account_for_test `{SdkIds}
    (dummy_inheritable_account_fields : N * N) (name : bytes) : account :=
  create_loadable_account_with_fields name dummy_inheritable_account_fields.

Record LoadedTransactionDataSize : Type := {
  loaded_accounts_data_size : N;
  requested_loaded_accounts_data_size_limit : N }.

Definition with_max_size (requested : N) : LoadedTransactionDataSize :=
  {| loaded_accounts_data_size := 0;
     requested_loaded_accounts_data_size_limit := requested |}.

Definition increase_calculated_data_size (self : LoadedTransactionDataSize)
    (data_size_delta : N) : LoadedTransactionDataSize * result TransactionError () :=
  match try_into_u32 data_size_delta with
  | None =>
      ({| loaded_accounts_data_size := u32_max;
          requested_loaded_accounts_data_size_limit :=
            requested_loaded_accounts_data_size_limit self |},
       Err TE_MaxLoadedAccountsDataSizeExceeded)
  | Some data_size_delta =>
      let self := {|
        loaded_accounts_data_size :=
          saturating_add u32_max (loaded_accounts_data_size self) data_size_delta;
        requested_loaded_accounts_data_size_limit :=
          requested_loaded_accounts_data_size_limit self |} in
      if (requested_loaded_accounts_data_size_limit self <? loaded_accounts_data_size self)%N
      then (self, Err TE_MaxLoadedAccountsDataSizeExceeded)
      else (self, Ok ())
  end.

(** Increases in sequence, stopping at the first error. *)
Fixpoint increase_all (self : LoadedTransactionDataSize) (deltas : list N)
    : LoadedTransactionDataSize * result TransactionError () :=
  match deltas with
  | [] => (self, Ok ())
  | d :: ds =>
      match increase_calculated_data_size self d with
      | (self, Ok _) => increase_all self ds
      | (self, Err e) => (self, Err e)
      end
  end.

(** ** Lemmas *)

(** The counter is a [u32] value and its limit lies below [u32::MAX] (at that very
    limit the saturated counter is no longer in excess). *)
Definition size_wf (s : LoadedTransactionDataSize) : Prop :=
  (loaded_accounts_data_size s ≤ u32_max)%N ∧
  (requested_loaded_accounts_data_size_limit s < u32_max)%N.

Lemma increase_wf s d : size_wf s → size_wf (increase_calculated_data_size s d).1.
Proof.
  unfold size_wf, increase_calculated_data_size, try_into_u32, saturating_add.
  intros [? ?]. repeat case_match; simpl; lia.
Qed.

Lemma increase_limit s d :
  requested_loaded_accounts_data_size_limit (increase_calculated_data_size s d).1
  = requested_loaded_accounts_data_size_limit s.
Proof.
  unfold increase_calculated_data_size. by repeat case_match; simplify_eq/=.
Qed.

(** Below the limit the counter is exact; at the first excess it stops. *)
Lemma increase_spec s d :
  size_wf s →
  match increase_calculated_data_size s d with
  | (s', Ok _) =>
      loaded_accounts_data_size s' = (loaded_accounts_data_size s + d)%N ∧
      (loaded_accounts_data_size s + d ≤ requested_loaded_accounts_data_size_limit s)%N
  | (_, Err e) =>
      e = TE_MaxLoadedAccountsDataSizeExceeded ∧
      (requested_loaded_accounts_data_size_limit s < loaded_accounts_data_size s + d)%N
  end.
Proof.
  unfold size_wf, increase_calculated_data_size, try_into_u32, saturating_add.
  intros [Hs Hl].
  destruct (N.leb_spec d u32_max); simpl; [|split; [done|lia]].
  destruct (N.ltb_spec (requested_loaded_accounts_data_size_limit s)
    (N.min u32_max (loaded_accounts_data_size s + d))); simpl; split; auto; lia.
Qed.

Lemma increase_all_spec ds : ∀ s,
  size_wf s →
  (loaded_accounts_data_size s ≤ requested_loaded_accounts_data_size_limit s)%N →
  match increase_all s ds with
  | (s', Ok _) =>
      loaded_accounts_data_size s' = (loaded_accounts_data_size s + list_sum id ds)%N ∧
      (loaded_accounts_data_size s + list_sum id ds
       ≤ requested_loaded_accounts_data_size_limit s)%N
  | (_, Err e) =>
      e = TE_MaxLoadedAccountsDataSizeExceeded ∧
      (requested_loaded_accounts_data_size_limit s
       < loaded_accounts_data_size s + list_sum id ds)%N
  end.
Proof.
  induction ds as [|d ds IH]; intros s Hwf Hle; simpl; [split; lia|].
  pose proof (increase_spec s d Hwf) as Hi. pose proof (increase_wf s d Hwf) as Hw.
  pose proof (increase_limit s d) as Hlim.
  destruct (increase_calculated_data_size s d) as [s' [[]|e]]; simpl in *.
  - destruct Hi as [Hs' ?]. specialize (IH s' Hw ltac:(lia)).
    destruct (increase_all s' ds) as [s'' [[]|e]];
      rewrite Hs', ?Hlim in IH; unfold id in *; destruct IH; split; auto; lia.
  - destruct Hi. unfold id. split; [done|lia].
Qed.

(** ** Properties *)

(** Loading a sequence of sizes under a limit below [u32::MAX] is accepted exactly
    when their true sum is within the limit; the counter is then that sum, so
    the saturating addition never hides an excess, and the only error is
    [MaxLoadedAccountsDataSizeExceeded]. *)
Theorem loaded_size_exact (limit : N) (ds : list N) (Hlimit : (limit < u32_max)%N) :
  match increase_all (with_max_size limit) ds with
  | (s, Ok _) => loaded_accounts_data_size s = list_sum id ds ∧ (list_sum id ds ≤ limit)%N
  | (_, Err e) => e = TE_MaxLoadedAccountsDataSizeExceeded ∧ (limit < list_sum id ds)%N
  end.
Proof.
  apply (increase_all_spec ds (with_max_size limit)); [split|]; simpl; lia.
Qed.

Lemma loaded_size_exact_witness :
  (100 < u32_max)%N ∧ loaded_accounts_data_size (increase_all (with_max_size 100) [64; 36]%N).1 = 100%N.
Proof.
  split; [reflexivity|].
  exact (proj1 (loaded_size_exact 100 [64; 36]%N eq_refl)).
Defined.
