(* ===== verification/Types.v ===== *)
(** * Transaction results (crates/litesvm/src/types.rs)

    What executing a transaction returns to the caller and to the database. *)

From S2P Require Import Prelude Errors ComputeBudget Runtime.

Abbreviation InnerInstructionsList := (list (list InnerInstruction)) (only parsing).

Record TransactionMetadata : Type := {
  meta_signature : signature;
  logs : list str;
  inner_instructions : InnerInstructionsList;
  compute_units_consumed : N;
  return_data : TransactionReturnData;
  meta_fee : N }.

Definition default_metadata : TransactionMetadata :=
  {| meta_signature := default_signature; logs := []; inner_instructions := [];
     compute_units_consumed := 0; return_data := default_return_data; meta_fee := 0 |}.

Record SimulatedTransactionInfo : Type := {
  sim_meta : TransactionMetadata;
  sim_post_accounts : list (address * account) }.

Record FailedTransactionMetadata : Type := {
  failed_err : TransactionError;
  failed_meta : TransactionMetadata }.

Abbreviation TransactionResult :=
  (result FailedTransactionMetadata TransactionMetadata) (only parsing).

(** [impl From<ProgramError>]: the error's [u64] code, truncated to [u32]. *)
Definition failed_from_program_error (code : N) : FailedTransactionMetadata :=
  {| failed_err := TE_InstructionError 0 (IE_Custom (code mod 4294967296));
     failed_meta := default_metadata |}.

Record ExecutionResult : Type := {
  post_accounts : list (address * account);
  tx_result : result TransactionError ();
  er_signature : signature;
  er_compute_units_consumed : N;
  er_inner_instructions : InnerInstructionsList;
  er_return_data : TransactionReturnData;
  included : bool;
  er_fee : N }.

Definition default_execution_result : ExecutionResult :=
  {| post_accounts := []; tx_result := Err TE_UnsupportedVersion;
     er_signature := default_signature; er_compute_units_consumed := 0;
     er_inner_instructions := []; er_return_data := default_return_data;
     included := false; er_fee := 0 |}.

(** [ExecutionResult { tx_result, ..Default::default() }]. *)
Definition execution_result_err (e : TransactionError) : ExecutionResult :=
  {| post_accounts := post_accounts default_execution_result;
     tx_result := Err e;
     er_signature := er_signature default_execution_result;
     er_compute_units_consumed := er_compute_units_consumed default_execution_result;
     er_inner_instructions := er_inner_instructions default_execution_result;
     er_return_data := er_return_data default_execution_result;
     included := included default_execution_result;
     er_fee := er_fee default_execution_result |}.

Definition with_tx_result (r : ExecutionResult) (t : result TransactionError ())
    : ExecutionResult :=
  {| post_accounts := post_accounts r; tx_result := t; er_signature := er_signature r;
     er_compute_units_consumed := er_compute_units_consumed r;
     er_inner_instructions := er_inner_instructions r;
     er_return_data := er_return_data r; included := included r; er_fee := er_fee r |}.
