(* ===== verification/History.v ===== *)
(** * Transaction history (crates/litesvm/src/history.rs)

    A [TransactionHistory] is an [IndexMap] from signatures to results, whose
    allocated capacity doubles as the bound on its length.  [IndexMap] keeps its
    entries in insertion order; how much it allocates is the crate's choice, so the
    allocator is a parameter constrained by the documented guarantees. *)

From S2P Require Import Prelude Errors ComputeBudget Runtime Types.

(** Capacities after [with_capacity], [reserve], [shrink_to_fit] and collecting an
    iterator, from the current capacity and length. *)
Class IndexMapAlloc : Type := {
  alloc_with_capacity : N → N;
  alloc_reserve : N → N → N → N;
  alloc_shrink : N → N → N;
  alloc_collect : N → N }.

Class IndexMapAllocLaws `{IndexMapAlloc} : Prop := {
  alloc_with_capacity_ge n : (n ≤ alloc_with_capacity n)%N;
  alloc_reserve_ge cap l extra : (l + extra ≤ alloc_reserve cap l extra)%N;
  alloc_reserve_mono cap l extra : (cap ≤ alloc_reserve cap l extra)%N;
  alloc_reserve_enough cap l extra : (l + extra ≤ cap → alloc_reserve cap l extra = cap)%N;
  alloc_shrink_ge cap l : (l ≤ cap → l ≤ alloc_shrink cap l)%N;
  alloc_shrink_le cap l : (l ≤ cap → alloc_shrink cap l ≤ cap)%N;
  alloc_shrink_empty cap : alloc_shrink cap 0 = 0%N;
  alloc_collect_ge l : (l ≤ alloc_collect l)%N;
  alloc_collect_empty : alloc_collect 0 = 0%N }.

Record IndexMap (V : Type) : Type := mkIndexMap {
  im_entries : list (signature * V);
  im_capacity : N }.
Arguments mkIndexMap {V} _ _.
Arguments im_entries {V} _.
Arguments im_capacity {V} _.

Section index_map.
Context `{IndexMapAlloc} {V : Type}.
Implicit Types m : IndexMap V.

Fixpoint entries_get (k : signature) (l : list (signature * V)) : option V :=
  match l with
  | [] => None
  | (k', v) :: l => if (k =? k')%N then Some v else entries_get k l
  end.

(** Replaces in place, or appends. *)
Fixpoint entries_insert (k : signature) (v : V) (l : list (signature * V))
    : list (signature * V) :=
  match l with
  | [] => [(k, v)]
  | (k', v') :: l => if (k =? k')%N then (k, v) :: l else (k', v') :: entries_insert k v l
  end.

Definition im_get (k : signature) m : option V := entries_get k (im_entries m).
Definition im_contains (k : signature) m : bool :=
  match im_get k m with Some _ => true | None => false end.
Definition im_insert (k : signature) (v : V) m : IndexMap V :=
  let l := entries_insert k v (im_entries m) in
  mkIndexMap l (if (len l <=? im_capacity m)%N then im_capacity m
                else alloc_reserve (im_capacity m) (len (im_entries m)) 1).
Definition im_shift_remove_first m : IndexMap V :=
  mkIndexMap (tail (im_entries m)) (im_capacity m).
Definition im_truncate (n : N) m : IndexMap V :=
  mkIndexMap (take (N.to_nat n) (im_entries m)) (im_capacity m).
Definition im_shrink_to_fit m : IndexMap V :=
  mkIndexMap (im_entries m) (alloc_shrink (im_capacity m) (len (im_entries m))).
Definition im_reserve (extra : N) m : IndexMap V :=
  mkIndexMap (im_entries m)
    (alloc_reserve (im_capacity m) (len (im_entries m)) extra).
Definition im_with_capacity (n : N) : IndexMap V := mkIndexMap [] (alloc_with_capacity n).
(** [FromIterator]: the entries are inserted in turn. *)
Definition im_collect (l : list (signature * V)) : IndexMap V :=
  mkIndexMap (foldl (λ entries '(k, v), entries_insert k v entries) [] l) (alloc_collect (len l)).
End index_map.

Abbreviation TransactionHistory := (IndexMap TransactionResult) (only parsing).

Section history.
Context `{IndexMapAlloc}.
Implicit Types h : TransactionHistory.

Definition history_new : TransactionHistory := im_with_capacity 32.

Definition set_capacity (h : TransactionHistory) (new_cap : N) : TransactionHistory :=
  if (new_cap <=? im_capacity h)%N then
    im_shrink_to_fit (im_truncate new_cap h)
  else im_reserve (new_cap - im_capacity h) h.

Definition history_get (h : TransactionHistory) (s : signature) : option TransactionResult :=
  im_get s h.

Definition is_enabled (h : TransactionHistory) : bool := negb (im_capacity h =? 0)%N.

Definition add_new_transaction (h : TransactionHistory) (s : signature)
    (r : TransactionResult) : TransactionHistory :=
  let capacity := im_capacity h in
  if negb (capacity =? 0)%N then
    let h := if (len (im_entries h) =? capacity)%N then im_shift_remove_first h else h in
    im_insert s r h
  else h.

Definition check_transaction (h : TransactionHistory) (s : signature) : bool :=
  im_contains s h.

Definition history_entries (h : TransactionHistory) : list (signature * TransactionResult) :=
  im_entries h.

Definition history_capacity (h : TransactionHistory) : N := im_capacity h.

(** The entries come as an [IndexMap] of their own. *)
Definition from_entries (entries : IndexMap TransactionResult) (capacity : N)
    : TransactionHistory :=
  set_capacity entries capacity.
End history.

(** ** Lemmas *)

Section entries_lemmas.
Context {V : Type}.
Implicit Types l : list (signature * V).

Lemma entries_get_insert_eq k v l : entries_get k (entries_insert k v l) = Some v.
Proof.
  induction l as [|[k' v'] l IH]; simpl; [by rewrite N.eqb_refl|].
  destruct (N.eqb_spec k k') as [->|Hne]; simpl; [by rewrite N.eqb_refl|].
  apply N.eqb_neq in Hne. by rewrite Hne.
Qed.

Lemma entries_get_insert_ne k k' v l :
  k ≠ k' → entries_get k' (entries_insert k v l) = entries_get k' l.
Proof.
  intros Hne. induction l as [|[k2 v2] l IH]; simpl.
  - apply not_eq_sym, N.eqb_neq in Hne. by rewrite Hne.
  - destruct (N.eqb_spec k k2) as [->|Hne2]; simpl.
    + apply not_eq_sym, N.eqb_neq in Hne. by rewrite Hne.
    + by rewrite IH.
Qed.

Lemma entries_insert_fresh k v l : k ∉ l.*1 → entries_insert k v l = l ++ [(k, v)].
Proof.
  induction l as [|[k' v'] l IH]; simpl; [done|]. intros Hk.
  destruct (N.eqb_spec k k') as [->|Hne]; [set_solver|]. rewrite IH; set_solver.
Qed.

Lemma entries_insert_present k v l :
  k ∈ l.*1 → (entries_insert k v l).*1 = l.*1.
Proof.
  induction l as [|[k' v'] l IH]; simpl; [set_solver|]. intros Hk.
  destruct (N.eqb_spec k k') as [->|Hne]; [done|]. simpl. f_equal. set_solver.
Qed.

Lemma entries_insert_NoDup k v l : NoDup l.*1 → NoDup (entries_insert k v l).*1.
Proof.
  intros Hnd. destruct (decide (k ∈ l.*1)) as [Hk|Hk].
  - by rewrite entries_insert_present.
  - rewrite entries_insert_fresh, fmap_app by done.
    apply NoDup_app. split_and!; [done|set_solver|]. apply NoDup_singleton.
Qed.

Lemma entries_insert_length k v l : length (entries_insert k v l) ≤ S (length l).
Proof.
  induction l as [|[k' v'] l IH]; simpl; [done|].
  destruct (k =? k')%N; simpl; lia.
Qed.
End entries_lemmas.

Section history_lemmas.
Context `{IndexMapAlloc} `{!IndexMapAllocLaws}.
Implicit Types h : TransactionHistory.

(** Distinct signatures, and no more of them than the capacity. *)
Definition history_wf (h : TransactionHistory) : Prop :=
  NoDup (im_entries h).*1 ∧ (len (im_entries h) ≤ im_capacity h)%N.

Lemma history_new_wf : history_wf history_new.
Proof. split; [apply NoDup_nil_2|]. unfold len. simpl. lia. Qed.

(** The entries left after making room for one more. *)
Definition evict (h : TransactionHistory) : list (signature * TransactionResult) :=
  if (len (im_entries h) =? im_capacity h)%N then tail (im_entries h) else im_entries h.

Lemma evict_room h :
  history_wf h → is_enabled h = true → (len (evict h) < im_capacity h)%N.
Proof.
  unfold is_enabled, evict, len. intros [_ Hl] Hen%negb_true_iff%N.eqb_neq.
  unfold len in Hl. destruct (N.eqb_spec (N.of_nat (length (im_entries h))) (im_capacity h)).
  - destruct (im_entries h); simpl in *; lia.
  - lia.
Qed.

Lemma evict_sublist h : sublist (evict h).*1 (im_entries h).*1.
Proof.
  unfold evict. case_match; [|done]. destruct (im_entries h); [done|].
  by apply sublist_cons.
Qed.

Lemma evict_NoDup h : history_wf h → NoDup (evict h).*1.
Proof. intros [Hnd _]. eapply sublist_NoDup; [exact Hnd|]. apply evict_sublist. Qed.

Lemma add_new_transaction_enabled h s r :
  history_wf h → is_enabled h = true →
  add_new_transaction h s r
  = mkIndexMap (entries_insert s r (evict h)) (im_capacity h).
Proof.
  intros Hwf Hen. pose proof (evict_room h Hwf Hen) as Hroom.
  pose proof (entries_insert_length s r (evict h)) as Hlen.
  unfold add_new_transaction, is_enabled in *. rewrite Hen. unfold evict in *.
  destruct (len (im_entries h) =? im_capacity h)%N; unfold im_insert; simpl; f_equal;
    match goal with |- context [(?a <=? ?b)%N] => destruct (N.leb_spec a b) end;
    try done; unfold len in *; lia.
Qed.

Lemma add_new_transaction_disabled h s r :
  is_enabled h = false → add_new_transaction h s r = h.
Proof. unfold is_enabled, add_new_transaction. by intros ->. Qed.

Lemma add_new_transaction_wf h s r :
  history_wf h → history_wf (add_new_transaction h s r).
Proof.
  intros Hwf. destruct (is_enabled h) eqn:Hen; [|by rewrite add_new_transaction_disabled].
  rewrite add_new_transaction_enabled by done. pose proof (evict_room h Hwf Hen).
  pose proof (entries_insert_length s r (evict h)).
  split; simpl; [by apply entries_insert_NoDup, evict_NoDup|]. unfold len in *. lia.
Qed.

Lemma add_new_transaction_capacity h s r :
  history_wf h → im_capacity (add_new_transaction h s r) = im_capacity h.
Proof.
  intros Hwf. destruct (is_enabled h) eqn:Hen.
  - by rewrite add_new_transaction_enabled.
  - by rewrite add_new_transaction_disabled.
Qed.

Lemma set_capacity_wf h n : history_wf h → history_wf (set_capacity h n).
Proof.
  intros [Hnd Hl]. unfold set_capacity.
  destruct (N.leb_spec n (im_capacity h)) as [Hn|Hn]; split; simpl.
  - eapply sublist_NoDup; [exact Hnd|]. apply fmap_sublist, sublist_take.
  - apply alloc_shrink_ge. unfold len in *. rewrite length_take. lia.
  - done.
  - etransitivity; [exact Hl|]. apply alloc_reserve_mono.
Qed.

(** Recording under a signature the history does not hold appends the entry. *)
Lemma add_new_transaction_fresh h s r :
  history_wf h → is_enabled h = true → s ∉ (im_entries h).*1 →
  im_entries (add_new_transaction h s r) = evict h ++ [(s, r)].
Proof.
  intros Hwf Hen Hs. rewrite add_new_transaction_enabled by done. simpl.
  apply entries_insert_fresh. intros Hin. apply Hs.
  eapply elem_of_sublist; [exact Hin|apply evict_sublist].
Qed.

(** Making room is dropping what exceeds the capacity by one. *)
Lemma evict_drop h :
  history_wf h → is_enabled h = true →
  evict h = drop (S (length (im_entries h)) - N.to_nat (im_capacity h)) (im_entries h).
Proof.
  unfold is_enabled, evict, len. intros [_ Hl] Hen%negb_true_iff%N.eqb_neq.
  unfold len in Hl. destruct (N.eqb_spec (N.of_nat (length (im_entries h))) (im_capacity h)).
  - replace (S _ - _) with 1 by lia. by destruct (im_entries h).
  - by replace (S _ - _) with 0 by lia.
Qed.

Lemma check_transaction_spec h s :
  check_transaction h s = true ↔ is_Some (history_get h s).
Proof.
  unfold check_transaction, history_get, im_contains.
  destruct (im_get s h); split; intros Hc; try done.
Qed.

(** A sequence of additions. *)
Definition add_all (h : TransactionHistory) (l : list (signature * TransactionResult))
    : TransactionHistory :=
  foldl (λ h '(s, r), add_new_transaction h s r) h l.

End history_lemmas.

(** ** Properties *)

Section properties.
Context `{IndexMapAlloc} `{!IndexMapAllocLaws}.

(** A recorded transaction is found under its signature, whatever was
    recorded before; the operation keeps the history well formed (distinct
    signatures, length within capacity) and its capacity unchanged, and the only
    other signature that can disappear is the oldest one. *)
Theorem history_record_lookup (h : TransactionHistory) s r
  (Hwf : history_wf h) (Hen : is_enabled h = true) :
  let h' := add_new_transaction h s r in
  history_wf h' ∧ is_enabled h' = true ∧
  history_get h' s = Some r ∧ check_transaction h' s = true ∧
  (∀ s', s' ≠ s → (∀ e, head (im_entries h) = Some e → s' ≠ e.1) →
     history_get h' s' = history_get h s').
Proof.
  intros h'. unfold h'. split; [by apply add_new_transaction_wf|].
  rewrite check_transaction_spec. unfold is_enabled, history_get, im_get.
  rewrite add_new_transaction_capacity by done. split; [done|].
  rewrite add_new_transaction_enabled by done. simpl.
  rewrite entries_get_insert_eq. split; [done|]. split; [done|].
  intros s' Hs Hhead. rewrite entries_get_insert_ne by done. unfold evict.
  case_match; [|done]. destruct (im_entries h) as [|[k v] l]; [done|].
  specialize (Hhead _ eq_refl). simpl in *. apply N.eqb_neq in Hhead. by rewrite Hhead.
Qed.

(** C37.  The history is a sliding window: recording transactions with fresh,
    distinct signatures keeps exactly the most recent ones, oldest first, as many
    as the capacity. *)
Theorem history_sliding_window (l : list (signature * TransactionResult)) :
  ∀ h : TransactionHistory,
  history_wf h → is_enabled h = true → NoDup (im_entries h ++ l).*1 →
  im_entries (add_all h l)
  = drop (length (im_entries h) + length l - N.to_nat (im_capacity h)) (im_entries h ++ l).
Proof.
  induction l as [|[s r] l IH]; intros h Hwf Hen Hnd.
  { destruct Hwf as [_ Hl]. unfold len in Hl. simpl. rewrite app_nil_r.
    replace (_ - _) with 0 by lia. done. }
  unfold add_all in *. simpl.
  assert (s ∉ (im_entries h).*1) as Hs.
  { rewrite fmap_app in Hnd. intros Hin. apply NoDup_app in Hnd as (_ & Hd & _).
    apply (Hd s); set_solver. }
  rewrite IH; clear IH.
  - rewrite add_new_transaction_capacity, add_new_transaction_fresh, evict_drop by done.
    rewrite length_app, length_drop, <-app_assoc. simpl.
    destruct Hwf as [_ Hl]. unfold is_enabled in Hen. unfold len in Hl.
    apply negb_true_iff, N.eqb_neq in Hen.
    set (k := length (im_entries h)) in *. set (c := N.to_nat (im_capacity h)).
    rewrite <-(drop_app_le (im_entries h) _ (S k - c)) by lia.
    rewrite drop_drop. f_equal. lia.
  - by apply add_new_transaction_wf.
  - unfold is_enabled. by rewrite add_new_transaction_capacity.
  - rewrite add_new_transaction_fresh by done. rewrite <-app_assoc.
    rewrite fmap_app in Hnd |- *. eapply sublist_NoDup; [exact Hnd|].
    apply sublist_app; [apply evict_sublist|done].
Qed.

(** Capacity 0 disables the history whatever it holds: nothing is recorded,
    looked up or reported as processed any more. *)
Theorem history_zero_disables (h : TransactionHistory) s r :
  let h' := set_capacity h 0 in
  is_enabled h' = false ∧ add_new_transaction h' s r = h' ∧
  history_get h' s = None ∧ check_transaction h' s = false.
Proof.
  assert (is_enabled (set_capacity h 0) = false) as Hd.
  { unfold set_capacity, is_enabled. simpl. destruct (N.leb_spec 0 (im_capacity h)); [|lia].
    simpl. by rewrite alloc_shrink_empty. }
  split; [done|]. split; [by apply add_new_transaction_disabled|].
  unfold set_capacity. destruct (N.leb_spec 0 (im_capacity h)); [|lia]. done.
Qed.

(** Asking for any capacity up to the allocated one on a history that holds
    no transaction yet disables it, as asking for 0 does: truncating and
    shrinking keep room for the present entries only, of which there are none. *)
Theorem set_capacity_on_empty_disables (h : TransactionHistory) n s r
  (Hempty : im_entries h = []) (Hn : (n ≤ im_capacity h)%N) :
  is_enabled (set_capacity h n) = false ∧
  history_get (add_new_transaction (set_capacity h n) s r) s = None.
Proof.
  assert (is_enabled (set_capacity h n) = false) as Hd.
  { unfold set_capacity, is_enabled. apply N.leb_le in Hn. rewrite Hn. simpl.
    rewrite Hempty, take_nil. simpl. by rewrite alloc_shrink_empty. }
  split; [done|]. rewrite add_new_transaction_disabled by done.
  unfold set_capacity. apply N.leb_le in Hn. rewrite Hn. unfold history_get, im_get. simpl.
  by rewrite Hempty, take_nil.
Qed.

(** C38.  What changing the capacity does.  Up to the allocated capacity it keeps the
    oldest [n] transactions, and on a history that holds none it disables the
    history, whatever [n] is.  Beyond it, the difference to the allocated capacity
    is counted from the number of transactions held: as long as these leave that
    much room nothing happens, and only a full history is sure to get the capacity
    asked for.  No transaction is lost by growing. *)
Theorem set_capacity_effect (h : TransactionHistory) n (Hwf : history_wf h) :
  let h' := set_capacity h n in
  let room := (n - im_capacity h)%N in
  history_wf h' ∧
  ((n ≤ im_capacity h)%N →
     im_entries h' = take (N.to_nat n) (im_entries h) ∧ (im_capacity h' ≤ im_capacity h)%N ∧
     (im_entries h = [] → is_enabled h' = false)) ∧
  ((im_capacity h < n)%N →
     im_entries h' = im_entries h ∧
     (len (im_entries h) + room ≤ im_capacity h → h' = h)%N ∧
     (len (im_entries h) + room ≤ im_capacity h')%N ∧
     (len (im_entries h) = im_capacity h → n ≤ im_capacity h')%N).
Proof.
  intros h' room. pose proof (set_capacity_wf h n Hwf) as Hwf'. split; [exact Hwf'|].
  destruct Hwf as [_ Hl]. unfold h', set_capacity.
  destruct (N.leb_spec n (im_capacity h)) as [Hn|Hn]; (split; intros Hn'; [|]); try lia.
  - split_and!; [done| |].
    + apply alloc_shrink_le. unfold len in *. simpl. rewrite length_take. lia.
    + intros He. unfold is_enabled. simpl. rewrite He, take_nil. simpl.
      by rewrite alloc_shrink_empty.
  - split_and!; [done| | |]; simpl.
    + intros Hroom. unfold im_reserve. rewrite alloc_reserve_enough by done. by destruct h.
    + apply alloc_reserve_ge.
    + intros Hfull. pose proof (alloc_reserve_ge (im_capacity h) (len (im_entries h)) room).
      unfold room in *. lia.
Qed.
End properties.

(** ** Witnesses

    An allocator that allocates exactly what is asked for. *)

Definition exact_alloc : IndexMapAlloc := {|
  alloc_with_capacity n := n;
  alloc_reserve cap l extra := N.max cap (l + extra);
  alloc_shrink cap l := l;
  alloc_collect l := l |}.

Lemma exact_alloc_laws : @IndexMapAllocLaws exact_alloc.
Proof. split; simpl; intros; lia. Qed.

Definition sample_history : TransactionHistory := mkIndexMap [(1%N, Ok default_metadata)] 2.

Lemma sample_history_wf : history_wf sample_history.
Proof. split; [apply NoDup_singleton|vm_compute; discriminate]. Qed.

Lemma history_record_lookup_witness :
  history_get (@add_new_transaction exact_alloc sample_history 7%N (Ok default_metadata)) 7%N
  = Some (Ok default_metadata).
Proof.
  refine (proj1 (proj2 (proj2 (@history_record_lookup exact_alloc sample_history 7%N
    (Ok default_metadata) sample_history_wf eq_refl)))).
Defined.

Lemma history_sliding_window_witness :
  im_entries (@add_all exact_alloc sample_history
    [(2%N, Ok default_metadata); (3%N, Ok default_metadata)])
  = [(2%N, Ok default_metadata); (3%N, Ok default_metadata)].
Proof.
  rewrite (@history_sliding_window exact_alloc exact_alloc_laws _ sample_history sample_history_wf eq_refl).
  - reflexivity.
  - cbn. apply (bool_decide_unpack _). reflexivity.
Defined.

Lemma history_zero_disables_witness :
  is_enabled (@set_capacity exact_alloc sample_history 0) = false.
Proof.
  exact (proj1 (@history_zero_disables exact_alloc exact_alloc_laws sample_history 1%N
    (Ok default_metadata))).
Defined.

Lemma set_capacity_on_empty_disables_witness :
  is_enabled (@set_capacity exact_alloc (@history_new exact_alloc) 10) = false.
Proof.
  refine (proj1 (@set_capacity_on_empty_disables exact_alloc exact_alloc_laws
    (@history_new exact_alloc) 10 1%N (Ok default_metadata) eq_refl _)).
  vm_compute. discriminate.
Defined.

(** Asking a fresh history of capacity 32 for 50 changes nothing. *)
Lemma set_capacity_effect_witness :
  history_wf (@history_new exact_alloc) ∧
  @set_capacity exact_alloc (@history_new exact_alloc) 50 = @history_new exact_alloc.
Proof.
  assert (history_wf (@history_new exact_alloc)) as Hwf.
  { split; [apply NoDup_nil_2|vm_compute; discriminate]. }
  split; [exact Hwf|].
  destruct (@set_capacity_effect exact_alloc exact_alloc_laws (@history_new exact_alloc) 50 Hwf)
    as (_ & _ & Hgrow).
  destruct Hgrow as (_ & Hsame & _); [vm_compute; reflexivity|].
  apply Hsame. vm_compute. discriminate.
Defined.
