(* ===== verification/EpochStake.v ===== *)
(** * Epoch stakes (crates/litesvm/src/lib.rs, [set_epoch_stake] and following)

    The stake configured per vote account and the cluster total, as the
    [sol_get_epoch_stake] syscall reads them. *)

From S2P Require Import Prelude Errors.

(** The two fields of [LiteSVM] that the operations below read and write. *)
Record EpochStakes : Type := mkEpochStakes {
  epoch_total_stake : N;
  epoch_vote_stakes : gmap address N }.

Definition no_stakes : EpochStakes := mkEpochStakes 0 ∅.

Definition set_epoch_stake (self : EpochStakes) (vote_account : address) (stake : N)
    : EpochStakes * result LiteSVMError () :=
  match epoch_vote_stakes self !! vote_account with
  | Some previous =>
      match checked_sub (epoch_total_stake self) previous
              ≫= (λ total, checked_add u64_max total stake) with
      | None => (self, Err LE_EpochStakeOverflow)
      | Some total =>
          if (stake =? 0)%N
          then (mkEpochStakes total (delete vote_account (epoch_vote_stakes self)), Ok ())
          else (mkEpochStakes total (<[vote_account := stake]> (epoch_vote_stakes self)), Ok ())
      end
  | None =>
      if negb (stake =? 0)%N then
        match checked_add u64_max (epoch_total_stake self) stake with
        | None => (self, Err LE_EpochStakeOverflow)
        | Some total =>
            (mkEpochStakes total (<[vote_account := stake]> (epoch_vote_stakes self)), Ok ())
        end
      else (self, Ok ())
  end.

(** The loop of [set_epoch_stakes] over its local total and map. *)
Fixpoint collect_stakes (total : N) (map : gmap address N) (stakes : list (address * N))
    : result LiteSVMError (N * gmap address N) :=
  match stakes with
  | [] => Ok (total, map)
  | (vote_account, stake) :: stakes =>
      if (stake =? 0)%N then collect_stakes total map stakes
      else match checked_add u64_max total stake with
           | None => Err LE_EpochStakeOverflow
           | Some total => collect_stakes total (<[vote_account := stake]> map) stakes
           end
  end.

Definition set_epoch_stakes (self : EpochStakes) (stakes : list (address * N))
    : EpochStakes * result LiteSVMError () :=
  match collect_stakes 0 ∅ stakes with
  | Err e => (self, Err e)
  | Ok (total, map) => (mkEpochStakes total map, Ok ())
  end.

Definition epoch_stake (self : EpochStakes) (vote_account : address) : N :=
  default 0%N (epoch_vote_stakes self !! vote_account).

(** ** Invariant and lemmas *)

(** The total is the sum of the configured stakes, no stake is 0, and the total
    fits in a [u64]. *)
Definition stakes_wf (s : EpochStakes) : Prop :=
  epoch_total_stake s = map_sum id (epoch_vote_stakes s) ∧
  (∀ k v, epoch_vote_stakes s !! k = Some v → v ≠ 0%N) ∧
  (epoch_total_stake s ≤ u64_max)%N.

Lemma no_stakes_wf : stakes_wf no_stakes.
Proof. split_and!; [done| |vm_compute; done]. intros k v. simpl. by rewrite lookup_empty. Qed.

Lemma epoch_stake_le s v : stakes_wf s → (epoch_stake s v ≤ epoch_total_stake s)%N.
Proof.
  intros (-> & _). unfold epoch_stake. destruct (_ !! v) eqn:Hv; simpl; [|lia].
  by apply (map_sum_le id _ v).
Qed.

(** The map after setting one stake, 0 meaning removal. *)
Definition update_stake (m : gmap address N) (v : address) (stake : N) : gmap address N :=
  if (stake =? 0)%N then delete v m else <[v := stake]> m.

Lemma update_stake_lookup m v stake k :
  default 0%N (update_stake m v stake !! k)
  = if decide (k = v) then stake else default 0%N (m !! k).
Proof.
  unfold update_stake. destruct (N.eqb_spec stake 0); case_decide; subst;
    by simplify_map_eq.
Qed.

Lemma update_stake_nonzero m v stake :
  (∀ k x, m !! k = Some x → x ≠ 0%N) →
  ∀ k x, update_stake m v stake !! k = Some x → x ≠ 0%N.
Proof.
  unfold update_stake. intros Hm k x. destruct (N.eqb_spec stake 0).
  - intros [_ ?]%lookup_delete_Some. eauto.
  - intros [[_ <-]|[_ ?]]%lookup_insert_Some; eauto.
Qed.

Lemma update_stake_sum m v stake :
  (map_sum id (update_stake m v stake) + default 0 (m !! v) = map_sum id m + stake)%N.
Proof.
  assert (map_sum id m = default 0 (m !! v) + map_sum id (delete v m))%N as ->.
  { destruct (m !! v) eqn:Hv; simpl; [exact (map_sum_delete id m v _ Hv)|].
    by rewrite delete_id. }
  unfold update_stake. destruct (N.eqb_spec stake 0) as [->|]; [lia|].
  rewrite <-insert_delete_eq, map_sum_insert by apply lookup_delete_eq. unfold id. lia.
Qed.

(** One stake at a time, on every branch. *)
Lemma set_epoch_stake_spec s v stake :
  stakes_wf s →
  set_epoch_stake s v stake =
  if (epoch_total_stake s - epoch_stake s v + stake <=? u64_max)%N
  then (mkEpochStakes (epoch_total_stake s - epoch_stake s v + stake)
          (update_stake (epoch_vote_stakes s) v stake), Ok ())
  else (s, Err LE_EpochStakeOverflow).
Proof.
  intros Hwf. pose proof (epoch_stake_le s v Hwf) as Hle.
  destruct Hwf as (Ht & Hnz & Hmax). destruct s as [total m]; simpl in *.
  unfold set_epoch_stake, epoch_stake, update_stake in *. simpl in *.
  destruct (m !! v) as [prev|] eqn:Hv; simpl in *.
  - unfold checked_sub, checked_add. apply N.leb_le in Hle. rewrite Hle. simpl.
    destruct (total - prev + stake <=? u64_max)%N; [|done].
    by destruct (stake =? 0)%N.
  - rewrite N.sub_0_r. unfold checked_add. destruct (N.eqb_spec stake 0) as [->|]; simpl.
    + rewrite N.add_0_r, delete_id by done. apply N.leb_le in Hmax. by rewrite Hmax.
    + by destruct (total + stake <=? u64_max)%N.
Qed.

(** The loop of [set_epoch_stakes] keeps the invariant as long as no vote account
    repeats. *)
Lemma collect_stakes_spec stakes : ∀ total m,
  stakes_wf (mkEpochStakes total m) → NoDup stakes.*1 → (∀ k, k ∈ stakes.*1 → m !! k = None) →
  match collect_stakes total m stakes with
  | Ok (total', m') =>
      stakes_wf (mkEpochStakes total' m') ∧
      total' = (total + list_sum snd stakes)%N ∧
      (∀ k x, (k, x) ∈ stakes → default 0%N (m' !! k) = x) ∧
      (∀ k, k ∉ stakes.*1 → m' !! k = m !! k)
  | Err e => e = LE_EpochStakeOverflow ∧ (u64_max < total + list_sum snd stakes)%N
  end.
Proof.
  induction stakes as [|[v stake] stakes IH]; intros total m Hwf Hnd Hfresh; simpl.
  { split_and!; [done|lia|set_solver|done]. }
  apply NoDup_cons in Hnd as [Hv Hnd].
  assert (m !! v = None) as Hmv by (apply Hfresh; set_solver).
  destruct (N.eqb_spec stake 0) as [->|Hst]; [|unfold checked_add;
    destruct (N.leb_spec (total + stake) u64_max) as [Hle|Hgt]; [|split; [done|lia]]].
  - specialize (IH total m Hwf Hnd ltac:(set_solver)).
    destruct (collect_stakes total m stakes) as [[t' m']|e]; [|destruct IH; split; [done|lia]].
    destruct IH as (? & -> & Hin & Hout). split_and!; [done|lia| |set_solver].
    intros k x [[= -> ->]|?]%elem_of_cons; [|eauto]. by rewrite Hout, Hmv.
  - assert (stakes_wf (mkEpochStakes (total + stake) (<[v:=stake]> m))) as Hwf'.
    { destruct Hwf as (Ht & Hnz & _). simpl in *. split_and!; simpl; [| |done].
      - rewrite map_sum_insert by done. unfold id at 1. lia.
      - intros k x [[_ <-]|[_ ?]]%lookup_insert_Some; eauto. }
    specialize (IH _ _ Hwf' Hnd).
    destruct (collect_stakes _ _ stakes) as [[t' m']|e].
    + destruct IH as (? & -> & Hin & Hout).
      { intros k Hk. rewrite lookup_insert_ne by set_solver. set_solver. }
      split_and!; [done|lia| |].
      * intros k x [[= -> ->]|?]%elem_of_cons; [|eauto].
        rewrite Hout by done. by simplify_map_eq.
      * intros k Hk. rewrite Hout by set_solver. rewrite lookup_insert_ne; set_solver.
    + destruct IH as [-> ?]; [|split; [done|lia]].
      intros k Hk. rewrite lookup_insert_ne by set_solver. set_solver.
Qed.

Lemma set_epoch_stake_wf s v stake : stakes_wf s → stakes_wf (set_epoch_stake s v stake).1.
Proof.
  intros Hwf. rewrite set_epoch_stake_spec by done.
  destruct (N.leb_spec (epoch_total_stake s - epoch_stake s v + stake) u64_max); [|done].
  pose proof (epoch_stake_le s v Hwf). destruct Hwf as (Ht & Hnz & Hmax).
  split_and!; simpl; [|by apply update_stake_nonzero|done].
  pose proof (update_stake_sum (epoch_vote_stakes s) v stake). unfold epoch_stake in *. lia.
Qed.

Lemma set_epoch_stakes_wf s stakes :
  NoDup stakes.*1 → stakes_wf s → stakes_wf (set_epoch_stakes s stakes).1.
Proof.
  intros Hnd Hwf. unfold set_epoch_stakes.
  pose proof (collect_stakes_spec stakes 0 ∅ no_stakes_wf Hnd) as Hc.
  destruct (collect_stakes 0 ∅ stakes) as [[t m]|e]; [|done].
  destruct Hc as [Hwf' _]; [set_solver|done].
Qed.

(** What remains of the invariant when stakes are replaced by a list that may name
    a vote account twice: no stake is 0, and the total, a [u64], is at least the sum
    of the stakes. *)
Definition stakes_bounded (s : EpochStakes) : Prop :=
  (map_sum id (epoch_vote_stakes s) ≤ epoch_total_stake s)%N ∧
  (∀ k v, epoch_vote_stakes s !! k = Some v → v ≠ 0%N) ∧
  (epoch_total_stake s ≤ u64_max)%N.

Lemma stakes_wf_bounded s : stakes_wf s → stakes_bounded s.
Proof. intros (Ht & ? & ?). split_and!; [by rewrite <-Ht|done..]. Qed.

(** Replacing a stake [prev], covered by the total, keeps the total a bound. *)
Lemma update_stake_bounded total m v stake :
  stakes_bounded (mkEpochStakes total m) →
  (total - default 0 (m !! v) + stake ≤ u64_max)%N →
  stakes_bounded (mkEpochStakes (total - default 0 (m !! v) + stake)%N (update_stake m v stake)).
Proof.
  intros (Ht & Hnz & _) Hle. simpl in *. split_and!; simpl; [|by apply update_stake_nonzero|done].
  pose proof (update_stake_sum m v stake) as Hs.
  assert (default 0 (m !! v) ≤ map_sum id m)%N; [|lia].
  destruct (m !! v) as [x|] eqn:Hv; simpl; [|lia]. exact (map_sum_le id m v x Hv).
Qed.

Lemma set_epoch_stake_bounded s v stake :
  stakes_bounded s → stakes_bounded (set_epoch_stake s v stake).1.
Proof.
  destruct s as [total m]. intros Hb. pose proof (update_stake_bounded total m v stake Hb) as Hu.
  unfold set_epoch_stake, update_stake, checked_sub, checked_add in *. simpl in *.
  destruct (m !! v) as [prev|]; simpl in *.
  - destruct (prev <=? total)%N; simpl; [|done].
    destruct (N.leb_spec (total - prev + stake) u64_max); [|done].
    specialize (Hu ltac:(done)). by destruct (stake =? 0)%N.
  - rewrite N.sub_0_r in Hu. destruct (stake =? 0)%N; simpl; [done|].
    destruct (N.leb_spec (total + stake) u64_max); [|done]. by apply Hu.
Qed.

Lemma collect_stakes_bounded stakes : ∀ total m total' m',
  stakes_bounded (mkEpochStakes total m) → collect_stakes total m stakes = Ok (total', m') →
  stakes_bounded (mkEpochStakes total' m').
Proof.
  induction stakes as [|[v stake] stakes IH]; intros total m total' m' Hb; simpl.
  { by intros [= <- <-]. }
  destruct (N.eqb_spec stake 0) as [->|Hst]; [by apply IH|]. unfold checked_add.
  destruct (N.leb_spec (total + stake) u64_max) as [Hle|]; [|done]. apply IH.
  destruct Hb as (Ht & Hnz & _). simpl in *. split_and!; simpl; [| |done].
  - pose proof (update_stake_sum m v stake) as Hs. unfold update_stake in Hs.
    apply N.eqb_neq in Hst. rewrite Hst in Hs. lia.
  - intros k x [[_ <-]|[_ ?]]%lookup_insert_Some; eauto.
Qed.

Lemma set_epoch_stakes_bounded s stakes :
  stakes_bounded s → stakes_bounded (set_epoch_stakes s stakes).1.
Proof.
  intros Hb. unfold set_epoch_stakes. destruct (collect_stakes 0 ∅ stakes) as [[t m]|e] eqn:Hc; [|done].
  eapply collect_stakes_bounded; [|exact Hc]. apply stakes_wf_bounded, no_stakes_wf.
Qed.

(** ** Properties *)

(** C36.  Setting one vote account's stake keeps the invariant that the cluster
    total is the sum of the configured non-zero stakes.  It succeeds exactly when
    the new total fits in a [u64]; the vote account then reads the new stake,
    every other one its previous stake, and on overflow nothing changes. *)
Theorem set_epoch_stake_correct s v stake (Hwf : stakes_wf s) :
  let new_total := (epoch_total_stake s - epoch_stake s v + stake)%N in
  let (s', r) := set_epoch_stake s v stake in
  stakes_wf s' ∧
  ((new_total ≤ u64_max)%N → r = Ok () ∧ epoch_total_stake s' = new_total ∧
     ∀ k, epoch_stake s' k = if decide (k = v) then stake else epoch_stake s k) ∧
  ((u64_max < new_total)%N → r = Err LE_EpochStakeOverflow ∧ s' = s).
Proof.
  intros new_total. pose proof (set_epoch_stake_wf s v stake Hwf) as Hwf'.
  rewrite set_epoch_stake_spec in * by done. fold new_total in Hwf' |- *.
  destruct (N.leb_spec new_total u64_max) as [Hle|Hgt];
    [|split_and!; [done|lia|done]].
  split_and!; [done|intros _; split_and!; [done|done|]|lia].
  intros k. unfold epoch_stake. simpl. apply update_stake_lookup.
Qed.

Lemma set_epoch_stake_correct_witness :
  epoch_total_stake (set_epoch_stake (mkEpochStakes 500 {[7%N := 500%N]}) 7 200).1 = 200%N.
Proof.
  assert (stakes_wf (mkEpochStakes 500 {[7%N := 500%N]})) as Hwf.
  { split_and!; [reflexivity| |vm_compute; discriminate].
    intros k v. simpl. intros [_ <-]%lookup_singleton_Some. discriminate. }
  pose proof (set_epoch_stake_correct _ 7 200 Hwf) as H.
  destruct (set_epoch_stake _ 7 200) as [s' r]. destruct H as (_ & H & _).
  destruct H as (_ & H & _); [vm_compute; discriminate|exact H].
Defined.

(** Replacing all stakes by a list without repeated vote accounts restores
    the invariant from any state: it succeeds exactly when the sum fits in a
    [u64], the total is then that sum, each listed account reads its stake and
    every other one 0; otherwise the previous state is kept. *)
Theorem set_epoch_stakes_correct s stakes (Hnd : NoDup stakes.*1) :
  let (s', r) := set_epoch_stakes s stakes in
  ((list_sum snd stakes ≤ u64_max)%N →
     r = Ok () ∧ stakes_wf s' ∧ epoch_total_stake s' = list_sum snd stakes ∧
     (∀ k x, (k, x) ∈ stakes → epoch_stake s' k = x) ∧
     (∀ k, k ∉ stakes.*1 → epoch_stake s' k = 0%N)) ∧
  ((u64_max < list_sum snd stakes)%N → r = Err LE_EpochStakeOverflow ∧ s' = s).
Proof.
  unfold set_epoch_stakes.
  pose proof (collect_stakes_spec stakes 0 ∅ no_stakes_wf Hnd) as Hc.
  destruct (collect_stakes 0 ∅ stakes) as [[t m]|e].
  - destruct Hc as (Hwf & -> & Hin & Hout); [set_solver|]. rewrite N.add_0_l in Hwf.
    split; [intros _|].
    + split_and!; [done|done|done|exact Hin|]. intros k Hk. unfold epoch_stake. simpl.
      by rewrite Hout.
    + destruct Hwf as (_ & _ & Hmax). simpl in Hmax. lia.
  - destruct Hc as [-> Hgt]; [set_solver|]. split; [lia|done].
Qed.

Lemma set_epoch_stakes_correct_witness :
  NoDup ([(1, 5); (2, 6)]%N).*1 ∧ (set_epoch_stakes no_stakes [(1, 5); (2, 6)]%N).2 = Ok ().
Proof.
  assert (NoDup ([(1, 5); (2, 6)]%N).*1) as Hnd
    by (apply (bool_decide_unpack _); reflexivity).
  split; [exact Hnd|].
  pose proof (set_epoch_stakes_correct no_stakes [(1, 5); (2, 6)]%N Hnd) as H.
  destruct (set_epoch_stakes no_stakes _) as [s' r]. destruct H as [H _].
  destruct H as (H & _); [vm_compute; discriminate|exact H].
Defined.

(** With a repeated vote account the total counts every occurrence while
    the map keeps the last one, so [epoch_total_stake] is not the sum of the
    configured stakes, and removing the account leaves a total with no stake
    behind it. *)
Theorem set_epoch_stakes_duplicate s v a b
  (Ha : a ≠ 0%N) (Hb : b ≠ 0%N) (Hsum : (a + b ≤ u64_max)%N) :
  let s' := (set_epoch_stakes s [(v, a); (v, b)]).1 in
  epoch_total_stake s' = (a + b)%N ∧ epoch_stake s' v = b ∧
  map_sum id (epoch_vote_stakes s') = b ∧ ¬ stakes_wf s' ∧
  set_epoch_stake s' v 0 = (mkEpochStakes a ∅, Ok ()).
Proof.
  intros s'. assert (s' = mkEpochStakes (a + b) {[v := b]}) as ->.
  { unfold s', set_epoch_stakes. simpl. apply N.eqb_neq in Ha, Hb. rewrite Ha, Hb.
    unfold checked_add. destruct (N.leb_spec (0 + a) u64_max); [|lia].
    destruct (N.leb_spec (0 + a + b) u64_max); [|lia]. simpl.
    by rewrite insert_insert_eq. }
  assert (map_sum id {[v := b]} = b) as Hs.
  { change ({[v := b]} : gmap N N) with (<[v := b]> (∅ : gmap N N)).
    rewrite map_sum_insert by apply lookup_empty. rewrite map_sum_empty. unfold id. lia. }
  split_and!; simpl; [done| |done| |].
  - unfold epoch_stake. simpl. by simplify_map_eq.
  - intros (Ht & _). simpl in Ht. lia.
  - unfold set_epoch_stake. simpl. simplify_map_eq. unfold checked_sub, checked_add.
    destruct (N.leb_spec b (a + b)); [|lia]. simpl.
    destruct (N.leb_spec (a + b - b + 0) u64_max); [|lia].
    f_equal. f_equal; [lia|]. by rewrite delete_singleton_eq.
Qed.

Lemma set_epoch_stakes_duplicate_witness :
  epoch_total_stake (set_epoch_stakes no_stakes [(9, 100); (9, 200)]%N).1 = 300%N.
Proof.
  refine (proj1 (set_epoch_stakes_duplicate no_stakes 9 100 200 _ _ _));
    vm_compute; discriminate.
Defined.
