(* ===== verification/AccountsDb.v ===== *)
(** * The accounts database (crates/litesvm/src/accounts_db.rs)

    The account store with the caches derived from it: the sysvar cache, the
    program cache and the program runtime environments. *)

From S2P Require Import Prelude Errors ComputeBudget Runtime.

(** ** State *)

Record AccountsDb `{SysvarApi} `{ProgramApi} : Type := mkDb {
  inner : gmap address account;
  programs_cache : ProgramCache;
  sysvar_cache : SysvarCache;
  env_for_execution : RuntimeEnvironment;
  env_for_deployment : RuntimeEnvironment }.
Arguments mkDb {_ _} _ _ _ _ _.

Section db.
Context `{SdkIds} `{SysvarApi} `{ProgramApi}.
Implicit Types db : AccountsDb.

Definition default_db : AccountsDb :=
  mkDb ∅ (cache_new 0) cache_default mock_environment mock_environment.

Definition with_inner (db : AccountsDb) (m : gmap address account) : AccountsDb :=
  mkDb m (programs_cache db) (sysvar_cache db) (env_for_execution db) (env_for_deployment db).
Definition with_programs_cache (db : AccountsDb) (c : ProgramCache) : AccountsDb :=
  mkDb (inner db) c (sysvar_cache db) (env_for_execution db) (env_for_deployment db).
Definition with_sysvar_cache (db : AccountsDb) (c : SysvarCache) : AccountsDb :=
  mkDb (inner db) (programs_cache db) c (env_for_execution db) (env_for_deployment db).
Definition with_environments (db : AccountsDb) (exec deploy : RuntimeEnvironment) : AccountsDb :=
  mkDb (inner db) (programs_cache db) (sysvar_cache db) exec deploy.

(** ** Reading and writing accounts *)

Definition get_account (db : AccountsDb) (pubkey : address) : option account :=
  inner db !! pubkey.

Definition add_account_no_checks (db : AccountsDb) (pubkey : address) (acc : account)
    : AccountsDb :=
  with_inner db (<[pubkey := acc]> (inner db)).

Definition add_builtin_account (db : AccountsDb) (pubkey : address) (acc : account)
    : AccountsDb :=
  with_inner db (<[pubkey := acc]> (inner db)).

(** ** Sysvar accounts *)

(** What the closure given to [fill_missing_entries] reads: the account being
    written at its own address, the store elsewhere. *)
Definition sysvar_source (accounts : gmap address account) (addr : address) (acc : account)
    : address → option bytes :=
  λ pubkey, if (pubkey =? addr)%N then Some (data acc) else data <$> accounts !! pubkey.

Definition handle_sysvar {T : Type} `{Codec T} (db : AccountsDb)
    (err_variant : InvalidSysvarDataError) (acc : account) (addr : address)
    : AccountsDb * result InvalidSysvarDataError () :=
  let db := with_sysvar_cache db
              (cache_fill (cache_reset (sysvar_cache db))
                 (sysvar_source (inner db) addr acc)) in
  match deserialize_from (T := T) (data acc) with
  | None => (db, Err err_variant)
  | Some _ => (db, Ok ())
  end.

Definition maybe_handle_sysvar_account (db : AccountsDb) (pubkey : address) (acc : account)
    : AccountsDb * result InvalidSysvarDataError () :=
  if (pubkey =? clock_id)%N then
    match deserialize_from (T := Clock) (data acc) with
    | None => (db, Err ISD_Clock)
    | Some parsed =>
        let db := with_programs_cache db (cache_set_slot (programs_cache db) (slot parsed)) in
        (with_sysvar_cache db
           (cache_fill (cache_reset (sysvar_cache db))
              (sysvar_source (inner db) pubkey acc)), Ok ())
    end
  else if (pubkey =? epoch_rewards_id)%N then
    handle_sysvar (T := EpochRewards) db ISD_EpochRewards acc pubkey
  else if (pubkey =? epoch_schedule_id)%N then
    handle_sysvar (T := EpochSchedule) db ISD_EpochSchedule acc pubkey
  else if (pubkey =? fees_id)%N then
    handle_sysvar (T := Fees) db ISD_Fees acc pubkey
  else if (pubkey =? last_restart_slot_id)%N then
    handle_sysvar (T := LastRestartSlot) db ISD_LastRestartSlot acc pubkey
  else if (pubkey =? recent_blockhashes_id)%N then
    handle_sysvar (T := RecentBlockhashes) db ISD_RecentBlockhashes acc pubkey
  else if (pubkey =? rent_id)%N then
    handle_sysvar (T := Rent) db ISD_Rent acc pubkey
  else if (pubkey =? slot_hashes_id)%N then
    handle_sysvar (T := SlotHashes) db ISD_SlotHashes acc pubkey
  else if (pubkey =? stake_history_id)%N then
    handle_sysvar (T := StakeHistory) db ISD_StakeHistory acc pubkey
  else (db, Ok ()).

(** ** Programs *)

Definition cached_slot (db : AccountsDb) : N :=
  match cache_get_clock (sysvar_cache db) with Some c => slot c | None => 0 end.

(** [ProgramCacheEntry::new(..).map_err(|_| InvalidAccountData)]. *)
Definition new_entry (db : AccountsDb) (loader : address) (elf : bytes) (size : N)
    : result InstructionError ProgramCacheEntry :=
  ok_or (entry_new loader (env_for_execution db) (cached_slot db) (cached_slot db) elf size)
    IE_InvalidAccountData.

Definition load_program (db : AccountsDb) (program_account : account)
    : result InstructionError ProgramCacheEntry :=
  let o := owner program_account in
  if (o =? bpf_loader_id)%N || (o =? bpf_loader_deprecated_id)%N then
    new_entry db o (data program_account) (len (data program_account))
  else if (o =? bpf_loader_upgradeable_id)%N then
    match deserialize_program_state (data program_account) with
    | None => Err IE_InvalidAccountData
    | Some programdata_address =>
        match get_account db programdata_address with
        | None => Ok (entry_closed_tombstone (cached_slot db))
        | Some programdata_account =>
            let program_data := data programdata_account in
            match get_from size_of_programdata_metadata program_data with
            | Some programdata =>
                new_entry db o programdata
                  (saturating_add u64_max (len (data program_account)) (len program_data))
            | None => Err IE_InvalidAccountData
            end
        end
    end
  else if (o =? loader_v4_id)%N then
    match get_from loader_v4_program_data_offset (data program_account) with
    | Some elf_bytes => new_entry db loader_v4_id elf_bytes (len (data program_account))
    | None => Err IE_InvalidAccountData
    end
  else Err IE_IncorrectProgramId.

Definition try_program_elf_bytes (db : AccountsDb) (program_key : address)
    : result InstructionError bytes :=
  match get_account db program_key with
  | None => Err IE_MissingAccount
  | Some program_account =>
      let o := owner program_account in
      if (o =? bpf_loader_id)%N || (o =? bpf_loader_deprecated_id)%N then
        Ok (data program_account)
      else if (o =? bpf_loader_upgradeable_id)%N then
        match deserialize_program_state (data program_account) with
        | None => Err IE_InvalidAccountData
        | Some programdata_address =>
            match get_account db programdata_address with
            | None => Err IE_MissingAccount
            | Some programdata_account =>
                ok_or (get_from size_of_programdata_metadata (data programdata_account))
                  IE_InvalidAccountData
            end
        end
      else if (o =? loader_v4_id)%N then
        ok_or (get_from loader_v4_program_data_offset (data program_account))
          IE_InvalidAccountData
      else Err IE_IncorrectProgramId
  end.

(** ** Checked insertion *)

Definition store_or_remove (db : AccountsDb) (pubkey : address) (acc : account) : AccountsDb :=
  if (lamports acc =? 0)%N then with_inner db (delete pubkey (inner db))
  else add_account_no_checks db pubkey acc.

Definition add_account (db : AccountsDb) (pubkey : address) (acc : account)
    : AccountsDb * result LiteSVMError () :=
  if executable acc && negb (pubkey =? default_address)%N
     && negb (owner acc =? native_loader_id)%N
  then
    match load_program db acc with
    | Err e => (db, Err (LE_Instruction e))
    | Ok loaded_program =>
        let db := with_programs_cache db
                    (cache_replenish (programs_cache db) pubkey loaded_program) in
        (store_or_remove db pubkey acc, Ok ())
    end
  else
    match maybe_handle_sysvar_account db pubkey acc with
    | (db, Err e) => (db, Err (LE_InvalidSysvarData e))
    | (db, Ok _) => (store_or_remove db pubkey acc, Ok ())
    end.

(** Is this a program-data account of the upgradeable loader? *)
Definition is_programdata (x : address * account) : bool :=
  (owner x.2 =? bpf_loader_upgradeable_id)%N
  && match head (data x.2) with Some b => bool_decide (b = Byte.x03) | None => false end.

(** The [for] loop with its early return. *)
Fixpoint add_accounts (db : AccountsDb) (accounts : list (address * account))
    : AccountsDb * result LiteSVMError () :=
  match accounts with
  | [] => (db, Ok ())
  | (addr, acc) :: accounts =>
      match add_account db addr acc with
      | (db, Err e) => (db, Err e)
      | (db, Ok _) => add_accounts db accounts
      end
  end.

Definition sync_accounts `{PartitionApi} (db : AccountsDb)
    (accounts : list (address * account)) : AccountsDb * result LiteSVMError () :=
  add_accounts db (partition is_programdata accounts).

(** ** Rebuilding the caches from the store *)

Definition rebuild_sysvar_cache (db : AccountsDb) : AccountsDb :=
  let db := with_sysvar_cache db
              (cache_fill (cache_reset (sysvar_cache db)) (λ k, data <$> inner db !! k)) in
  match cache_get_clock (sysvar_cache db) with
  | Some clock => with_programs_cache db (cache_set_slot (programs_cache db) (slot clock))
  | None => db
  end.

Fixpoint load_programs (db : AccountsDb) (keys : list address)
    : outcome (AccountsDb * result LiteSVMError ()) :=
  match keys with
  | [] => Ret (db, Ok ())
  | key :: keys =>
      acc ← unwrap (inner db !! key);
      match load_program db acc with
      | Err e => Ret (db, Err (LE_Instruction e))
      | Ok loaded =>
          load_programs
            (with_programs_cache db (cache_replenish (programs_cache db) key loaded)) keys
      end
  end.

Definition executable_keys (db : AccountsDb) : list address :=
  (filter (λ '(_, acc), executable acc = true ∧ owner acc ≠ native_loader_id)
     (map_to_list (inner db))).*1.

Definition load_all_existing_programs (db : AccountsDb)
    : outcome (AccountsDb * result LiteSVMError ()) :=
  load_programs db (executable_keys db).

(** ** Address lookup tables *)

Section lookup.
Context `{!LookupApi}.

Definition load_lookup_table_addresses (db : AccountsDb) (l : MessageAddressTableLookup)
    : outcome (result AddressLookupError LoadedAddresses) :=
  match get_account db (account_key l) with
  | None => Ret (Err ALE_LookupTableAccountNotFound)
  | Some table_account =>
      if (owner table_account =? address_lookup_table_id)%N then
        slot_hashes ← unwrap (cache_get_slot_hashes (sysvar_cache db));
        clock ← unwrap (cache_get_clock (sysvar_cache db));
        match lookup_table_deserialize (data table_account) with
        | None => Ret (Err ALE_InvalidAccountData)
        | Some t =>
            Ret (w ← lookup_table_lookup t (slot clock) (writable_indexes l) slot_hashes;
                 r ← lookup_table_lookup t (slot clock) (readonly_indexes l) slot_hashes;
                 Ok {| la_writable := w; la_readonly := r |})
        end
      else Ret (Err ALE_InvalidAccountOwner)
  end.

(** The iterator of [load_addresses], stopped by the first error. *)
Fixpoint load_each (db : AccountsDb) (lookups : list MessageAddressTableLookup)
    : outcome (result AddressLoaderError (list LoadedAddresses)) :=
  match lookups with
  | [] => Ret (Ok [])
  | l :: lookups =>
      r ← load_lookup_table_addresses db l;
      match map_err into_address_loader_error r with
      | Err e => Ret (Err e)
      | Ok a => rest ← load_each db lookups; Ret (map_ok (cons a) rest)
      end
  end.

Definition load_addresses (db : AccountsDb) (lookups : list MessageAddressTableLookup)
    : outcome (result AddressLoaderError LoadedAddresses) :=
  rs ← load_each db lookups; Ret (map_ok loaded_addresses_collect rs).
End lookup.

(** ** Charging a fee *)

Definition withdraw `{RentApi} `{SystemApi} (db : AccountsDb) (addr : address) (l : N)
    : outcome (AccountsDb * result TransactionError ()) :=
  match inner db !! addr with
  | Some acc =>
      min_balance ←
        match get_system_account_kind acc with
        | Some Nonce =>
            rent ← unwrap (cache_get_rent (sysvar_cache db));
            Ret (rent_minimum_balance rent nonce_state_size)
        | _ => Ret 0%N
        end;
      match checked_add u64_max l min_balance with
      | Some required_balance =>
          if (required_balance <=? lamports acc)%N then
            match checked_sub_lamports acc l with
            | Some acc => Ret (with_inner db (<[addr := acc]> (inner db)), Ok ())
            | None => Ret (db, Err TE_InsufficientFundsForFee)
            end
          else Ret (db, Err TE_InsufficientFundsForFee)
      | None => Ret (db, Err TE_InsufficientFundsForFee)
      end
  | None => Ret (db, Err TE_AccountNotFound)
  end.
End db.

(** ** Lemmas *)

Section lemmas.
Context `{SdkIds} `{SysvarApi} `{ProgramApi}.
Implicit Types db : AccountsDb.

Lemma handle_sysvar_spec {T} `{Codec T} db e acc k :
  handle_sysvar (T := T) db e acc k
  = (with_sysvar_cache db
       (cache_fill (cache_reset (sysvar_cache db)) (sysvar_source (inner db) k acc)),
     match deserialize_from (T := T) (data acc) with Some _ => Ok () | None => Err e end).
Proof. unfold handle_sysvar. by case_match. Qed.

(** Sysvar handling never touches the store or the environments. *)
Lemma maybe_handle_sysvar_frame db k acc :
  let db' := (maybe_handle_sysvar_account db k acc).1 in
  inner db' = inner db ∧ env_for_execution db' = env_for_execution db
  ∧ env_for_deployment db' = env_for_deployment db.
Proof.
  unfold maybe_handle_sysvar_account. repeat case_match; rewrite ?handle_sysvar_spec; done.
Qed.

Lemma maybe_handle_sysvar_other db k acc :
  k ∉ handled_sysvars → maybe_handle_sysvar_account db k acc = (db, Ok ()).
Proof.
  unfold maybe_handle_sysvar_account, handled_sysvars. intros Hk.
  repeat (rewrite not_elem_of_cons in Hk; destruct Hk as [?%N.eqb_neq Hk]).
  by repeat match goal with E : (_ =? _)%N = false |- _ => rewrite E; clear E end.
Qed.

Lemma maybe_handle_sysvar_ok db db' k acc :
  k ∈ handled_sysvars → maybe_handle_sysvar_account db k acc = (db', Ok ()) →
  sysvar_cache db'
  = cache_fill (cache_reset (sysvar_cache db)) (sysvar_source (inner db) k acc).
Proof.
  unfold maybe_handle_sysvar_account. intros Hk.
  repeat (case_match; rewrite ?handle_sysvar_spec; [by repeat case_match; intros; simplify_eq/=|]).
  intros _. exfalso. revert Hk. unfold handled_sysvars.
  repeat match goal with E : (_ =? _)%N = false |- _ => apply N.eqb_neq in E end.
  rewrite !elem_of_cons, elem_of_nil. tauto.
Qed.

Lemma store_or_remove_inner db k acc :
  inner (store_or_remove db k acc)
  = if (lamports acc =? 0)%N then delete k (inner db) else <[k := acc]> (inner db).
Proof. unfold store_or_remove. by case_match. Qed.

(** The store after a checked insertion; on error it is untouched. *)
Lemma add_account_inner db k acc :
  match add_account db k acc with
  | (db', Ok _) =>
      inner db' = if (lamports acc =? 0)%N then delete k (inner db)
                  else <[k := acc]> (inner db)
  | (db', Err _) => inner db' = inner db
  end.
Proof.
  unfold add_account. destruct (executable acc && _ && _).
  - destruct (load_program db acc); [by rewrite store_or_remove_inner|done].
  - pose proof (maybe_handle_sysvar_frame db k acc) as (Hi & _).
    destruct (maybe_handle_sysvar_account db k acc) as [db' [|]]; simpl in *; [|done].
    by rewrite store_or_remove_inner, Hi.
Qed.

(** The store after inserting accounts at distinct addresses. *)
Definition stored (acc : account) : option account :=
  if (lamports acc =? 0)%N then None else Some acc.

Lemma add_accounts_inner l : ∀ db db',
  NoDup l.*1 → add_accounts db l = (db', Ok ()) →
  (∀ k acc, (k, acc) ∈ l → inner db' !! k = stored acc) ∧
  (∀ k, k ∉ l.*1 → inner db' !! k = inner db !! k).
Proof.
  induction l as [|[k a] l IH]; intros db db' Hnd; simpl; [intros [= <-]; set_solver|].
  apply NoDup_cons in Hnd as [Hk Hnd]. pose proof (add_account_inner db k a) as Ha.
  destruct (add_account db k a) as [db1 [[]|]]; [|done]. intros Hl.
  destruct (IH _ _ Hnd Hl) as [Hin Hout].
  assert (∀ k', inner db1 !! k' = if decide (k' = k) then stored a else inner db !! k') as Hdb1.
  { intros k'. rewrite Ha. unfold stored. by repeat case_match; simplify_map_eq. }
  split.
  - intros k' acc [[= -> ->]|?]%elem_of_cons; [|eauto].
    rewrite Hout, Hdb1 by done. by case_decide.
  - intros k' Hk'. rewrite Hout, Hdb1 by set_solver. case_decide; set_solver.
Qed.

(** The accounts written by a commit, at the level of the store. *)
Definition written (m m' : gmap address account) (l : list (address * account)) : Prop :=
  (∀ k acc, (k, acc) ∈ l → m' !! k = stored acc) ∧ (∀ k, k ∉ l.*1 → m' !! k = m !! k).

Lemma sync_accounts_written `{PartitionApi} `{!PartitionLaws} db db' l :
  NoDup l.*1 → sync_accounts db l = (db', Ok ()) → written (inner db) (inner db') l.
Proof.
  intros Hnd Hsync. unfold sync_accounts in Hsync.
  pose proof (partition_permutation is_programdata l) as Hp.
  assert (NoDup (partition is_programdata l).*1) as Hnd' by (by rewrite Hp).
  destruct (add_accounts_inner _ db db' Hnd' Hsync) as [Hin Hout].
  split.
  - intros k acc Hk. apply Hin. by rewrite Hp.
  - intros k Hk. apply Hout. by rewrite Hp.
Qed.
End lemmas.

(** ** Coherence of the sysvar cache

    What the runtime reads from the cache is what the store holds. *)

Section coherence.
Context `{SdkIds} `{SysvarApi} `{ProgramApi}.
Implicit Types db : AccountsDb.

Definition stored_sysvar {T} `{Codec T} (m : gmap address account) (k : address) : option T :=
  (data <$> m !! k) ≫= deserialize_from.

Definition cache_reflects (c : SysvarCache) (m : gmap address account) : Prop :=
  cache_get_clock c = stored_sysvar m clock_id ∧
  cache_get_rent c = stored_sysvar m rent_id ∧
  cache_get_slot_hashes c = stored_sysvar m slot_hashes_id ∧
  cache_get_epoch_schedule c = stored_sysvar m epoch_schedule_id ∧
  cache_get_epoch_rewards c = stored_sysvar m epoch_rewards_id ∧
  cache_get_last_restart_slot c = stored_sysvar m last_restart_slot_id ∧
  cache_get_stake_history c = stored_sysvar m stake_history_id.

Definition db_coherent (db : AccountsDb) : Prop := cache_reflects (sysvar_cache db) (inner db).

Lemma cache_reflects_ext c m m' :
  (∀ k, k ∈ handled_sysvars → m !! k = m' !! k) → cache_reflects c m → cache_reflects c m'.
Proof.
  intros Hm. unfold cache_reflects, stored_sysvar. unfold handled_sysvars in Hm.
  rewrite !(Hm clock_id), !(Hm rent_id), !(Hm slot_hashes_id), !(Hm epoch_schedule_id),
    !(Hm epoch_rewards_id), !(Hm last_restart_slot_id), !(Hm stake_history_id); set_solver.
Qed.

Context `{!SysvarLaws}.

Lemma cache_reflects_fill c m : cache_reflects (cache_fill (cache_reset c) (λ k, data <$> m !! k)) m.
Proof.
  unfold cache_reflects, stored_sysvar.
  rewrite cache_get_clock_fill, cache_get_rent_fill, cache_get_slot_hashes_fill.
  by rewrite cache_get_epoch_schedule_fill, cache_get_epoch_rewards_fill,
    cache_get_last_restart_slot_fill, cache_get_stake_history_fill.
Qed.

Lemma sysvar_source_insert m k acc a :
  sysvar_source m k acc a = data <$> <[k := acc]> m !! a.
Proof.
  unfold sysvar_source. destruct (N.eqb_spec a k) as [->|]; by simplify_map_eq.
Qed.

(** A program account or an account outside the handled sysvars leaves the cache
    alone; a sysvar account refills it from the updated store. *)
Definition is_program_write (k : address) (acc : account) : bool :=
  executable acc && negb (k =? default_address)%N && negb (owner acc =? native_loader_id)%N.

Lemma add_account_cache_other db db' k acc :
  k ∉ handled_sysvars → add_account db k acc = (db', Ok ()) →
  sysvar_cache db' = sysvar_cache db.
Proof.
  intros Hk. unfold add_account, store_or_remove.
  destruct (executable acc && _ && _).
  - destruct (load_program db acc); [|done]. by intros [= <-]; case_match.
  - rewrite maybe_handle_sysvar_other by done. by intros [= <-]; case_match.
Qed.

(** What the cache holds after a successful write: a sysvar account refills it from
    the store with the written account, whether or not that account stays. *)
Lemma add_account_cache_refilled db db' k acc :
  k ∈ handled_sysvars → is_program_write k acc = false → add_account db k acc = (db', Ok ()) →
  sysvar_cache db'
  = cache_fill (cache_reset (sysvar_cache db)) (λ a, data <$> <[k := acc]> (inner db) !! a).
Proof.
  intros Hk Hp. unfold add_account, is_program_write in *. rewrite Hp.
  destruct (maybe_handle_sysvar_account db k acc) as [db1 [[]|]] eqn:Hm; [|done].
  pose proof (maybe_handle_sysvar_ok _ _ _ _ Hk Hm) as Hc. intros [= Hadd].
  trans (sysvar_cache db1); [rewrite <-Hadd; unfold store_or_remove; by case_match|].
  rewrite Hc. apply cache_fill_ext. intros a. apply sysvar_source_insert.
Qed.

Lemma add_account_cache_sysvar db db' k acc :
  k ∈ handled_sysvars → is_program_write k acc = false → lamports acc ≠ 0%N →
  add_account db k acc = (db', Ok ()) →
  sysvar_cache db'
  = cache_fill (cache_reset (sysvar_cache db)) (λ a, data <$> inner db' !! a).
Proof.
  intros Hk Hp Hl Hadd. pose proof (add_account_inner db k acc) as Hi. rewrite Hadd in Hi.
  apply N.eqb_neq in Hl. rewrite Hl in Hi. rewrite Hi. by apply add_account_cache_refilled.
Qed.

Lemma add_account_cache_program db db' k acc :
  is_program_write k acc = true → add_account db k acc = (db', Ok ()) →
  sysvar_cache db' = sysvar_cache db.
Proof.
  unfold add_account, is_program_write, store_or_remove. intros ->.
  destruct (load_program db acc); [|done]. by intros [= <-]; case_match.
Qed.

(** The accounts that the cache reflects after a write. *)
Definition cached_accounts (db : AccountsDb) (k : address) (acc : account)
    : gmap address account :=
  if is_program_write k acc then inner db else <[k := acc]> (inner db).

Lemma add_account_reflects db db' k acc :
  db_coherent db → add_account db k acc = (db', Ok ()) →
  cache_reflects (sysvar_cache db') (cached_accounts db k acc).
Proof.
  intros Hco Hadd. unfold cached_accounts. destruct (is_program_write k acc) eqn:Hp.
  { by rewrite (add_account_cache_program _ _ _ _ Hp Hadd). }
  destruct (decide (k ∈ handled_sysvars)) as [Hin|Hout].
  - rewrite (add_account_cache_refilled _ _ _ _ Hin Hp Hadd). apply cache_reflects_fill.
  - rewrite (add_account_cache_other _ _ _ _ Hout Hadd).
    eapply cache_reflects_ext; [|exact Hco]. intros k' Hk'.
    assert (k ≠ k') by (intros ->; done). by simplify_map_eq.
Qed.

(** The write of an account that loses the cache's coherence: a program or an empty
    account at the address of a sysvar. *)
Definition stale_write (k : address) (acc : account) : Prop :=
  k ∈ handled_sysvars ∧ (is_program_write k acc = true ∨ lamports acc = 0%N).

Lemma add_account_coherent db db' k acc :
  db_coherent db → ¬ stale_write k acc → add_account db k acc = (db', Ok ()) → db_coherent db'.
Proof.
  intros Hco Hk Hadd. pose proof (add_account_reflects _ _ _ _ Hco Hadd) as Hr.
  pose proof (add_account_inner db k acc) as Hi. rewrite Hadd in Hi. unfold db_coherent.
  rewrite Hi. eapply cache_reflects_ext; [|exact Hr]. intros k' Hk'.
  unfold stale_write, cached_accounts in *.
  destruct (decide (k = k')) as [->|Hne]; [|by repeat case_match; simplify_map_eq].
  destruct (is_program_write k' acc); [tauto|]. destruct (N.eqb_spec (lamports acc) 0); [tauto|].
  done.
Qed.
End coherence.

(** ** Properties *)

Section properties.
Context `{SdkIds} `{SysvarApi} `{ProgramApi}.
Implicit Types db : AccountsDb.

(** C21.  What a successful checked insertion does to the store and to the sysvar
    cache of a coherent database.  The account is stored, or removed when it has no
    lamports, and no other account changes.  The seven sysvars that the runtime
    reads from the cache are those of the store before the call with the account
    written into it, or of the store before the call when the account is a program.
    So the cache stays coherent with the store unless a program or an empty account
    is written to the address of a sysvar, and in these two cases it keeps the
    sysvar that the store has lost or replaced. *)
Theorem add_account_keeps_cache_coherent `{!SysvarLaws} db db' k acc
  (Hco : db_coherent db) (Hadd : add_account db k acc = (db', Ok ())) :
  inner db' !! k = stored acc ∧
  (∀ k', k' ≠ k → inner db' !! k' = inner db !! k') ∧
  cache_reflects (sysvar_cache db')
    (if is_program_write k acc then inner db else <[k := acc]> (inner db)) ∧
  (¬ stale_write k acc → db_coherent db').
Proof.
  pose proof (add_account_inner db k acc) as Hi. rewrite Hadd in Hi.
  split_and!; [| |by apply add_account_reflects|intros Hk; by eapply add_account_coherent].
  - rewrite Hi. unfold stored. by case_match; simplify_map_eq.
  - intros k' Hne. rewrite Hi. by case_match; simplify_map_eq.
Qed.

(** Writing a [Rent] account whose data does not deserialize is rejected and
    leaves the store as it was, but the cache has been reset already and now has
    no rent at all; the same rejected write at the clock's address changes
    nothing. *)
Theorem rejected_rent_write_loses_cached_rent `{!SdkIdsLaws} `{!SysvarLaws} db acc
  (Hexec : executable acc = false)
  (Hbad : deserialize_from (T := Rent) (data acc) = None)
  (Hbadc : deserialize_from (T := Clock) (data acc) = None) :
  let db' := (add_account db rent_id acc).1 in
  (add_account db rent_id acc).2 = Err (LE_InvalidSysvarData ISD_Rent) ∧
  inner db' = inner db ∧ cache_get_rent (sysvar_cache db') = None ∧
  add_account db clock_id acc = (db, Err (LE_InvalidSysvarData ISD_Clock)).
Proof.
  assert (∀ i k, (i < 8)%nat → (instructions_id :: slot_history_id :: handled_sysvars) !! i = Some k →
    (rent_id =? k)%N = false) as Hne.
  { intros i k Hi Hk. apply N.eqb_neq.
    apply (NoDup_ne _ 8 i _ _ sysvar_ids_distinct); [done|done|lia]. }
  unfold add_account, maybe_handle_sysvar_account. rewrite Hexec. simpl.
  rewrite (Hne 2 clock_id), (Hne 3 epoch_rewards_id), (Hne 4 epoch_schedule_id), (Hne 5 fees_id),
    (Hne 6 last_restart_slot_id), (Hne 7 recent_blockhashes_id) by (done || lia).
  rewrite !N.eqb_refl, handle_sysvar_spec, Hbad, Hbadc. simpl.
  split_and!; try done. rewrite cache_get_rent_fill. unfold sysvar_source.
  by rewrite N.eqb_refl.
Qed.

(** Committing the accounts of a transaction writes each of them at its
    address, or removes it when it has no lamports, and nothing else, in whatever
    order the partition leaves them: the resulting store does not depend on it. *)
Theorem sync_accounts_store `{PartitionApi} `{!PartitionLaws} db db' accounts
  (Hnd : NoDup accounts.*1) (Hsync : sync_accounts db accounts = (db', Ok ())) :
  (∀ k acc, (k, acc) ∈ accounts → inner db' !! k = stored acc) ∧
  (∀ k, k ∉ accounts.*1 → inner db' !! k = inner db !! k).
Proof.
  by apply sync_accounts_written.
Qed.

(** C32.  The bytes that [try_program_elf_bytes] reports for a stored program are
    those that loading it verifies and caches, with the same errors; only a
    program whose program-data account is gone is reported as missing while it
    loads as a closed tombstone. *)
Theorem elf_bytes_match_loaded_program db k acc (Hk : inner db !! k = Some acc) :
  match try_program_elf_bytes db k with
  | Ok elf => ∃ loader size, load_program db acc = new_entry db loader elf size
  | Err IE_MissingAccount => load_program db acc = Ok (entry_closed_tombstone (cached_slot db))
  | Err e => load_program db acc = Err e
  end.
Proof.
  unfold try_program_elf_bytes, load_program, get_account. rewrite Hk.
  destruct ((owner acc =? bpf_loader_id)%N || (owner acc =? bpf_loader_deprecated_id)%N); [eauto|].
  destruct (owner acc =? bpf_loader_upgradeable_id)%N.
  - destruct (deserialize_program_state (data acc)) as [pda|]; [|done].
    destruct (inner db !! pda) as [pd|]; [|done].
    destruct (get_from _ (data pd)); simpl; eauto.
  - destruct (owner acc =? loader_v4_id)%N; [|done].
    destruct (get_from _ (data acc)); simpl; eauto.
Qed.

(** Charging a fee debits exactly the fee from the stored account and
    touches nothing else; it is refused, with the database unchanged, exactly when
    the account is missing or its balance does not cover the fee on top of the
    rent-exempt minimum that a nonce account must keep. *)
Theorem withdraw_correct `{RentApi} `{SystemApi} db addr l acc rent
  (Hacc : inner db !! addr = Some acc) (Hrent : cache_get_rent (sysvar_cache db) = Some rent)
  (Hmax : (lamports acc ≤ u64_max)%N) :
  let min_balance := match get_system_account_kind acc with
                     | Some Nonce => rent_minimum_balance rent nonce_state_size
                     | _ => 0%N end in
  withdraw db addr l =
  if (l + min_balance <=? lamports acc)%N
  then Ret (with_inner db (<[addr := set_lamports acc (lamports acc - l)]> (inner db)), Ok ())
  else Ret (db, Err TE_InsufficientFundsForFee).
Proof.
  intros min_balance. unfold withdraw. rewrite Hacc, Hrent. simpl.
  set (mb := match get_system_account_kind acc with
             | Some Nonce => Ret (rent_minimum_balance rent nonce_state_size)
             | _ => Ret 0%N end).
  assert (mb = Ret min_balance) as ->
    by (unfold mb, min_balance; by destruct (get_system_account_kind acc) as [[]|]).
  simpl. unfold checked_add. destruct (N.leb_spec (l + min_balance) u64_max); simpl.
  - destruct (N.leb_spec (l + min_balance) (lamports acc)); [|done].
    unfold checked_sub_lamports, checked_sub. destruct (N.leb_spec l (lamports acc)); [done|lia].
  - destruct (N.leb_spec (l + min_balance) (lamports acc)); [lia|done].
Qed.
End properties.
