(* ===== verification/Vm.v ===== *)
(** * The virtual machine interface and message processing

    The transaction-level crates LiteSVM hands a message to (sanitization, fees,
    transaction and invoke contexts) as a class of operations, and
    crates/litesvm/src/message_processor.rs, which drives the invoke context
    through the top-level instructions of a message. *)

From S2P Require Import Prelude Errors ComputeBudget Runtime AccountsDb.

(** The error type of precompiles and their verification. *)
Class PrecompileApi `{FeatureApi} : Type := {
  PrecompileError : Type;
  precompile_invalid_public_key : PrecompileError;
  Precompile : Type;
  (** [agave_precompiles::is_precompile] and [get_precompile], given the test of
      whether a feature is active. *)
  precompile_is : address → (address → bool) → bool;
  precompile_get : address → (address → bool) → option Precompile;
  precompile_verify : Precompile → bytes → list bytes → FeatureSet → result PrecompileError ();
  (** [get_precompiles()]: program id and the feature that gates it. *)
  precompiles_all : list (address * option address) }.

(** What the runtime calls back ([InvokeContextCallback]). *)
Record InvokeContextCallback `{PrecompileApi} : Type := {
  cb_get_epoch_stake : N;
  cb_get_epoch_stake_for_vote_account : address → N;
  cb_is_precompile : address → bool;
  cb_process_precompile : address → bytes → list bytes → result PrecompileError () }.

(** The arguments of [EnvironmentConfig::new]. *)
Record EnvironmentConfig `{PrecompileApi} `{SysvarApi} `{ProgramApi} : Type := {
  ec_blockhash : hash;
  ec_lamports_per_signature : N;
  ec_callback : InvokeContextCallback;
  ec_feature_set : FeatureSet;
  ec_env_for_execution : RuntimeEnvironment;
  ec_env_for_deployment : RuntimeEnvironment;
  ec_sysvar_cache : SysvarCache }.

Class VmApi `{PrecompileApi} `{SysvarApi} `{ProgramApi} : Type := {
  VersionedTransaction : Type;
  (** [SanitizedTransaction::try_create], given the address loader, which may
      panic, and the reserved keys. *)
  try_create : VersionedTransaction →
    (list MessageAddressTableLookup → outcome (result AddressLoaderError LoadedAddresses)) →
    list address → outcome (result TransactionError SanitizedTransaction);
  validate_account_locks : SanitizedMessage → N → result TransactionError ();
  tx_verify : SanitizedTransaction → result TransactionError ();
  max_tx_account_locks : N;
  try_from_sanitized_message :
    SanitizedMessage → FeatureSet → result TransactionError TransactionConfiguration;
  (** [solana_fee::calculate_fee(message, lamports_per_signature,
      prioritization_fee, features)] *)
  calculate_fee : SanitizedMessage → N → N → FeatureSet → N;
  construct_instructions_data : SanitizedMessage → option bytes;
  compute_budget_with_defaults : bool → ComputeBudget;
  nonced_tx_marker_ix_index : nat;
  TransactionContext : Type;
  context_new : list (address * account) → Rent → N → N → nat → TransactionContext;
  context_try_borrow : TransactionContext → nat → result InstructionError account;
  context_key_at : TransactionContext → nat → result InstructionError address;
  (** [ExecutionRecord]: the accounts and the return data. *)
  context_accounts : TransactionContext → list (address * account);
  context_return_data : TransactionContext → TransactionReturnData;
  (** The instruction trace, by index. *)
  context_trace : TransactionContext → list (option InstructionContext);
  LogCollector : Type;
  log_collector_new : option N → LogCollector;
  log_messages : LogCollector → list str;
  InvokeContext : Type;
  invoke_context_new : TransactionContext → ProgramCache → EnvironmentConfig →
    LogCollector → ComputeBudget → InvokeContext;
  ic_context : InvokeContext → TransactionContext;
  ic_log_collector : InvokeContext → LogCollector;
  ic_prepare_top_level_instructions :
    InvokeContext → SanitizedMessage → InvokeContext * result (N * InstructionError) ();
  ic_is_precompile : InvokeContext → address → bool;
  ic_process_precompile :
    InvokeContext → address → bytes → list bytes → InvokeContext * result InstructionError ();
  (** The consumed units, the context and the result of one instruction. *)
  ic_process_instruction : InvokeContext → N * InvokeContext * result InstructionError () }.

Section message_processor.
Context `{VmApi}.

(** One iteration of the loop: execute, account for the units, number the error. *)
Definition process_one (msg : SanitizedMessage) (ic : InvokeContext) (units : N)
    (top_level_instruction_index : nat) (program_id : address) (ix : CompiledInstruction)
    : N * InvokeContext * result TransactionError () :=
  let '(compute_units_consumed, ic, res) :=
    if ic_is_precompile ic program_id then
      let (ic, res) := ic_process_precompile ic program_id (ix_data ix)
                         (ix_data <$> (program_instructions_iter msg).*2) in
      (0%N, ic, res)
    else ic_process_instruction ic in
  (saturating_add u64_max units compute_units_consumed, ic,
   map_err (TE_InstructionError (as_u8 (N.of_nat top_level_instruction_index))) res).

Fixpoint process_loop (msg : SanitizedMessage) (ic : InvokeContext) (units : N)
    (top_level_instruction_index : nat) (ixs : list (address * CompiledInstruction * N))
    : N * InvokeContext * result TransactionError () :=
  match ixs with
  | [] => (units, ic, Ok ())
  | (program_id, ix, _) :: ixs =>
      match process_one msg ic units top_level_instruction_index program_id ix with
      | (units, ic, Err e) => (units, ic, Err e)
      | (units, ic, Ok _) => process_loop msg ic units (S top_level_instruction_index) ixs
      end
  end.

(** The accumulated units, the context and the result. *)
Definition process_message (msg : SanitizedMessage) (program_indices : list N)
    (ic : InvokeContext) (accumulated_consumed_units : N)
    : N * InvokeContext * result TransactionError () :=
  match ic_prepare_top_level_instructions ic msg with
  | (ic, Err (instruction_index, err)) =>
      (accumulated_consumed_units, ic, Err (TE_InstructionError instruction_index err))
  | (ic, Ok _) =>
      process_loop msg ic accumulated_consumed_units 0
        (zip (program_instructions_iter msg) program_indices)
  end.

(** ** Laws of the runtime

    Executing an instruction keeps the accounts of the transaction in place,
    leaves alone those the message does not mark writable, and, when it succeeds,
    neither creates nor destroys lamports. *)

Definition context_lamports (c : TransactionContext) : N :=
  list_sum (λ x, lamports x.2) (context_accounts c).

(** [c'] is [c] after execution with the given write permissions. *)
Definition readonly_kept (w : nat → bool) (c c' : TransactionContext) : Prop :=
  (context_accounts c').*1 = (context_accounts c).*1 ∧
  ∀ i, w i = false → context_accounts c' !! i = context_accounts c !! i.

(** The write permissions registered for the top-level instructions, which the
    runtime enforces. *)
Class VmPermissions : Type := {
  ic_permissions : InvokeContext → nat → bool }.

Class VmLaws `{VmPermissions} : Prop := {
  context_new_accounts accs rent d t n : context_accounts (context_new accs rent d t n) = accs;
  context_try_borrow_account c i acc :
    context_try_borrow c i = Ok acc → (context_accounts c).*2 !! i = Some acc;
  context_key_at_key c i k :
    context_key_at c i = Ok k → (context_accounts c).*1 !! i = Some k;
  invoke_context_new_context c pc e lc b : ic_context (invoke_context_new c pc e lc b) = c;
  prepare_permissions ic msg ic' :
    ic_prepare_top_level_instructions ic msg = (ic', Ok ()) →
    (∀ i, ic_permissions ic' i = is_writable msg i) ∧ ic_context ic' = ic_context ic;
  precompile_frame ic p d ds ic' r :
    ic_process_precompile ic p d ds = (ic', r) →
    (∀ i, ic_permissions ic' i = ic_permissions ic i) ∧ ic_context ic' = ic_context ic;
  instruction_frame ic u ic' r :
    ic_process_instruction ic = (u, ic', r) →
    (∀ i, ic_permissions ic' i = ic_permissions ic i) ∧
    readonly_kept (ic_permissions ic) (ic_context ic) (ic_context ic');
  instruction_balanced ic u ic' :
    ic_process_instruction ic = (u, ic', Ok ()) →
    context_lamports (ic_context ic') = context_lamports (ic_context ic) }.

(** What sanitization guarantees of the transactions it lets through: a writable
    index is the index of an account key, an instruction's program is one of the
    keys, and validated locks are distinct keys. *)
Class SanitizeLaws : Prop := {
  try_create_writable tx loader reserved stx i :
    try_create tx loader reserved = Ret (Ok stx) →
    is_writable (message stx) i = true → (i < length (account_keys (message stx)))%nat;
  try_create_program_index tx loader reserved stx ix :
    try_create tx loader reserved = Ret (Ok stx) → ix ∈ instructions (message stx) →
    (N.to_nat (program_id_index ix) < length (account_keys (message stx)))%nat;
  validate_account_locks_distinct msg n :
    validate_account_locks msg n = Ok () → NoDup (account_keys msg) }.
End message_processor.

(** ** Lemmas *)

Section lemmas.
Context `{VmApi}.

Lemma readonly_kept_refl w c : readonly_kept w c c.
Proof. done. Qed.

Lemma readonly_kept_trans w w' c1 c2 c3 :
  (∀ i, w' i = w i) →
  readonly_kept w c1 c2 → readonly_kept w' c2 c3 → readonly_kept w c1 c3.
Proof.
  intros Hw [Hk1 Ha1] [Hk2 Ha2]. split; [by rewrite Hk2|].
  intros i Hi. rewrite Ha2 by (by rewrite Hw). auto.
Qed.

(** The units charged by a list of instructions is a saturating running sum, so
    never less than what was charged before. *)
Lemma process_loop_units msg ixs : ∀ ic units k,
  (units ≤ u64_max)%N →
  let '(units', _, _) := process_loop msg ic units k ixs in
  (units ≤ units' ≤ u64_max)%N.
Proof.
  induction ixs as [|[[p ix] n] ixs IH]; intros ic units k Hu; simpl; [lia|].
  destruct (process_one msg ic units k p ix) as [[u ic'] r] eqn:Hone.
  assert (units ≤ u ≤ u64_max)%N as Hu'.
  { unfold process_one, saturating_add in Hone. repeat case_match; simplify_eq/=; lia. }
  destruct r as [[]|e]; [|done].
  specialize (IH ic' u (S k) ltac:(lia)).
  destruct (process_loop msg ic' u (S k) ixs) as [[u' ic''] r]. lia.
Qed.

(** An error out of the loop carries the (low byte of the) index of the
    instruction that failed; those before it succeeded. *)
Lemma process_loop_err msg ixs : ∀ ic units k units' ic' e,
  process_loop msg ic units k ixs = (units', ic', Err e) →
  ∃ j x e', ixs !! j = Some x ∧ e = TE_InstructionError (as_u8 (N.of_nat (k + j))) e' ∧
    ∃ u1 ic1, process_loop msg ic units k (take j ixs) = (u1, ic1, Ok ()).
Proof.
  induction ixs as [|[[p ix] n] ixs IH]; intros ic units k units' ic' e; simpl; [done|].
  destruct (process_one msg ic units k p ix) as [[u ic1] [[]|e1]] eqn:Hone.
  - intros Hl. destruct (IH _ _ _ _ _ _ Hl) as (j & x & e' & Hj & -> & u2 & ic2 & Htake).
    exists (S j), x, e'. split; [done|]. split; [by rewrite Nat.add_succ_r|].
    simpl. rewrite Hone. eauto.
  - intros [= <- <- <-]. unfold process_one in Hone.
    destruct (if ic_is_precompile ic p then _ else _) as [[u0 ic0] [|e0]]; simplify_eq/=.
    exists 0, (p, ix, n), e0. rewrite Nat.add_0_r. split_and!; eauto.
Qed.

Context `{!VmPermissions} `{!VmLaws}.

Lemma process_one_frame msg ic units k p ix u ic' r :
  process_one msg ic units k p ix = (u, ic', r) →
  (∀ i, ic_permissions ic' i = ic_permissions ic i) ∧
  readonly_kept (ic_permissions ic) (ic_context ic) (ic_context ic') ∧
  (r = Ok () → context_lamports (ic_context ic') = context_lamports (ic_context ic)).
Proof.
  unfold process_one. destruct (ic_is_precompile ic p).
  - destruct (ic_process_precompile ic p _ _) as [ic1 r1] eqn:Hp. intros [= _ <- <-].
    destruct (precompile_frame _ _ _ _ _ _ Hp) as [? ->]. auto using readonly_kept_refl.
  - destruct (ic_process_instruction ic) as [[u1 ic1] r1] eqn:Hi. intros [= _ <- <-].
    destruct (instruction_frame _ _ _ _ Hi) as [? ?]. split_and!; [done..|].
    destruct r1 as [[]|]; [intros _; by eapply instruction_balanced|done].
Qed.

Lemma process_loop_frame msg ixs : ∀ ic units k u ic' r,
  process_loop msg ic units k ixs = (u, ic', r) →
  readonly_kept (ic_permissions ic) (ic_context ic) (ic_context ic') ∧
  (r = Ok () → context_lamports (ic_context ic') = context_lamports (ic_context ic)).
Proof.
  induction ixs as [|[[p ix] n] ixs IH]; intros ic units k u ic' r; simpl.
  { intros [= _ <- _]. auto using readonly_kept_refl. }
  destruct (process_one msg ic units k p ix) as [[u1 ic1] r1] eqn:Hone.
  destruct (process_one_frame _ _ _ _ _ _ _ _ _ Hone) as (Hp & Hro & Hlam).
  destruct r1 as [[]|e1]; [|intros [= _ <- <-]; done].
  intros Hl. destruct (IH _ _ _ _ _ _ Hl) as [Hro' Hlam']. split.
  - by eapply readonly_kept_trans.
  - intros Hr. rewrite Hlam' by done. auto.
Qed.

Lemma process_message_frame msg idx ic units u ic' r :
  process_message msg idx ic units = (u, ic', r) → r = Ok () →
  readonly_kept (is_writable msg) (ic_context ic) (ic_context ic') ∧
  context_lamports (ic_context ic') = context_lamports (ic_context ic).
Proof.
  unfold process_message.
  destruct (ic_prepare_top_level_instructions ic msg) as [ic1 [[]|[i e]]] eqn:Hprep;
    [|intros [= _ _ <-]; done].
  destruct (prepare_permissions _ _ _ Hprep) as [Hp Hc]. intros Hl Hr.
  destruct (process_loop_frame _ _ _ _ _ _ _ _ Hl) as [Hro Hlam].
  rewrite Hc in Hro, Hlam. split; [|auto].
  destruct Hro as [Hk Ha]. split; [done|]. intros i Hi. apply Ha. by rewrite Hp.
Qed.
End lemmas.

(** ** Properties *)

(** When a message fails, some instruction failed after all the ones
    before it succeeded, and the reported index is the low byte of its position
    in the message (or preparing the instructions failed). *)
Theorem process_message_error_index `{VmApi} msg indices ic units units' ic' e
  (Hrun : process_message msg indices ic units = (units', ic', Err e)) :
  (∃ i err, ic_prepare_top_level_instructions ic msg = (ic', Err (i, err))
     ∧ e = TE_InstructionError i err) ∨
  (∃ j err ic1 ic2 u2, (j < length (program_instructions_iter msg))%nat ∧
     ic_prepare_top_level_instructions ic msg = (ic1, Ok ()) ∧
     e = TE_InstructionError (as_u8 (N.of_nat j)) err ∧
     process_loop msg ic1 units 0 (take j (zip (program_instructions_iter msg) indices))
     = (u2, ic2, Ok ())).
Proof.
  revert Hrun. unfold process_message.
  destruct (ic_prepare_top_level_instructions ic msg) as [ic1 [[]|[i err]]] eqn:Hprep.
  - intros Hl. right.
    destruct (process_loop_err _ _ _ _ _ _ _ _ Hl) as (j & x & err & Hj & -> & u2 & ic2 & Ht).
    exists j, err, ic1, ic2, u2. split_and!; try done.
    apply lookup_lt_Some in Hj. rewrite length_zip in Hj. lia.
  - intros [= _ <- <-]. left. eauto.
Qed.
