(* ===== verification/InnerInstructions.v ===== *)
(** * Inner instructions (crates/litesvm/src/utils/inner_instructions.rs)

    Groups the CPI entries of an instruction trace under the top-level
    instruction each of them descends from. *)

From S2P Require Import Prelude Errors ComputeBudget Runtime Types.

Section inner.
(** [solana_instruction::TRANSACTION_LEVEL_STACK_HEIGHT]. *)
Context (TRANSACTION_LEVEL_STACK_HEIGHT : N).
Implicit Types trace : list (option InstructionContext).

Definition is_top_level (e : option InstructionContext) : bool :=
  match e with
  | Some ic => (get_stack_height ic =? TRANSACTION_LEVEL_STACK_HEIGHT)%N
  | None => false
  end.

(** The [while] loop that counts the head of the trace. *)
Fixpoint count_top_level (trace : list (option InstructionContext)) : nat :=
  match trace with
  | e :: trace => if is_top_level e then S (count_top_level trace) else 0
  | [] => 0
  end.

Definition make_inner_instruction (ic : InstructionContext) : InnerInstruction := {|
  ii_instruction := {|
    program_id_index := as_u8 (default 0%N (get_index_of_program_account ic));
    ix_accounts := (λ i, as_u8 (default 0%N i)) <$> get_instruction_accounts ic;
    ix_data := get_instruction_data ic |};
  ii_stack_height := N.min u8_max (get_stack_height ic) |}.

(** One iteration; [usize::MAX] stands for an unresolved ancestor. *)
Definition inner_step (st : InnerInstructionsList * list N) (e : option InstructionContext)
    : InnerInstructionsList * list N :=
  let (outer_instructions, top_level_ancestor) := st in
  let ancestor :=
    default u64_max (ic ← e; top_level_ancestor !! N.to_nat (get_index_of_caller ic)) in
  let top_level_ancestor := top_level_ancestor ++ [ancestor] in
  match e, outer_instructions !! N.to_nat ancestor with
  | Some ic, Some inner =>
      (<[N.to_nat ancestor := inner ++ [make_inner_instruction ic]]> outer_instructions,
       top_level_ancestor)
  | _, _ => (outer_instructions, top_level_ancestor)
  end.

Definition inner_instructions_list_from_instruction_trace
    (trace : list (option InstructionContext)) : InnerInstructionsList :=
  let num_top_level := count_top_level trace in
  (foldl inner_step
     (replicate num_top_level [], N.of_nat <$> seq 0 num_top_level)
     (drop num_top_level trace)).1.

(** ** Reference definition *)

(** The index of the caller of each trace entry. *)
Definition caller_of (trace : list (option InstructionContext)) (i : nat) : nat :=
  match trace !! i with Some (Some ic) => N.to_nat (get_index_of_caller ic) | _ => i end.

(** The top-level ancestor, following callers for at most [fuel] steps. *)
Fixpoint root_of (trace : list (option InstructionContext)) (top fuel i : nat) : nat :=
  match fuel with
  | 0 => i
  | S fuel => if decide (i < top) then i else root_of trace top fuel (caller_of trace i)
  end.

(** The entries of the trace that descend from top-level instruction [r]. *)
Definition descendants (trace : list (option InstructionContext)) (r : nat)
    : list InnerInstruction :=
  let top := count_top_level trace in
  omap (λ i, ic ← mjoin (trace !! i);
             if decide (root_of trace top (S i) i = r) then Some (make_inner_instruction ic)
             else None)
       (seq top (length trace - top)).

(** Every entry is present and callers precede callees. *)
Definition trace_wf (trace : list (option InstructionContext)) : Prop :=
  (∀ i, i < length trace → is_Some (mjoin (trace !! i))) ∧
  (∀ i, count_top_level trace ≤ i < length trace → caller_of trace i < i).

(** ** Lemmas *)

Lemma count_top_level_le trace : count_top_level trace ≤ length trace.
Proof. induction trace as [|e trace IH]; cbn; [lia|]. destruct (is_top_level e); simpl; lia. Qed.

(** Enough fuel is the index itself plus one. *)
Lemma root_of_fuel trace fuel : ∀ i fuel',
  trace_wf trace → i < length trace → i < fuel → i < fuel' →
  root_of trace (count_top_level trace) fuel i
  = root_of trace (count_top_level trace) fuel' i.
Proof.
  induction fuel as [|fuel IH]; intros i fuel' Hwf Hi Hf Hf'; [lia|].
  destruct fuel' as [|fuel']; [lia|]. simpl. case_decide as Ht; [done|].
  pose proof (proj2 Hwf i) as Hc. apply IH; [done|lia..].
Qed.

Lemma root_of_lt trace fuel : ∀ i,
  trace_wf trace → i < length trace → i < fuel →
  root_of trace (count_top_level trace) fuel i < count_top_level trace.
Proof.
  induction fuel as [|fuel IH]; intros i Hwf Hi Hf; [lia|]. simpl.
  case_decide as Ht; [done|]. destruct (Hwf) as [He Hc]. specialize (Hc i).
  apply IH; [done|lia..].
Qed.

Definition root trace (i : nat) : nat := root_of trace (count_top_level trace) (S i) i.

Lemma root_top trace i : i < count_top_level trace → root trace i = i.
Proof. intros Hi. unfold root. simpl. by case_decide. Qed.

Lemma root_caller trace i :
  trace_wf trace → count_top_level trace ≤ i < length trace →
  root trace i = root trace (caller_of trace i).
Proof.
  intros Hwf Hi. unfold root at 1. simpl. case_decide as Ht; [lia|].
  destruct (Hwf) as [_ Hc]. specialize (Hc i Hi). apply root_of_fuel; auto; lia.
Qed.

(** What the reference collects from the entries before [n]. *)
Definition collected trace (n r : nat) : list InnerInstruction :=
  let top := count_top_level trace in
  omap (λ i, ic ← mjoin (trace !! i);
             if decide (root trace i = r) then Some (make_inner_instruction ic) else None)
       (seq top (n - top)).

Lemma collected_S trace n r ic :
  count_top_level trace ≤ n → trace !! n = Some (Some ic) →
  collected trace (S n) r
  = collected trace n r ++ (if decide (root trace n = r) then [make_inner_instruction ic] else []).
Proof.
  intros Hn Hic. unfold collected.
  replace (S n - count_top_level trace) with (S (n - count_top_level trace)) by lia.
  rewrite seq_S, omap_app. f_equal. simpl.
  replace (count_top_level trace + (n - count_top_level trace)) with n by lia.
  rewrite Hic. simpl. by case_decide.
Qed.

(** The state of the loop after the entries before [n]. *)
Definition loop_inv trace (n : nat) (st : InnerInstructionsList * list N) : Prop :=
  length st.1 = count_top_level trace ∧
  (∀ r, r < count_top_level trace → st.1 !! r = Some (collected trace n r)) ∧
  st.2 = N.of_nat ∘ root trace <$> seq 0 n.

Lemma inner_step_inv trace n st e :
  trace_wf trace → count_top_level trace ≤ n → trace !! n = Some e →
  loop_inv trace n st → loop_inv trace (S n) (inner_step st e).
Proof.
  intros Hwf Hn He (Hlen & Hout & Hanc). destruct st as [outer anc]. simpl in *. subst anc.
  pose proof (lookup_lt_Some _ _ _ He) as Hlt.
  destruct Hwf as [Hsome Hcall] eqn:Hwfeq. clear Hwfeq.
  destruct (Hsome n Hlt) as [ic Hic]. rewrite He in Hic. simpl in Hic. subst e.
  pose proof (Hcall n ltac:(lia)) as Hc.
  assert (caller_of trace n = N.to_nat (get_index_of_caller ic)) as Hcn
    by (unfold caller_of; by rewrite He).
  unfold inner_step. simpl. rewrite <-Hcn, list_lookup_fmap, lookup_seq_lt by lia. simpl.
  rewrite <-root_caller by (done || lia). rewrite Nat2N.id.
  assert (root trace n < count_top_level trace) as Hr by (apply root_of_lt; [done|lia..]).
  rewrite (Hout _ Hr). split_and!; cbn [fst snd].
  - by rewrite length_insert.
  - intros r Hr'. rewrite (collected_S _ _ _ _ Hn He).
    destruct (decide (root trace n = r)) as [<-|Hne].
    + by rewrite list_lookup_insert_eq by lia.
    + rewrite list_lookup_insert_ne by done. rewrite app_nil_r. auto.
  - by rewrite seq_S, fmap_app.
Qed.

Lemma inner_loop_inv trace rest : ∀ n st,
  trace_wf trace → count_top_level trace ≤ n → drop n trace = rest →
  loop_inv trace n st → loop_inv trace (n + length rest) (foldl inner_step st rest).
Proof.
  induction rest as [|e rest IH]; intros n st Hwf Hn Hd Hinv; simpl.
  { by rewrite Nat.add_0_r. }
  assert (trace !! n = Some e) as He.
  { rewrite <-(Nat.add_0_r n), <-lookup_drop, Hd. done. }
  rewrite <-Nat.add_succ_comm. apply IH; [done|lia| |by apply inner_step_inv].
  rewrite <-(drop_drop trace n 1) || rewrite <-Nat.add_1_r, <-drop_drop. by rewrite Hd.
Qed.

(** ** Properties *)

(** C31.  On a trace whose entries are present and whose callers precede their
    callees, the result has one list per top-level instruction, and each list is
    exactly the CPI entries that descend from it through the chain of callers, in
    trace order. *)
Theorem inner_instructions_grouped trace (Hwf : trace_wf trace) :
  inner_instructions_list_from_instruction_trace trace
  = descendants trace <$> seq 0 (count_top_level trace).
Proof.
  pose proof (count_top_level_le trace) as Hle. set (top := count_top_level trace) in *.
  assert (loop_inv trace (length trace)
    (foldl inner_step (replicate top [], N.of_nat <$> seq 0 top) (drop top trace))) as Hinv.
  { replace (length trace) with (top + length (drop top trace)) by (rewrite length_drop; lia).
    apply inner_loop_inv; try done. split_and!; simpl.
    - by rewrite length_replicate.
    - intros r Hr. rewrite lookup_replicate_2 by done. unfold collected. fold top.
      by rewrite Nat.sub_diag.
    - apply list_fmap_ext. intros i x [-> Hi]%lookup_seq. simpl. by rewrite root_top. }
  unfold inner_instructions_list_from_instruction_trace. fold top.
  destruct Hinv as (Hlen & Hout & _). apply list_eq. intros r.
  rewrite list_lookup_fmap. destruct (decide (r < top)) as [Hr|Hr].
  - rewrite (Hout r Hr), lookup_seq_lt by done. done.
  - rewrite lookup_ge_None_2 by (rewrite Hlen; lia).
    rewrite lookup_ge_None_2; [done|]. rewrite length_seq. lia.
Qed.
End inner.
