(* ===== verification/Features.v ===== *)
(** * Mainnet features (crates/litesvm/src/features.rs)

    The feature gates active on mainnet-beta with their activation slots, the
    slot LiteSVM starts at and the feature set it activates. *)

From S2P Require Import Prelude Errors ComputeBudget Runtime.

(** The table, in source order; a feature is named by its path in the feature-set
    crate. *)
Definition mainnet_features_1 : list (string * N) :=
  [("deprecate_rewards_sysvar", 55728001%N);
   ("pico_inflation", 57456000%N);
   ("full_inflation::mainnet::certusone::vote", 64800004%N);
   ("full_inflation::mainnet::certusone::enable", 64800004%N);
   ("secp256k1_program_enabled", 41040000%N);
   ("spl_token_v2_multisig_fix", 41040000%N);
   ("no_overflow_rent_distribution", 51408000%N);
   ("filter_stake_delegation_accounts", 57888004%N);
   ("require_custodian_for_locked_stake_authorize", 71712000%N);
   ("spl_token_v2_self_transfer_fix", 66528004%N);
   ("warp_timestamp_again", 66528004%N);
   ("check_init_vote_data", 68688000%N);
   ("secp256k1_recover_syscall_enabled", 104976000%N);
   ("system_transfer_zero_check", 93312000%N);
   ("dedupe_config_program_signers", 110592000%N);
   ("verify_tx_signatures_len", 102816004%N);
   ("vote_stake_checked_instructions", 92448000%N);
   ("rent_for_sysvars", 104976000%N);
   ("libsecp256k1_0_5_upgrade_enabled", 110592000%N);
   ("tx_wide_compute_cap", 135216004%N);
   ("spl_token_v2_set_authority_fix", 93312000%N);
   ("merge_nonce_error_into_system_error", 151632012%N);
   ("disable_fees_sysvar", 208656004%N);
   ("stake_merge_with_unmatched_credits_observed", 104112000%N);
   ("curve25519_syscall_enabled", 275184000%N);
   ("curve25519_restrict_msm_length", 262224008%N);
   ("versioned_tx_message_enabled", 154656004%N);
   ("libsecp256k1_fail_on_bad_count2", 200880004%N);
   ("instructions_sysvar_owned_by_sysvar", 152496000%N);
   ("stake_program_advance_activating_credits_observed", 104112000%N);
   ("credits_auto_rewind", 200448008%N);
   ("demote_program_write_locks", 100656000%N);
   ("ed25519_program_enabled", 117936008%N);
   ("return_data_syscall_enabled", 117936008%N);
   ("reduce_required_deploy_balance", 102816004%N);
   ("sol_log_data_syscall_enabled", 117936008%N);
   ("stakes_remove_delegation_if_inactive", 110592000%N);
   ("do_support_realloc", 133920008%N);
   ("prevent_calling_precompiles_as_programs", 143424004%N);
   ("optimize_epoch_boundary_updates", 109728000%N);
   ("remove_native_loader", 117072004%N);
   ("send_to_tpu_vote_port", 101088000%N);
   ("requestable_heap_size", 135216004%N);
   ("disable_fee_calculator", 147744004%N);
   ("add_compute_budget_program", 117072004%N);
   ("nonce_must_be_writable", 136944004%N);
   ("spl_token_v3_3_0_release", 117072004%N);
   ("leave_nonce_on_success", 133056012%N);
   ("reject_empty_instruction_without_program", 137376016%N);
   ("fixed_memcpy_nonoverlapping_check", 137808012%N);
   ("reject_non_rent_exempt_vote_withdraws", 117072004%N);
   ("evict_invalid_stakes_cache_entries", 117072004%N);
   ("allow_votes_to_directly_update_vote_state", 212112000%N);
   ("max_tx_account_locks", 140400004%N);
   ("require_rent_exempt_accounts", 133488000%N)]%string.

Definition mainnet_features_2 : list (string * N) :=
  [("filter_votes_outside_slot_hashes", 157680012%N);
   ("update_syscall_base_costs", 138672000%N);
   ("stake_deactivate_delinquent_instruction", 198720004%N);
   ("vote_withdraw_authority_may_change_authorized_voter", 138672000%N);
   ("spl_associated_token_account_v1_0_4", 130464000%N);
   ("reject_vote_account_close_unless_zero_credit_epoch", 170640000%N);
   ("add_get_processed_sibling_instruction_syscall", 134352008%N);
   ("bank_transaction_count_fix", 171072012%N);
   ("disable_bpf_deprecated_load_instructions", 139104000%N);
   ("disable_bpf_unresolved_symbols_at_runtime", 139104000%N);
   ("record_instruction_in_transaction_context_push", 141696000%N);
   ("syscall_saturated_math", 150768000%N);
   ("check_physical_overlapping", 142560008%N);
   ("limit_secp256k1_recovery_id", 142560008%N);
   ("disable_deprecated_loader", 167184008%N);
   ("check_slice_translation_size", 207792008%N);
   ("stake_split_uses_rent_sysvar", 203904008%N);
   ("add_get_minimum_delegation_instruction_to_stake_program", 199584000%N);
   ("error_on_syscall_bpf_function_hash_collisions", 280800004%N);
   ("reject_callx_r10", 279072000%N);
   ("drop_redundant_turbine_path", 199152000%N);
   ("executables_incur_cpi_data_cost", 139536000%N);
   ("fix_recent_blockhashes", 204768000%N);
   ("update_rewards_from_cached_accounts", 206064004%N);
   ("partitioned_epoch_rewards_superfeature", 305424000%N);
   ("spl_token_v3_4_0", 144288004%N);
   ("spl_associated_token_account_v1_1_0", 144288004%N);
   ("default_units_per_instruction", 141264004%N);
   ("stake_allow_zero_undelegated_amount", 200016004%N);
   ("require_static_program_ids_in_transaction", 153360000%N);
   ("add_set_compute_unit_price_ix", 142128000%N);
   ("disable_deploy_of_alloc_free_syscall", 209088008%N);
   ("include_account_index_in_rent_error", 154224000%N);
   ("add_shred_type_to_shred_seed", 137376016%N);
   ("warp_timestamp_with_a_vengeance", 136512012%N);
   ("separate_nonce_from_blockhash", 138240000%N);
   ("enable_durable_nonce", 138240000%N);
   ("vote_state_update_credit_per_dequeue", 212112000%N);
   ("quick_bail_on_panic", 140400004%N);
   ("nonce_must_be_authorized", 138240000%N);
   ("nonce_must_be_advanceable", 138240000%N);
   ("vote_authorize_with_seed", 148608004%N);
   ("preserve_rent_epoch_for_rent_exempt_accounts", 156384000%N);
   ("enable_bpf_loader_extend_program_ix", 229824000%N);
   ("enable_early_verification_of_account_modifications", 222048008%N);
   ("skip_rent_rewrites", 326160000%N);
   ("prevent_crediting_accounts_that_end_rent_paying", 161136000%N)]%string.

Definition mainnet_features_3 : list (string * N) :=
  [("cap_bpf_program_instruction_accounts", 205200004%N);
   ("loosen_cpi_size_restriction", 312768000%N);
   ("use_default_units_in_fee_calculation", 206496008%N);
   ("compact_vote_state_updates", 212112000%N);
   ("incremental_snapshot_only_incremental_hash_calculation", 243648004%N);
   ("disable_cpi_setting_executable_and_rent_epoch", 225936004%N);
   ("on_load_preserve_rent_epoch_for_rent_exempt_accounts", 204336000%N);
   ("account_hash_ignore_slot", 225504004%N);
   ("set_exempt_rent_epoch_max", 246240000%N);
   ("relax_authority_signer_check_for_lookup_table_creation", 249264000%N);
   ("stop_sibling_instruction_search_at_parent", 236304016%N);
   ("vote_state_update_root_fix", 202176000%N);
   ("cap_accounts_data_allocations_per_transaction", 224640020%N);
   ("epoch_accounts_hash", 228528004%N);
   ("remove_deprecated_request_unit_ix", 233280000%N);
   ("disable_rehash_for_rent_epoch", 204336000%N);
   ("limit_max_instruction_trace_length", 224208000%N);
   ("check_syscall_outputs_do_not_overlap", 174096000%N);
   ("enable_bpf_loader_set_authority_checked_ix", 251424000%N);
   ("enable_alt_bn128_syscall", 275616000%N);
   ("simplify_alt_bn128_syscall_error_codes", 274320000%N);
   ("enable_alt_bn128_compression_syscall", 276912000%N);
   ("fix_alt_bn128_multiplication_input_length", 361152000%N);
   ("enable_program_redeployment_cooldown", 228960012%N);
   ("commission_updates_only_allowed_in_first_half_of_epoch", 210384016%N);
   ("enable_turbine_fanout_experiments", 247104008%N);
   ("disable_turbine_fanout_experiments", 380160000%N);
   ("move_serialized_len_ptr_in_cpi", 202608000%N);
   ("update_hashes_per_tick", 232848000%N);
   ("disable_builtin_loader_ownership_chains", 207360004%N);
   ("cap_transaction_accounts_data_size", 230256020%N);
   ("remove_congestion_multiplier_from_fee_calculation", 236736000%N);
   ("enable_request_heap_frame_ix", 217296000%N);
   ("prevent_rent_paying_rent_recipients", 234144000%N);
   ("delay_visibility_of_program_deployment", 228960012%N);
   ("apply_cost_tracker_during_replay", 329616000%N);
   ("syscall_parameter_address_restrictions", 429840000%N);
   ("add_set_tx_loaded_accounts_data_size_instruction", 231984004%N);
   ("switch_to_new_elf_parser", 273888000%N);
   ("round_up_heap_size", 235440004%N);
   ("remove_bpf_loader_incorrect_program_id", 237168000%N);
   ("native_programs_consume_cu", 240624008%N);
   ("simplify_writable_program_account_check", 241056004%N);
   ("stop_truncating_strings_in_syscalls", 240192004%N);
   ("clean_up_delegation_errors", 211680000%N)]%string.

Definition mainnet_features_4 : list (string * N) :=
  [("vote_state_add_vote_latency", 252720000%N);
   ("checked_arithmetic_in_fee_validation", 234576004%N);
   ("last_restart_slot_sysvar", 282096004%N);
   ("reduce_stake_warmup_cooldown", 244080000%N);
   ("revise_turbine_epoch_stakes", 244944000%N);
   ("enable_poseidon_syscall", 278208000%N);
   ("timely_vote_credits", 303696000%N);
   ("require_rent_exempt_split_destination", 254016004%N);
   ("better_error_codes_for_tx_lamport_check", 222480020%N);
   ("update_hashes_per_tick2", 253584001%N);
   ("update_hashes_per_tick3", 255312004%N);
   ("update_hashes_per_tick4", 255744008%N);
   ("update_hashes_per_tick5", 257040000%N);
   ("update_hashes_per_tick6", 257904000%N);
   ("validate_fee_collector_account", 258336004%N);
   ("disable_rent_fees_collection", 326592000%N);
   ("drop_legacy_shreds", 259200004%N);
   ("allow_commission_decrease_at_any_time", 304128000%N);
   ("add_new_reserved_account_keys", 320976000%N);
   ("consume_blockstore_duplicate_proofs", 260064000%N);
   ("index_erasure_conflict_duplicate_proofs", 260496000%N);
   ("merkle_conflict_duplicate_proofs", 283824004%N);
   ("disable_bpf_loader_instructions", 259632004%N);
   ("cost_model_requested_write_lock_cost", 312336000%N);
   ("enable_gossip_duplicate_proof_ingestion", 284688004%N);
   ("enable_chained_merkle_shreds", 306720000%N);
   ("remove_rounding_in_fee_calculation", 317088000%N);
   ("enable_tower_sync_ix", 323568000%N);
   ("deprecate_unused_legacy_vote_plumbing", 283392000%N);
   ("reward_full_priority_fee", 320112000%N);
   ("get_sysvar_syscall_enabled", 321840000%N);
   ("abort_on_invalid_curve", 311904000%N);
   ("migrate_feature_gate_program_to_core_bpf", 324864000%N);
   ("vote_only_full_fec_sets", 332208000%N);
   ("migrate_config_program_to_core_bpf", 325296000%N);
   ("enable_get_epoch_stake_syscall", 330912000%N);
   ("migrate_address_lookup_table_program_to_core_bpf", 329184000%N);
   ("zk_elgamal_proof_program_enabled", 315792000%N);
   ("move_stake_and_move_lamports_ixs", 314064000%N);
   ("ed25519_precompile_verify_strict", 308448000%N);
   ("move_precompile_verification_to_svm", 328320000%N);
   ("enable_transaction_loading_failure_fees", 327024000%N);
   ("enable_sbpf_v1_deployment_and_execution", 349488000%N);
   ("enable_sbpf_v2_deployment_and_execution", 356400000%N);
   ("enable_sbpf_v3_deployment_and_execution", 428976000%N);
   ("remove_accounts_executable_flag_checks", 350352004%N);
   ("disable_account_loader_special_case", 314496000%N)]%string.

Definition mainnet_features_5 : list (string * N) :=
  [("enable_secp256r1_precompile", 345600000%N);
   ("accounts_lt_hash", 347328000%N);
   ("snapshots_lt_hash", 353376000%N);
   ("remove_accounts_delta_hash", 348624000%N);
   ("migrate_stake_program_to_core_bpf", 355536000%N);
   ("deplete_cu_meter_on_vm_failure", 327888000%N);
   ("reserve_minimal_cus_for_builtin_instructions", 327456000%N);
   ("raise_block_limits_to_50m", 332640000%N);
   ("drop_unchained_merkle_shreds", 354672000%N);
   ("relax_intrabatch_account_locks", 411696000%N);
   ("disable_partitioned_rent_collection", 349056000%N);
   ("enable_vote_address_leader_schedule", 363312000%N);
   ("require_static_nonce_account", 384480000%N);
   ("raise_block_limits_to_60m", 355104000%N);
   ("mask_out_rent_epoch_in_vm_serialization", 346032000%N);
   ("formalize_loaded_transaction_data_size", 381888000%N);
   ("disable_zk_elgamal_proof_program", 347760000%N);
   ("reenable_zk_elgamal_proof_program", 424224000%N);
   ("raise_block_limits_to_100m", 435888000%N);
   ("raise_account_cu_limit", 379296000%N);
   ("delay_commission_updates", 428112000%N);
   ("enforce_fixed_fec_set", 403920000%N);
   ("provide_instruction_data_offset_in_vm_r2", 410400000%N);
   ("create_account_allow_prefund", 422928004%N);
   ("static_instruction_limit", 404352000%N);
   ("discard_unexpected_data_complete_shreds", 434160000%N);
   ("vote_state_v4", 409968000%N);
   ("switch_to_chacha8_turbine", 408672000%N);
   ("increase_cpi_account_info_limit", 403056000%N);
   ("deprecate_rent_exemption_threshold", 407376000%N);
   ("poseidon_enforce_padding", 406080000%N);
   ("fix_alt_bn128_pairing_length_check", 406944000%N);
   ("replace_spl_token_with_p_token", 419472000%N);
   ("alt_bn128_little_endian", 425088000%N);
   ("bls_pubkey_management_in_vote_account", 431568000%N);
   ("relax_programdata_account_check_migration", 412992000%N);
   ("enable_alt_bn128_g2_syscalls", 425520000%N);
   ("commission_rate_in_basis_points", 433296000%N);
   ("enable_bls12_381_syscall", 425952004%N);
   ("remove_simple_vote_from_cost_model", 423792000%N);
   ("limit_instruction_accounts", 432000000%N);
   ("validate_chained_block_id", 428544000%N);
   ("validate_chained_block_id_2", 428544000%N);
   ("validator_admission_ticket", 434592000%N);
   ("loader_v3_minimum_extend_program_size", 432864000%N);
   ("upgrade_bpf_stake_program_to_v5", 427248000%N);
   ("define_ltds_fee_only_semantics", 435456000%N);
   ("reduce_slot_time_to_350ms", 440208000%N)]%string.

Definition mainnet_features : list (string * N) :=
  mainnet_features_1 ++ mainnet_features_2 ++ mainnet_features_3 ++ mainnet_features_4 ++ mainnet_features_5.

Definition MAINNET_ACTIVE_FEATURES `{SdkIds} : list (address * N) :=
  prod_map feature_id id <$> mainnet_features.

(** The [while] loop of the constant, over the slots. *)
Fixpoint max_slot_from (max : N) (features : list (string * N)) : N :=
  match features with
  | [] => max
  | (_, s) :: features => max_slot_from (if (max <? s)%N then s else max) features
  end.

Definition MAINNET_DEFAULT_SLOT : N := max_slot_from 0 mainnet_features.

Definition mainnet_feature_set `{SdkIds} `{FeatureApi} : FeatureSet :=
  foldl (λ fs '(feature_id, activation_slot), fs_activate fs feature_id activation_slot)
    fs_default MAINNET_ACTIVE_FEATURES.

(** ** Lemmas *)

Lemma max_slot_from_spec l : ∀ max,
  (max ≤ max_slot_from max l)%N ∧ (∀ f s, (f, s) ∈ l → (s ≤ max_slot_from max l)%N) ∧
  (max_slot_from max l = max ∨ ∃ f, (f, max_slot_from max l) ∈ l).
Proof.
  induction l as [|[f s] l IH]; intros max; simpl; [split_and!; [lia|set_solver|auto]|].
  destruct (IH (if (max <? s)%N then s else max)) as (Hge & Hin & Hex).
  destruct (N.ltb_spec max s); (split_and!; [lia| |]).
  - intros f' s' [[= -> ->]|?]%elem_of_cons; eauto.
  - right. destruct Hex as [->|[f' ?]]; [exists f|exists f']; set_solver.
  - intros f' s' [[= -> ->]|?]%elem_of_cons; [lia|eauto].
  - destruct Hex as [->|[f' ?]]; [by left|right; exists f'; set_solver].
Qed.

(** ** Properties *)

(** LiteSVM's default slot is the latest activation slot of the table: no
    feature of it activates later, and some feature activates at that very slot.
    No feature is listed twice. *)
Theorem mainnet_default_slot_is_latest :
  (∀ f s, (f, s) ∈ mainnet_features → (s ≤ MAINNET_DEFAULT_SLOT)%N) ∧
  (∃ f, (f, MAINNET_DEFAULT_SLOT) ∈ mainnet_features) ∧ NoDup mainnet_features.*1.
Proof.
  pose proof (max_slot_from_spec mainnet_features 0) as (_ & Hin & Hex).
  split; [exact Hin|]. split.
  - destruct Hex as [Hz|?]; [|done]. exfalso. revert Hz. vm_compute. discriminate.
  - apply (bool_decide_unpack _). vm_compute. done.
Qed.
