(* ===== verification/Svm.v ===== *)
(** * The LiteSVM instance: state and configuration (crates/litesvm/src/lib.rs)

    The fields of [LiteSVM], its setters, sysvars, builtins, programs and default
    environment, with crates/litesvm/src/programs/mod.rs, precompiles.rs and
    callback.rs.  The model is the build with the [precompiles],
    [persistence-internal] and [register-tracing] features; the inspection callback
    is in Inspect.v. *)

From S2P Require Import Prelude Errors ComputeBudget Runtime Utils Types History.
From S2P Require Import EpochStake AccountsDb Vm Features.

(** ** The host crates, bundled *)

Record Builtin `{ProgramApi} : Type := {
  enable_feature_id : option address;
  program_id : address;
  name : bytes;
  register_fn : Registerer }.

Class Host : Type := {
  host_ids :: SdkIds;
  host_features :: FeatureApi;
  host_rent :: RentApi;
  host_sysvars :: SysvarApi;
  host_programs :: ProgramApi;
  host_system :: SystemApi;
  host_lookup :: LookupApi;
  host_partition :: PartitionApi;
  host_precompiles :: PrecompileApi;
  host_vm :: VmApi;
  host_hash :: HashApi;
  host_alloc :: IndexMapAlloc;
  (** [solana_builtins::BUILTINS] *)
  BUILTINS : list Builtin;
  dummy_inheritable_account_fields : N * N;
  (** [solana_instruction::TRANSACTION_LEVEL_STACK_HEIGHT] *)
  TRANSACTION_LEVEL_STACK_HEIGHT : N;
  default_fee_structure : FeeStructure;
  (** [create_program_runtime_environment(features, budget, false, debugging)] *)
  create_program_runtime_environment :
    FeatureSet → ComputeBudget → bool → option RuntimeEnvironment;
  (** [SBF_TRACE_DIR] is set in the environment of the process *)
  env_trace_dir : bool;
  BuiltinProgram : Type;
  SyscallFn : Type;
  (** [BuiltinProgram::new_loader(env.get_config().clone())] *)
  program_new_loader : RuntimeEnvironment → BuiltinProgram;
  (** The registry of an environment; a name that is not UTF-8 is [None]. *)
  env_function_registry : RuntimeEnvironment → list (option str * SyscallFn);
  program_register_function : BuiltinProgram → str → SyscallFn → option BuiltinProgram;
  registerer_call : Registerer → BuiltinProgram → str → option BuiltinProgram;
  env_from_program : BuiltinProgram → RuntimeEnvironment;
  (** [Keypair::try_from(bytes)] and its public key *)
  keypair_pubkey : bytes → option address;
  feature_size : nat;
  (** [feature_gate::create_account(&Feature { activated_at: Some(slot) }, lamports)] *)
  feature_create_account : N → N → account;
  (** [include_bytes!("elf/<file>")] and [address!("<base58>")] *)
  elf_file : string → bytes;
  address_literal : string → address;
  (** The signed legacy transfer that [airdrop] builds: payer key bytes, payer,
      recipient, lamports, blockhash. *)
  transfer_transaction : bytes → address → address → N → hash → option VersionedTransaction }.

(** ** State *)

Record LiteSVM `{Host} : Type := mkSvm {
  accounts : AccountsDb;
  airdrop_kp : bytes;
  feature_set : FeatureSet;
  reserved_account_keys : ReservedAccountKeys;
  latest_blockhash : hash;
  history : TransactionHistory;
  compute_budget : option ComputeBudget;
  sigverify : bool;
  blockhash_check : bool;
  fee_structure : FeeStructure;
  log_bytes_limit : option N;
  custom_syscalls : list (str * Registerer);
  (** [epoch_total_stake] and [epoch_vote_stakes] *)
  epoch_stakes : EpochStakes;
  (** Programs are loaded with register tracing. *)
  enable_register_tracing : bool }.
Arguments mkSvm {_} _ _ _ _ _ _ _ _ _ _ _ _ _ _.

Section svm.
Context `{Host}.
Implicit Types svm : LiteSVM.

(** ** Field updates and plain setters *)

Definition with_accounts (s : LiteSVM) (x : AccountsDb) : LiteSVM :=
  mkSvm x (airdrop_kp s) (feature_set s) (reserved_account_keys s) (latest_blockhash s)
    (history s) (compute_budget s) (sigverify s) (blockhash_check s) (fee_structure s)
    (log_bytes_limit s) (custom_syscalls s) (epoch_stakes s)
    (enable_register_tracing s).
Definition set_airdrop_keypair (s : LiteSVM) (x : bytes) : LiteSVM :=
  mkSvm (accounts s) x (feature_set s) (reserved_account_keys s) (latest_blockhash s)
    (history s) (compute_budget s) (sigverify s) (blockhash_check s) (fee_structure s)
    (log_bytes_limit s) (custom_syscalls s) (epoch_stakes s)
    (enable_register_tracing s).
Definition with_reserved_account_keys (s : LiteSVM) (x : ReservedAccountKeys) : LiteSVM :=
  mkSvm (accounts s) (airdrop_kp s) (feature_set s) x (latest_blockhash s)
    (history s) (compute_budget s) (sigverify s) (blockhash_check s) (fee_structure s)
    (log_bytes_limit s) (custom_syscalls s) (epoch_stakes s)
    (enable_register_tracing s).
Definition set_latest_blockhash (s : LiteSVM) (x : hash) : LiteSVM :=
  mkSvm (accounts s) (airdrop_kp s) (feature_set s) (reserved_account_keys s) x
    (history s) (compute_budget s) (sigverify s) (blockhash_check s) (fee_structure s)
    (log_bytes_limit s) (custom_syscalls s) (epoch_stakes s)
    (enable_register_tracing s).
Definition with_history (s : LiteSVM) (x : TransactionHistory) : LiteSVM :=
  mkSvm (accounts s) (airdrop_kp s) (feature_set s) (reserved_account_keys s)
    (latest_blockhash s) x (compute_budget s) (sigverify s) (blockhash_check s)
    (fee_structure s) (log_bytes_limit s) (custom_syscalls s) (epoch_stakes s)
    (enable_register_tracing s).
Definition set_compute_budget (s : LiteSVM) (x : ComputeBudget) : LiteSVM :=
  mkSvm (accounts s) (airdrop_kp s) (feature_set s) (reserved_account_keys s)
    (latest_blockhash s) (history s) (Some x) (sigverify s) (blockhash_check s)
    (fee_structure s) (log_bytes_limit s) (custom_syscalls s) (epoch_stakes s)
    (enable_register_tracing s).
Definition set_sigverify (s : LiteSVM) (x : bool) : LiteSVM :=
  mkSvm (accounts s) (airdrop_kp s) (feature_set s) (reserved_account_keys s)
    (latest_blockhash s) (history s) (compute_budget s) x (blockhash_check s)
    (fee_structure s) (log_bytes_limit s) (custom_syscalls s) (epoch_stakes s)
    (enable_register_tracing s).
Definition set_blockhash_check (s : LiteSVM) (x : bool) : LiteSVM :=
  mkSvm (accounts s) (airdrop_kp s) (feature_set s) (reserved_account_keys s)
    (latest_blockhash s) (history s) (compute_budget s) (sigverify s) x
    (fee_structure s) (log_bytes_limit s) (custom_syscalls s) (epoch_stakes s)
    (enable_register_tracing s).
Definition set_fee_structure (s : LiteSVM) (x : FeeStructure) : LiteSVM :=
  mkSvm (accounts s) (airdrop_kp s) (feature_set s) (reserved_account_keys s)
    (latest_blockhash s) (history s) (compute_budget s) (sigverify s) (blockhash_check s)
    x (log_bytes_limit s) (custom_syscalls s) (epoch_stakes s)
    (enable_register_tracing s).
Definition set_log_bytes_limit (s : LiteSVM) (x : option N) : LiteSVM :=
  mkSvm (accounts s) (airdrop_kp s) (feature_set s) (reserved_account_keys s)
    (latest_blockhash s) (history s) (compute_budget s) (sigverify s) (blockhash_check s)
    (fee_structure s) x (custom_syscalls s) (epoch_stakes s)
    (enable_register_tracing s).
Definition with_custom_syscalls (s : LiteSVM) (x : list (str * Registerer)) : LiteSVM :=
  mkSvm (accounts s) (airdrop_kp s) (feature_set s) (reserved_account_keys s)
    (latest_blockhash s) (history s) (compute_budget s) (sigverify s) (blockhash_check s)
    (fee_structure s) (log_bytes_limit s) x (epoch_stakes s)
    (enable_register_tracing s).
Definition with_epoch_stakes (s : LiteSVM) (x : EpochStakes) : LiteSVM :=
  mkSvm (accounts s) (airdrop_kp s) (feature_set s) (reserved_account_keys s)
    (latest_blockhash s) (history s) (compute_budget s) (sigverify s) (blockhash_check s)
    (fee_structure s) (log_bytes_limit s) (custom_syscalls s) x
    (enable_register_tracing s).

Definition reserved_account_keys_for_feature_set (fs : FeatureSet) : ReservedAccountKeys :=
  rk_update_active_set rk_default fs.

Definition set_feature_set (s : LiteSVM) (x : FeatureSet) : LiteSVM :=
  mkSvm (accounts s) (airdrop_kp s) x (reserved_account_keys_for_feature_set x)
    (latest_blockhash s) (history s) (compute_budget s) (sigverify s) (blockhash_check s)
    (fee_structure s) (log_bytes_limit s) (custom_syscalls s) (epoch_stakes s)
    (enable_register_tracing s).

Definition set_transaction_history (s : LiteSVM) (capacity : N) : LiteSVM :=
  with_history s (set_capacity (history s) capacity).

Definition restore_transaction_history (s : LiteSVM) (entries : IndexMap TransactionResult)
    (capacity : N) : LiteSVM :=
  with_history s (from_entries entries capacity).

Definition set_account_no_checks (s : LiteSVM) (k : address) (acc : account) : LiteSVM :=
  with_accounts s (add_account_no_checks (accounts s) k acc).

(** ** Construction *)

Definition genesis : bytes :=
  [Byte.x67; Byte.x65; Byte.x6e; Byte.x65; Byte.x73; Byte.x69; Byte.x73].

(** The key pair is freshly generated. *)
Definition new_inner (keypair : bytes) (tracing : bool) : LiteSVM :=
  mkSvm default_db keypair fs_default (reserved_account_keys_for_feature_set fs_default)
    (create_blockhash genesis) history_new None false false default_fee_structure
    (Some 10000%N) [] no_stakes tracing.

Definition svm_default (keypair : bytes) : LiteSVM := new_inner keypair env_trace_dir.

(** ** Reading *)

Definition minimum_balance_for_rent_exemption (s : LiteSVM) (data_len : N) : N :=
  N.max 1 (default u64_max
    (rent_try_minimum_balance
       (default default_rent (cache_get_rent (sysvar_cache (accounts s)))) data_len)).

Definition svm_get_account (s : LiteSVM) (k : address) : option account :=
  get_account (accounts s) k.

Definition get_program_accounts (s : LiteSVM) (program : address) : list (address * account) :=
  filter (λ x, owner x.2 = program) (map_to_list (inner (accounts s))).

Definition get_balance (s : LiteSVM) (k : address) : option N :=
  lamports <$> get_account (accounts s) k.

Definition get_transaction (s : LiteSVM) (sig : signature) : option TransactionResult :=
  history_get (history s) sig.

Definition airdrop_pubkey (s : LiteSVM) : outcome address := unwrap (keypair_pubkey (airdrop_kp s)).

(** ** Accounts *)

Definition set_account (s : LiteSVM) (k : address) (acc : account)
    : LiteSVM * result LiteSVMError () :=
  let (db, r) := add_account (accounts s) k acc in (with_accounts s db, r).

Definition svm_set_epoch_stake (s : LiteSVM) (vote : address) (stake : N)
    : LiteSVM * result LiteSVMError () :=
  let (e, r) := set_epoch_stake (epoch_stakes s) vote stake in (with_epoch_stakes s e, r).

Definition svm_set_epoch_stakes (s : LiteSVM) (stakes : list (address * N))
    : LiteSVM * result LiteSVMError () :=
  let (e, r) := set_epoch_stakes (epoch_stakes s) stakes in (with_epoch_stakes s e, r).

(** The airdrop account. *)
Definition svm_set_lamports (s : LiteSVM) (l : N) : outcome LiteSVM :=
  k ← unwrap (keypair_pubkey (airdrop_kp s));
  Ret (with_accounts s (add_account_no_checks (accounts s) k (new_account l 0 system_program_id))).

(** ** Sysvars *)

Class Sysvar (T : Type) : Type := {
  sysvar_id : address;
  sysvar_codec :: Codec T }.
#[global] Arguments sysvar_id T {_}.

(** Writes [src] at the start of the buffer; fails when it does not fit. *)
Definition serialize_into (buf src : bytes) : option bytes :=
  if decide (length src ≤ length buf) then Some (src ++ drop (length src) buf) else None.

Definition set_sysvar {T} `{Sysvar T} (s : LiteSVM) (sysvar : T) : outcome LiteSVM :=
  let n := if (sysvar_id T =? slot_hashes_id)%N then slot_hashes_size
           else length (serialize sysvar) in
  let acc := new_account 1 n sysvar_owner_id in
  d ← unwrap (serialize_into (data acc) (serialize sysvar));
  match add_account (accounts s) (sysvar_id T) (set_data acc d) with
  | (db, Ok _) => Ret (with_accounts s db)
  | (_, Err _) => Panic
  end.

Definition get_sysvar {T} `{Sysvar T} (s : LiteSVM) : outcome T :=
  acc ← unwrap (get_account (accounts s) (sysvar_id T));
  unwrap (deserialize_from (data acc)).

#[export] Instance clock_sysvar : Sysvar Clock := { sysvar_id := clock_id }.
#[export] Instance rent_sysvar : Sysvar Rent := { sysvar_id := rent_id }.
#[export] Instance epoch_rewards_sysvar : Sysvar EpochRewards := { sysvar_id := epoch_rewards_id }.
#[export] Instance epoch_schedule_sysvar : Sysvar EpochSchedule :=
  { sysvar_id := epoch_schedule_id }.
#[export] Instance fees_sysvar : Sysvar Fees := { sysvar_id := fees_id }.
#[export] Instance last_restart_slot_sysvar : Sysvar LastRestartSlot :=
  { sysvar_id := last_restart_slot_id }.
#[export] Instance recent_blockhashes_sysvar : Sysvar RecentBlockhashes :=
  { sysvar_id := recent_blockhashes_id }.
#[export] Instance slot_hashes_sysvar : Sysvar SlotHashes := { sysvar_id := slot_hashes_id }.
#[export] Instance slot_history_sysvar : Sysvar SlotHistory := { sysvar_id := slot_history_id }.
#[export] Instance stake_history_sysvar : Sysvar StakeHistory := { sysvar_id := stake_history_id }.

(** [2.0f64.to_le_bytes()] and [0.25f64.to_le_bytes()]. *)
Definition f64_2 : bytes := zeros 7 ++ [Byte.x40].
Definition f64_quarter : bytes := zeros 6 ++ [Byte.xd0; Byte.x3f].

(** Before SIMD-0194 the same minimum balance is half the rate twice as long. *)
Definition initial_rent (fs : FeatureSet) : Rent :=
  if fs_is_active fs deprecate_rent_exemption_threshold then default_rent
  else {| lamports_per_byte := (default_lamports_per_byte / 2)%N;
          exemption_threshold := f64_2;
          burn_percent := burn_percent default_rent |}.

(** Key count 0, then the default config: warmup rate 0.25, slash penalty
    [(5 * 255) / 100] = 12. *)
Definition stake_config_account : account :=
  set_data (new_account 1 17 config_program_id) (zeros 8 ++ f64_quarter ++ [Byte.x0c]).

Definition set_sysvars (s : LiteSVM) : outcome LiteSVM :=
  s ← set_sysvar s (set_slot default_clock MAINNET_DEFAULT_SLOT);
  s ← set_sysvar s default_epoch_rewards;
  s ← set_sysvar s default_epoch_schedule;
  let fees := default_fees in
  s ← set_sysvar s fees;
  s ← set_sysvar s default_last_restart_slot;
  let blockhash := latest_blockhash s in
  s ← set_sysvar s
        (recent_blockhashes_from_iter [(0%N, blockhash, fees_lamports_per_signature fees)]);
  s ← set_sysvar s (initial_rent (feature_set s));
  clock ← unwrap (cache_get_clock (sysvar_cache (accounts s)));
  s ← set_sysvar s (slot_hashes_new [(slot clock, blockhash)]);
  s ← set_sysvar s default_slot_history;
  s ← set_sysvar s default_stake_history;
  Ret (with_accounts s (add_account_no_checks (accounts s) stake_config_id stake_config_account)).

Definition expire_blockhash (s : LiteSVM) : outcome LiteSVM :=
  let s := set_latest_blockhash s (create_blockhash (hash_to_bytes (latest_blockhash s))) in
  set_sysvar s (recent_blockhashes_from_iter
                  [(0%N, latest_blockhash s, lamports_per_signature (fee_structure s))]).

Definition warp_to_slot (s : LiteSVM) (new_slot : N) : outcome LiteSVM :=
  clock ← get_sysvar (T := Clock) s;
  set_sysvar s (set_slot clock new_slot).

(** ** Feature accounts *)

Definition set_feature_accounts (s : LiteSVM) : LiteSVM :=
  foldl (λ s '(feature, activation_slot),
      let l := minimum_balance_for_rent_exemption s (N.of_nat feature_size) in
      with_accounts s (add_account_no_checks (accounts s) feature
                         (feature_create_account activation_slot l)))
    s (fs_active (feature_set s)).

(** ** Runtime environments *)

Fixpoint register_all (prog : BuiltinProgram) (fns : list (option str * SyscallFn))
    : outcome BuiltinProgram :=
  match fns with
  | [] => Ret prog
  | (n, f) :: fns =>
      n ← unwrap n;
      prog ← unwrap (program_register_function prog n f);
      register_all prog fns
  end.

Fixpoint register_custom (prog : BuiltinProgram) (syscalls : list (str * Registerer))
    : outcome BuiltinProgram :=
  match syscalls with
  | [] => Ret prog
  | (n, r) :: syscalls =>
      prog ← unwrap (registerer_call r prog n);
      register_custom prog syscalls
  end.

Definition register_custom_syscalls (s : LiteSVM) (env : RuntimeEnvironment)
    : outcome RuntimeEnvironment :=
  match custom_syscalls s with
  | [] => Ret env
  | _ =>
      prog ← register_all (program_new_loader env) (env_function_registry env);
      prog ← register_custom prog (custom_syscalls s);
      Ret (env_from_program prog)
  end.

Definition create_program_runtime_environments (s : LiteSVM)
    : outcome (RuntimeEnvironment * RuntimeEnvironment) :=
  let budget := default
    (compute_budget_with_defaults (fs_is_active (feature_set s) raise_cpi_nesting_limit_to_8))
    (compute_budget s) in
  env ← unwrap (create_program_runtime_environment (feature_set s) budget
                   (enable_register_tracing s));
  env ← register_custom_syscalls s env;
  Ret (env, env).

Definition with_custom_syscall (s : LiteSVM) (n : str) (syscall : Registerer) : outcome LiteSVM :=
  let s := with_custom_syscalls s (custom_syscalls s ++ [(n, syscall)]) in
  envs ← create_program_runtime_environments s;
  Ret (with_accounts s (with_environments (accounts s) envs.1 envs.2)).

(** ** Builtins, precompiles, programs *)

Definition add_one_builtin (s : LiteSVM) (b : Builtin) : LiteSVM :=
  if match enable_feature_id b with None => true | Some x => fs_is_active (feature_set s) x end
  then
    let loaded_program := entry_new_builtin 0 (len (name b)) (register_fn b) in
    let db := with_programs_cache (accounts s)
                (cache_replenish (programs_cache (accounts s)) (program_id b) loaded_program) in
    with_accounts s (add_builtin_account db (program_id b)
      (create_loadable_account_for_test dummy_inheritable_account_fields (name b)))
  else s.

Definition set_builtins (s : LiteSVM) : outcome LiteSVM :=
  let s := foldl add_one_builtin s BUILTINS in
  envs ← create_program_runtime_environments s;
  Ret (with_accounts s (with_environments (accounts s) envs.1 envs.2)).

Definition add_builtin (s : LiteSVM) (k : address) (entrypoint : Registerer) : LiteSVM :=
  let builtin := entry_new_builtin
    (slot (default default_clock (cache_get_clock (sysvar_cache (accounts s))))) 1 entrypoint in
  let db := with_programs_cache (accounts s)
              (cache_replenish (programs_cache (accounts s)) k builtin) in
  with_accounts s (add_account_no_checks db k
    (set_executable (new_account 1 1 native_loader_id) true)).

Definition precompile_account : account :=
  set_executable (set_lamports (set_owner default_account native_loader_id) 1) true.

Definition load_precompiles (s : LiteSVM) : outcome LiteSVM :=
  foldl (λ o '(k, feature),
      s ← o;
      if match feature with None => true | Some f => fs_is_active (feature_set s) f end
      then match set_account s k precompile_account with
           | (s, Ok _) => Ret s
           | (_, Err _) => Panic
           end
      else Ret s)
    (Ret s) precompiles_all.

(** The accounts of a program under the upgradeable loader: program data, then
    program. *)
Definition programdata_bytes (current_slot : N) (program_bytes : bytes) : option bytes :=
  meta ← serialize_into (zeros size_of_programdata_metadata)
           (serialize_programdata_state current_slot);
  Some (meta ++ program_bytes).

Definition store_program (s : LiteSVM) (k : address) (program_bytes : bytes)
    (loader_id : address) (current_slot : N) : outcome (result LiteSVMError (LiteSVM * N)) :=
  if (loader_id =? bpf_loader_upgradeable_id)%N then
    let programdata_address := find_program_address k loader_id in
    let programdata_len := (size_of_programdata_metadata + length program_bytes)%nat in
    programdata_data ← unwrap (programdata_bytes current_slot program_bytes);
    let programdata_lamports := minimum_balance_for_rent_exemption s (N.of_nat programdata_len) in
    let programdata_account :=
      set_data (new_account programdata_lamports programdata_len loader_id) programdata_data in
    let program_account_data := serialize_program_state programdata_address in
    let program_lamports := minimum_balance_for_rent_exemption s (len program_account_data) in
    let program_account :=
      set_data (set_executable
        (new_account program_lamports (length program_account_data) loader_id) true)
        program_account_data in
    let db := add_account_no_checks (accounts s) programdata_address programdata_account in
    let db := add_account_no_checks db k program_account in
    Ret (Ok (with_accounts s db, N.of_nat programdata_len))
  else if (loader_id =? bpf_loader_id)%N || (loader_id =? bpf_loader_deprecated_id)%N then
    let program_len := length program_bytes in
    let l := minimum_balance_for_rent_exemption s (N.of_nat program_len) in
    let acc := set_data (set_executable (new_account l program_len loader_id) true)
                 program_bytes in
    Ret (Ok (with_accounts s (add_account_no_checks (accounts s) k acc), N.of_nat program_len))
  else Ret (Err (LE_InvalidLoader loader_id)).

Definition add_program_internal (preverified : bool) (s : LiteSVM) (k : address)
    (program_bytes : bytes) (loader_id : address) : outcome (LiteSVM * result LiteSVMError ()) :=
  let current_slot :=
    slot (default default_clock (cache_get_clock (sysvar_cache (accounts s)))) in
  stored ← store_program s k program_bytes loader_id current_slot;
  match stored with
  | Err e => Ret (s, Err e)
  | Ok (s, program_size) =>
      let effective_slot := saturating_add u64_max current_slot delay_visibility_slot_offset in
      let env := env_for_deployment (accounts s) in
      let loaded :=
        if preverified
        then entry_reload loader_id env current_slot effective_slot program_bytes program_size
        else entry_new loader_id env current_slot effective_slot program_bytes program_size in
      match loaded with
      | None => Ret (s, Err LE_ProgramLoad)
      | Some loaded_program =>
          let loaded_program := entry_set_effective_slot loaded_program current_slot in
          let db := with_programs_cache (accounts s)
                      (cache_replenish (programs_cache (accounts s)) k loaded_program) in
          Ret (with_accounts s db, Ok ())
      end
  end.

Definition add_program (s : LiteSVM) (k : address) (program_bytes : bytes)
    : outcome (LiteSVM * result LiteSVMError ()) :=
  add_program_internal false s k program_bytes bpf_loader_upgradeable_id.

Definition add_program_with_loader (s : LiteSVM) (k : address) (program_bytes : bytes)
    (loader_id : address) : outcome (LiteSVM * result LiteSVMError ()) :=
  add_program_internal false s k program_bytes loader_id.

Definition add_program_preverified (s : LiteSVM) (k : address) (program_bytes : bytes)
    (loader_id : address) : outcome (LiteSVM * result LiteSVMError ()) :=
  add_program_internal true s k program_bytes loader_id.

(** The programs of [load_default_programs], in order. *)
Definition default_programs (fs : FeatureSet) : list (address * string * address) :=
  (if fs_is_active fs replace_spl_token_with_p_token
   then (address_literal "TokenkegQfeZyiNwAJbNbGKPFXCWuBvf9Ss623VQ5DA",
         "pinocchio_token_program.so"%string, bpf_loader_upgradeable_id)
   else (address_literal "TokenkegQfeZyiNwAJbNbGKPFXCWuBvf9Ss623VQ5DA",
         "spl_token-3.5.0.so"%string, bpf_loader_id)) ::
  [(address_literal "TokenzQdBNbLqP5VEhdkAS6EPFLC1PHnBqCXEpPxuEb",
    "spl_token_2022-11.0.0.so"%string, bpf_loader_upgradeable_id);
   (address_literal "Memo1UhkJRfHyvLMcVucJwxXeuD728EqVDDwQDxFMNo",
    "spl_memo-1.0.0.so"%string, bpf_loader_deprecated_id);
   (address_literal "MemoSq4gqABAXKb96qnH8TysNcWxMyWCqXgDLGmfcHr",
    "spl_memo-4.0.0.so"%string, bpf_loader_id);
   (address_literal "ATokenGPvbdGVxr1b2hvZbsiqW5xWH25efTNsLJA8knL",
    "spl_associated_token_account-1.1.1.so"%string, bpf_loader_id);
   (address_lookup_table_id, "address_lookup_table.so"%string, bpf_loader_upgradeable_id);
   (stake_program_id, "core_bpf_stake-5.0.0.so"%string, bpf_loader_upgradeable_id)].

Definition load_default_programs (s : LiteSVM) : outcome LiteSVM :=
  foldl (λ o '(k, file, loader),
      s ← o;
      r ← add_program_preverified s k (elf_file file) loader;
      match r with (s, Ok _) => Ret s | (_, Err _) => Panic end)
    (Ret s) (default_programs (feature_set s)).

(** ** The basic environment *)

Definition LAMPORTS_PER_SOL : N := 1000000000.

Definition into_basic (s : LiteSVM) : outcome LiteSVM :=
  let s := set_feature_set s mainnet_feature_set in
  s ← set_builtins s;
  s ← svm_set_lamports s ((1000000 * LAMPORTS_PER_SOL) mod 2 ^ 64);
  s ← set_sysvars s;
  let s := set_feature_accounts s in
  s ← load_default_programs s;
  let s := set_sigverify s true in
  let s := set_blockhash_check s true in
  load_precompiles s.

Definition svm_new (keypair : bytes) : outcome LiteSVM := into_basic (svm_default keypair).

Definition new_debuggable (keypair : bytes) (tracing : bool) : outcome LiteSVM :=
  into_basic (new_inner keypair tracing).

Definition rebuild_caches (s : LiteSVM) : outcome (LiteSVM * result LiteSVMError ()) :=
  let s := with_reserved_account_keys s
             (reserved_account_keys_for_feature_set (feature_set s)) in
  s ← set_builtins s;
  let s := with_accounts s (rebuild_sysvar_cache (accounts s)) in
  r ← load_all_existing_programs (accounts s);
  Ret (with_accounts s r.1, r.2).

(** ** Callbacks *)

Definition process_precompile (s : LiteSVM) (k : address) (d : bytes) (ds : list bytes)
    : result PrecompileError () :=
  match precompile_get k (fs_is_active (feature_set s)) with
  | Some precompile => precompile_verify precompile d ds (feature_set s)
  | None => Err precompile_invalid_public_key
  end.

Definition litesvm_callback (s : LiteSVM) : InvokeContextCallback := {|
  cb_get_epoch_stake := epoch_total_stake (epoch_stakes s);
  cb_get_epoch_stake_for_vote_account := epoch_stake (epoch_stakes s);
  cb_is_precompile k := precompile_is k (fs_is_active (feature_set s));
  cb_process_precompile := process_precompile s |}.
End svm.
