(* ===== verification/SvmProps.v ===== *)
(** * Properties of the instance: sysvars and programs

    Setting and reading sysvars, the clock and the blockhash, and deploying
    programs. *)

From S2P Require Import Prelude Errors ComputeBudget Runtime Utils Types History.
From S2P Require Import EpochStake AccountsDb Vm Features Svm.

(** ** Lemmas *)

Section facts.
Context `{Host} `{!SdkIdsLaws} `{!SysvarLaws}.

(** A sysvar that the accounts database accepts at its address whenever it
    deserializes, and that is not padded. *)
Class PlainSysvar (T : Type) `{Sysvar T} : Prop := {
  plain_handled : sysvar_id T ∈ handled_sysvars;
  plain_not_slot_hashes : sysvar_id T ≠ slot_hashes_id;
  plain_accepted db acc :
    is_Some (deserialize_from (T := T) (data acc)) →
    (maybe_handle_sysvar_account db (sysvar_id T) acc).2 = Ok () }.

(** The position of an address in the list of handled sysvars tells it from the
    others. *)
Lemma handled_ne i j k k' :
  handled_sysvars !! i = Some k → handled_sysvars !! j = Some k' → i ≠ j → (k =? k')%N = false.
Proof.
  intros Hi Hj Hne. apply N.eqb_neq.
  pose proof sysvar_ids_distinct as Hnd. do 2 apply NoDup_cons_1_2 in Hnd.
  by apply (NoDup_ne _ i j _ _ Hnd).
Qed.

(** Decides the tests before the one for the [i]th handled sysvar. *)
Ltac skip_sysvars i :=
  repeat first
    [ rewrite (handled_ne i 0) by done | rewrite (handled_ne i 1) by done
    | rewrite (handled_ne i 2) by done | rewrite (handled_ne i 3) by done
    | rewrite (handled_ne i 4) by done | rewrite (handled_ne i 5) by done
    | rewrite (handled_ne i 6) by done | rewrite (handled_ne i 7) by done ];
  rewrite N.eqb_refl.

(** The [i]th handled sysvar is plain. *)
Ltac plain_sysvar i :=
  split; simpl;
  [ unfold handled_sysvars; set_solver
  | apply N.eqb_neq; by apply (handled_ne i 7)
  | let c := fresh "c" in let Hc := fresh "Hc" in
    intros db acc [c Hc]; unfold maybe_handle_sysvar_account; skip_sysvars i;
    rewrite ?handle_sysvar_spec; simpl in *; by rewrite Hc ].

#[export] Instance clock_plain : PlainSysvar Clock.
Proof. plain_sysvar 0. Qed.
#[export] Instance epoch_rewards_plain : PlainSysvar EpochRewards.
Proof. plain_sysvar 1. Qed.
#[export] Instance epoch_schedule_plain : PlainSysvar EpochSchedule.
Proof. plain_sysvar 2. Qed.
#[export] Instance fees_plain : PlainSysvar Fees.
Proof. plain_sysvar 3. Qed.
#[export] Instance last_restart_slot_plain : PlainSysvar LastRestartSlot.
Proof. plain_sysvar 4. Qed.
#[export] Instance recent_blockhashes_plain : PlainSysvar RecentBlockhashes.
Proof. plain_sysvar 5. Qed.
#[export] Instance rent_plain : PlainSysvar Rent.
Proof. plain_sysvar 6. Qed.
#[export] Instance stake_history_plain : PlainSysvar StakeHistory.
Proof. plain_sysvar 8. Qed.

Lemma slot_hashes_accepted db acc :
  is_Some (deserialize_from (T := SlotHashes) (data acc)) →
  (maybe_handle_sysvar_account db slot_hashes_id acc).2 = Ok ().
Proof.
  intros [c Hc]. unfold maybe_handle_sysvar_account. skip_sysvars 7.
  rewrite handle_sysvar_spec. simpl. by rewrite Hc.
Qed.

Lemma serialize_into_exact src : serialize_into (zeros (length src)) src = Some src.
Proof.
  unfold serialize_into, zeros. rewrite length_replicate. case_decide; [|lia].
  rewrite drop_ge by (rewrite length_replicate; lia). by rewrite app_nil_r.
Qed.

Lemma deserialize_exact {T} `{Codec T} `{!CodecLaws T} (x : T) :
  deserialize_from (serialize x) = Some x.
Proof. rewrite <-(app_nil_r (serialize x)). apply (deserialize_serialize x 0). Qed.

(** The account that a plain sysvar is stored in. *)
Definition sysvar_account {T} `{Sysvar T} (x : T) : account :=
  Account 1 (serialize x) sysvar_owner_id false 0.

Lemma set_sysvar_plain {T} `{PlainSysvar T} `{!CodecLaws T} s (x : T) :
  ∃ db, add_account (accounts s) (sysvar_id T) (sysvar_account x) = (db, Ok ()) ∧
    set_sysvar s x = Ret (with_accounts s db).
Proof.
  assert ((add_account (accounts s) (sysvar_id T) (sysvar_account x)).2 = Ok ()) as Hadd.
  { unfold add_account. simpl.
    pose proof (plain_accepted (accounts s) (sysvar_account x)) as Hm. simpl in Hm.
    rewrite deserialize_exact in Hm. specialize (Hm (mk_is_Some _ _ eq_refl)).
    by destruct (maybe_handle_sysvar_account _ _ _) as [db [[]|]]; simplify_eq/=. }
  destruct (add_account (accounts s) (sysvar_id T) (sysvar_account x)) as [db r] eqn:Ha.
  simpl in Hadd. subst r. exists db. split; [done|].
  unfold set_sysvar. pose proof plain_not_slot_hashes as Hne%N.eqb_neq. rewrite Hne. simpl.
  rewrite serialize_into_exact. simpl.
  unfold set_data, new_account. simpl. unfold sysvar_account in Ha. by rewrite Ha.
Qed.

Lemma with_accounts_undo s db : with_accounts (with_accounts s db) (accounts s) = s.
Proof. by destruct s. Qed.
End facts.

(** ** Properties *)

Section properties.
Context `{Host} `{!SdkIdsLaws} `{!SysvarLaws}.

(** C33.  Setting a sysvar (any of those the database handles but the padded slot
    hashes) never panics, and reading it back gives the same value.  The cache that
    the runtime reads holds what the store holds, and nothing else in the store or
    in the instance changes. *)
Theorem set_sysvar_roundtrip {T} `{!Sysvar T} `{!PlainSysvar T} `{!CodecLaws T} s (x : T) :
  ∃ s', set_sysvar s x = Ret s' ∧ get_sysvar (T := T) s' = Ret x ∧
    cache_reflects (sysvar_cache (accounts s')) (inner (accounts s')) ∧
    inner (accounts s') = <[sysvar_id T := sysvar_account x]> (inner (accounts s)) ∧
    with_accounts s' (accounts s) = s.
Proof.
  destruct (set_sysvar_plain s x) as (db & Hadd & Hset).
  exists (with_accounts s db). pose proof (add_account_inner (accounts s) (sysvar_id T) (sysvar_account x)) as Hi.
  rewrite Hadd in Hi. simpl in Hi. rewrite Hset. split_and!; simpl; try done.
  - unfold get_sysvar, get_account. simpl. rewrite Hi. simplify_map_eq.
    by rewrite deserialize_exact.
  - rewrite (add_account_cache_sysvar (accounts s) db (sysvar_id T) (sysvar_account x)); try done.
    + apply cache_reflects_fill.
    + apply plain_handled.
  - apply with_accounts_undo.
Qed.

(** Warping moves the slot of the stored and the cached clock and nothing
    else: the other clock fields, every other account and the rest of the instance
    stay. *)
Theorem warp_to_slot_correct s clock new_slot (Hclock : get_sysvar (T := Clock) s = Ret clock) :
  ∃ s', warp_to_slot s new_slot = Ret s' ∧
    get_sysvar (T := Clock) s' = Ret (set_slot clock new_slot) ∧
    cache_get_clock (sysvar_cache (accounts s')) = Some (set_slot clock new_slot) ∧
    (∀ k, k ≠ clock_id → inner (accounts s') !! k = inner (accounts s) !! k) ∧
    with_accounts s' (accounts s) = s.
Proof.
  unfold warp_to_slot. rewrite Hclock. simpl.
  destruct (set_sysvar_plain s (set_slot clock new_slot)) as (db & Hadd & Hset).
  pose proof (add_account_inner (accounts s) clock_id (sysvar_account (set_slot clock new_slot))) as Hi.
  simpl in Hadd. rewrite Hadd in Hi. simpl in Hi.
  exists (with_accounts s db). rewrite Hset. split_and!; simpl; try done.
  - unfold get_sysvar, get_account. simpl. rewrite Hi. simplify_map_eq.
    by rewrite deserialize_exact.
  - rewrite (add_account_cache_sysvar (accounts s) db clock_id (sysvar_account (set_slot clock new_slot)));
      try done; [|unfold handled_sysvars; set_solver].
    rewrite cache_get_clock_fill, Hi. simplify_map_eq. by rewrite deserialize_exact.
  - intros k Hk. rewrite Hi. by simplify_map_eq.
  - apply with_accounts_undo.
Qed.

(** Expiring the blockhash replaces the latest one by its hash and publishes
    it as the only recent blockhash, at the current fee rate; nothing else
    changes. *)
Theorem expire_blockhash_correct s :
  ∃ s', expire_blockhash s = Ret s' ∧
    latest_blockhash s' = sha256 (hash_to_bytes (latest_blockhash s)) ∧
    get_sysvar (T := RecentBlockhashes) s'
    = Ret (recent_blockhashes_from_iter
             [(0%N, latest_blockhash s', lamports_per_signature (fee_structure s))]) ∧
    (∀ k, k ≠ recent_blockhashes_id → inner (accounts s') !! k = inner (accounts s) !! k).
Proof.
  unfold expire_blockhash, create_blockhash.
  set (s1 := set_latest_blockhash s _). set (x := recent_blockhashes_from_iter _).
  destruct (set_sysvar_plain s1 x) as (db & Hadd & Hset).
  pose proof (add_account_inner (accounts s1) (sysvar_id RecentBlockhashes) (sysvar_account x)) as Hi.
  rewrite Hadd in Hi. simpl in Hi.
  exists (with_accounts s1 db). rewrite Hset. split_and!; try done.
  - unfold get_sysvar, get_account. simpl. rewrite Hi. simplify_map_eq.
    by rewrite deserialize_exact.
  - intros k Hk. simpl. rewrite Hi. by simplify_map_eq.
Qed.
End properties.

(** ** Deploying programs *)

Section programs.
Context `{Host} `{!SdkIdsLaws} `{!ProgramLaws}.

Lemma loader_ne i j k k' :
  loader_ids !! i = Some k → loader_ids !! j = Some k' → i ≠ j → (k =? k')%N = false.
Proof.
  intros Hi Hj Hne. apply N.eqb_neq. by apply (NoDup_ne _ i j _ _ loader_ids_distinct).
Qed.

Lemma programdata_bytes_spec n elf :
  ∃ meta, programdata_bytes n elf = Some (meta ++ elf) ∧
    length meta = size_of_programdata_metadata.
Proof.
  unfold programdata_bytes, serialize_into, zeros. rewrite length_replicate.
  pose proof (programdata_state_fits n). case_decide; [|lia]. simpl.
  eexists. split; [done|]. rewrite length_app, length_drop, length_replicate. lia.
Qed.

(** The accounts that storing a program touches. *)
Definition program_keys (k loader_id : address) : list address :=
  if (loader_id =? bpf_loader_upgradeable_id)%N then [k; find_program_address k loader_id] else [k].

Lemma store_program_Ok s k elf loader n s' size :
  store_program s k elf loader n = Ret (Ok (s', size)) →
  find_program_address k loader ≠ k →
  try_program_elf_bytes (accounts s') k = Ok elf ∧
  (∃ acc, inner (accounts s') !! k = Some acc ∧ executable acc = true ∧ owner acc = loader) ∧
  programs_cache (accounts s') = programs_cache (accounts s) ∧
  (∀ k', k' ∉ program_keys k loader → inner (accounts s') !! k' = inner (accounts s) !! k').
Proof.
  unfold store_program, program_keys, try_program_elf_bytes, get_account. intros Hst Hne.
  destruct (N.eqb_spec loader bpf_loader_upgradeable_id) as [->|Hl].
  - destruct (programdata_bytes_spec n elf) as (meta & Hmeta & Hlen). rewrite Hmeta in Hst.
    simpl in Hst. injection Hst as <- _. simpl. simplify_map_eq. simpl.
    rewrite (loader_ne 3 1), (loader_ne 3 2), N.eqb_refl by done. simpl.
    rewrite program_state_roundtrip. simplify_map_eq. simpl.
    rewrite <-Hlen, get_from_app. split_and!; [done|eauto|done|].
    intros k' Hk'. rewrite !lookup_insert_ne by set_solver. done.
  - destruct (_ || _) eqn:Hor; [|done]. injection Hst as <- _. simpl. simplify_map_eq. simpl.
    rewrite Hor. split_and!; [done|eauto|done|].
    intros k' Hk'. rewrite lookup_insert_ne by set_solver. done.
Qed.

(** C34.  A program added successfully is runnable and intact: it is in the
    program cache, its account is executable and owned by the requested loader,
    and the bytes read back from the store are those given, whether they are in
    the account itself or behind an upgradeable program's data header.  No other
    account changes. *)
Theorem add_program_installs pre s k elf loader s'
  (Hadd : add_program_internal pre s k elf loader = Ret (s', Ok ()))
  (Hpda : find_program_address k loader ≠ k) :
  try_program_elf_bytes (accounts s') k = Ok elf ∧
  is_Some (cache_find (programs_cache (accounts s')) k) ∧
  (∃ acc, inner (accounts s') !! k = Some acc ∧ executable acc = true ∧ owner acc = loader) ∧
  (∀ k', k' ∉ program_keys k loader →
     inner (accounts s') !! k' = inner (accounts s) !! k' ∧
     cache_find (programs_cache (accounts s')) k' = cache_find (programs_cache (accounts s)) k').
Proof.
  unfold add_program_internal in Hadd.
  destruct (store_program _ _ _ _ _) as [[[s1 size]|e]|] eqn:Hst; simpl in Hadd; try done.
  destruct (store_program_Ok _ _ _ _ _ _ _ Hst Hpda) as (Helf & Hacc & Hcache & Hframe).
  destruct (if pre then _ else _) as [entry|]; [|done]. injection Hadd as <-. simpl.
  split_and!; [exact Helf|apply cache_find_replenish_eq|exact Hacc|].
  intros k' Hk'. split; [by apply Hframe|].
  rewrite cache_find_replenish_ne, Hcache; [done|].
  unfold program_keys in Hk'. destruct (loader =? bpf_loader_upgradeable_id)%N; set_solver.
Qed.

(** C35.  An unknown loader is refused with the instance unchanged.  A program that
    does not load, in contrast, is refused after its accounts were stored: the
    executable account stays behind while the program cache does not know it. *)
Theorem add_program_failures pre s k elf loader s' e
  (Hadd : add_program_internal pre s k elf loader = Ret (s', Err e))
  (Hpda : find_program_address k loader ≠ k) :
  (e = LE_InvalidLoader loader ∧ s' = s ∧
   loader ∉ [bpf_loader_upgradeable_id; bpf_loader_id; bpf_loader_deprecated_id]) ∨
  (e = LE_ProgramLoad ∧ try_program_elf_bytes (accounts s') k = Ok elf ∧
   (∃ acc, inner (accounts s') !! k = Some acc ∧ executable acc = true) ∧
   programs_cache (accounts s') = programs_cache (accounts s)).
Proof.
  unfold add_program_internal in Hadd.
  destruct (store_program _ _ _ _ _) as [[[s1 size]|e1]|] eqn:Hst; simpl in Hadd; try done.
  - destruct (store_program_Ok _ _ _ _ _ _ _ Hst Hpda) as (Helf & (acc & ? & ? & ?) & Hcache & _).
    destruct (if pre then _ else _) as [entry|]; [done|]. injection Hadd as <- <-. right. eauto 10.
  - injection Hadd as <- <-. left. unfold store_program in Hst.
    destruct (N.eqb_spec loader bpf_loader_upgradeable_id) as [|Hu].
    { by destruct (programdata_bytes _ _). }
    destruct (N.eqb_spec loader bpf_loader_id) as [|Hb]; [done|].
    destruct (N.eqb_spec loader bpf_loader_deprecated_id) as [|Hd]; [done|].
    simpl in Hst. injection Hst as <-. set_solver.
Qed.
End programs.
