(* ===== verification/Process.v ===== *)
(** * Processing a sanitized transaction (crates/litesvm/src/lib.rs)

    Sanitization, the fee payer, loading of the accounts of a message and their
    programs, execution and the rent check: [process_transaction] and the helper
    functions at the end of lib.rs.  [self] is read only here. *)

From S2P Require Import Prelude Errors ComputeBudget Runtime RentState Utils Types History.
From S2P Require Import EpochStake AccountsDb Vm InnerInstructions Features Svm.

Section process.
Context `{Host}.
Implicit Types svm : LiteSVM.

(** ** Sanitization *)

Definition get_transaction_account_lock_limit (s : LiteSVM) : N :=
  if fs_is_active (feature_set s) increase_tx_account_lock_limit
  then max_tx_account_locks else 64.

Definition sanitize_transaction_no_verify_inner (s : LiteSVM) (tx : VersionedTransaction)
    : outcome (result TransactionError SanitizedTransaction) :=
  res ← try_create tx (load_addresses (accounts s)) (rk_active (reserved_account_keys s));
  Ret (tx ← res;
       _ ← validate_account_locks (message tx) (get_transaction_account_lock_limit s);
       Ok tx).

Definition sanitize_transaction_inner (s : LiteSVM) (tx : VersionedTransaction)
    : outcome (result TransactionError SanitizedTransaction) :=
  res ← sanitize_transaction_no_verify_inner s tx;
  Ret (tx ← res; _ ← tx_verify tx; Ok tx).

Definition sanitize_transaction_no_verify (s : LiteSVM) (tx : VersionedTransaction)
    : outcome (result ExecutionResult SanitizedTransaction) :=
  map_err execution_result_err <$> sanitize_transaction_no_verify_inner s tx.

Definition sanitize_transaction (s : LiteSVM) (tx : VersionedTransaction)
    : outcome (result ExecutionResult SanitizedTransaction) :=
  map_err execution_result_err <$> sanitize_transaction_inner s tx.

Definition get_transaction_config (tx : SanitizedTransaction) (fs : FeatureSet)
    : result ExecutionResult TransactionConfiguration :=
  map_err execution_result_err (try_from_sanitized_message (message tx) fs).

(** ** The fee payer *)

(** The account is debited in place before the rent check, whose error the
    caller propagates. *)
Definition validate_fee_payer (payer_address : address) (payer_account : account)
    (payer_index : N) (rent : Rent) (fee : N)
    : outcome (account * result TransactionError ()) :=
  if (lamports payer_account =? 0)%N then Ret (payer_account, Err TE_AccountNotFound)
  else match get_system_account_kind payer_account with
  | None => Ret (payer_account, Err TE_InvalidAccountForFee)
  | Some system_account_kind =>
      let min_balance :=
        match system_account_kind with
        | System => 0%N
        | Nonce => rent_minimum_balance rent nonce_state_size
        end in
      match checked_sub (lamports payer_account) min_balance ≫= (λ v, checked_sub v fee) with
      | None => Ret (payer_account, Err TE_InsufficientFundsForFee)
      | Some _ =>
          let payer_len := len (data payer_account) in
          let payer_pre_rent_state :=
            get_account_rent_state rent (lamports payer_account) payer_len in
          payer_account ← unwrap (checked_sub_lamports payer_account fee);
          let payer_post_rent_state :=
            get_account_rent_state rent (lamports payer_account) payer_len in
          Ret (payer_account,
               check_rent_state_with_account payer_pre_rent_state payer_post_rent_state
                 payer_address payer_index)
      end
  end.

(** ** Loading the accounts of a message *)

(** The variables the loading closure captures mutably. *)
Record LoadState : Type := {
  pre_rent_states : list RentState;
  validated_fee_payer : bool;
  payer_key : option address;
  loaded_tx_data_size : LoadedTransactionDataSize }.

Definition push_rent_state (st : LoadState) (r : RentState) : LoadState :=
  {| pre_rent_states := pre_rent_states st ++ [r];
     validated_fee_payer := validated_fee_payer st; payer_key := payer_key st;
     loaded_tx_data_size := loaded_tx_data_size st |}.

Definition set_payer (st : LoadState) (k : address) : LoadState :=
  {| pre_rent_states := pre_rent_states st;
     validated_fee_payer := true; payer_key := Some k;
     loaded_tx_data_size := loaded_tx_data_size st |}.

Definition set_size (st : LoadState) (d : LoadedTransactionDataSize) : LoadState :=
  {| pre_rent_states := pre_rent_states st;
     validated_fee_payer := validated_fee_payer st; payer_key := payer_key st;
     loaded_tx_data_size := d |}.

Definition account_loaded_size (acc : account) : N :=
  saturating_add u64_max TRANSACTION_ACCOUNT_BASE_SIZE (len (data acc)).

(** The stored account with its loaded size; a missing one is the empty account,
    which counts for nothing.  A cached program that is no instruction account
    must be stored. *)
Definition fetch_account (s : LiteSVM) (msg : SanitizedMessage) (i : nat) (key : address)
    : outcome (N * account) :=
  if negb (is_instruction_account msg i) && negb (is_writable msg i)
     && match cache_find (programs_cache (accounts s)) key with Some _ => true | None => false end
  then
    acc ← unwrap (get_account (accounts s) key);
    Ret (account_loaded_size acc, acc)
  else
    match get_account (accounts s) key with
    | Some acc => Ret (account_loaded_size acc, acc)
    | None =>
        let acc := set_rent_epoch default_account u64_max in
        Ret (len (data acc), acc)
    end.

(** Marks a writable rent-exempt account as such. *)
Definition mark_exempt (msg : SanitizedMessage) (rent : Rent) (i : nat) (acc : account) : account :=
  if is_writable msg i && negb (rent_epoch acc =? u64_max)%N
     && rent_is_exempt rent (lamports acc) (len (data acc))
  then set_rent_epoch acc u64_max else acc.

(** The closure's branch on the address: the loaded size and the account, the
    first suitable account being charged the fee. *)
Definition load_account (s : LiteSVM) (msg : SanitizedMessage) (rent : Rent) (fee : N)
    (st : LoadState) (i : nat) (key : address)
    : outcome (LoadState * result TransactionError (N * account)) :=
  if (key =? instructions_id)%N then
    let st := push_rent_state st Uninitialized in
    Ret (st, map_ok (pair 0%N) (construct_instructions_account construct_instructions_data msg))
  else
    sz_acc ← fetch_account s msg i key;
    let loaded_size := sz_acc.1 in
    let acc := sz_acc.2 in
    let st := push_rent_state st (get_account_rent_state rent (lamports acc) (len (data acc))) in
    let acc := mark_exempt msg rent i acc in
    if negb (validated_fee_payer st) && (negb (is_invoked msg i) || is_instruction_account msg i)
    then
      v ← validate_fee_payer key acc (N.of_nat i) rent fee;
      match v with
      | (_, Err e) => Ret (st, Err e)
      | (acc, Ok _) => Ret (set_payer st key, Ok (loaded_size, acc))
      end
    else Ret (st, Ok (loaded_size, acc)).

(** One call of the closure. *)
Definition load_one (s : LiteSVM) (msg : SanitizedMessage) (rent : Rent) (fee : N)
    (st : LoadState) (i : nat) (key : address)
    : outcome (LoadState * result TransactionError (address * account)) :=
  r ← load_account s msg rent fee st i key;
  match r with
  | (st, Err e) => Ret (st, Err e)
  | (st, Ok (loaded_size, acc)) =>
      let (d, res) := increase_calculated_data_size (loaded_tx_data_size st) loaded_size in
      Ret (set_size st d, map_ok (λ _, (key, acc)) res)
  end.

(** Collecting into a [Result] stops at the first error. *)
Fixpoint load_accounts (s : LiteSVM) (msg : SanitizedMessage) (rent : Rent) (fee : N)
    (st : LoadState) (i : nat) (keys : list address)
    : outcome (LoadState * result TransactionError (list (address * account))) :=
  match keys with
  | [] => Ret (st, Ok [])
  | key :: keys =>
      r ← load_one s msg rent fee st i key;
      match r with
      | (st, Err e) => Ret (st, Err e)
      | (st, Ok a) =>
          r ← load_accounts s msg rent fee st (S i) keys;
          Ret (r.1, map_ok (cons a) r.2)
      end
  end.

(** ** Loading the owners of the invoked programs *)

Definition program_index_of (s : LiteSVM) (builtins_start_index : nat)
    (accs : list (address * account)) (c : CompiledInstruction)
    : outcome (list (address * account) * result TransactionError N) :=
  let program_index := program_id_index c in
  prog ← unwrap (accs !! N.to_nat program_index);
  let '(program_id, program_account) := prog in
  if (program_id =? native_loader_id)%N then Ret (accs, Ok program_index)
  else if negb (executable program_account) then Ret (accs, Err TE_InvalidProgramForExecution)
  else
    let owner_id := owner program_account in
    if (owner_id =? native_loader_id)%N then Ret (accs, Ok program_index)
    else match get_from builtins_start_index accs with
    | None => Ret (accs, Err TE_ProgramAccountNotFound)
    | Some loaded =>
        if existsb (λ x, x.1 =? owner_id)%N loaded then Ret (accs, Ok program_index)
        else
          owner_account ← unwrap (get_account (accounts s) owner_id);
          if negb (owner owner_account =? native_loader_id)%N
          then Ret (accs, Err TE_InvalidProgramForExecution)
          else if negb (executable owner_account)
          then Ret (accs, Err TE_InvalidProgramForExecution)
          else Ret (accs ++ [(owner_id, owner_account)], Ok program_index)
    end.

Fixpoint program_indices_of (s : LiteSVM) (builtins_start_index : nat)
    (accs : list (address * account)) (ixs : list CompiledInstruction)
    : outcome (list (address * account) * result TransactionError (list N)) :=
  match ixs with
  | [] => Ret (accs, Ok [])
  | c :: ixs =>
      r ← program_index_of s builtins_start_index accs c;
      match r with
      | (accs, Err e) => Ret (accs, Err e)
      | (accs, Ok i) =>
          r ← program_indices_of s builtins_start_index accs ixs;
          Ret (r.1, map_ok (cons i) r.2)
      end
  end.

(** ** Execution and the rent check *)

Definition create_transaction_context (s : LiteSVM) (budget : ComputeBudget)
    (accs : list (address * account)) (n : nat) : outcome TransactionContext :=
  rent ← unwrap (cache_get_rent (sysvar_cache (accounts s)));
  Ret (context_new accs rent (max_instruction_stack_depth budget)
         (max_instruction_trace_length budget) n).

(** The body of the rent loop at a writable index. *)
Definition check_account_rent (c : TransactionContext) (rent : Rent) (index : nat)
    (pre_rent_state : RentState) : result TransactionError () :=
  acc ← map_err (TE_InstructionError (as_u8 (N.of_nat index))) (context_try_borrow c index);
  pubkey ← map_err (TE_InstructionError (as_u8 (N.of_nat index))) (context_key_at c index);
  check_rent_state_with_account pre_rent_state
    (get_account_rent_state rent (lamports acc) (len (data acc))) pubkey (N.of_nat index).

Fixpoint check_rent_from (msg : SanitizedMessage) (c : TransactionContext) (rent : Rent)
    (index : nat) (states : list RentState) : result TransactionError () :=
  match states with
  | [] => Ok ()
  | pre_rent_state :: states =>
      _ ← (if is_writable msg index then check_account_rent c rent index pre_rent_state
           else Ok ());
      check_rent_from msg c rent (S index) states
  end.

Definition check_accounts_rent (tx : SanitizedTransaction) (c : TransactionContext) (rent : Rent)
    (states : list RentState) : result TransactionError () :=
  check_rent_from (message tx) c rent 0 states.

(** ** [process_transaction] *)

Record ProcessOutput : Type := {
  po_result : result TransactionError ();
  po_units : N;
  po_context : option TransactionContext;
  po_fee : N;
  po_payer : option address;
  po_logs : LogCollector }.

Definition transaction_budget (s : LiteSVM) (tx_config : TransactionConfiguration)
    : ComputeBudget :=
  match compute_budget s with
  | Some b => b
  | None =>
      with_limit_and_heap
        (compute_budget_with_defaults (fs_is_active (feature_set s) raise_cpi_nesting_limit_to_8))
        (tc_compute_unit_limit tx_config) (tc_updated_heap_bytes tx_config)
  end.

Definition transaction_fee (s : LiteSVM) (tx_config : TransactionConfiguration)
    (msg : SanitizedMessage) : N :=
  calculate_fee msg (lamports_per_signature (fee_structure s))
    (tc_priority_fee_lamports tx_config) (feature_set s).

Definition environment_config (s : LiteSVM) (blockhash : hash) : EnvironmentConfig := {|
  ec_blockhash := blockhash;
  ec_lamports_per_signature := lamports_per_signature (fee_structure s);
  ec_callback := litesvm_callback s;
  ec_feature_set := feature_set s;
  ec_env_for_execution := env_for_execution (accounts s);
  ec_env_for_deployment := env_for_deployment (accounts s);
  ec_sysvar_cache := sysvar_cache (accounts s) |}.

(** An early return: no context, nothing consumed. *)
Definition unprocessed (e : TransactionError) (fee : N) (payer : option address)
    (lc : LogCollector) : ProcessOutput :=
  {| po_result := Err e; po_units := 0; po_context := None; po_fee := fee;
     po_payer := payer; po_logs := lc |}.

Definition initial_load_state (d : LoadedTransactionDataSize) : LoadState :=
  {| pre_rent_states := []; validated_fee_payer := false; payer_key := None;
     loaded_tx_data_size := d |}.

(** The part after loading: contexts, message execution, rent. *)
Definition run_message (s : LiteSVM) (tx : SanitizedTransaction) (budget : ComputeBudget)
    (rent : Rent) (fee : N) (lc : LogCollector) (st : LoadState)
    (accs : list (address * account)) (program_indices : list N) : outcome ProcessOutput :=
  let msg := message tx in
  context ← create_transaction_context s budget accs (length (instructions msg));
  let ic := invoke_context_new context (programs_cache (accounts s))
              (environment_config s (recent_blockhash msg)) lc budget in
  let '(units, ic, tx_result) := process_message msg program_indices ic 0 in
  let context := ic_context ic in
  let tx_result :=
    _ ← tx_result; check_accounts_rent tx context rent (pre_rent_states st) in
  Ret {| po_result := tx_result; po_units := units; po_context := Some context;
         po_fee := fee; po_payer := payer_key st; po_logs := ic_log_collector ic |}.

(** From the loaded accounts on. *)
Definition process_loaded (s : LiteSVM) (tx : SanitizedTransaction) (budget : ComputeBudget)
    (rent : Rent) (fee : N) (lc : LogCollector) (st : LoadState)
    (accs : list (address * account)) : outcome ProcessOutput :=
  if negb (validated_fee_payer st)
  then Ret (unprocessed TE_AccountNotFound fee (payer_key st) lc)
  else
    r ← program_indices_of s (length accs) accs (instructions (message tx));
    match r with
    | (_, Err e) => Ret (unprocessed e fee (payer_key st) lc)
    | (accs, Ok program_indices) =>
        run_message s tx budget rent fee lc st accs program_indices
    end.

Definition process_transaction (s : LiteSVM) (tx : SanitizedTransaction)
    (tx_config : TransactionConfiguration) (lc : LogCollector) : outcome ProcessOutput :=
  let budget := transaction_budget s tx_config in
  rent ← unwrap (cache_get_rent (sysvar_cache (accounts s)));
  let msg := message tx in
  let fee := transaction_fee s tx_config msg in
  let (d, res) :=
    increase_calculated_data_size
      (with_max_size (tc_loaded_accounts_data_size_limit tx_config))
      (saturating_mul u64_max (num_lookup_tables msg) ADDRESS_LOOKUP_TABLE_BASE_SIZE) in
  match res with
  | Err e => Ret (unprocessed e fee None lc)
  | Ok _ =>
      r ← load_accounts s msg rent fee (initial_load_state d) 0 (account_keys msg);
      match r with
      | (st, Err e) => Ret (unprocessed e fee (payer_key st) lc)
      | (st, Ok accs) => process_loaded s tx budget rent fee lc st accs
      end
  end.

(** ** The execution result *)

Fixpoint writable_from (msg : SanitizedMessage) (idx : nat) (accs : list (address * account))
    : list (address * account) :=
  match accs with
  | [] => []
  | acc :: accs =>
      if is_writable msg idx then acc :: writable_from msg (S idx) accs
      else writable_from msg (S idx) accs
  end.

Definition execute_tx_helper (tx : SanitizedTransaction) (ctx : TransactionContext)
    : signature * TransactionReturnData * InnerInstructionsList * list (address * account) :=
  (tx_signature tx, context_return_data ctx,
   inner_instructions_list_from_instruction_trace TRANSACTION_LEVEL_STACK_HEIGHT
     (context_trace ctx),
   writable_from (message tx) 0 (context_accounts ctx)).

Definition execution_result_if_context (tx : SanitizedTransaction) (ctx : TransactionContext)
    (res : result TransactionError ()) (units fee : N) : ExecutionResult :=
  let '(sig, ret, inner_ixs, post) := execute_tx_helper tx ctx in
  {| post_accounts := post; tx_result := res; er_signature := sig;
     er_compute_units_consumed := units; er_inner_instructions := inner_ixs;
     er_return_data := ret; included := true; er_fee := fee |}.

Definition map_sanitize_result {A} (res : result ExecutionResult SanitizedTransaction)
    (default : ExecutionResult → A) (op : SanitizedTransaction → A) : A :=
  match res with Ok tx => op tx | Err e => default e end.
End process.
