(* ===== verification/ProcessLemmas.v ===== *)
(** * Facts about transaction processing

    What [process_transaction] loads, charges and leaves in the transaction
    context: the lemmas behind the theorems on sending transactions. *)

From S2P Require Import Prelude Errors ComputeBudget Runtime RentState Utils Types History.
From S2P Require Import EpochStake AccountsDb Vm InnerInstructions Features Svm Process.

Section loading.
Context `{Host}.

(** ** The fee payer *)

Definition payer_min_balance (rent : Rent) (k : SystemAccountKind) : N :=
  match k with System => 0%N | Nonce => rent_minimum_balance rent nonce_state_size end.

Lemma validate_fee_payer_cases key acc i rent fee :
  validate_fee_payer key acc i rent fee =
  if (lamports acc =? 0)%N then Ret (acc, Err TE_AccountNotFound)
  else match get_system_account_kind acc with
  | None => Ret (acc, Err TE_InvalidAccountForFee)
  | Some k =>
      if (payer_min_balance rent k + fee <=? lamports acc)%N then
        Ret (set_lamports acc (lamports acc - fee),
             check_rent_state_with_account
               (get_account_rent_state rent (lamports acc) (len (data acc)))
               (get_account_rent_state rent (lamports acc - fee) (len (data acc))) key i)
      else Ret (acc, Err TE_InsufficientFundsForFee)
  end.
Proof.
  unfold validate_fee_payer. destruct (lamports acc =? 0)%N; [done|].
  destruct (get_system_account_kind acc) as [k|]; [|done].
  change (match k with System => _ | Nonce => _ end) with (payer_min_balance rent k).
  generalize (payer_min_balance rent k) as m. intros m. unfold checked_sub.
  destruct (N.leb_spec m (lamports acc)); simpl;
    [|destruct (N.leb_spec (m + fee) (lamports acc)); [lia|done]].
  destruct (N.leb_spec fee (lamports acc - m)); simpl;
    (destruct (N.leb_spec (m + fee) (lamports acc)); try lia; try done).
  unfold checked_sub_lamports, checked_sub.
  by destruct (N.leb_spec fee (lamports acc)); [|lia].
Qed.

Lemma validate_fee_payer_Ok key acc i rent fee acc' :
  validate_fee_payer key acc i rent fee = Ret (acc', Ok ()) →
  ∃ k, get_system_account_kind acc = Some k ∧ lamports acc ≠ 0%N ∧
    (payer_min_balance rent k + fee ≤ lamports acc)%N ∧
    acc' = set_lamports acc (lamports acc - fee) ∧
    check_rent_state_with_account
      (get_account_rent_state rent (lamports acc) (len (data acc)))
      (get_account_rent_state rent (lamports acc - fee) (len (data acc))) key i = Ok ().
Proof.
  rewrite validate_fee_payer_cases. destruct (N.eqb_spec (lamports acc) 0); [done|].
  destruct (get_system_account_kind acc) as [k|]; [|done].
  destruct (N.leb_spec (payer_min_balance rent k + fee) (lamports acc)); [|done].
  intros [= <- ?]. eauto 10.
Qed.

(** ** Loaded accounts *)

(** The account a key stands for before any charge. *)
Definition stored_or_empty (s : LiteSVM) (key : address) : account :=
  default (set_rent_epoch default_account u64_max) (get_account (accounts s) key).

Lemma fetch_account_spec s msg i key sz acc :
  fetch_account s msg i key = Ret (sz, acc) → acc = stored_or_empty s key.
Proof.
  unfold fetch_account, stored_or_empty. destruct (_ && _ && _).
  - destruct (get_account (accounts s) key); simpl; [|done]. by intros [= _ <-].
  - destruct (get_account (accounts s) key); simpl; by intros [= _ <-].
Qed.

Lemma mark_exempt_lamports msg rent i acc : lamports (mark_exempt msg rent i acc) = lamports acc.
Proof. unfold mark_exempt. by case_match. Qed.

(** An account loaded at an index without being charged. *)
Definition plain_load (s : LiteSVM) (msg : SanitizedMessage) (rent : Rent) (i : nat)
    (key : address) (acc : account) : Prop :=
  if (key =? instructions_id)%N
  then construct_instructions_account construct_instructions_data msg = Ok acc
  else acc = mark_exempt msg rent i (stored_or_empty s key).

(** The rent state recorded for a key. *)
Definition pre_state (s : LiteSVM) (rent : Rent) (key : address) : RentState :=
  if (key =? instructions_id)%N then Uninitialized
  else let acc := stored_or_empty s key in
       get_account_rent_state rent (lamports acc) (len (data acc)).

(** The accounts that may pay: the instructions sysvar cannot, nor an account that
    is only invoked as a program. *)
Definition may_pay (msg : SanitizedMessage) (i : nat) (key : address) : bool :=
  negb (key =? instructions_id)%N && (negb (is_invoked msg i) || is_instruction_account msg i).

(** The payer: the first account that may pay. *)
Fixpoint fee_payer_from (msg : SanitizedMessage) (i : nat) (keys : list address)
    : option address :=
  match keys with
  | [] => None
  | key :: keys => if may_pay msg i key then Some key else fee_payer_from msg (S i) keys
  end.

Definition fee_payer (msg : SanitizedMessage) : option address :=
  fee_payer_from msg 0 (account_keys msg).

(** What loading the keys from index [i] on produces: the accounts, and the payer
    when one of them is charged. *)
Inductive loads (s : LiteSVM) (msg : SanitizedMessage) (rent : Rent) (fee : N)
    : nat → list address → list (address * account) → option address → Prop :=
| loads_nil i : loads s msg rent fee i [] [] None
| loads_plain i key keys acc accs p :
    plain_load s msg rent i key acc →
    (p ≠ None → may_pay msg i key = false) →
    loads s msg rent fee (S i) keys accs p →
    loads s msg rent fee i (key :: keys) ((key, acc) :: accs) p
| loads_payer i key keys acc' accs :
    may_pay msg i key = true →
    validate_fee_payer key (mark_exempt msg rent i (stored_or_empty s key)) (N.of_nat i)
      rent fee = Ret (acc', Ok ()) →
    loads s msg rent fee (S i) keys accs None →
    loads s msg rent fee i (key :: keys) ((key, acc') :: accs) (Some key).

Lemma load_one_Ok s msg rent fee st i key st' kacc :
  load_one s msg rent fee st i key = Ret (st', Ok kacc) →
  kacc.1 = key ∧
  pre_rent_states st' = pre_rent_states st ++ [pre_state s rent key] ∧
  ((plain_load s msg rent i key kacc.2 ∧
    (validated_fee_payer st = false → may_pay msg i key = false) ∧
    validated_fee_payer st' = validated_fee_payer st ∧ payer_key st' = payer_key st) ∨
   (may_pay msg i key = true ∧ validated_fee_payer st = false ∧
    validate_fee_payer key (mark_exempt msg rent i (stored_or_empty s key)) (N.of_nat i)
      rent fee = Ret (kacc.2, Ok ()) ∧
    validated_fee_payer st' = true ∧ payer_key st' = Some key)).
Proof.
  unfold load_one, load_account, plain_load, pre_state, may_pay.
  destruct (key =? instructions_id)%N.
  - simpl. destruct (construct_instructions_account _ msg) as [a|e]; simpl; [|done].
    destruct (increase_calculated_data_size _ _) as [d [[]|]]; [|done].
    intros [= <- <-]. simpl. split_and!; [done..|left; done].
  - destruct (fetch_account s msg i key) as [[sz acc]|] eqn:Hf; [|done].
    apply fetch_account_spec in Hf as ->. simpl.
    set (acc := stored_or_empty s key).
    destruct (negb (validated_fee_payer st)) eqn:Hv; simpl.
    2:{ apply negb_false_iff in Hv. rewrite Hv.
        destruct (increase_calculated_data_size _ _) as [d [[]|]]; [|done].
        intros [= <- <-]. simpl. split_and!; [done..|left; split_and!; done]. }
    apply negb_true_iff in Hv.
    destruct (negb (is_invoked msg i) || is_instruction_account msg i); simpl.
    2:{ destruct (increase_calculated_data_size _ _) as [d [[]|]]; [|done].
        intros [= <- <-]. simpl. split_and!; [done..|left; split_and!; done]. }
    destruct (validate_fee_payer key _ _ rent fee) as [[acc' [[]|]]|] eqn:Hval; try done.
    simpl. destruct (increase_calculated_data_size _ _) as [d [[]|]]; [|done].
    intros [= <- <-]. simpl. split_and!; try done. right. done.
Qed.

Lemma load_accounts_Ok s msg rent fee keys : ∀ st i st' accs,
  load_accounts s msg rent fee st i keys = Ret (st', Ok accs) →
  pre_rent_states st' = pre_rent_states st ++ (pre_state s rent <$> keys) ∧
  ∃ p, loads s msg rent fee i keys accs p ∧
    match p with
    | Some k => validated_fee_payer st = false ∧ validated_fee_payer st' = true
                ∧ payer_key st' = Some k
    | None => validated_fee_payer st' = validated_fee_payer st ∧ payer_key st' = payer_key st
    end.
Proof.
  induction keys as [|key keys IH]; intros st i st' accs; simpl.
  { intros [= <- <-]. rewrite app_nil_r. split; [done|]. exists None. split; [constructor|done]. }
  destruct (load_one s msg rent fee st i key) as [[st1 [[k a]|e]]|] eqn:H1; try done. simpl.
  destruct (load_accounts s msg rent fee st1 (S i) keys) as [[st2 [accs2|e]]|] eqn:H2; try done.
  intros [= <- <-]. simpl.
  destruct (load_one_Ok _ _ _ _ _ _ _ _ _ H1) as (Hk & Hpre & Hcase). simpl in *. subst k.
  destruct (IH _ _ _ _ H2) as (Hpre2 & p & Hl & Hp).
  split; [by rewrite Hpre2, Hpre, <-app_assoc|].
  destruct Hcase as [(Hplain & Hnot & Hv & Hpk)|(Hk & Hv & Hval & Hv1 & Hpk)].
  - exists p. split; [constructor; try done|destruct p; rewrite ?Hv, ?Hpk in Hp; done].
    intros Hsome. apply Hnot. rewrite <-Hv. by destruct p as [k|]; [destruct Hp|].
  - destruct p; [destruct Hp; congruence|]. destruct Hp as [Hv2 Hpk2].
    exists (Some key). split; [by constructor|]. by rewrite Hv2, Hpk2.
Qed.

Lemma loads_keys s msg rent fee i keys accs p :
  loads s msg rent fee i keys accs p → accs.*1 = keys.
Proof. induction 1; simpl; by f_equal. Qed.

(** The payer is one of the keys, and is stored with enough for the fee. *)
Lemma loads_payer_stored s msg rent fee i keys accs k :
  loads s msg rent fee i keys accs (Some k) →
  ∃ j acc acc', keys !! j = Some k ∧ k ≠ instructions_id ∧
    get_account (accounts s) k = Some acc ∧ accs !! j = Some (k, acc') ∧
    validate_fee_payer k (mark_exempt msg rent (i + j) acc) (N.of_nat (i + j)) rent fee
    = Ret (acc', Ok ()).
Proof.
  remember (Some k) as p eqn:Hp. intros Hl. revert Hp.
  induction Hl as [|i key keys acc accs p Hplain _ _ IH|i key keys acc' accs Hk Hval _ _];
    intros Hp; [done| |].
  - destruct (IH Hp) as (j & a & a' & ? & ? & ? & ? & ?).
    exists (S j), a, a'. rewrite Nat.add_succ_r. done.
  - injection Hp as ->. destruct (get_account (accounts s) k) as [a|] eqn:Ha.
    + exists 0, a, acc'. unfold stored_or_empty in Hval. rewrite Ha in Hval.
      rewrite Nat.add_0_r. apply andb_prop in Hk as [Hk%negb_true_iff%N.eqb_neq _]. done.
    + exfalso. unfold stored_or_empty in Hval. rewrite Ha in Hval.
      apply validate_fee_payer_Ok in Hval as (? & _ & Hz & _).
      rewrite mark_exempt_lamports in Hz. by apply Hz.
Qed.

Lemma loads_fee_payer s msg rent fee i keys accs k :
  loads s msg rent fee i keys accs (Some k) → fee_payer_from msg i keys = Some k.
Proof.
  remember (Some k) as p eqn:Hp. intros Hl. revert Hp.
  induction Hl as [|i key keys acc accs p Hplain Hnot _ IH|i key keys acc' accs Hk Hval _ _];
    intros Hp; simpl; [done| |by rewrite Hk].
  rewrite Hnot by (by rewrite Hp). auto.
Qed.

(** ** Programs *)

Lemma program_index_of_prefix s b accs c accs' r :
  program_index_of s b accs c = Ret (accs', r) → accs `prefix_of` accs'.
Proof.
  unfold program_index_of. intros Hp.
  destruct (accs !! _) as [[k a]|]; [simpl in Hp|done].
  repeat (break_match_in Hp; inv_res; try done).
  all: try (destruct (get_account (accounts s) (owner a)) as [o|]; simpl in Hp; [|done];
    repeat (break_match_in Hp; inv_res; try done)).
  all: by apply prefix_app_r.
Qed.

Lemma program_indices_of_prefix s b ixs : ∀ accs accs' r,
  program_indices_of s b accs ixs = Ret (accs', r) → accs `prefix_of` accs'.
Proof.
  induction ixs as [|c ixs IH]; intros accs accs' r; simpl; [by intros [= <- _]|].
  destruct (program_index_of s b accs c) as [[accs1 [n|e]]|] eqn:H1; simpl; try done.
  - destruct (program_indices_of s b accs1 ixs) as [[accs2 r2]|] eqn:H2; [|done].
    intros [= <- _]. etrans; [by eapply program_index_of_prefix|eauto].
  - intros [= <- _]. by eapply program_index_of_prefix.
Qed.

(** ** The whole of [process_transaction] *)

(** A run that reached the runtime. *)
Inductive run (s : LiteSVM) (tx : SanitizedTransaction) (cfg : TransactionConfiguration)
    (lc : LogCollector) (p : ProcessOutput) (ctx : TransactionContext) : Prop :=
| mkRun
    (run_rent : Rent)
    (run_accs : list (address * account))
    (run_all : list (address * account))
    (run_payer : address)
    (run_indices : list N)
    (run_ic : InvokeContext)
    (run_result : result TransactionError ())
    (run_cached_rent : cache_get_rent (sysvar_cache (accounts s)) = Some run_rent)
    (run_loads : loads s (message tx) run_rent (transaction_fee s cfg (message tx)) 0
    (account_keys (message tx)) run_accs (Some run_payer))
    (run_prefix : run_accs `prefix_of` run_all)
    (run_process :
    process_message (message tx) run_indices
      (invoke_context_new
         (context_new run_all run_rent
            (max_instruction_stack_depth (transaction_budget s cfg))
            (max_instruction_trace_length (transaction_budget s cfg))
            (length (instructions (message tx))))
         (programs_cache (accounts s)) (environment_config s (recent_blockhash (message tx)))
         lc (transaction_budget s cfg)) 0
    = (po_units p, run_ic, run_result))
    (run_context : ctx = ic_context run_ic)
    (run_outcome : po_result p =
    (_ ← run_result;
     check_accounts_rent tx ctx run_rent (pre_state s run_rent <$> account_keys (message tx))))
    (run_fee : po_fee p = transaction_fee s cfg (message tx))
    (run_payer_key : po_payer p = Some run_payer) : run s tx cfg lc p ctx.

Lemma process_transaction_run s tx cfg lc p ctx :
  process_transaction s tx cfg lc = Ret p → po_context p = Some ctx → run s tx cfg lc p ctx.
Proof.
  unfold process_transaction.
  destruct (cache_get_rent (sysvar_cache (accounts s))) as [rent|] eqn:Hrent; simpl; [|done].
  destruct (increase_calculated_data_size _ _) as [d [[]|]]; [|by intros [= <-]].
  destruct (load_accounts _ _ _ _ _ _ _) as [[st [accs|e]]|] eqn:Hload; simpl;
    [|by intros [= <-]|done].
  destruct (load_accounts_Ok _ _ _ _ _ _ _ _ _ Hload) as (Hpre & pay & Hl & Hpay).
  unfold process_loaded. destruct (validated_fee_payer st) eqn:Hv; simpl; [|by intros [= <-]].
  destruct pay as [k|]; [|simpl in Hpay; destruct Hpay; congruence].
  destruct (program_indices_of _ _ _ _) as [[all [idx|e]]|] eqn:Hidx; simpl;
    [|by intros [= <-]|done].
  unfold run_message, create_transaction_context. rewrite Hrent. simpl.
  destruct (process_message _ _ _ _) as [[units ic] r] eqn:Hpm.
  intros [= <-] [= <-]. destruct Hpay as (_ & _ & Hk).
  eapply (mkRun _ _ _ _ _ _ rent accs all k idx ic r); simpl; try done.
  - by eapply program_indices_of_prefix.
  - by rewrite Hpre.
Qed.

(** Without a context, the transaction failed. *)
Lemma process_transaction_no_context s tx cfg lc p :
  process_transaction s tx cfg lc = Ret p → po_context p = None → po_result p ≠ Ok ().
Proof.
  unfold process_transaction.
  destruct (cache_get_rent (sysvar_cache (accounts s))) as [rent|] eqn:Hrent; simpl; [|done].
  destruct (increase_calculated_data_size _ _) as [d [[]|]]; [|by intros [= <-]].
  destruct (load_accounts _ _ _ _ _ _ _) as [[st [accs|e]]|] eqn:Hload; simpl;
    [|by intros [= <-]|done].
  unfold process_loaded. destruct (validated_fee_payer st); simpl; [|by intros [= <-]].
  destruct (program_indices_of _ _ _ _) as [[all [idx|e]]|] eqn:Hidx; simpl;
    [|by intros [= <-]|done].
  unfold run_message, create_transaction_context. rewrite Hrent. simpl.
  destruct (process_message _ _ _ _) as [[units ic] r]. by intros [= <-].
Qed.
End loading.

(** ** Writable accounts and their balances *)

Section writable.
Context `{Host}.
Implicit Types msg : SanitizedMessage.
Implicit Types l : list (address * account).

Definition balances (l : list (address * account)) : N := list_sum (λ x, lamports x.2) l.

Lemma writable_from_keys msg l l' : ∀ i,
  l.*1 = l'.*1 → (writable_from msg i l).*1 = (writable_from msg i l').*1.
Proof.
  revert l'. induction l as [|x l IH]; intros [|x' l'] i Hk; simpl in *; try done.
  injection Hk as Hx Hk. destruct (is_writable msg i); simpl; [|by apply IH].
  rewrite Hx. f_equal. by apply IH.
Qed.

Lemma writable_from_elem msg l : ∀ i x,
  x ∈ writable_from msg i l ↔ ∃ j, l !! j = Some x ∧ is_writable msg (i + j) = true.
Proof.
  induction l as [|y l IH]; intros i x; simpl.
  { split; [set_solver|]. intros (j & Hj & _). by rewrite lookup_nil in Hj. }
  assert ((∃ j, (y :: l) !! j = Some x ∧ is_writable msg (i + j) = true) ↔
          (x = y ∧ is_writable msg i = true) ∨ x ∈ writable_from msg (S i) l) as ->.
  { rewrite IH. split.
    - intros ([|j] & Hj & Hw).
      + injection Hj as ->. rewrite Nat.add_0_r in Hw. by left.
      + right. exists j. split; [done|]. by rewrite Nat.add_succ_comm.
    - intros [[-> Hw]|(j & Hj & Hw)].
      + exists 0. by rewrite Nat.add_0_r.
      + exists (S j). rewrite <-Nat.add_succ_comm. done. }
  destruct (is_writable msg i); set_solver.
Qed.

Lemma writable_from_sublist msg l : ∀ i, sublist (writable_from msg i l) l.
Proof.
  induction l as [|x l IH]; intros i; simpl; [constructor|].
  destruct (is_writable msg i); constructor; apply IH.
Qed.

Lemma writable_from_app msg l l' : ∀ i,
  (∀ j, i + length l ≤ j → is_writable msg j = false) →
  writable_from msg i (l ++ l') = writable_from msg i l.
Proof.
  induction l as [|x l IH]; intros i Hw; simpl in *.
  - revert i Hw. induction l' as [|y l' IH']; intros i Hw; simpl; [done|].
    rewrite Hw by lia. apply IH'. intros. apply Hw. lia.
  - rewrite IH by (intros; apply Hw; lia). done.
Qed.

(** Lists that agree outside the writable indices have balances that differ as
    their writable parts do. *)
Lemma writable_from_balances msg l : ∀ l' i,
  l'.*1 = l.*1 → (∀ j, is_writable msg (i + j) = false → l' !! j = l !! j) →
  (balances l' + balances (writable_from msg i l)
   = balances l + balances (writable_from msg i l'))%N.
Proof.
  unfold balances. induction l as [|x l IH]; intros [|x' l'] i Hk Hro; simpl in *; try done.
  injection Hk as Hx Hk.
  specialize (IH l' (S i) Hk). forward IH.
  { intros j Hj. apply (Hro (S j)). by rewrite Nat.add_succ_r. }
  pose proof (Hro 0) as H0. rewrite Nat.add_0_r in H0. simpl in H0.
  destruct (is_writable msg i); simpl; [lia|].
  specialize (H0 eq_refl). injection H0 as ->. lia.
Qed.

(** The keys of a message with the accounts they stand for. *)
Definition base_accounts (s : LiteSVM) (keys : list address) : list (address * account) :=
  (λ k, (k, stored_or_empty s k)) <$> keys.

(** Loading keeps every writable balance, but for the fee taken from the payer. *)
Lemma loads_balances s msg rent fee i keys accs p :
  loads s msg rent fee i keys accs p →
  (∀ j, keys !! j = Some instructions_id → is_writable msg (i + j) = false) →
  (∀ j k, keys !! j = Some k → p = Some k → is_writable msg (i + j) = true) →
  (balances (writable_from msg i accs) + (if p then fee else 0)
   = balances (writable_from msg i (base_accounts s keys)))%N.
Proof.
  unfold balances.
  induction 1 as [|i key keys acc accs p Hplain Hnot Hl IH|i key keys acc' accs Hk Hval Hl IH];
    intros Hins Hpay; simpl; [done| |].
  - forward IH. { intros j Hj. rewrite Nat.add_succ_comm. by apply Hins. }
    forward IH. { intros j k Hj Hp. rewrite Nat.add_succ_comm. by eapply Hpay. }
    destruct (is_writable msg i) eqn:Hw; [simpl|exact IH].
    unfold plain_load in Hplain. destruct (N.eqb_spec key instructions_id) as [->|].
    { pose proof (Hins 0 eq_refl) as Hi. rewrite Nat.add_0_r in Hi. congruence. }
    rewrite Hplain, mark_exempt_lamports. lia.
  - forward IH. { intros j Hj. rewrite Nat.add_succ_comm. by apply Hins. }
    forward IH. { done. }
    pose proof (Hpay 0 key eq_refl eq_refl) as Hw. rewrite Nat.add_0_r in Hw. rewrite Hw.
    apply validate_fee_payer_Ok in Hval as (k & _ & _ & Hle & -> & _).
    rewrite mark_exempt_lamports in *. simpl. simpl in IH. lia.
Qed.

(** ** The rent check *)

Lemma check_rent_from_Ok msg ctx rent states : ∀ i,
  check_rent_from msg ctx rent i states = Ok () →
  ∀ j st, states !! j = Some st → is_writable msg (i + j) = true →
  check_account_rent ctx rent (i + j) st = Ok ().
Proof.
  induction states as [|st0 states IH]; intros i; simpl; [done|].
  intros Hc [|j] st Hst Hw.
  - rewrite Nat.add_0_r in *. injection Hst as ->. rewrite Hw in Hc.
    by destruct (check_account_rent ctx rent i st) as [[]|].
  - rewrite <-Nat.add_succ_comm in *. eapply IH; eauto.
    destruct (if is_writable msg i then _ else _); simpl in Hc; [exact Hc|done].
Qed.
End writable.

Section context.
Context `{Host} `{!VmPermissions} `{!VmLaws}.

Lemma check_account_rent_Ok ctx rent i st k acc :
  context_accounts ctx !! i = Some (k, acc) →
  check_account_rent ctx rent i st = Ok () →
  k = incinerator_id ∨
  rent_step st (get_account_rent_state rent (lamports acc) (len (data acc))).
Proof.
  intros Hctx. unfold check_account_rent.
  destruct (context_try_borrow ctx i) as [a|] eqn:Ha; simpl; [|done].
  destruct (context_key_at ctx i) as [k'|] eqn:Hk; simpl; [|done].
  apply context_try_borrow_account in Ha. apply context_key_at_key in Hk.
  rewrite list_lookup_fmap, Hctx in Ha. rewrite list_lookup_fmap, Hctx in Hk. injection Ha as <-. injection Hk as <-.
  apply check_rent_state_Ok.
Qed.

(** What a successful run leaves in the context, relative to what was loaded. *)
Lemma run_frame s tx cfg lc p ctx :
  run s tx cfg lc p ctx → po_result p = Ok () →
  ∃ rent accs all payer,
    cache_get_rent (sysvar_cache (accounts s)) = Some rent ∧
    loads s (message tx) rent (po_fee p) 0 (account_keys (message tx)) accs (Some payer) ∧
    accs `prefix_of` all ∧
    (context_accounts ctx).*1 = all.*1 ∧
    (∀ i, is_writable (message tx) i = false → context_accounts ctx !! i = all !! i) ∧
    balances (context_accounts ctx) = balances all ∧
    check_accounts_rent tx ctx rent (pre_state s rent <$> account_keys (message tx)) = Ok ().
Proof.
  intros [rent accs all payer idx ic r Hrent Hl Hpre Hpm -> Hres Hfee _] Hok.
  rewrite Hok in Hres. destruct r as [[]|]; simpl in Hres; [|done].
  destruct (process_message_frame _ _ _ _ _ _ _ Hpm eq_refl) as [[Hk Hro] Hlam].
  unfold context_lamports in Hlam.
  setoid_rewrite invoke_context_new_context in Hro.
  setoid_rewrite context_new_accounts in Hro.
  rewrite invoke_context_new_context, context_new_accounts in Hk.
  rewrite invoke_context_new_context, context_new_accounts in Hlam.
  exists rent, accs, all, payer. rewrite Hfee. split_and!; try done.
Qed.
End context.
