(* ===== verification/ProcessProps.v ===== *)
(** * Properties of transaction processing

    The fee payer's validation on every branch, the absence of panics in
    [process_transaction], and the bound on the data it loads. *)

From S2P Require Import Prelude Errors ComputeBudget Runtime RentState Utils Types History.
From S2P Require Import EpochStake AccountsDb Vm InnerInstructions Features Svm Process.
From S2P Require Import ProcessLemmas.

Section facts.
Context `{Host}.

(** ** Loaded sizes *)

(** What a key counts for. *)
Definition key_size (s : LiteSVM) (key : address) : N :=
  if (key =? instructions_id)%N then 0
  else match get_account (accounts s) key with
       | Some acc => TRANSACTION_ACCOUNT_BASE_SIZE + len (data acc)
       | None => 0
       end.

Lemma fetch_account_size s msg i key sz acc :
  fetch_account s msg i key = Ret (sz, acc) → key ≠ instructions_id →
  sz = N.min u64_max (key_size s key).
Proof.
  unfold fetch_account, key_size, account_loaded_size, saturating_add.
  intros Hf Hk%N.eqb_neq. rewrite Hk.
  destruct (_ && _ && _), (get_account (accounts s) key); simpl in Hf; simplify_eq/=; done.
Qed.

Lemma increase_Ok d sz d' :
  increase_calculated_data_size d sz = (d', Ok ()) → size_wf d →
  size_wf d' ∧ requested_loaded_accounts_data_size_limit d'
               = requested_loaded_accounts_data_size_limit d ∧
  (sz ≤ u32_max)%N ∧
  loaded_accounts_data_size d' = (loaded_accounts_data_size d + sz)%N ∧
  (loaded_accounts_data_size d' ≤ requested_loaded_accounts_data_size_limit d)%N.
Proof.
  intros Hi Hwf. pose proof (increase_wf d sz Hwf) as Hw. pose proof (increase_limit d sz) as Hl.
  pose proof (increase_spec d sz Hwf) as Hs. rewrite Hi in *. simpl in *.
  destruct Hs as [-> Hle]. destruct Hwf as [_ Hmax]. split_and!; try done; lia.
Qed.

Lemma load_one_size s msg rent fee st i key st' kacc :
  load_one s msg rent fee st i key = Ret (st', Ok kacc) →
  ∃ sz, increase_calculated_data_size (loaded_tx_data_size st) sz
        = (loaded_tx_data_size st', Ok ()) ∧ sz = N.min u64_max (key_size s key).
Proof.
  unfold load_one, load_account.
  destruct (N.eqb_spec key instructions_id) as [->|Hk].
  - simpl. destruct (construct_instructions_account _ msg); simpl; [|done].
    destruct (increase_calculated_data_size _ 0) as [d [[]|]] eqn:Hi; [|done].
    intros [= <- <-]. exists 0%N. split; [done|]. unfold key_size. by rewrite N.eqb_refl.
  - destruct (fetch_account s msg i key) as [[sz acc]|] eqn:Hf; simpl; [|done].
    pose proof (fetch_account_size _ _ _ _ _ _ Hf Hk) as Hsz.
    destruct (negb _ && _); simpl;
      [destruct (validate_fee_payer key _ _ rent fee) as [[acc' [[]|]]|]; simpl; try done|];
      (destruct (increase_calculated_data_size _ sz) as [d [[]|]] eqn:Hi; [|done]);
      intros [= <- <-]; by exists sz.
Qed.

Lemma load_accounts_size s msg rent fee keys : ∀ st i st' accs,
  load_accounts s msg rent fee st i keys = Ret (st', Ok accs) →
  size_wf (loaded_tx_data_size st) →
  (loaded_accounts_data_size (loaded_tx_data_size st)
   ≤ requested_loaded_accounts_data_size_limit (loaded_tx_data_size st))%N →
  (loaded_accounts_data_size (loaded_tx_data_size st) + list_sum (key_size s) keys
   ≤ requested_loaded_accounts_data_size_limit (loaded_tx_data_size st))%N.
Proof.
  induction keys as [|key keys IH]; intros st i st' accs; simpl; [intros; lia|].
  destruct (load_one s msg rent fee st i key) as [[st1 [ka|e]]|] eqn:H1; try done. simpl.
  destruct (load_accounts s msg rent fee st1 (S i) keys) as [[st2 [accs2|e]]|] eqn:H2; try done.
  intros _ Hwf Hle. destruct (load_one_size _ _ _ _ _ _ _ _ _ H1) as (sz & Hi & Hsz).
  destruct (increase_Ok _ _ _ Hi Hwf) as (Hwf1 & Hlim & Hu32 & Hadd & Hle1).
  rewrite <-Hlim in Hle1. specialize (IH _ _ _ _ H2 Hwf1 Hle1).
  unfold u32_max, u64_max in *. lia.
Qed.

(** ** Panics *)

(** What LiteSVM relies on not to panic: the rent sysvar is cached, cached
    programs are stored, and so are the owners of executable accounts. *)
Record processable (s : LiteSVM) (msg : SanitizedMessage) : Prop := {
  rent_cached : is_Some (cache_get_rent (sysvar_cache (accounts s)));
  cached_programs_stored k :
    is_Some (cache_find (programs_cache (accounts s)) k) → is_Some (get_account (accounts s) k);
  owners_stored k acc :
    get_account (accounts s) k = Some acc → executable acc = true →
    owner acc ≠ native_loader_id → is_Some (get_account (accounts s) (owner acc));
  program_indexes_valid ix :
    ix ∈ instructions msg → (N.to_nat (program_id_index ix) < length (account_keys msg))%nat }.

(** The owner of an account to run is stored. *)
Definition owner_stored (s : LiteSVM) (acc : account) : Prop :=
  executable acc = true → owner acc ≠ native_loader_id →
  is_Some (get_account (accounts s) (owner acc)).

Lemma validate_fee_payer_total key acc i rent fee :
  ∃ r, validate_fee_payer key acc i rent fee = Ret r.
Proof. rewrite validate_fee_payer_cases. repeat case_match; eauto. Qed.

Lemma load_one_total s msg rent fee st i key :
  (∀ k, is_Some (cache_find (programs_cache (accounts s)) k) →
        is_Some (get_account (accounts s) k)) →
  ∃ r, load_one s msg rent fee st i key = Ret r.
Proof.
  intros Hc. unfold load_one.
  assert (∃ r, load_account s msg rent fee st i key = Ret r) as [[st' [[sz a]|e]] ->]; simpl;
    [|destruct (increase_calculated_data_size _ _); eauto|eauto].
  unfold load_account. destruct (key =? instructions_id)%N; [eauto|].
  assert (∃ x, fetch_account s msg i key = Ret x) as [[sz acc] ->]; simpl.
  { unfold fetch_account.
    destruct (cache_find (programs_cache (accounts s)) key) eqn:Hf;
      [destruct (Hc key) as [a ->]; [by rewrite Hf|]; destruct (_ && _ && _); eauto|].
    rewrite andb_false_r. destruct (get_account (accounts s) key); eauto. }
  destruct (negb _ && _); [|eauto].
  match goal with |- context [validate_fee_payer ?k ?a ?n ?r ?f] =>
    destruct (validate_fee_payer_total k a n r f) as [[a' [[]|]] ->] end; simpl; eauto.
Qed.

Lemma load_accounts_total s msg rent fee keys :
  (∀ k, is_Some (cache_find (programs_cache (accounts s)) k) →
        is_Some (get_account (accounts s) k)) →
  ∀ st i, ∃ r, load_accounts s msg rent fee st i keys = Ret r.
Proof.
  intros Hc. induction keys as [|key keys IH]; intros st i; simpl; [eauto|].
  destruct (load_one_total s msg rent fee st i key Hc) as [[st1 [a|e]] ->]; simpl; [|eauto].
  destruct (IH st1 (S i)) as [r ->]. simpl. eauto.
Qed.

Lemma loads_owners s msg rent fee i keys accs p :
  (∀ k acc, get_account (accounts s) k = Some acc → owner_stored s acc) →
  loads s msg rent fee i keys accs p → Forall (λ x, owner_stored s x.2) accs.
Proof.
  intros Ho.
  assert (∀ j k, owner_stored s (mark_exempt msg rent j (stored_or_empty s k))) as Hbase.
  { intros j k. unfold mark_exempt, stored_or_empty.
    destruct (get_account (accounts s) k) as [a|] eqn:Ha; simpl; [|by case_match].
    pose proof (Ho _ _ Ha). by case_match. }
  induction 1 as [|i key keys acc accs p Hplain _ _ IH|i key keys acc' accs Hk Hval _ IH];
    constructor; simpl; auto.
  - unfold plain_load in Hplain. destruct (key =? instructions_id)%N; [|by rewrite Hplain].
    unfold construct_instructions_account in Hplain.
    destruct (construct_instructions_data msg); simplify_eq. done.
  - apply validate_fee_payer_Ok in Hval as (? & _ & _ & _ & -> & _). apply Hbase.
Qed.

Lemma program_indices_total s b ixs : ∀ accs,
  b ≤ length accs → Forall (λ x, owner_stored s x.2) accs →
  (∀ ix, ix ∈ ixs → N.to_nat (program_id_index ix) < length accs) →
  ∃ r, program_indices_of s b accs ixs = Ret r.
Proof.
  induction ixs as [|c ixs IH]; intros accs Hb Hown Hidx; simpl; [eauto|].
  assert (∃ accs' r, program_index_of s b accs c = Ret (accs', r) ∧
    length accs ≤ length accs' ∧ Forall (λ x, owner_stored s x.2) accs')
    as (accs' & r & -> & Hlen & Hown').
  { unfold program_index_of.
    destruct (lookup_lt_is_Some_2 accs (N.to_nat (program_id_index c))) as [[k a] Hka];
      [apply Hidx; set_solver|].
    rewrite Hka. simpl. pose proof (Forall_lookup_1 _ _ _ _ Hown Hka) as Hos. simpl in Hos.
    destruct (k =? native_loader_id)%N; [eauto 10|].
    destruct (executable a) eqn:He; simpl; [|eauto 10].
    destruct (N.eqb_spec (owner a) native_loader_id) as [|Hn]; [eauto 10|].
    unfold get_from. case_decide; [|lia]. destruct (existsb _ _); [eauto 10|].
    destruct (Hos He Hn) as [o ->]. simpl.
    destruct (N.eqb_spec (owner o) native_loader_id) as [Hon|]; simpl; [|eauto 10].
    destruct (executable o); simpl; [|eauto 10].
    eexists _, _. split; [done|]. rewrite length_app. split; [lia|].
    apply Forall_app. split; [done|]. constructor; [|constructor]. intros _ Hne. done. }
  simpl. destruct r as [n|e]; [|eauto].
  destruct (IH accs' ltac:(lia) Hown') as [r ->]; [|simpl; eauto].
  intros ix Hix. eapply Nat.lt_le_trans; [apply Hidx; set_solver|lia].
Qed.

(** Every [unwrap] on the path succeeds. *)
Lemma process_total s tx cfg lc :
  processable s (message tx) → ∃ p, process_transaction s tx cfg lc = Ret p.
Proof.
  intros [[rent Hrent] Hcached Howners Hidx]. unfold process_transaction.
  rewrite Hrent. simpl. destruct (increase_calculated_data_size _ _) as [d [[]|]]; [|eauto].
  destruct (load_accounts_total s (message tx) rent (transaction_fee s cfg (message tx))
    (account_keys (message tx)) Hcached (initial_load_state d) 0) as [[st [accs|e]] Hload];
    rewrite Hload; simpl; [|eauto].
  destruct (load_accounts_Ok _ _ _ _ _ _ _ _ _ Hload) as (_ & p & Hl & _).
  unfold process_loaded. destruct (validated_fee_payer st); simpl; [|eauto].
  pose proof (loads_keys _ _ _ _ _ _ _ _ Hl) as Hkeys.
  destruct (program_indices_total s (length accs) (instructions (message tx)) accs)
    as [[all [idx|e]] ->]; simpl; [lia| | | |eauto].
  - eapply loads_owners; [|exact Hl]. intros k acc Hk He Hn. eauto.
  - intros ix Hix. apply Hidx in Hix. rewrite <-Hkeys, length_fmap in Hix. done.
  - unfold run_message, create_transaction_context. rewrite Hrent. simpl.
    destruct (process_message _ _ _ _) as [[units ic] r]. eauto.
Qed.
End facts.

(** ** Properties *)

Section properties.
Context `{Host}.

(** C9.  [validate_fee_payer] never panics, and accepts an account exactly when it
    is a non-empty system or nonce account whose balance covers the fee on top of
    the minimum a nonce account keeps, and paying does not move it from rent exempt
    to rent paying; it then debits exactly the fee.  Each refusal has its own
    error. *)
Theorem validate_fee_payer_correct `{!RentLaws} key acc i rent fee :
  let exempt := rent_minimum_balance rent (len (data acc)) in
  let left := (lamports acc - fee)%N in
  validate_fee_payer key acc i rent fee =
  if (lamports acc =? 0)%N then Ret (acc, Err TE_AccountNotFound)
  else match get_system_account_kind acc with
  | None => Ret (acc, Err TE_InvalidAccountForFee)
  | Some kind =>
      if (lamports acc <? payer_min_balance rent kind + fee)%N
      then Ret (acc, Err TE_InsufficientFundsForFee)
      else Ret (set_lamports acc left,
                if decide (key = incinerator_id ∨ left = 0%N ∨ (exempt ≤ left)%N
                           ∨ (lamports acc < exempt)%N)
                then Ok () else Err (TE_InsufficientFundsForRent (as_u8 i)))
  end.
Proof.
  intros exempt left. rewrite validate_fee_payer_cases.
  destruct (lamports acc =? 0)%N; [done|].
  destruct (get_system_account_kind acc) as [kind|]; [|done].
  rewrite N.ltb_antisym.
  destruct (N.leb_spec (payer_min_balance rent kind + fee) (lamports acc)) as [Hle|]; [|done].
  simpl. do 2 f_equal.
  assert (check_rent_state_with_account
            (get_account_rent_state rent (lamports acc) (len (data acc)))
            (get_account_rent_state rent left (len (data acc))) key i = Ok () ↔
          key = incinerator_id ∨ left = 0%N ∨ (exempt ≤ left)%N ∨ (lamports acc < exempt)%N) as Hiff.
  { rewrite check_rent_state_Ok, debit_rent_step by (unfold left; lia). done. }
  fold left. destruct (check_rent_state_with_account _ _ _ _) as [[]|e] eqn:Hc; case_decide as Hd.
  - done.
  - exfalso. apply Hd, Hiff. done.
  - exfalso. apply Hiff in Hd. done.
  - apply check_rent_state_Err in Hc as [-> _]. done.
Qed.

(** C10.  [process_transaction] does not panic on a sanitized transaction when the
    rent sysvar is cached, cached programs are stored, and the owners of executable
    accounts are stored: every [unwrap] on its path succeeds. *)
Theorem process_transaction_total s tx cfg lc (Hok : processable s (message tx)) :
  ∃ p, process_transaction s tx cfg lc = Ret p.
Proof. by apply process_total. Qed.

(** C12.  A transaction only reaches the runtime when the data it loads is within
    its requested limit: the base size of its lookup tables, plus a base size and
    the data length for each stored account it names (the instructions sysvar
    counting for nothing), computed without overflow. *)
Theorem loaded_data_within_limit s tx cfg lc p ctx
  (Hlimit : (tc_loaded_accounts_data_size_limit cfg < u32_max)%N)
  (Hrun : process_transaction s tx cfg lc = Ret p) (Hctx : po_context p = Some ctx) :
  (num_lookup_tables (message tx) * ADDRESS_LOOKUP_TABLE_BASE_SIZE
   + list_sum (key_size s) (account_keys (message tx))
   ≤ tc_loaded_accounts_data_size_limit cfg)%N.
Proof.
  revert Hrun. unfold process_transaction.
  destruct (cache_get_rent _) as [rent|]; simpl; [|done].
  destruct (increase_calculated_data_size (with_max_size _) _) as [d [[]|]] eqn:Hi;
    [|intros [= <-]; done].
  destruct (increase_Ok _ _ _ Hi) as (Hwf & Hlim & Hu32 & Hadd & Hle).
  { split; simpl; [|done]. unfold u32_max. lia. }
  destruct (load_accounts _ _ _ _ _ _ _) as [[st [accs|e]]|] eqn:Hload; simpl;
    [|intros [= <-]; done|done].
  intros _. pose proof (load_accounts_size _ _ _ _ _ _ _ _ _ Hload Hwf) as Hs. simpl in *.
  rewrite Hlim in Hs. specialize (Hs Hle). unfold saturating_mul, u32_max, u64_max in *. lia.
Qed.
End properties.
