(* ===== verification/Fresh.v ===== *)
(** * A fresh instance

    [LiteSVM::new] and [LiteSVM::new_debuggable] do not panic, given what they rely
    on of the host crates, and what they build is an instance in which processing a
    sanitized transaction does not panic either. *)

From S2P Require Import Prelude Errors ComputeBudget Runtime RentState Utils Types History.
From S2P Require Import EpochStake AccountsDb Vm InnerInstructions Features Svm SvmProps Process.
From S2P Require Import ProcessLemmas ProcessProps.

(** The loaders that own the bundled programs. *)
Definition program_loaders `{SdkIds} : list address :=
  [bpf_loader_id; bpf_loader_deprecated_id; bpf_loader_upgradeable_id].

(** What building the basic environment relies on: an empty program cache, in
    which moving the slot forgets nothing; builtins that include the loaders;
    feature accounts that are not programs; precompiles that are not sysvars; an
    environment for every configuration; encodings that are read back, with slot
    hashes that fit their account; bundled programs that load. *)
Class BootLaws `{Host} : Prop := {
  boot_cache_new n k : cache_find (cache_new n) k = None;
  boot_cache_set_slot c n k : cache_find (cache_set_slot c n) k = cache_find c k;
  boot_loaders l :
    l ∈ program_loaders → ∃ b, b ∈ BUILTINS ∧ program_id b = l ∧ enable_feature_id b = None;
  boot_feature_account n l : executable (feature_create_account n l) = false;
  boot_precompiles k f : (k, f) ∈ precompiles_all → k ∉ handled_sysvars;
  boot_environment fs b t : is_Some (create_program_runtime_environment fs b t);
  boot_epoch_rewards :: CodecLaws EpochRewards;
  boot_epoch_schedule :: CodecLaws EpochSchedule;
  boot_fees :: CodecLaws Fees;
  boot_last_restart_slot :: CodecLaws LastRestartSlot;
  boot_slot_hashes :: CodecLaws SlotHashes;
  boot_stake_history :: CodecLaws StakeHistory;
  boot_slot_hashes_fit :
    (length (serialize (slot_hashes_new [(MAINNET_DEFAULT_SLOT, create_blockhash genesis)]))
     ≤ slot_hashes_size)%nat;
  boot_programs fs k file loader env d e n :
    (k, file, loader) ∈ default_programs fs →
    is_Some (entry_reload loader env d e (elf_file file) n) }.

Section boot.
Context `{Host} `{!SdkIdsLaws} `{!SysvarLaws} `{!ProgramLaws} `{!BootLaws}.

(** ** The invariant of the construction *)

(** Cached programs are stored, and programs are owned by the native loader or by
    one of the loaders above. *)
Record boot_db (db : AccountsDb) : Prop := {
  boot_cached k : is_Some (cache_find (programs_cache db) k) → is_Some (inner db !! k);
  boot_owner k acc :
    inner db !! k = Some acc → executable acc = true →
    owner acc = native_loader_id ∨ owner acc ∈ program_loaders }.

(** Nothing is removed. *)
Definition grows (db db' : AccountsDb) : Prop :=
  ∀ k, is_Some (inner db !! k) → is_Some (inner db' !! k).

(** A step of the construction: it keeps the configuration and the sysvar cache,
    adds accounts, and preserves the invariant. *)
Definition boot_step (s s' : LiteSVM) : Prop :=
  ∃ db, s' = with_accounts s db ∧ sysvar_cache db = sysvar_cache (accounts s) ∧
    grows (accounts s) db ∧ (boot_db (accounts s) → boot_db db).

#[local] Instance boot_step_preorder : PreOrder boot_step.
Proof.
  split.
  - intros s. exists (accounts s). by split_and!; [destruct s| |intros k|].
  - intros s1 s2 s3 (db1 & -> & Hc1 & Hg1 & Hb1) (db2 & -> & Hc2 & Hg2 & Hb2).
    exists db2. split; [done|]. simpl in *. split; [congruence|].
    split; [|by auto]. intros k Hk. by apply Hg2, Hg1.
Qed.

Lemma insert_stored (m : gmap address account) k acc k' :
  is_Some (m !! k') → is_Some (<[k := acc]> m !! k').
Proof. destruct (decide (k = k')) as [->|]; simplify_map_eq; eauto. Qed.

(** An account that is not a program, or one of an allowed owner. *)
Definition allowed (acc : account) : Prop :=
  executable acc = true → owner acc = native_loader_id ∨ owner acc ∈ program_loaders.

Lemma boot_db_insert db k acc m :
  boot_db db → allowed acc → inner m = <[k := acc]> (inner db) →
  (∀ k', is_Some (cache_find (programs_cache m) k') →
         k' = k ∨ is_Some (cache_find (programs_cache db) k')) →
  boot_db m.
Proof.
  intros [Hc Ho] Ha Hi Hp. split.
  - intros k' [->|Hk']%Hp; rewrite Hi; [rewrite lookup_insert_eq; eauto|].
    by apply insert_stored, Hc.
  - intros k' acc'. rewrite Hi, lookup_insert_Some. intros [[_ <-]|[_ Hk']]; [done|eauto].
Qed.

Lemma boot_step_insert s k acc :
  allowed acc → boot_step s (with_accounts s (add_account_no_checks (accounts s) k acc)).
Proof.
  intros Ha. eexists. split; [done|]. split; [done|]. split.
  - intros k' Hk'. by apply insert_stored.
  - intros Hb. eapply boot_db_insert; [exact Hb|done..|]. by right.
Qed.

(** ** Builtins *)

(** Whether a builtin is installed. *)
Definition builtin_enabled (fs : FeatureSet) (b : Builtin) : bool :=
  match enable_feature_id b with None => true | Some x => fs_is_active fs x end.

Lemma add_one_builtin_step s b :
  boot_step s (add_one_builtin s b) ∧
  (builtin_enabled (feature_set s) b = true →
   is_Some (inner (accounts (add_one_builtin s b)) !! program_id b)).
Proof.
  unfold add_one_builtin. fold (builtin_enabled (feature_set s) b).
  destruct (builtin_enabled (feature_set s) b); [|split; [reflexivity|done]].
  split; [|intros _; simpl; rewrite lookup_insert_eq; eauto].
  eexists. split; [done|]. split; [done|]. split; [intros k Hk; by apply insert_stored|].
  intros Hb. eapply boot_db_insert; [exact Hb| |done|]; simpl.
  - intros _. by left.
  - intros k' Hk'. destruct (decide (k' = program_id b)) as [|Hne]; [by left|right].
    by rewrite cache_find_replenish_ne in Hk'.
Qed.

Lemma boot_step_feature_set s s' : boot_step s s' → feature_set s' = feature_set s.
Proof. by intros (db & -> & _). Qed.

Lemma boot_step_grows s s' k :
  boot_step s s' → is_Some (inner (accounts s) !! k) → is_Some (inner (accounts s') !! k).
Proof. intros (db & -> & _ & Hg & _). apply Hg. Qed.

Lemma add_builtins_step bs : ∀ s,
  boot_step s (foldl add_one_builtin s bs) ∧
  ∀ b, b ∈ bs → enable_feature_id b = None →
    is_Some (inner (accounts (foldl add_one_builtin s bs)) !! program_id b).
Proof.
  induction bs as [|b bs IH]; intros s; simpl; [split; [reflexivity|set_solver]|].
  destruct (add_one_builtin_step s b) as [Hstep Hstored], (IH (add_one_builtin s b)) as [Hrest Hin].
  split; [by etransitivity|]. intros b' [->|Hb']%elem_of_cons He; [|by apply Hin].
  eapply boot_step_grows; [exact Hrest|]. apply Hstored. unfold builtin_enabled. by rewrite He.
Qed.

Definition loaders_stored (s : LiteSVM) : Prop :=
  ∀ l, l ∈ program_loaders → is_Some (inner (accounts s) !! l).

Lemma environments_total s :
  custom_syscalls s = [] → ∃ envs, create_program_runtime_environments s = Ret envs.
Proof.
  intros Hc. unfold create_program_runtime_environments, register_custom_syscalls.
  match goal with |- context [create_program_runtime_environment ?a ?b ?c] =>
    destruct (boot_environment a b c) as [env ->] end. simpl. rewrite Hc. simpl. eauto.
Qed.

Lemma set_builtins_boot s :
  custom_syscalls s = [] →
  ∃ s', set_builtins s = Ret s' ∧ boot_step s s' ∧ loaders_stored s'.
Proof.
  intros Hc. destruct (add_builtins_step BUILTINS s) as [Hstep Hin].
  unfold set_builtins. destruct Hstep as (db & Hs & Hstep). rewrite Hs in *.
  destruct (environments_total (with_accounts s db)) as [envs ->]; [done|]. simpl.
  eexists. split; [done|]. split.
  - eexists. split; [done|]. simpl in *. destruct Hstep as (Hsc & Hg & Hb).
    split_and!; [done|done|]. intros Hb0. by destruct (Hb Hb0).
  - intros l (b & Hb & <- & He)%boot_loaders. simpl. by apply Hin.
Qed.

(** ** Programs, features and precompiles *)

Lemma set_feature_accounts_boot s : boot_step s (set_feature_accounts s).
Proof.
  unfold set_feature_accounts. generalize (fs_active (feature_set s)) as l. intros l. revert s.
  induction l as [|[k n] l IH]; intros s; simpl; [reflexivity|].
  etransitivity; [|apply IH]. apply boot_step_insert. intros He.
  by rewrite boot_feature_account in He.
Qed.

Lemma store_program_boot s k elf loader n :
  loader ∈ program_loaders →
  ∃ s' size, store_program s k elf loader n = Ret (Ok (s', size)) ∧ boot_step s s' ∧
    is_Some (inner (accounts s') !! k).
Proof.
  intros Hl. unfold store_program. destruct (N.eqb_spec loader bpf_loader_upgradeable_id) as [->|Hne].
  - destruct (programdata_bytes_spec n elf) as (meta & -> & _). simpl.
    do 2 eexists. split; [done|]. split; [|simpl; rewrite lookup_insert_eq; eauto].
    match goal with |- boot_step s (with_accounts s (add_account_no_checks
        (add_account_no_checks _ ?k1 ?a1) ?k2 ?a2)) =>
      etransitivity; [apply (boot_step_insert s k1 a1); done|];
      apply (boot_step_insert (with_accounts s (add_account_no_checks (accounts s) k1 a1)) k2 a2)
    end.
    intros _. right. simpl. unfold program_loaders. set_solver.
  - assert ((loader =? bpf_loader_id)%N || (loader =? bpf_loader_deprecated_id)%N = true) as ->.
    { unfold program_loaders in Hl. rewrite !elem_of_cons, elem_of_nil in Hl.
      destruct (N.eqb_spec loader bpf_loader_id), (N.eqb_spec loader bpf_loader_deprecated_id);
        naive_solver. }
    do 2 eexists. split; [done|]. split; [|simpl; rewrite lookup_insert_eq; eauto].
    apply boot_step_insert. intros _. by right.
Qed.

Lemma add_program_boot s k file loader fs :
  (k, file, loader) ∈ default_programs fs → loader ∈ program_loaders →
  ∃ s', add_program_preverified s k (elf_file file) loader = Ret (s', Ok ()) ∧ boot_step s s'.
Proof.
  intros Hp Hl. unfold add_program_preverified, add_program_internal.
  match goal with |- context [store_program s k ?elf loader ?n] =>
    destruct (store_program_boot s k elf loader n Hl) as (s1 & size & -> & Hstep & Hk) end. simpl.
  match goal with |- context [entry_reload loader ?env ?d ?e _ ?n] =>
    destruct (boot_programs fs k file loader env d e n Hp) as [entry ->] end.
  eexists. split; [done|]. etransitivity; [exact Hstep|].
  eexists. split; [done|]. split_and!; [done|by intros k'|]. intros [Hc Ho]. split; [|done]. simpl.
  intros k' Hk'. destruct (decide (k = k')) as [->|Hne]; [done|]. apply Hc.
  by rewrite cache_find_replenish_ne in Hk'.
Qed.

Lemma default_program_loaders fs k file loader :
  (k, file, loader) ∈ default_programs fs → loader ∈ program_loaders.
Proof.
  unfold default_programs, program_loaders.
  destruct (fs_is_active fs replace_spl_token_with_p_token);
    rewrite !elem_of_cons, elem_of_nil; naive_solver.
Qed.

Lemma load_default_programs_boot s :
  ∃ s', load_default_programs s = Ret s' ∧ boot_step s s'.
Proof.
  unfold load_default_programs. set (fs := feature_set s). clearbody fs.
  assert (∀ x, x ∈ default_programs fs → x ∈ default_programs fs) as Hin by done.
  revert Hin. generalize (default_programs fs) at 1 3 as l. intros l. revert s.
  induction l as [|[[k file] loader] l IH]; intros s Hin; simpl; [by exists s|].
  assert ((k, file, loader) ∈ default_programs fs) as Hp by (apply Hin; set_solver).
  destruct (add_program_boot s k file loader fs Hp) as (s1 & -> & Hstep);
    [by eapply default_program_loaders|]. simpl.
  destruct (IH s1) as (s2 & Hs2 & Hrest); [set_solver|]. exists s2. split; [done|].
  by etransitivity.
Qed.

(** ** Checked writes *)

Lemma maybe_handle_programs db k acc k' :
  cache_find (programs_cache (maybe_handle_sysvar_account db k acc).1) k'
  = cache_find (programs_cache db) k'.
Proof.
  unfold maybe_handle_sysvar_account.
  repeat (case_match; rewrite ?handle_sysvar_spec; try done). simpl. apply boot_cache_set_slot.
Qed.

(** A checked write of an account that is not a program of its own loader. *)
Record written_at (k : address) (acc : account) (s s' : LiteSVM) : Prop := {
  wa_only : ∃ db, s' = with_accounts s db;
  wa_grows : grows (accounts s) (accounts s');
  wa_boot : boot_db (accounts s) → boot_db (accounts s');
  wa_at : inner (accounts s') !! k = Some acc;
  wa_other k' : k' ≠ k → inner (accounts s') !! k' = inner (accounts s) !! k';
  wa_cache : k ∉ handled_sysvars → sysvar_cache (accounts s') = sysvar_cache (accounts s);
  wa_handled : k ∈ handled_sysvars → db_coherent (accounts s') }.

Lemma add_account_written s k acc :
  is_program_write k acc = false → allowed acc → lamports acc ≠ 0%N →
  (maybe_handle_sysvar_account (accounts s) k acc).2 = Ok () →
  ∃ db, add_account (accounts s) k acc = (db, Ok ()) ∧ written_at k acc s (with_accounts s db).
Proof.
  intros Hp Ha Hl Hm. pose proof (maybe_handle_programs (accounts s) k acc) as Hpc.
  destruct (add_account (accounts s) k acc) as [db r] eqn:Hadd.
  pose proof Hadd as Hunf. unfold add_account in Hunf. unfold is_program_write in Hp.
  rewrite Hp in Hunf. pose proof (add_account_inner (accounts s) k acc) as Hi. rewrite Hadd in Hi.
  destruct (maybe_handle_sysvar_account (accounts s) k acc) as [db1 r1] eqn:Hh. simpl in *.
  subst r1. injection Hunf as Hdb <-. apply N.eqb_neq in Hl as Hlb. rewrite Hlb in Hi.
  assert (programs_cache db = programs_cache db1) as Hpe
    by (rewrite <-Hdb; unfold store_or_remove; by rewrite Hlb).
  exists db. split; [done|]. split; simpl.
  - by eexists.
  - intros k' Hk'. rewrite Hi. by apply insert_stored.
  - intros Hb. eapply boot_db_insert; [exact Hb|exact Ha|exact Hi|]. intros k' Hk'. right.
    by rewrite Hpe, Hpc in Hk'.
  - rewrite Hi. apply lookup_insert_eq.
  - intros k' Hne. rewrite Hi. by apply lookup_insert_ne.
  - intros Hk. by eapply add_account_cache_other.
  - intros Hk. unfold db_coherent.
    rewrite (add_account_cache_sysvar _ _ _ _ Hk Hp Hl Hadd). apply cache_reflects_fill.
Qed.

(** ** Sysvars *)

Lemma set_sysvar_written {T} `{!Sysvar T} `{!PlainSysvar T} `{!CodecLaws T} s (x : T) :
  ∃ s', set_sysvar s x = Ret s' ∧ written_at (sysvar_id T) (sysvar_account x) s s'.
Proof.
  destruct (set_sysvar_plain s x) as (db & Hadd & Hset).
  destruct (add_account_written s (sysvar_id T) (sysvar_account x)) as (db' & Hadd' & Hw);
    [done..| |].
  { apply plain_accepted. simpl. rewrite deserialize_exact. eauto. }
  rewrite Hadd in Hadd'. injection Hadd' as <-. eauto.
Qed.

(** The account of a sysvar with padded data. *)
Definition padded_account (d : bytes) (n : nat) : account :=
  Account 1 (d ++ drop (length d) (zeros n)) sysvar_owner_id false 0.

Lemma set_slot_hashes_written s (x : SlotHashes) :
  (length (serialize x) ≤ slot_hashes_size)%nat →
  ∃ s', set_sysvar s x = Ret s' ∧
    written_at slot_hashes_id (padded_account (serialize x) slot_hashes_size) s s'.
Proof.
  intros Hfit. unfold set_sysvar. simpl. rewrite N.eqb_refl. unfold serialize_into.
  simpl. unfold zeros. rewrite length_replicate, decide_True by done. simpl.
  destruct (add_account_written s slot_hashes_id
    (padded_account (serialize x) slot_hashes_size)) as (db & Hadd & Hw); [done..| |].
  - apply slot_hashes_accepted. simpl. unfold zeros. rewrite drop_replicate.
    pose proof (deserialize_serialize x (slot_hashes_size - length (serialize x))) as Hd.
    unfold zeros in Hd. simpl in Hd. rewrite Hd. eauto.
  - unfold padded_account, zeros in Hadd. unfold set_data, new_account. simpl.
    unfold zeros. rewrite Hadd. eauto.
Qed.

Lemma slot_history_unhandled : slot_history_id ∉ handled_sysvars ∧ slot_history_id ≠ slot_hashes_id.
Proof.
  pose proof sysvar_ids_distinct as Hnd. apply NoDup_cons_1_2, NoDup_cons_1_1 in Hnd.
  split; [done|]. intros He. apply Hnd. rewrite He. unfold handled_sysvars. set_solver.
Qed.

Lemma set_slot_history_written s (x : SlotHistory) :
  ∃ s', set_sysvar s x = Ret s' ∧ written_at slot_history_id (sysvar_account x) s s'.
Proof.
  destruct slot_history_unhandled as [Hh Hne%N.eqb_neq].
  unfold set_sysvar. simpl. rewrite Hne, serialize_into_exact. simpl.
  destruct (add_account_written s slot_history_id (sysvar_account x)) as (db & Hadd & Hw);
    [done..| |].
  - by rewrite maybe_handle_sysvar_other.
  - unfold sysvar_account in Hadd. unfold set_data, new_account. simpl. simpl in Hadd.
    rewrite Hadd. eauto.
Qed.

(** A step that may change the sysvar cache. *)
Definition booted (s s' : LiteSVM) : Prop :=
  (∃ db, s' = with_accounts s db) ∧ grows (accounts s) (accounts s') ∧
  (boot_db (accounts s) → boot_db (accounts s')).

#[local] Instance booted_preorder : PreOrder booted.
Proof.
  split.
  - intros s. split; [exists (accounts s); by destruct s|]. split; [by intros k|done].
  - intros s1 s2 s3 ([db1 ->] & Hg1 & Hb1) ([db2 ->] & Hg2 & Hb2).
    split; [by exists db2|]. simpl in *. split; [intros k Hk; by apply Hg2, Hg1|auto].
Qed.

Lemma written_booted k acc s s' : written_at k acc s s' → booted s s'.
Proof. by intros [? ? ? _ _ _ _]. Qed.

Lemma boot_step_booted s s' : boot_step s s' → booted s s'.
Proof. intros (db & -> & _ & Hg & Hb). split; [by exists db|]. done. Qed.

#[local] Hint Resolve written_booted boot_step_booted : svm.

(** Writes the next sysvar of the goal. *)
Ltac next_sysvar s' Hw :=
  match goal with
  | |- context [set_sysvar ?s ?x] =>
      first [ destruct (set_sysvar_written s x) as (s' & -> & Hw)
            | destruct (set_slot_history_written s x) as (s' & -> & Hw) ]
  end; simpl.

Lemma handled_sysvar_ne i j k k' :
  handled_sysvars !! i = Some k → handled_sysvars !! j = Some k' → i ≠ j → k ≠ k'.
Proof. intros Hi Hj Hne. apply N.eqb_neq. by apply (handled_ne i j). Qed.

(** The first half: the clock up to the rent. *)
Lemma clock_to_rent_boot {A} s (k : hash → LiteSVM → outcome A) :
  ∃ s1 s2, set_sysvar s (set_slot default_clock MAINNET_DEFAULT_SLOT) = Ret s1 ∧ booted s s2 ∧
    (s3 ← set_sysvar s1 default_epoch_rewards;
     s4 ← set_sysvar s3 default_epoch_schedule;
     s5 ← set_sysvar s4 default_fees;
     s6 ← set_sysvar s5 default_last_restart_slot;
     s7 ← set_sysvar s6 (recent_blockhashes_from_iter
            [(0%N, latest_blockhash s6, fees_lamports_per_signature default_fees)]);
     s8 ← set_sysvar s7 (initial_rent (feature_set s7));
     k (latest_blockhash s6) s8) = k (latest_blockhash s) s2 ∧
    cache_get_clock (sysvar_cache (accounts s2)) = Some (set_slot default_clock MAINNET_DEFAULT_SLOT) ∧
    ∃ rent : Rent, inner (accounts s2) !! rent_id = Some (sysvar_account rent).
Proof.
  next_sysvar s1 Hw1. exists s1.
  next_sysvar s3 Hw3. next_sysvar s4 Hw4. next_sysvar s5 Hw5. next_sysvar s6 Hw6.
  next_sysvar s7 Hw7. next_sysvar s8 Hw8. exists s8.
  assert (booted s s6) as H6 by
    (etransitivity; [eauto with svm|]; etransitivity; [eauto with svm|];
     etransitivity; [eauto with svm|]; etransitivity; eauto with svm).
  assert (booted s s8) as H8
    by (etransitivity; [done|]; etransitivity; eauto with svm).
  split; [done|]. split; [done|]. split; [|split].
  - by destruct H6 as ([db ->] & _).
  - destruct (wa_handled _ _ _ _ Hw8) as [-> _]; [unfold handled_sysvars; set_solver|].
    unfold stored_sysvar.
    rewrite (wa_other _ _ _ _ Hw8), (wa_other _ _ _ _ Hw7), (wa_other _ _ _ _ Hw6),
      (wa_other _ _ _ _ Hw5), (wa_other _ _ _ _ Hw4), (wa_other _ _ _ _ Hw3)
      by first [by apply (handled_sysvar_ne 0 6)|by apply (handled_sysvar_ne 0 5)
               |by apply (handled_sysvar_ne 0 4)|by apply (handled_sysvar_ne 0 3)
               |by apply (handled_sysvar_ne 0 2)|by apply (handled_sysvar_ne 0 1)].
    pose proof (wa_at _ _ _ _ Hw1) as Hat. simpl in Hat. rewrite Hat. simpl.
    apply deserialize_exact.
  - eexists. exact (wa_at _ _ _ _ Hw8).
Qed.

Lemma set_sysvars_boot s :
  latest_blockhash s = create_blockhash genesis →
  ∃ s', set_sysvars s = Ret s' ∧ booted s s' ∧
    is_Some (cache_get_rent (sysvar_cache (accounts s'))).
Proof.
  intros Hbh. unfold set_sysvars.
  destruct (clock_to_rent_boot s (λ blockhash s,
      clock ← unwrap (cache_get_clock (sysvar_cache (accounts s)));
      s ← set_sysvar s (slot_hashes_new [(slot clock, blockhash)]);
      s ← set_sysvar s default_slot_history;
      s ← set_sysvar s default_stake_history;
      Ret (with_accounts s
             (add_account_no_checks (accounts s) stake_config_id stake_config_account))))
    as (s1 & s2 & -> & Hb & Heq & Hclock & rent & Hrent).
  cbn [mbind outcome_bind]. setoid_rewrite Heq. clear Heq s1. cbv beta. rewrite Hclock. simpl. rewrite Hbh.
  destruct (set_slot_hashes_written s2 _ boot_slot_hashes_fit) as (s3 & -> & Hw3). simpl.
  next_sysvar s4 Hw4. next_sysvar s5 Hw5. eexists. split; [done|]. split.
  - etransitivity; [exact Hb|]. etransitivity; [eauto with svm|].
    etransitivity; [eauto with svm|]. etransitivity; [eauto with svm|].
    apply boot_step_booted, boot_step_insert. done.
  - simpl. destruct (wa_handled _ _ _ _ Hw5) as (_ & -> & _); [unfold handled_sysvars; set_solver|].
    unfold stored_sysvar. destruct slot_history_unhandled as [Hsh _].
    rewrite (wa_other _ _ _ _ Hw5), (wa_other _ _ _ _ Hw4), (wa_other _ _ _ _ Hw3), Hrent.
    + simpl. rewrite deserialize_exact. eauto.
    + by apply (handled_sysvar_ne 6 7).
    + intros He. apply Hsh. rewrite <-He. unfold handled_sysvars. set_solver.
    + by apply (handled_sysvar_ne 6 8).
Qed.

Lemma load_precompiles_boot s : ∃ s', load_precompiles s = Ret s' ∧ boot_step s s'.
Proof.
  unfold load_precompiles.
  assert (∀ x, x ∈ precompiles_all → x ∈ precompiles_all) as Hin by done.
  revert Hin. generalize precompiles_all at 1 3 as l. intros l. revert s.
  induction l as [|[k feature] l IH]; intros s Hin; simpl; [by exists s|].
  assert (∃ s1, (if match feature with None => true | Some f => fs_is_active (feature_set s) f end
     then match set_account s k precompile_account with
          | (s, Ok _) => Ret s | (_, Err _) => Panic end
     else Ret s) = Ret s1 ∧ boot_step s s1) as (s1 & -> & Hstep).
  { destruct (match feature with None => true | Some f => fs_is_active (feature_set s) f end);
      [|by exists s].
    assert (k ∉ handled_sysvars) as Hk by (apply (boot_precompiles k feature), Hin; left).
    destruct (add_account_written s k precompile_account) as (db & Hadd & Hw); [| |done| |].
    - unfold is_program_write. simpl. by rewrite N.eqb_refl, andb_false_r.
    - intros _. by left.
    - by rewrite maybe_handle_sysvar_other.
    - unfold set_account. rewrite Hadd. eexists. split; [done|].
      exists db. split; [done|]. pose proof (wa_cache _ _ _ _ Hw Hk). destruct Hw. done. }
  destruct (IH s1) as (s2 & Hs2 & Hrest); [set_solver|]. exists s2. split; [done|].
  by etransitivity.
Qed.

(** ** The basic environment *)

Lemma default_boot_db : boot_db default_db.
Proof.
  split; simpl.
  - intros k [e He]. by rewrite boot_cache_new in He.
  - intros k acc Hk. by rewrite lookup_empty in Hk.
Qed.

Lemma boot_step_rent s s' :
  boot_step s s' → sysvar_cache (accounts s') = sysvar_cache (accounts s).
Proof. by intros (db & -> & Hc & _). Qed.

Lemma into_basic_boot kp tracing :
  is_Some (keypair_pubkey kp) →
  ∃ s, into_basic (new_inner kp tracing) = Ret s ∧ boot_db (accounts s) ∧ loaders_stored s ∧
    is_Some (cache_get_rent (sysvar_cache (accounts s))).
Proof.
  intros [payer Hkp]. unfold into_basic. set (s0 := set_feature_set _ _).
  destruct (set_builtins_boot s0) as (s1 & -> & H1' & Hl1); [done|]. simpl.
  pose proof (boot_step_booted _ _ H1') as Hb1. destruct H1' as (db1 & -> & _).
  unfold svm_set_lamports. simpl. rewrite Hkp. simpl.
  set (l := N.modulo _ _). clearbody l.
  pose proof (boot_step_insert (with_accounts s0 db1) payer (new_account l 0 system_program_id))
    as H2'. specialize (H2' ltac:(done)). apply boot_step_booted in H2'. simpl in H2'.
  match goal with |- context [set_sysvars ?x] => change x with
    (with_accounts (with_accounts s0 db1) (add_account_no_checks db1 payer
       (new_account l 0 system_program_id))); set (s2 := with_accounts (with_accounts s0 db1) _) in *
  end.
  destruct (set_sysvars_boot s2) as (s3 & -> & H3' & Hrent); [done|]. simpl.
  pose proof (set_feature_accounts_boot s3) as H4'. set (s4 := set_feature_accounts s3) in *.
  destruct (load_default_programs_boot s4) as (s5 & -> & H5'). simpl.
  destruct (load_precompiles_boot (set_blockhash_check (set_sigverify s5 true) true))
    as (s6 & Hs6 & H6'). exists s6. split; [done|].
  assert (sysvar_cache (accounts s6) = sysvar_cache (accounts s3)) as Hcache.
  { rewrite (boot_step_rent _ _ H6'). simpl.
    by rewrite (boot_step_rent _ _ H5'), (boot_step_rent _ _ H4'). }
  apply boot_step_booted in H4', H5', H6'. rewrite Hcache.
  assert (booted s0 s5) as (_ & Hg & Hb)
    by (etransitivity; [exact Hb1|]; etransitivity; [exact H2'|];
        etransitivity; [exact H3'|]; by etransitivity).
  assert (booted (with_accounts s0 db1) s5) as (_ & Hg1 & _)
    by (etransitivity; [exact H2'|]; etransitivity; [exact H3'|]; by etransitivity).
  destruct H6' as (_ & Hg6 & Hb6). simpl in Hg6, Hb6. split_and!; [| |done].
  - apply Hb6, Hb, default_boot_db.
  - intros k Hk. by apply Hg6, Hg1, Hl1.
Qed.
End boot.

(** ** Properties *)

Section properties.
Context `{Host} `{!SdkIdsLaws} `{!SysvarLaws} `{!ProgramLaws} `{!BootLaws}.

Lemma boot_processable s msg :
  boot_db (accounts s) → loaders_stored s →
  is_Some (cache_get_rent (sysvar_cache (accounts s))) →
  (∀ ix, ix ∈ instructions msg →
         (N.to_nat (program_id_index ix) < length (account_keys msg))%nat) →
  processable s msg.
Proof.
  intros [Hc Ho] Hl Hr Hix. split; [done|done| |done].
  intros k acc Hk He Hn. destruct (Ho k acc Hk He) as [|Hin]; [done|]. by apply Hl.
Qed.

End properties.
