(* ===== verification/Exec.v ===== *)
(** * Executing transactions (crates/litesvm/src/lib.rs)

    The checks made before processing, the commit or the fee charge after it, and
    the public entry points [send_transaction], [simulate_transaction] and
    [airdrop]. *)

From S2P Require Import Prelude Errors ComputeBudget Runtime RentState Utils Types History.
From S2P Require Import EpochStake AccountsDb Vm InnerInstructions Features Svm Process.

Section exec.
Context `{Host}.

(** ** Age, nonce and history checks *)

Definition check_message_for_nonce (s : LiteSVM) (msg : SanitizedMessage) : bool :=
  match
    nonce_address ← get_durable_nonce msg;
    nonce_account ← get_account (accounts s) nonce_address;
    verify_nonce_account nonce_account (recent_blockhash msg)
  with
  | Some authority =>
      existsb (λ signer, signer =? authority)%N (get_ix_signers msg nonced_tx_marker_ix_index)
  | None => false
  end.

Definition check_transaction_for_nonce (s : LiteSVM) (tx : SanitizedTransaction)
    (next_durable_nonce : hash) : bool :=
  let nonce_is_advanceable := negb (recent_blockhash (message tx) =? next_durable_nonce)%N in
  nonce_is_advanceable && check_message_for_nonce s (message tx).

Definition check_transaction_age_inner (s : LiteSVM) (tx : SanitizedTransaction)
    : result TransactionError () :=
  if (recent_blockhash (message tx) =? latest_blockhash s)%N
     || check_transaction_for_nonce s tx (durable_nonce_from_blockhash (latest_blockhash s))
  then Ok () else Err TE_BlockhashNotFound.

Definition check_transaction_age (s : LiteSVM) (tx : SanitizedTransaction)
    : result ExecutionResult () :=
  map_err execution_result_err (check_transaction_age_inner s tx).

Definition maybe_blockhash_check (s : LiteSVM) (tx : SanitizedTransaction)
    : result ExecutionResult () :=
  if blockhash_check s then check_transaction_age s tx else Ok ().

Definition maybe_history_check (s : LiteSVM) (tx : SanitizedTransaction)
    : result ExecutionResult () :=
  if sigverify s && check_transaction (history s) (tx_signature tx)
  then Err (execution_result_err TE_AlreadyProcessed) else Ok ().

(** The three checks in order; the configuration is what processing needs. *)
Definition check_transaction_before (s : LiteSVM) (tx : SanitizedTransaction)
    : result ExecutionResult TransactionConfiguration :=
  _ ← maybe_blockhash_check s tx;
  tx_config ← get_transaction_config tx (feature_set s);
  _ ← maybe_history_check s tx;
  Ok tx_config.

Definition check_and_process_transaction (s : LiteSVM) (tx : SanitizedTransaction)
    (lc : LogCollector) : outcome (result ExecutionResult ProcessOutput) :=
  match check_transaction_before s tx with
  | Err e => Ret (Err e)
  | Ok tx_config => Ok <$> process_transaction s tx tx_config lc
  end.

(** ** Execution *)

Definition no_context_result (p : ProcessOutput) : ExecutionResult :=
  {| post_accounts := post_accounts default_execution_result;
     tx_result := po_result p;
     er_signature := er_signature default_execution_result;
     er_compute_units_consumed := po_units p;
     er_inner_instructions := er_inner_instructions default_execution_result;
     er_return_data := er_return_data default_execution_result;
     included := included default_execution_result;
     er_fee := po_fee p |}.

Definition processed_result (tx : SanitizedTransaction) (p : ProcessOutput) : ExecutionResult :=
  match po_context p with
  | Some ctx => execution_result_if_context tx ctx (po_result p) (po_units p) (po_fee p)
  | None => no_context_result p
  end.

(** A processed transaction that failed is charged its fee in the store, since
    its accounts are not committed. *)
Definition charge_failed (s : LiteSVM) (p : ProcessOutput) (r : ExecutionResult)
    : outcome (LiteSVM * ExecutionResult) :=
  match po_context p, po_payer p with
  | Some _, Some payer =>
      if is_err (tx_result r) then
        w ← withdraw (accounts s) payer (po_fee p);
        Ret (with_accounts s w.1, with_tx_result r (result_and w.2 (tx_result r)))
      else Ret (s, r)
  | _, _ => Ret (s, r)
  end.

Definition execute_sanitized_transaction (s : LiteSVM) (tx : SanitizedTransaction)
    (lc : LogCollector) : outcome (LiteSVM * ExecutionResult * LogCollector) :=
  c ← check_and_process_transaction s tx lc;
  match c with
  | Err e => Ret (s, e, lc)
  | Ok p => r ← charge_failed s p (processed_result tx p); Ret (r, po_logs p)
  end.

Definition execute_sanitized_transaction_readonly (s : LiteSVM) (tx : SanitizedTransaction)
    (lc : LogCollector) : outcome (ExecutionResult * LogCollector) :=
  c ← check_and_process_transaction s tx lc;
  match c with
  | Err e => Ret (e, lc)
  | Ok p => Ret (processed_result tx p, po_logs p)
  end.

Definition execute_transaction (s : LiteSVM) (tx : VersionedTransaction) (lc : LogCollector)
    : outcome (LiteSVM * ExecutionResult * LogCollector) :=
  res ← sanitize_transaction s tx;
  map_sanitize_result res (λ e, Ret (s, e, lc))
    (λ s_tx, execute_sanitized_transaction s s_tx lc).

Definition execute_transaction_no_verify (s : LiteSVM) (tx : VersionedTransaction)
    (lc : LogCollector) : outcome (LiteSVM * ExecutionResult * LogCollector) :=
  res ← sanitize_transaction_no_verify s tx;
  map_sanitize_result res (λ e, Ret (s, e, lc))
    (λ s_tx, execute_sanitized_transaction s s_tx lc).

Definition execute_transaction_readonly (s : LiteSVM) (tx : VersionedTransaction)
    (lc : LogCollector) : outcome (ExecutionResult * LogCollector) :=
  res ← sanitize_transaction s tx;
  map_sanitize_result res (λ e, Ret (e, lc))
    (λ s_tx, execute_sanitized_transaction_readonly s s_tx lc).

Definition execute_transaction_no_verify_readonly (s : LiteSVM) (tx : VersionedTransaction)
    (lc : LogCollector) : outcome (ExecutionResult * LogCollector) :=
  res ← sanitize_transaction_no_verify s tx;
  map_sanitize_result res (λ e, Ret (e, lc))
    (λ s_tx, execute_sanitized_transaction_readonly s s_tx lc).

(** ** Entry points *)

Definition meta_of (r : ExecutionResult) (lc : LogCollector) : TransactionMetadata := {|
  meta_signature := er_signature r;
  logs := log_messages lc;
  inner_instructions := er_inner_instructions r;
  compute_units_consumed := er_compute_units_consumed r;
  return_data := er_return_data r;
  meta_fee := er_fee r |}.

(** Recording the result and committing the accounts. *)
Definition commit_result (s : LiteSVM) (r : ExecutionResult) (meta : TransactionMetadata)
    : outcome (LiteSVM * TransactionResult) :=
  match tx_result r with
  | Err tx_err =>
      let err := Err {| failed_err := tx_err; failed_meta := meta |} in
      let s := if included r && is_enabled (history s)
               then with_history s (add_new_transaction (history s) (er_signature r) err)
               else s in
      Ret (s, err)
  | Ok _ =>
      let s := if is_enabled (history s)
               then with_history s (add_new_transaction (history s) (er_signature r) (Ok meta))
               else s in
      match sync_accounts (accounts s) (post_accounts r) with
      | (db, Ok _) => Ret (with_accounts s db, Ok meta)
      | (_, Err _) => Panic
      end
  end.

Definition send_transaction (s : LiteSVM) (tx : VersionedTransaction)
    : outcome (LiteSVM * TransactionResult) :=
  let lc := log_collector_new (log_bytes_limit s) in
  r ← (if sigverify s then execute_transaction s tx lc
       else execute_transaction_no_verify s tx lc);
  let '(s, r, lc) := r in
  commit_result s r (meta_of r lc).

Definition simulate_transaction (s : LiteSVM) (tx : VersionedTransaction)
    : outcome (result FailedTransactionMetadata SimulatedTransactionInfo) :=
  let lc := log_collector_new (log_bytes_limit s) in
  r ← (if sigverify s then execute_transaction_readonly s tx lc
       else execute_transaction_no_verify_readonly s tx lc);
  let '(r, lc) := r in
  let meta := meta_of r lc in
  Ret (match tx_result r with
       | Err tx_err => Err {| failed_err := tx_err; failed_meta := meta |}
       | Ok _ => Ok {| sim_meta := meta; sim_post_accounts := post_accounts r |}
       end).

Definition airdrop (s : LiteSVM) (recipient : address) (l : N)
    : outcome (LiteSVM * TransactionResult) :=
  payer ← unwrap (keypair_pubkey (airdrop_kp s));
  tx ← unwrap (transfer_transaction (airdrop_kp s) payer recipient l (latest_blockhash s));
  send_transaction s tx.
End exec.
