(* ===== verification/Api.v ===== *)
(** * The public interface of an instance (crates/litesvm/src/lib.rs)

    The fluent builders and the getters over the operations of Svm.v and Exec.v,
    and adding a program from a file.  A builder of an operation that may panic has
    its outcome. *)

From S2P Require Import Prelude Errors ComputeBudget Runtime RentState Utils Types History.
From S2P Require Import EpochStake AccountsDb Vm InnerInstructions Features Svm Process Exec.

Section api.
Context `{Host}.

(** ** Builders *)

Definition with_compute_budget (s : LiteSVM) (b : ComputeBudget) : LiteSVM :=
  set_compute_budget s b.
Definition with_sigverify (s : LiteSVM) (b : bool) : LiteSVM := set_sigverify s b.
Definition with_blockhash_check (s : LiteSVM) (check : bool) : LiteSVM :=
  set_blockhash_check s check.
Definition with_sysvars (s : LiteSVM) : outcome LiteSVM := set_sysvars s.
Definition with_feature_set (s : LiteSVM) (fs : FeatureSet) : LiteSVM := set_feature_set s fs.
Definition with_mainnet_features (s : LiteSVM) : LiteSVM :=
  with_feature_set s mainnet_feature_set.
Definition with_feature_accounts (s : LiteSVM) : LiteSVM := set_feature_accounts s.
Definition with_builtins (s : LiteSVM) : outcome LiteSVM := set_builtins s.
Definition with_lamports (s : LiteSVM) (l : N) : outcome LiteSVM := svm_set_lamports s l.
Definition set_default_programs (s : LiteSVM) : outcome LiteSVM := load_default_programs s.
Definition with_default_programs (s : LiteSVM) : outcome LiteSVM := set_default_programs s.
Definition with_transaction_history (s : LiteSVM) (capacity : N) : LiteSVM :=
  set_transaction_history s capacity.
Definition with_log_bytes_limit (s : LiteSVM) (limit : option N) : LiteSVM :=
  set_log_bytes_limit s limit.
Definition set_precompiles (s : LiteSVM) : outcome LiteSVM := load_precompiles s.
Definition with_precompiles (s : LiteSVM) : outcome LiteSVM := set_precompiles s.

(** [std::fs::read(path)?]: [file] is what reading gives, [None] an I/O error. *)
Definition add_program_from_file (s : LiteSVM) (k : address) (file : option bytes)
    : outcome (LiteSVM * result LiteSVMError ()) :=
  match file with
  | None => Ret (s, Err LE_InvalidPath)
  | Some program_bytes => add_program s k program_bytes
  end.

(** ** Getters *)

Definition svm_epoch_total_stake (s : LiteSVM) : N := epoch_total_stake (epoch_stakes s).
Definition accounts_db (s : LiteSVM) : AccountsDb := accounts s.
Definition get_latest_blockhash (s : LiteSVM) : hash := latest_blockhash s.
Definition get_compute_budget (s : LiteSVM) : option ComputeBudget := compute_budget s.
Definition get_sigverify (s : LiteSVM) : bool := sigverify s.
Definition get_feature_set (s : LiteSVM) : FeatureSet := feature_set s.
Definition airdrop_keypair_bytes (s : LiteSVM) : bytes := airdrop_kp s.
Definition get_blockhash_check (s : LiteSVM) : bool := blockhash_check s.
Definition get_fee_structure (s : LiteSVM) : FeeStructure := fee_structure s.
Definition get_log_bytes_limit (s : LiteSVM) : option N := log_bytes_limit s.
Definition get_feature_set_ref (s : LiteSVM) : FeatureSet := feature_set s.
Definition transaction_history_entries (s : LiteSVM) : list (signature * TransactionResult) :=
  history_entries (history s).
Definition transaction_history_capacity (s : LiteSVM) : N := history_capacity (history s).
Definition svm_epoch_vote_stakes (s : LiteSVM) : list (address * N) :=
  map_to_list (epoch_vote_stakes (epoch_stakes s)).
End api.
