(* ===== verification/Reach.v ===== *)
(** * Reachable instances

    The public operations as steps of an instance, and the invariant of every
    instance that a sequence of them can reach, whether the operations succeed or
    fail. *)

From S2P Require Import Prelude Errors ComputeBudget Runtime RentState Utils Types History.
From S2P Require Import EpochStake AccountsDb Vm InnerInstructions Features Svm Process Exec Api.

Section reach.
Context `{Host}.

(** One call of the public interface that returns.  All stakes are replaced by lists
    that satisfy [P] only.  (The setters of the [persistence-internal] feature,
    which overwrite fields blindly to restore snapshots, are not part of it.) *)
Inductive api_step (P : list (address * N) → Prop) (s : LiteSVM) : LiteSVM → Prop :=
| step_compute_budget b : api_step P s (with_compute_budget s b)
| step_sigverify b : api_step P s (with_sigverify s b)
| step_blockhash_check b : api_step P s (with_blockhash_check s b)
| step_sysvars s' : with_sysvars s = Ret s' → api_step P s s'
| step_feature_set fs : api_step P s (with_feature_set s fs)
| step_mainnet_features : api_step P s (with_mainnet_features s)
| step_feature_accounts : api_step P s (with_feature_accounts s)
| step_builtins s' : with_builtins s = Ret s' → api_step P s s'
| step_lamports l s' : with_lamports s l = Ret s' → api_step P s s'
| step_default_programs s' : with_default_programs s = Ret s' → api_step P s s'
| step_transaction_history n : api_step P s (with_transaction_history s n)
| step_log_bytes_limit limit : api_step P s (with_log_bytes_limit s limit)
| step_precompiles s' : with_precompiles s = Ret s' → api_step P s s'
| step_custom_syscall n f s' : with_custom_syscall s n f = Ret s' → api_step P s s'
| step_set_account k acc s' r : set_account s k acc = (s', r) → api_step P s s'
| step_set_sysvar {T} `{Sysvar T} (x : T) s' : set_sysvar s x = Ret s' → api_step P s s'
| step_set_epoch_stake k stake s' r : svm_set_epoch_stake s k stake = (s', r) → api_step P s s'
| step_set_epoch_stakes stakes s' r :
    P stakes → svm_set_epoch_stakes s stakes = (s', r) → api_step P s s'
| step_add_builtin k f : api_step P s (add_builtin s k f)
| step_add_program_from_file k file s' r :
    add_program_from_file s k file = Ret (s', r) → api_step P s s'
| step_add_program pre k elf loader s' r :
    add_program_internal pre s k elf loader = Ret (s', r) → api_step P s s'
| step_airdrop k l s' r : airdrop s k l = Ret (s', r) → api_step P s s'
| step_send tx s' r : send_transaction s tx = Ret (s', r) → api_step P s s'
| step_expire_blockhash s' : expire_blockhash s = Ret s' → api_step P s s'
| step_warp_to_slot n s' : warp_to_slot s n = Ret s' → api_step P s s'.

(** What holds of every instance: the history records distinct signatures within
    its capacity, the stakes have an invariant [I], the reserved keys are those of
    the feature set, and the airdrop key pair is one. *)
Record instance_wf (I : EpochStakes → Prop) (s : LiteSVM) : Prop := {
  wf_history : history_wf (history s);
  wf_stakes : I (epoch_stakes s);
  wf_reserved :
    reserved_account_keys s = reserved_account_keys_for_feature_set (feature_set s);
  wf_airdrop : is_Some (keypair_pubkey (airdrop_kp s)) }.

(** ** Operations on the accounts only *)

Definition only_accounts (s s' : LiteSVM) : Prop := ∃ db, s' = with_accounts s db.

#[local] Instance only_accounts_preorder : PreOrder only_accounts.
Proof.
  split.
  - intros s. exists (accounts s). by destruct s.
  - intros s1 s2 s3 [db1 ->] [db2 ->]. by exists db2.
Qed.

Lemma only_accounts_wf I s s' : only_accounts s s' → instance_wf I s → instance_wf I s'.
Proof. by intros [db ->] [? ? ? ?]. Qed.

Lemma with_accounts_only s db : only_accounts s (with_accounts s db).
Proof. by exists db. Qed.
#[local] Hint Resolve with_accounts_only : svm.

Lemma set_account_only s k acc s' r : set_account s k acc = (s', r) → only_accounts s s'.
Proof.
  unfold set_account. destruct (add_account _ _ _) as [db r']. intros [= <- <-]. by eexists.
Qed.

Lemma set_sysvar_only {T} `{Sysvar T} s (x : T) s' :
  set_sysvar s x = Ret s' → only_accounts s s'.
Proof.
  unfold set_sysvar. destruct (unwrap _) as [d|]; simpl; [|done].
  destruct (add_account _ _ _) as [db [[]|]]; [|done]. intros [= <-]. by eexists.
Qed.

Lemma foldl_only {A} (f : LiteSVM → A → LiteSVM) l :
  (∀ s x, only_accounts s (f s x)) → ∀ s, only_accounts s (foldl f s l).
Proof. intros Hf. induction l as [|x l IH]; intros s; [done|]. etransitivity; [apply Hf|apply IH]. Qed.

Lemma foldl_outcome_only {A} (f : outcome LiteSVM → A → outcome LiteSVM) l :
  (∀ o x s', f o x = Ret s' → ∃ s, o = Ret s ∧ only_accounts s s') →
  ∀ o s', foldl f o l = Ret s' → ∃ s, o = Ret s ∧ only_accounts s s'.
Proof.
  intros Hf. induction l as [|x l IH]; intros o s'; simpl; [intros ->; by eexists|].
  intros (s1 & (s & -> & Hs)%Hf & Hs1)%IH. exists s. split; [done|]. by etransitivity.
Qed.

Lemma with_environments_only (s : LiteSVM)
    (envs : outcome (RuntimeEnvironment * RuntimeEnvironment)) s' :
  (envs ← envs; Ret (with_accounts s (with_environments (accounts s) envs.1 envs.2))) = Ret s' →
  only_accounts s s'.
Proof. destruct envs as [envs|]; simpl; [|done]. intros [= <-]. by eexists. Qed.

Lemma set_builtins_only s s' : set_builtins s = Ret s' → only_accounts s s'.
Proof.
  unfold set_builtins. intros Hs%with_environments_only. etransitivity; [|exact Hs].
  apply foldl_only. intros s1 b. unfold add_one_builtin.
  destruct (enable_feature_id b) as [x|]; [destruct (fs_is_active (feature_set s1) x)|];
    auto with svm; reflexivity.
Qed.

Lemma set_feature_accounts_only s : only_accounts s (set_feature_accounts s).
Proof. apply foldl_only. intros s1 [k n]. auto with svm. Qed.

Lemma load_precompiles_only s s' : load_precompiles s = Ret s' → only_accounts s s'.
Proof.
  intros Hs. apply foldl_outcome_only in Hs as (s0 & [= <-] & Hs); [done|].
  intros o [k feature] s2 Hf. destruct o as [s1|]; simpl in Hf; [|done].
  exists s1. split; [done|].
  destruct feature as [x|]; [destruct (fs_is_active (feature_set s1) x); [|by injection Hf as <-]|];
    (destruct (set_account _ _ _) as [s3 [[]|]] eqn:Hset; [|done]); injection Hf as <-;
    by eapply set_account_only.
Qed.

Lemma store_program_only s k elf loader n s' size :
  store_program s k elf loader n = Ret (Ok (s', size)) → only_accounts s s'.
Proof.
  unfold store_program. destruct (loader =? _)%N.
  - destruct (unwrap _); simpl; [|done]. intros [= <- _]. by eexists.
  - destruct (_ || _); [|done]. intros [= <- _]. by eexists.
Qed.

Lemma add_program_internal_only pre s k elf loader s' r :
  add_program_internal pre s k elf loader = Ret (s', r) → only_accounts s s'.
Proof.
  unfold add_program_internal.
  destruct (store_program _ _ _ _ _) as [[[s1 size]|e]|] eqn:Hst; simpl; [| |done].
  - apply store_program_only in Hst. destruct (if pre then _ else _); intros [= <- <-]; [|done].
    etransitivity; [done|apply with_accounts_only].
  - by intros [= <- <-].
Qed.

Lemma load_default_programs_only s s' : load_default_programs s = Ret s' → only_accounts s s'.
Proof.
  intros Hs. apply foldl_outcome_only in Hs as (s0 & [= <-] & Hs); [done|].
  intros o [[k file] loader] s2 Hf. destruct o as [s1|]; simpl in Hf; [|done].
  exists s1. split; [done|].
  destruct (add_program_preverified _ _ _ _) as [[s3 [[]|]]|] eqn:Hadd; simpl in Hf; try done.
  injection Hf as <-. by eapply add_program_internal_only.
Qed.

(** Peels the writes of a sequence of sysvars off. *)
Ltac peel_sysvars :=
  repeat match goal with
  | |- context [set_sysvar ?s ?x] =>
      let Hx := fresh "Hx" in
      destruct (set_sysvar s x) eqn:Hx; simpl; [apply set_sysvar_only in Hx|done]
  end.

Lemma set_sysvars_only s s' : set_sysvars s = Ret s' → only_accounts s s'.
Proof.
  unfold set_sysvars. do 7 peel_sysvars.
  destruct (unwrap _); simpl; [|done]. peel_sysvars. intros [= <-].
  repeat (etransitivity; [eassumption|]). apply with_accounts_only.
Qed.

(** ** Sending *)

(** Execution writes the accounts, the commit writes the accounts and records. *)
Definition recorded (s s' : LiteSVM) : Prop :=
  ∃ db h, s' = with_accounts (with_history s h) db ∧
    (h = history s ∨ ∃ sig r, h = add_new_transaction (history s) sig r).

Lemma execute_sanitized_only s tx lc s' er lc' :
  execute_sanitized_transaction s tx lc = Ret (s', er, lc') → only_accounts s s'.
Proof.
  unfold execute_sanitized_transaction.
  destruct (check_and_process_transaction s tx lc) as [[p|e]|]; simpl; [| |done].
  - unfold charge_failed. destruct (po_context p), (po_payer p) as [payer|]; simpl;
      try (intros [= <- <- <-]; reflexivity).
    destruct (is_err _); [|by intros [= <- <- <-]].
    destruct (withdraw _ _ _) as [[db r]|]; simpl; [|done]. intros [= <- _ _]. by eexists.
  - by intros [= <- <- <-].
Qed.

Lemma commit_recorded_only s er meta s' r :
  commit_result s er meta = Ret (s', r) → recorded s s'.
Proof.
  unfold commit_result, recorded. destruct (tx_result er) as [[]|e].
  - destruct (is_enabled (history s)); simpl;
      destruct (sync_accounts _ _) as [db [[]|]]; try done; intros [= <- <-].
    + exists db. eexists. split; [done|]. by right; do 2 eexists.
    + exists db, (history s). split; [by destruct s|]. by left.
  - intros [= <- <-]. exists (accounts s). destruct (included er && is_enabled (history s)).
    + eexists. split; [done|]. by right; do 2 eexists.
    + exists (history s). split; [by destruct s|]. by left.
Qed.

Lemma send_transaction_recorded s tx s' r : send_transaction s tx = Ret (s', r) → recorded s s'.
Proof.
  unfold send_transaction, execute_transaction, execute_transaction_no_verify, map_sanitize_result.
  intros Hsend.
  assert (∃ s1 er lc, only_accounts s s1 ∧ commit_result s1 er (meta_of er lc) = Ret (s', r))
    as (s1 & er & lc & [db ->] & Hc).
  { destruct (sigverify s);
      [destruct (sanitize_transaction s tx) as [[stx|e]|]
      |destruct (sanitize_transaction_no_verify s tx) as [[stx|e]|]]; simpl in Hsend; try done;
      try (by exists s, e; eexists).
    all: destruct (execute_sanitized_transaction _ _ _) as [[[s1 er] lc]|] eqn:He;
      simpl in Hsend; [|done]; exists s1, er, lc; split; [by eapply execute_sanitized_only|done]. }
  destruct (commit_recorded_only _ _ _ _ _ Hc) as (db' & h & -> & Hh). by exists db', h.
Qed.

Context `{!IndexMapAllocLaws}.

(** An invariant of the stakes that both setters keep. *)
Context (P : list (address * N) → Prop) (I : EpochStakes → Prop).
Context (HI : ∀ e k stake, I e → I (set_epoch_stake e k stake).1).
Context (HP : ∀ e l, P l → I e → I (set_epoch_stakes e l).1).

Lemma recorded_wf s s' : recorded s s' → instance_wf I s → instance_wf I s'.
Proof.
  intros (db & h & -> & Hh) [? ? ? ?]. constructor; try done. simpl.
  destruct Hh as [->|(sig & r & ->)]; [done|]. by apply add_new_transaction_wf.
Qed.

Lemma with_epoch_stakes_wf s e :
  (I (epoch_stakes s) → I e) →
  instance_wf I s → instance_wf I (with_epoch_stakes s e).
Proof. intros He [? ? ? ?]. constructor; try done. by apply He. Qed.

Lemma svm_set_epoch_stake_wf s k stake s' r :
  svm_set_epoch_stake s k stake = (s', r) → instance_wf I s → instance_wf I s'.
Proof.
  unfold svm_set_epoch_stake. pose proof (HI (epoch_stakes s) k stake) as He.
  destruct (set_epoch_stake _ _ _) as [e r']. intros [= <- <-]. by apply with_epoch_stakes_wf.
Qed.

Lemma svm_set_epoch_stakes_wf s stakes s' r :
  P stakes → svm_set_epoch_stakes s stakes = (s', r) → instance_wf I s → instance_wf I s'.
Proof.
  intros Hl. unfold svm_set_epoch_stakes. pose proof (HP (epoch_stakes s) stakes Hl) as He.
  destruct (set_epoch_stakes _ _) as [e r']. intros [= <- <-]. by apply with_epoch_stakes_wf.
Qed.

(** ** Steps *)

Lemma api_step_wf s s' : api_step P s s' → instance_wf I s → instance_wf I s'.
Proof.
  destruct 1 as [b|b|b|s'|fs| | |s'|l s'|s'|n|limit|s'|n f s'|k acc s' r|T ? x s'|k stake s' r
                |stakes s' r|k f|k file s' r|pre k elf loader s' r|k l s' r|tx s' r|s'|n s'].
  all: try (by intros [? ? ? ?]).
  all: try (apply only_accounts_wf;
            first [by apply set_sysvars_only|by apply set_feature_accounts_only
                  |by apply set_builtins_only|by apply load_default_programs_only
                  |by apply load_precompiles_only|by eapply set_account_only
                  |by eapply set_sysvar_only|by apply with_accounts_only
                  |by eapply add_program_internal_only]).
  - apply only_accounts_wf. unfold with_lamports, svm_set_lamports in *.
    destruct (unwrap _); simplify_eq/=. apply with_accounts_only.
  - intros [? ? ? ?]. constructor; try done. by apply set_capacity_wf.
  - intros Hwf. eapply only_accounts_wf; [by eapply with_environments_only|]. by destruct Hwf.
  - by eapply svm_set_epoch_stake_wf.
  - by eapply svm_set_epoch_stakes_wf.
  - apply only_accounts_wf. unfold add_program_from_file in *.
    destruct file; simplify_eq; [by eapply add_program_internal_only|reflexivity].
  - apply recorded_wf. unfold airdrop in *. destruct (unwrap (keypair_pubkey _)); simplify_eq/=.
    destruct (unwrap (transfer_transaction _ _ _ _ _)); simplify_eq/=.
    by eapply send_transaction_recorded.
  - apply recorded_wf. by eapply send_transaction_recorded.
  - unfold expire_blockhash in *.
    match goal with Hs : set_sysvar _ _ = Ret _ |- _ => apply set_sysvar_only in Hs as [db ->] end.
    by intros [? ? ? ?].
  - apply only_accounts_wf. unfold warp_to_slot in *. destruct (get_sysvar _); simplify_eq/=.
    by match goal with Hs : set_sysvar _ _ = Ret _ |- _ => apply set_sysvar_only in Hs end.
Qed.

Lemma new_inner_wf kp tracing :
  I no_stakes → is_Some (keypair_pubkey kp) → instance_wf I (new_inner kp tracing).
Proof. intros Hs Hkp. by constructor; try apply history_new_wf. Qed.

Lemma steps_wf s s' : rtc (api_step P) s s' → instance_wf I s → instance_wf I s'.
Proof. induction 1 as [s|s s1 s2 Hs _ IH]; [done|]. intros Hwf. by eapply IH, api_step_wf. Qed.
End reach.

(** ** Properties *)

(** C17.  Every instance that the public interface can reach from a fresh one is
    well formed, in whatever order its operations are called and whether they
    succeed or fail: the history holds distinct signatures, no more than its
    capacity; no epoch stake is 0, and the total epoch stake fits a [u64] and is at
    least the sum of the stakes; the reserved account keys are those of the current
    feature set; the airdrop key pair is valid.  The total is exactly the sum when
    no call replaced all stakes by a list that names a vote account twice.  (The
    setters of the [persistence-internal] feature are not part of the interface
    here.) *)
Theorem reachable_instances_wf `{Host} `{!IndexMapAllocLaws} P kp tracing s
  (Hkp : is_Some (keypair_pubkey kp)) (Hreach : rtc (api_step P) (new_inner kp tracing) s) :
  instance_wf stakes_bounded s ∧
  ((∀ l, P l → NoDup l.*1) → epoch_total_stake (epoch_stakes s)
                             = map_sum id (epoch_vote_stakes (epoch_stakes s))).
Proof.
  split.
  - eapply steps_wf; [apply set_epoch_stake_bounded| |exact Hreach|].
    + intros e l _. apply set_epoch_stakes_bounded.
    + apply new_inner_wf; [|done]. apply stakes_wf_bounded, no_stakes_wf.
  - intros HP. assert (instance_wf stakes_wf s) as [_ (Ht & _) _ _]; [|exact Ht].
    eapply steps_wf; [apply set_epoch_stake_wf| |exact Hreach|].
    + intros e l Hl. by apply set_epoch_stakes_wf, HP.
    + apply new_inner_wf; [|done]. apply no_stakes_wf.
Qed.
