(* ===== verification/ExecLemmas.v ===== *)
(** * Facts about executing transactions

    The relation between the committing and the read-only paths, and the balance
    of the store across a commit. *)

From S2P Require Import Prelude Errors ComputeBudget Runtime RentState Utils Types History.
From S2P Require Import EpochStake AccountsDb Vm InnerInstructions Features Svm Process.
From S2P Require Import ProcessLemmas Exec.

(** ** The store *)

Section store.
Implicit Types m : gmap address account.

Definition balance_of (m : gmap address account) (k : address) : N :=
  default 0%N (lamports <$> m !! k).

Definition store_total (m : gmap address account) : N := map_sum lamports m.

(** Writing one account, or removing it when it has no lamports. *)
Lemma store_total_write m m' k acc :
  (∀ k', m' !! k' = if decide (k' = k) then stored acc else m !! k') →
  (store_total m' + balance_of m k = store_total m + lamports acc)%N.
Proof.
  intros Hm'. unfold store_total, balance_of, stored in *.
  assert (store_total m = balance_of m k + store_total (delete k m))%N as Hm.
  { unfold store_total, balance_of. destruct (m !! k) as [a|] eqn:Hk; simpl.
    - exact (map_sum_delete lamports m k a Hk).
    - by rewrite delete_id. }
  unfold store_total, balance_of in Hm. rewrite Hm.
  destruct (N.eqb_spec (lamports acc) 0) as [Hz|Hnz].
  - assert (m' = delete k m) as ->; [|lia].
    apply map_eq. intros k'. rewrite Hm'. case_decide; by simplify_map_eq.
  - assert (m' = <[k := acc]> (delete k m)) as ->.
    { apply map_eq. intros k'. rewrite Hm'. case_decide; by simplify_map_eq. }
    rewrite map_sum_insert by apply lookup_delete_eq. lia.
Qed.

(** Writing a list of accounts at distinct addresses. *)
Lemma store_total_writes (l : list (address * account)) : ∀ m m',
  NoDup l.*1 → (∀ k acc, (k, acc) ∈ l → m' !! k = stored acc) →
  (∀ k, k ∉ l.*1 → m' !! k = m !! k) →
  (store_total m' + list_sum (λ x, balance_of m x.1) l = store_total m + balances l)%N.
Proof.
  unfold balances. induction l as [|[k acc] l IH]; intros m m' Hnd Hin Hout; simpl in *.
  { assert (m' = m) as ->; [|lia]. apply map_eq. intros k. apply Hout. set_solver. }
  apply NoDup_cons in Hnd as [Hk Hnd].
  set (m1 := match stored acc with Some a => <[k := a]> m | None => delete k m end).
  assert (∀ k', m1 !! k' = if decide (k' = k) then stored acc else m !! k') as Hm1.
  { intros k'. unfold m1. destruct (stored acc); case_decide; by simplify_map_eq. }
  pose proof (store_total_write m m1 k acc Hm1) as H1.
  pose proof (IH m1 m' Hnd) as H2. forward H2.
  { intros k' a Ha. apply Hin. set_solver. }
  forward H2.
  { intros k' Hk'. rewrite Hm1. case_decide as Hd; subst.
    - apply Hin. set_solver.
    - apply Hout. set_solver. }
  assert (list_sum (λ x, balance_of m1 x.1) l = list_sum (λ x, balance_of m x.1) l) as Heq.
  { clear -Hm1 Hk. induction l as [|[k' a] l IHl]; simpl in *; [done|].
    rewrite IHl by set_solver. f_equal. unfold balance_of. rewrite Hm1.
    case_decide; [set_solver|done]. }
  lia.
Qed.
End store.

Section exec.
Context `{Host}.

Lemma stored_or_empty_balance s k :
  lamports (stored_or_empty s k) = balance_of (inner (accounts s)) k.
Proof.
  unfold stored_or_empty, balance_of, get_account. by destruct (inner (accounts s) !! k).
Qed.

Lemma base_accounts_balances s msg keys i :
  balances (writable_from msg i (base_accounts s keys))
  = list_sum (λ x, balance_of (inner (accounts s)) x.1)
      (writable_from msg i (base_accounts s keys)).
Proof.
  unfold balances. revert i. induction keys as [|k keys IH]; intros i; simpl; [done|].
  destruct (is_writable msg i); simpl; [|apply IH].
  rewrite stored_or_empty_balance. f_equal. apply IH.
Qed.

Lemma list_sum_keys (f : address → N) (l l' : list (address * account)) :
  l.*1 = l'.*1 → list_sum (λ x, f x.1) l = list_sum (λ x, f x.1) l'.
Proof.
  revert l'. induction l as [|x l IH]; intros [|x' l'] Hk; simpl in *; try done.
  injection Hk as Hx Hk. rewrite Hx, (IH l' Hk). done.
Qed.

(** ** Charging *)

(** The store after taking a fee from an account. *)
Definition debit (s : LiteSVM) (payer : address) (acc : account) (fee : N) : LiteSVM :=
  with_accounts s
    (with_inner (accounts s)
       (<[payer := set_lamports acc (lamports acc - fee)]> (inner (accounts s)))).

(** How executing a transaction changes the instance before the commit. *)
Inductive charge_step (s : LiteSVM) (msg : SanitizedMessage)
    : ExecutionResult → LiteSVM → Prop :=
| charge_none er :
    included er && is_err (tx_result er) = false → charge_step s msg er s
| charge_fee er payer acc :
    included er = true → is_err (tx_result er) = true →
    fee_payer msg = Some payer → inner (accounts s) !! payer = Some acc →
    (er_fee er ≤ lamports acc)%N →
    charge_step s msg er (debit s payer acc (er_fee er)).

(** Balances are [u64] values. *)
Definition balances_wf (db : AccountsDb) : Prop :=
  ∀ k acc, inner db !! k = Some acc → (lamports acc ≤ u64_max)%N.

Context `{!SystemLaws}.

Lemma mark_exempt_kind msg rent i acc :
  get_system_account_kind (mark_exempt msg rent i acc) = get_system_account_kind acc.
Proof. unfold mark_exempt. case_match; [apply system_kind_rent_epoch|done]. Qed.

(** A payer that passed validation can be charged afterwards. *)
Lemma withdraw_validated s msg rent i k acc acc' fee :
  balances_wf (accounts s) → cache_get_rent (sysvar_cache (accounts s)) = Some rent →
  inner (accounts s) !! k = Some acc →
  validate_fee_payer k (mark_exempt msg rent i acc) (N.of_nat i) rent fee = Ret (acc', Ok ()) →
  (fee ≤ lamports acc)%N ∧
  withdraw (accounts s) k fee
  = Ret (with_inner (accounts s)
           (<[k := set_lamports acc (lamports acc - fee)]> (inner (accounts s))), Ok ()).
Proof.
  intros Hwf Hrent Hk (kind & Hkind & _ & Hle & _)%validate_fee_payer_Ok.
  rewrite mark_exempt_kind in Hkind. rewrite mark_exempt_lamports in Hle.
  pose proof (Hwf _ _ Hk) as Hmax. split; [lia|].
  unfold withdraw. rewrite Hk, Hkind, Hrent.
  replace (match Some kind with
           | Some Nonce => rent0 ← unwrap (Some rent);
               Ret (rent_minimum_balance rent0 nonce_state_size)
           | _ => Ret 0%N end) with (Ret (payer_min_balance rent kind)) by (by destruct kind).
  simpl. unfold checked_add.
  destruct (N.leb_spec (fee + payer_min_balance rent kind) u64_max); [|lia].
  destruct (N.leb_spec (fee + payer_min_balance rent kind) (lamports acc)); [|lia].
  unfold checked_sub_lamports, checked_sub.
  destruct (N.leb_spec fee (lamports acc)); [done|lia].
Qed.

Lemma charge_failed_spec s tx cfg lc p :
  balances_wf (accounts s) → process_transaction s tx cfg lc = Ret p →
  ∃ s', charge_failed s p (processed_result tx p) = Ret (s', processed_result tx p) ∧
        charge_step s (message tx) (processed_result tx p) s'.
Proof.
  intros Hwf Hp. unfold charge_failed, processed_result.
  destruct (po_context p) as [ctx|] eqn:Hctx.
  2:{ exists s. split; [done|]. by constructor. }
  pose proof (process_transaction_run _ _ _ _ _ _ Hp Hctx) as
    [rent accs all payer idx ic r Hrent Hl _ _ _ _ Hfee Hpayer].
  rewrite Hpayer. simpl. destruct (is_err (po_result p)) eqn:Herr.
  2:{ exists s. split; [done|]. by constructor. }
  pose proof (loads_fee_payer _ _ _ _ _ _ _ _ Hl) as Hfp.
  destruct (loads_payer_stored _ _ _ _ _ _ _ _ Hl) as (j & acc & acc' & _ & _ & Hacc & _ & Hval).
  destruct (withdraw_validated _ _ _ _ _ _ _ _ Hwf Hrent Hacc Hval) as [Hle Hw].
  rewrite <-Hfee in Hw, Hle. rewrite Hw. simpl.
  eexists. split; [done|]. by econstructor.
Qed.

(** A check that fails reports its error and nothing else. *)
Lemma check_before_Err s tx er :
  check_transaction_before s tx = Err er → ∃ e, er = execution_result_err e.
Proof.
  unfold check_transaction_before, maybe_blockhash_check, check_transaction_age,
    get_transaction_config, maybe_history_check.
  destruct (blockhash_check s), (check_transaction_age_inner s tx),
    (try_from_sanitized_message (message tx) (feature_set s)),
    (sigverify s && check_transaction (history s) (tx_signature tx)); simpl;
    intros [= <-]; eauto.
Qed.

(** The committing path computes the result of the read-only one and charges. *)
Lemma execute_sanitized_agree s tx lc :
  balances_wf (accounts s) →
  match execute_sanitized_transaction_readonly s tx lc with
  | Ret (er, lc') => ∃ s', execute_sanitized_transaction s tx lc = Ret (s', er, lc')
      ∧ charge_step s (message tx) er s'
  | Panic => execute_sanitized_transaction s tx lc = Panic
  end.
Proof.
  intros Hwf. unfold execute_sanitized_transaction, execute_sanitized_transaction_readonly,
    check_and_process_transaction.
  destruct (check_transaction_before s tx) as [cfg|e] eqn:Hc; simpl.
  - destruct (process_transaction s tx cfg lc) as [p|] eqn:Hp; simpl; [|done].
    destruct (charge_failed_spec _ _ _ _ _ Hwf Hp) as (s' & Hs' & Hstep).
    rewrite Hs'. simpl. eauto.
  - exists s. split; [done|]. constructor.
    by apply check_before_Err in Hc as [e' ->].
Qed.

(** ** From a versioned transaction *)

(** The sanitization that [send_transaction] and [simulate_transaction] apply. *)
Definition sanitize (s : LiteSVM) (tx : VersionedTransaction)
    : outcome (result TransactionError SanitizedTransaction) :=
  if sigverify s then sanitize_transaction_inner s tx
  else sanitize_transaction_no_verify_inner s tx.

(** The read-only execution of either path. *)
Definition executes (s : LiteSVM) (tx : VersionedTransaction)
    : outcome (ExecutionResult * LogCollector) :=
  let lc := log_collector_new (log_bytes_limit s) in
  if sigverify s then execute_transaction_readonly s tx lc
  else execute_transaction_no_verify_readonly s tx lc.

Lemma executes_unfold s tx :
  executes s tx =
  (r ← sanitize s tx;
   match r with
   | Ok stx => execute_sanitized_transaction_readonly s stx (log_collector_new (log_bytes_limit s))
   | Err e => Ret (execution_result_err e, log_collector_new (log_bytes_limit s))
   end).
Proof.
  unfold executes, sanitize, execute_transaction_readonly,
    execute_transaction_no_verify_readonly, sanitize_transaction, sanitize_transaction_no_verify.
  destruct (sigverify s);
    [destruct (sanitize_transaction_inner s tx) as [[|]|]
    |destruct (sanitize_transaction_no_verify_inner s tx) as [[|]|]]; done.
Qed.

Lemma simulate_unfold s tx :
  simulate_transaction s tx =
  (r ← executes s tx; let '(r, lc) := r in
   Ret (match tx_result r with
        | Err tx_err => Err {| failed_err := tx_err; failed_meta := meta_of r lc |}
        | Ok _ => Ok {| sim_meta := meta_of r lc; sim_post_accounts := post_accounts r |}
        end)).
Proof. done. Qed.

Lemma send_unfold s tx :
  send_transaction s tx =
  (r ← sanitize s tx;
   match r with
   | Ok stx =>
       x ← execute_sanitized_transaction s stx (log_collector_new (log_bytes_limit s));
       commit_result x.1.1 x.1.2 (meta_of x.1.2 x.2)
   | Err e =>
       commit_result s (execution_result_err e)
         (meta_of (execution_result_err e) (log_collector_new (log_bytes_limit s)))
   end).
Proof.
  unfold send_transaction, sanitize, execute_transaction, execute_transaction_no_verify,
    sanitize_transaction, sanitize_transaction_no_verify.
  destruct (sigverify s);
    [destruct (sanitize_transaction_inner s tx) as [[stx|]|]
    |destruct (sanitize_transaction_no_verify_inner s tx) as [[stx|]|]]; simpl; try done;
  by destruct (execute_sanitized_transaction _ _ _) as [[[]]|].
Qed.

(** [send_transaction] is the read-only execution, a charge, and a commit. *)
Lemma send_spec s tx :
  balances_wf (accounts s) →
  match executes s tx with
  | Ret (er, lc) => ∃ s1,
      send_transaction s tx = commit_result s1 er (meta_of er lc) ∧
      match sanitize s tx with
      | Ret (Ok stx) => charge_step s (message stx) er s1
      | _ => s1 = s ∧ included er = false ∧ is_err (tx_result er) = true
      end
  | Panic => send_transaction s tx = Panic
  end.
Proof.
  intros Hwf. rewrite executes_unfold, send_unfold.
  destruct (sanitize s tx) as [[stx|e]|] eqn:Hs; simpl; [|by exists s|done].
  pose proof (execute_sanitized_agree s stx (log_collector_new (log_bytes_limit s)) Hwf) as Ha.
  destruct (execute_sanitized_transaction_readonly _ _ _) as [[er lc]|].
  - destruct Ha as (s' & -> & Hstep). simpl. by exists s'.
  - by rewrite Ha.
Qed.

(** An execution that reached the runtime passed the checks and was processed. *)
Lemma executes_included s tx er lc :
  executes s tx = Ret (er, lc) → included er = true →
  ∃ stx cfg p ctx, sanitize s tx = Ret (Ok stx) ∧ check_transaction_before s stx = Ok cfg ∧
    process_transaction s stx cfg (log_collector_new (log_bytes_limit s)) = Ret p ∧
    po_context p = Some ctx ∧ lc = po_logs p ∧ er = processed_result stx p.
Proof.
  rewrite executes_unfold. destruct (sanitize s tx) as [[stx|e]|]; simpl;
    [|by intros [= <- _]|done].
  unfold execute_sanitized_transaction_readonly, check_and_process_transaction.
  destruct (check_transaction_before s stx) as [cfg|e] eqn:Hc; simpl.
  2:{ apply check_before_Err in Hc as [e' ->]. by intros [= <- _]. }
  destruct (process_transaction s stx cfg _) as [p|] eqn:Hp; simpl; [|done].
  intros [= <- <-]. unfold processed_result.
  destruct (po_context p) as [ctx|] eqn:Hctx; simpl; [|done].
  intros _. exists stx, cfg, p, ctx. rewrite Hctx. done.
Qed.

Lemma executes_Ok_included s tx er lc :
  executes s tx = Ret (er, lc) → tx_result er = Ok () → included er = true.
Proof.
  rewrite executes_unfold. destruct (sanitize s tx) as [[stx|e]|]; simpl;
    [|by intros [= <- _]|done].
  unfold execute_sanitized_transaction_readonly, check_and_process_transaction.
  destruct (check_transaction_before s stx) as [cfg|e] eqn:Hc; simpl.
  2:{ apply check_before_Err in Hc as [e' ->]. by intros [= <- _]. }
  destruct (process_transaction s stx cfg _) as [p|] eqn:Hp; simpl; [|done].
  intros [= <- _]. unfold processed_result.
  destruct (po_context p) as [ctx|] eqn:Hctx; simpl; [done|].
  intros Hok. exfalso. by eapply process_transaction_no_context.
Qed.

(** A successful read-only execution ran the message to its end. *)
Lemma executes_Ok_run s tx er lc :
  executes s tx = Ret (er, lc) → tx_result er = Ok () →
  ∃ stx cfg p ctx, sanitize s tx = Ret (Ok stx) ∧
    run s stx cfg (log_collector_new (log_bytes_limit s)) p ctx ∧
    po_result p = Ok () ∧ er_fee er = po_fee p ∧
    post_accounts er = writable_from (message stx) 0 (context_accounts ctx) ∧
    er_signature er = tx_signature stx ∧ included er = true.
Proof.
  intros Hex Hok. pose proof (executes_Ok_included _ _ _ _ Hex Hok) as Hinc.
  destruct (executes_included _ _ _ _ Hex Hinc) as (stx & cfg & p & ctx & Hs & _ & Hp & Hctx & _ & ->).
  unfold processed_result in *. rewrite Hctx in *. exists stx, cfg, p, ctx.
  split_and!; try done. by apply process_transaction_run.
Qed.
End exec.
