(* ===== verification/ExecProps.v ===== *)
(** * Properties of sending and simulating transactions

    The theorems about [send_transaction] and [simulate_transaction]: agreement of
    the two, what a failed transaction costs, what a successful one may change,
    conservation of lamports, rent, replay and age checks. *)

From S2P Require Import Prelude Errors ComputeBudget Runtime RentState Utils Types History.
From S2P Require Import EpochStake AccountsDb Vm InnerInstructions Features Svm Process.
From S2P Require Import ProcessLemmas Exec ExecLemmas.

Section facts.
Context `{Host}.

Lemma charge_step_Ok s msg er s' :
  charge_step s msg er s' → tx_result er = Ok () → s' = s.
Proof. intros [er' _|er' payer acc _ He _ _ _] Hok; [done|]. by rewrite Hok in He. Qed.

Lemma commit_Ok s er meta s' m :
  commit_result s er meta = Ret (s', Ok m) →
  tx_result er = Ok () ∧ m = meta ∧
  sync_accounts (accounts s) (post_accounts er) = (accounts s', Ok ()) ∧
  history s' = (if is_enabled (history s)
                then add_new_transaction (history s) (er_signature er) (Ok meta) else history s) ∧
  feature_set s' = feature_set s ∧ latest_blockhash s' = latest_blockhash s ∧
  sigverify s' = sigverify s ∧ blockhash_check s' = blockhash_check s.
Proof.
  unfold commit_result. destruct (tx_result er) as [[]|]; [|done].
  destruct (is_enabled (history s)); simpl;
    (destruct (sync_accounts (accounts s) (post_accounts er)) as [db [[]|]] eqn:Hs; [|done]);
    intros [= <- <-]; done.
Qed.

Lemma commit_Err s er meta s' f :
  commit_result s er meta = Ret (s', Err f) →
  tx_result er = Err (failed_err f) ∧ failed_meta f = meta ∧
  s' = if included er && is_enabled (history s)
       then with_history s (add_new_transaction (history s) (er_signature er) (Err f)) else s.
Proof.
  unfold commit_result. destruct (tx_result er) as [[]|e].
  - by destruct (sync_accounts _ _) as [db [[]|]].
  - by intros [= <- <-].
Qed.

(** The fields that executing a transaction never changes. *)
Definition same_config (s s' : LiteSVM) : Prop :=
  feature_set s' = feature_set s ∧ latest_blockhash s' = latest_blockhash s ∧
  sigverify s' = sigverify s ∧ blockhash_check s' = blockhash_check s ∧
  log_bytes_limit s' = log_bytes_limit s.

Lemma charge_step_config s msg er s' :
  charge_step s msg er s' → same_config s s' ∧ history s' = history s.
Proof. by intros []. Qed.

Lemma commit_recorded s er meta s' r :
  commit_result s er meta = Ret (s', r) → included er = true → is_enabled (history s) = true →
  same_config s s' ∧ history s' = add_new_transaction (history s) (er_signature er) r.
Proof.
  unfold commit_result. intros Hc Hinc Hen. rewrite Hinc, Hen in Hc.
  destruct (tx_result er) as [[]|e]; [|by injection Hc as <- <-]. simpl in Hc.
  destruct (sync_accounts _ _) as [db [[]|]]; [|done]. by injection Hc as <- <-.
Qed.

(** Sending a transaction that a check rejects changes nothing. *)
Lemma send_rejected s tx stx e :
  sanitize s tx = Ret (Ok stx) → check_transaction_before s stx = Err (execution_result_err e) →
  send_transaction s tx
  = Ret (s, Err {| failed_err := e;
                   failed_meta := meta_of (execution_result_err e)
                                    (log_collector_new (log_bytes_limit s)) |}).
Proof.
  intros Hs Hc. rewrite send_unfold, Hs. simpl.
  unfold execute_sanitized_transaction, check_and_process_transaction. by rewrite Hc.
Qed.

(** A failed send, taken apart. *)
Lemma send_Err_run `{!SystemLaws} s tx s' f :
  balances_wf (accounts s) → send_transaction s tx = Ret (s', Err f) →
  ∃ er lc, executes s tx = Ret (er, lc) ∧ tx_result er = Err (failed_err f) ∧
    failed_meta f = meta_of er lc ∧
    if included er then
      ∃ stx payer acc, sanitize s tx = Ret (Ok stx) ∧ fee_payer (message stx) = Some payer ∧
        inner (accounts s) !! payer = Some acc ∧ (er_fee er ≤ lamports acc)%N ∧
        let charged := debit s payer acc (er_fee er) in
        s' = if is_enabled (history s)
             then with_history charged
                    (add_new_transaction (history s) (er_signature er) (Err f))
             else charged
    else s' = s.
Proof.
  intros Hwf Hsend. pose proof (send_spec s tx Hwf) as Hspec. rewrite Hsend in Hspec.
  destruct (executes s tx) as [[er lc]|] eqn:Hex; [|done].
  destruct Hspec as (s1 & Hcommit & Hcharge).
  destruct (commit_Err _ _ _ _ _ (eq_sym Hcommit)) as (Hres & Hmeta & ->).
  exists er, lc. split_and!; try done.
  destruct (included er) eqn:Hinc; simpl.
  - destruct (sanitize s tx) as [[stx|]|]; [|by destruct Hcharge as (_ & ? & _)..].
    destruct Hcharge as [er Hno|er payer acc _ _ Hfp Hacc Hle].
    { rewrite Hinc, Hres in Hno. done. }
    exists stx, payer, acc. by split_and!.
  - destruct (sanitize s tx) as [[stx|]|]; [|by destruct Hcharge as [-> _]..].
    destruct Hcharge as [er Hno|er payer acc Hyes _ _ _ _]; [done|congruence].
Qed.

Lemma sanitize_try_create s tx stx :
  sanitize s tx = Ret (Ok stx) →
  try_create tx (load_addresses (accounts s)) (rk_active (reserved_account_keys s))
  = Ret (Ok stx) ∧
  validate_account_locks (message stx) (get_transaction_account_lock_limit s) = Ok ().
Proof.
  unfold sanitize, sanitize_transaction_inner, sanitize_transaction_no_verify_inner. intros Hs.
  destruct (try_create _ _ _) as [[stx'|]|]; simpl in Hs;
    [|by destruct (sigverify s)|by destruct (sigverify s)].
  destruct (validate_account_locks _ _) as [[]|] eqn:Hv; simpl in Hs;
    [|by destruct (sigverify s)].
  destruct (sigverify s); [|by injection Hs as <-].
  simpl in Hs. destruct (tx_verify stx') as [[]|]; simpl in Hs; [|done]. by injection Hs as <-.
Qed.

Context `{!SystemLaws} `{!PartitionLaws} `{!SanitizeLaws} `{!VmPermissions} `{!VmLaws}.

(** The writable part of the context holds keys of the message, each once. *)
Lemma writable_context_keys s tx stx all accs :
  sanitize s tx = Ret (Ok stx) → accs.*1 = account_keys (message stx) → accs `prefix_of` all →
  (writable_from (message stx) 0 all).*1 = (writable_from (message stx) 0 accs).*1 ∧
  NoDup (writable_from (message stx) 0 all).*1.
Proof.
  intros [Hc Hl]%sanitize_try_create Hk [extra ->].
  rewrite writable_from_app.
  - split; [done|]. eapply sublist_NoDup; [by eapply validate_account_locks_distinct|].
    rewrite <-Hk. apply fmap_sublist, writable_from_sublist.
  - intros j Hj. destruct (is_writable (message stx) j) eqn:Hw; [|done].
    eapply try_create_writable in Hw; [|done].
    rewrite <-Hk, length_fmap in Hw. lia.
Qed.

(** A successful send, taken apart. *)
Lemma send_Ok_run s tx s' meta :
  balances_wf (accounts s) → send_transaction s tx = Ret (s', Ok meta) →
  ∃ er lc stx cfg p ctx,
    executes s tx = Ret (er, lc) ∧ sanitize s tx = Ret (Ok stx) ∧
    run s stx cfg (log_collector_new (log_bytes_limit s)) p ctx ∧ po_result p = Ok () ∧
    meta = meta_of er lc ∧ er_fee er = po_fee p ∧ er_signature er = tx_signature stx ∧
    commit_result s er meta = Ret (s', Ok meta) ∧
    written (inner (accounts s)) (inner (accounts s'))
      (writable_from (message stx) 0 (context_accounts ctx)).
Proof.
  intros Hwf Hsend. pose proof (send_spec s tx Hwf) as Hspec. rewrite Hsend in Hspec.
  destruct (executes s tx) as [[er lc]|] eqn:Hex; [|done].
  destruct Hspec as (s1 & Hcommit & Hcharge).
  destruct (commit_Ok _ _ _ _ _ (eq_sym Hcommit)) as (Hok & -> & Hsync & _).
  destruct (executes_Ok_run _ _ _ _ Hex Hok) as (stx & cfg & p & ctx & Hs & Hrun & Hp & Hfee & Hpost & Hsig & _).
  rewrite Hs in Hcharge. apply charge_step_Ok in Hcharge as ->; [|done].
  exists er, lc, stx, cfg, p, ctx. split_and!; try done.
  rewrite <-Hpost. apply sync_accounts_written; [|done]. rewrite Hpost.
  destruct (run_frame _ _ _ _ _ _ Hrun Hp) as (rent & accs & all & payer & _ & Hl & Hpre & Hk & _).
  rewrite (writable_from_keys _ _ all) by done.
  eapply writable_context_keys; [done| |done]. by eapply loads_keys.
Qed.
(** What a successful send moves: it writes distinct accounts, whose balances
    add up to what they held before, less the fee. *)
Lemma send_Ok_moves s tx s' meta stx :
  balances_wf (accounts s) → send_transaction s tx = Ret (s', Ok meta) →
  sanitize s tx = Ret (Ok stx) →
  (∀ i, account_keys (message stx) !! i = Some instructions_id →
        is_writable (message stx) i = false) →
  (∀ i k, account_keys (message stx) !! i = Some k → fee_payer (message stx) = Some k →
          is_writable (message stx) i = true) →
  ∃ l, NoDup l.*1 ∧ written (inner (accounts s)) (inner (accounts s')) l ∧
    (balances l + meta_fee meta = list_sum (λ x, balance_of (inner (accounts s)) x.1) l)%N.
Proof.
  intros Hwf Hsend Hstx Hins Hpay.
  destruct (send_Ok_run _ _ _ _ Hwf Hsend) as
    (er & lc & stx' & cfg & p & ctx & _ & Hs & Hrun & Hp & -> & Hfee & _ & _ & Hw).
  rewrite Hstx in Hs. injection Hs as <-. simpl. rewrite Hfee.
  destruct (run_frame _ _ _ _ _ _ Hrun Hp) as
    (rent & accs & all & payer & _ & Hl & Hpre & Hk & Hro & Hlam & _).
  pose proof (loads_keys _ _ _ _ _ _ _ _ Hl) as Hkeys.
  destruct (writable_context_keys _ _ _ _ _ Hstx Hkeys Hpre) as [Hwk Hnd].
  pose proof (writable_from_keys (message stx) _ _ 0 Hk) as Hck.
  rewrite <-Hck in Hnd. eexists. split; [exact Hnd|]. split; [exact Hw|].
  pose proof (writable_from_balances (message stx) all _ 0 Hk Hro) as Hbal.
  rewrite Hlam in Hbal.
  pose proof (loads_balances _ _ _ _ _ _ _ _ Hl Hins) as Hload. forward Hload.
  { intros j k Hj [= ->]. eapply Hpay; [done|]. by eapply loads_fee_payer. }
  assert (balances (writable_from (message stx) 0 all)
          = balances (writable_from (message stx) 0 accs)) as Hpref.
  { destruct Hpre as [extra ->]. rewrite writable_from_app; [done|].
    intros j Hj. destruct (is_writable (message stx) j) eqn:Hwj; [|done].
    apply sanitize_try_create in Hstx as [Hc _]. eapply try_create_writable in Hwj; [|done].
    rewrite <-Hkeys, length_fmap in Hwj. lia. }
  rewrite base_accounts_balances in Hload.
  rewrite (list_sum_keys (balance_of (inner (accounts s))) _
    (writable_from (message stx) 0 (base_accounts s (account_keys (message stx))))).
  - lia.
  - rewrite Hck, Hwk. apply writable_from_keys. rewrite Hkeys. unfold base_accounts.
    rewrite <-list_fmap_compose. symmetry. by apply list_fmap_id.
Qed.
End facts.

(** ** Properties *)

Section properties.
Context `{Host}.

(** C1.  Simulation predicts sending: when [simulate_transaction] fails,
    [send_transaction] returns the very same error and metadata (charging the fee
    never replaces the error); when it succeeds, sending returns the same metadata
    and the database it leaves is the one with the simulated post-accounts
    committed.  Sending panics only when the simulation does or when the runtime
    wrote an account that the database rejects. *)
Theorem simulate_agrees_with_send `{!SystemLaws} s tx (Hwf : balances_wf (accounts s)) :
  match simulate_transaction s tx with
  | Panic => send_transaction s tx = Panic
  | Ret (Err f) => ∃ s', send_transaction s tx = Ret (s', Err f)
  | Ret (Ok info) =>
      match sync_accounts (accounts s) (sim_post_accounts info) with
      | (db, Ok _) => ∃ s', send_transaction s tx = Ret (s', Ok (sim_meta info))
                            ∧ accounts s' = db
      | (_, Err _) => send_transaction s tx = Panic
      end
  end.
Proof.
  rewrite simulate_unfold. pose proof (send_spec s tx Hwf) as Hspec.
  destruct (executes s tx) as [[er lc]|] eqn:Hex; simpl; [|done].
  destruct Hspec as (s1 & -> & Hcharge). unfold commit_result.
  destruct (tx_result er) as [[]|e] eqn:Hres; simpl; [|by eexists].
  assert (s1 = s) as ->.
  { destruct (executes_Ok_run _ _ _ _ Hex Hres) as (stx & _ & _ & _ & Hs & _).
    rewrite Hs in Hcharge. by eapply charge_step_Ok. }
  destruct (is_enabled (history s)); simpl;
    destruct (sync_accounts (accounts s) (post_accounts er)) as [db [[]|]]; by eauto.
Qed.

(** C2.  A failed transaction costs its fee at most.  If it did not reach the
    runtime, the instance is unchanged.  If it did, exactly the reported fee is
    taken from the stored balance of the fee payer, every other account and every
    cache is as before, and the failure is recorded in the history when it is
    enabled. *)
Theorem failed_send_charges_only_fee `{!SystemLaws} s tx s' f
  (Hwf : balances_wf (accounts s)) (Hsend : send_transaction s tx = Ret (s', Err f)) :
  ∃ er lc, executes s tx = Ret (er, lc) ∧ tx_result er = Err (failed_err f) ∧
    failed_meta f = meta_of er lc ∧
    if included er then
      ∃ stx payer acc, sanitize s tx = Ret (Ok stx) ∧ fee_payer (message stx) = Some payer ∧
        inner (accounts s) !! payer = Some acc ∧
        (meta_fee (failed_meta f) ≤ lamports acc)%N ∧
        accounts s' = with_inner (accounts s)
          (<[payer := set_lamports acc (lamports acc - meta_fee (failed_meta f))]>
             (inner (accounts s))) ∧
        history s' = (if is_enabled (history s)
                      then add_new_transaction (history s) (er_signature er) (Err f)
                      else history s)
    else s' = s.
Proof.
  destruct (send_Err_run _ _ _ _ Hwf Hsend) as (er & lc & Hex & Hres & Hmeta & Heff).
  exists er, lc. split_and!; try done. destruct (included er); [|done].
  destruct Heff as (stx & payer & acc & Hs & Hfp & Hacc & Hle & ->).
  exists stx, payer, acc. rewrite Hmeta. split_and!; try done; simpl;
    by destruct (is_enabled (history s)).
Qed.

(** C3.  Lamports are conserved: a successful transaction lowers the sum of all
    stored balances by exactly its fee.  Nothing else is burnt or minted when
    accounts are loaded, marked rent exempt, executed, written back or removed.
    (Stored balances fit a [u64], the message takes its payer writable and does not
    take the instructions sysvar writable.) *)
Theorem send_conserves_lamports `{!SystemLaws} `{!PartitionLaws} `{!SanitizeLaws}
  `{!VmPermissions} `{!VmLaws} s tx s' meta stx
  (Hwf : balances_wf (accounts s)) (Hsend : send_transaction s tx = Ret (s', Ok meta))
  (Hstx : sanitize s tx = Ret (Ok stx))
  (Hins : ∀ i, account_keys (message stx) !! i = Some instructions_id →
            is_writable (message stx) i = false)
  (Hpay : ∀ i k, account_keys (message stx) !! i = Some k → fee_payer (message stx) = Some k →
            is_writable (message stx) i = true) :
  (store_total (inner (accounts s')) + meta_fee meta = store_total (inner (accounts s)))%N.
Proof.
  destruct (send_Ok_moves _ _ _ _ _ Hwf Hsend Hstx Hins Hpay) as (l & Hnd & [Hin Hout] & Hsum).
  pose proof (store_total_writes l _ _ Hnd Hin Hout). lia.
Qed.

(** C5.  A successful transaction changes no account but those its message marks
    writable: every other stored account, the other accounts it names included,
    is untouched. *)
Theorem send_changes_only_writable `{!SystemLaws} `{!PartitionLaws} `{!SanitizeLaws}
  `{!VmPermissions} `{!VmLaws} s tx s' meta stx k
  (Hwf : balances_wf (accounts s)) (Hsend : send_transaction s tx = Ret (s', Ok meta))
  (Hstx : sanitize s tx = Ret (Ok stx))
  (Hk : ∀ i, account_keys (message stx) !! i = Some k → is_writable (message stx) i = false) :
  inner (accounts s') !! k = inner (accounts s) !! k.
Proof.
  destruct (send_Ok_run _ _ _ _ Hwf Hsend) as
    (er & lc & stx' & cfg & p & ctx & _ & Hs & Hrun & Hp & _ & _ & _ & _ & _ & Hout).
  rewrite Hstx in Hs. injection Hs as <-. apply Hout. intros Hin.
  destruct (run_frame _ _ _ _ _ _ Hrun Hp) as
    (rent & accs & all & payer & _ & Hl & Hpre & Hkeys & _).
  pose proof (loads_keys _ _ _ _ _ _ _ _ Hl) as Hlk.
  rewrite (writable_from_keys _ _ all), (proj1 (writable_context_keys _ _ _ _ _ Hstx Hlk Hpre)) in Hin
    by done.
  apply list_elem_of_fmap in Hin as ([k' a] & -> & Hin).
  apply writable_from_elem in Hin as (j & Hj & Hw). simpl in *.
  rewrite (Hk j) in Hw; [done|]. rewrite <-Hlk, list_lookup_fmap, Hj. done.
Qed.

(** C6.  A successful transaction leaves no writable account in a forbidden rent
    state: from the balance and size stored before to those stored after, each of
    them (the incinerator aside) made an allowed transition, so no account enters
    or grows in the rent-paying range. *)
Theorem send_respects_rent `{!SystemLaws} `{!PartitionLaws} `{!SanitizeLaws}
  `{!VmPermissions} `{!VmLaws} s tx s' meta stx rent i k
  (Hwf : balances_wf (accounts s)) (Hsend : send_transaction s tx = Ret (s', Ok meta))
  (Hstx : sanitize s tx = Ret (Ok stx))
  (Hrent : cache_get_rent (sysvar_cache (accounts s)) = Some rent)
  (Hk : account_keys (message stx) !! i = Some k) (Hw : is_writable (message stx) i = true) :
  k = incinerator_id ∨ transition_allowed (pre_state s rent k) (pre_state s' rent k) = true.
Proof.
  destruct (send_Ok_run _ _ _ _ Hwf Hsend) as
    (er & lc & stx' & cfg & p & ctx & _ & Hs & Hrun & Hp & _ & _ & _ & _ & Hin & _).
  rewrite Hstx in Hs. injection Hs as <-.
  destruct (run_frame _ _ _ _ _ _ Hrun Hp) as
    (rent' & accs & all & payer & Hrent' & Hl & [extra ->] & Hkeys & _ & _ & Hcheck).
  rewrite Hrent in Hrent'. injection Hrent' as <-.
  assert (∃ acc, context_accounts ctx !! i = Some (k, acc)) as [acc Hacc].
  { assert ((context_accounts ctx).*1 !! i = Some k) as Hi.
    { rewrite Hkeys, fmap_app, (loads_keys _ _ _ _ _ _ _ _ Hl).
      by apply lookup_app_l_Some. }
    rewrite list_lookup_fmap in Hi.
    destruct (context_accounts ctx !! i) as [[k' acc]|]; [|done]. injection Hi as ->. eauto. }
  assert (check_account_rent ctx rent i (pre_state s rent k) = Ok ()) as Hi.
  { apply (check_rent_from_Ok _ _ _ _ 0 Hcheck i); [|done]. by rewrite list_lookup_fmap, Hk. }
  destruct (check_account_rent_Ok _ _ _ _ _ _ Hacc Hi) as [?|Hstep]; [by left|].
  right. apply transition_allowed_spec.
  assert (inner (accounts s') !! k = stored acc) as Hst.
  { apply Hin, writable_from_elem. by exists i. }
  unfold pre_state at 2, stored_or_empty, get_account. rewrite Hst. unfold stored.
  destruct (k =? instructions_id)%N; [constructor|].
  destruct (N.eqb_spec (lamports acc) 0) as [Hz|_]; simpl; [constructor|exact Hstep].
Qed.

(** C7.  No transaction is processed twice while the history remembers it: with
    signature checks and history on, a transaction that reached the runtime is
    recorded with its result, and sending it again changes nothing and fails with
    [AlreadyProcessed], or with [BlockhashNotFound] for a durable-nonce transaction
    whose nonce has moved on. *)
Theorem replay_rejected `{!SystemLaws} `{!IndexMapAllocLaws} s tx s' r er lc stx
  (Hwf : balances_wf (accounts s)) (Hhist : history_wf (history s))
  (Hen : is_enabled (history s) = true) (Hsv : sigverify s = true)
  (Hex : executes s tx = Ret (er, lc)) (Hinc : included er = true)
  (Hsend : send_transaction s tx = Ret (s', r))
  (Hstx : sanitize s tx = Ret (Ok stx)) (Hsame : sanitize s' tx = sanitize s tx) :
  get_transaction s' (tx_signature stx) = Some r ∧
  ∃ f, send_transaction s' tx = Ret (s', Err f) ∧
    (failed_err f = TE_AlreadyProcessed ∨
     (recent_blockhash (message stx) ≠ latest_blockhash s ∧
      failed_err f = TE_BlockhashNotFound)).
Proof.
  destruct (executes_included _ _ _ _ Hex Hinc) as (stx' & cfg & p & ctx & Hs & Hbefore & _ & Hctx & _ & Her).
  rewrite Hstx in Hs. injection Hs as <-.
  pose proof (send_spec s tx Hwf) as Hspec. rewrite Hex, Hstx in Hspec.
  destruct Hspec as (s1 & Hcommit & [Hcfg1 Hh1]%charge_step_config). rewrite Hsend in Hcommit.
  rewrite <-Hh1 in Hen.
  destruct (commit_recorded _ _ _ _ _ (eq_sym Hcommit) Hinc Hen) as [Hcfg2 Hh2].
  rewrite Hh1 in Hh2, Hen.
  assert (er_signature er = tx_signature stx) as Hsig
    by (rewrite Her; unfold processed_result; by rewrite Hctx).
  rewrite Hsig in Hh2.
  assert (history_get (history s') (tx_signature stx) = Some r) as Hget.
  { rewrite Hh2, add_new_transaction_enabled by done. apply entries_get_insert_eq. }
  split; [done|].
  assert (check_transaction (history s') (tx_signature stx) = true) as Hchk
    by (apply check_transaction_spec; eauto).
  destruct Hcfg1 as (Hf1 & Hb1 & Hv1 & Hc1 & _), Hcfg2 as (Hf2 & Hb2 & Hv2 & Hc2 & _).
  assert (∃ e, check_transaction_before s' stx = Err (execution_result_err e) ∧
    (e = TE_AlreadyProcessed ∨
     (recent_blockhash (message stx) ≠ latest_blockhash s ∧ e = TE_BlockhashNotFound)))
    as (e & He & Hcase).
  { revert Hbefore. unfold check_transaction_before, maybe_blockhash_check, maybe_history_check,
      get_transaction_config, check_transaction_age, check_transaction_age_inner.
    rewrite Hc2, Hc1, Hf2, Hf1, Hv2, Hv1, Hsv, Hchk, Hb2, Hb1. simpl.
    destruct (try_from_sanitized_message (message stx) (feature_set s)); simpl.
    2:{ destruct (blockhash_check s); [|done]. by case_match. }
    intros _. destruct (blockhash_check s); simpl; [|eauto].
    destruct (N.eqb_spec (recent_blockhash (message stx)) (latest_blockhash s)); simpl; [eauto|].
    destruct (check_transaction_for_nonce s' stx _); simpl; eauto 10. }
  rewrite Hstx in Hsame. eexists. split; [by apply (send_rejected s' tx stx e)|done].
Qed.

(** A transaction is young enough: it names the latest blockhash, or it is a
    durable-nonce transaction whose stored nonce is its blockhash, not the next
    one, and whose authority signs. *)
Definition age_ok (s : LiteSVM) (msg : SanitizedMessage) : Prop :=
  recent_blockhash msg = latest_blockhash s ∨
  (recent_blockhash msg ≠ durable_nonce_from_blockhash (latest_blockhash s) ∧
   ∃ nonce acc authority, get_durable_nonce msg = Some nonce ∧
     inner (accounts s) !! nonce = Some acc ∧
     verify_nonce_account acc (recent_blockhash msg) = Some authority ∧
     authority ∈ get_ix_signers msg nonced_tx_marker_ix_index).

(** C8.  With blockhash checks on, the age check accepts exactly the transactions
    that name the latest blockhash or a valid, advanceable durable nonce signed by
    its authority; any other one is refused with [BlockhashNotFound] by sending and
    by simulation, without metadata and with the instance unchanged. *)
Theorem stale_blockhash_rejected s tx stx
  (Hstx : sanitize s tx = Ret (Ok stx)) (Hcheck : blockhash_check s = true) :
  (age_ok s (message stx) ↔ check_transaction_age_inner s stx = Ok ()) ∧
  (¬ age_ok s (message stx) →
   let f := {| failed_err := TE_BlockhashNotFound;
               failed_meta := meta_of (execution_result_err TE_BlockhashNotFound)
                                (log_collector_new (log_bytes_limit s)) |} in
   send_transaction s tx = Ret (s, Err f) ∧ simulate_transaction s tx = Ret (Err f)).
Proof.
  assert (age_ok s (message stx) ↔ check_transaction_age_inner s stx = Ok ()) as Hiff.
  { unfold age_ok, check_transaction_age_inner, check_transaction_for_nonce,
      check_message_for_nonce, get_account.
    destruct (N.eqb_spec (recent_blockhash (message stx)) (latest_blockhash s)) as [|Hne];
      simpl; [by split; [|left]|].
    destruct (N.eqb_spec (recent_blockhash (message stx))
      (durable_nonce_from_blockhash (latest_blockhash s))) as [|Hnn]; simpl; [naive_solver|].
    destruct (get_durable_nonce (message stx)) as [nonce|]; simpl; [|naive_solver].
    destruct (inner (accounts s) !! nonce) as [acc|] eqn:Hacc; simpl; [|naive_solver].
    destruct (verify_nonce_account acc _) as [auth|] eqn:Hv; simpl; [|naive_solver].
    set (signers := get_ix_signers (message stx) nonced_tx_marker_ix_index).
    assert (auth ∈ signers ↔ existsb (λ x, x =? auth)%N signers = true) as Hin.
    { rewrite existsb_exists. setoid_rewrite N.eqb_eq.
      setoid_rewrite list_elem_of_In. naive_solver. }
    destruct (existsb _ signers); naive_solver. }
  split; [done|]. intros Hold f.
  assert (check_transaction_age_inner s stx = Err TE_BlockhashNotFound) as Herr.
  { rewrite Hiff in Hold. unfold check_transaction_age_inner in *. by case_match. }
  assert (check_transaction_before s stx = Err (execution_result_err TE_BlockhashNotFound)) as Hb.
  { unfold check_transaction_before, maybe_blockhash_check, check_transaction_age.
    by rewrite Hcheck, Herr. }
  split; [by apply send_rejected with stx|].
  rewrite simulate_unfold, executes_unfold, Hstx. simpl.
  unfold execute_sanitized_transaction_readonly, check_and_process_transaction. by rewrite Hb.
Qed.
End properties.
