(* ===== verification/Ledger.v ===== *)
(** * The balance sheet of an instance

    An abstract ledger knows balances and fees only: a transaction leaves it, is
    charged its fee, or moves lamports among its accounts and burns its fee.  Every
    transaction is a step of it, and the balance sheet of a sequence of calls follows
    from the steps. *)

From S2P Require Import Prelude Errors ComputeBudget Runtime RentState Utils Types History.
From S2P Require Import EpochStake AccountsDb Vm InnerInstructions Features Svm Process.
From S2P Require Import ProcessLemmas Exec Api ExecLemmas ExecProps.

(** ** The abstract ledger *)

(** Balances that are not zero. *)
Notation ledger := (gmap address N).

Definition supply (l : ledger) : N := map_sum id l.

Definition balance (l : ledger) (k : address) : N := default 0%N (l !! k).

Definition put (l : ledger) (k : address) (n : N) : ledger :=
  if (n =? 0)%N then delete k l else <[k := n]> l.

(** What a client learns of a transaction. *)
Record receipt : Type := Receipt { rc_fee : N; rc_ok : bool }.

Inductive ledger_step (l : ledger) : receipt → ledger → Prop :=
| ledger_reject fee : ledger_step l (Receipt fee false) l
| ledger_charge fee payer :
    (fee ≤ balance l payer)%N →
    ledger_step l (Receipt fee false) (put l payer (balance l payer - fee))
| ledger_commit fee ks l' :
    NoDup ks → (∀ k, k ∉ ks → l' !! k = l !! k) →
    (list_sum (balance l') ks + fee = list_sum (balance l) ks)%N →
    ledger_step l (Receipt fee true) l'.

Lemma supply_split l k : supply l = (balance l k + supply (delete k l))%N.
Proof.
  unfold supply, balance. destruct (l !! k) as [n|] eqn:Hk; simpl.
  - by rewrite (map_sum_delete id l k n Hk).
  - by rewrite delete_id.
Qed.

Lemma put_lookup l k n k' :
  put l k n !! k' = if decide (k' = k) then (if (n =? 0)%N then None else Some n) else l !! k'.
Proof. unfold put. destruct (n =? 0)%N; case_decide; by simplify_map_eq. Qed.

Lemma balance_put l k n : balance (put l k n) k = n.
Proof.
  unfold balance. rewrite put_lookup, decide_True by done. by destruct (N.eqb_spec n 0) as [->|].
Qed.

Lemma supply_put l k n : (supply (put l k n) + balance l k = supply l + n)%N.
Proof.
  rewrite (supply_split l k), (supply_split (put l k n) k), balance_put.
  assert (delete k (put l k n) = delete k l) as ->; [|lia].
  apply map_eq. intros k'. destruct (decide (k' = k)) as [->|Hne]; [by simplify_map_eq|].
  rewrite !lookup_delete_ne, put_lookup by done. by rewrite decide_False.
Qed.

(** Two ledgers that agree outside some addresses differ by what these hold. *)
Lemma supply_agree ks : ∀ l l',
  NoDup ks → (∀ k, k ∉ ks → l' !! k = l !! k) →
  (supply l' + list_sum (balance l) ks = supply l + list_sum (balance l') ks)%N.
Proof.
  induction ks as [|k ks IH]; intros l l' Hnd Hout; simpl.
  { assert (l' = l) as ->; [|lia]. apply map_eq. intros k. apply Hout. set_solver. }
  apply NoDup_cons in Hnd as [Hk Hnd].
  specialize (IH (delete k l) (delete k l') Hnd). forward IH.
  { intros k' Hk'. destruct (decide (k' = k)) as [->|Hne]; [by simplify_map_eq|].
    rewrite !lookup_delete_ne by done. apply Hout. set_solver. }
  assert (∀ l : ledger, list_sum (balance (delete k l)) ks = list_sum (balance l) ks) as Heq.
  { clear -Hk. intros l. induction ks as [|k' ks IHks]; simpl; [done|].
    rewrite IHks by set_solver. f_equal. unfold balance.
    rewrite lookup_delete_ne; [done|set_solver]. }
  rewrite !Heq in IH. rewrite (supply_split l k), (supply_split l' k). lia.
Qed.

(** What a step burns. *)
Lemma ledger_step_supply l r l' :
  ledger_step l r l' →
  ∃ burnt, (supply l' + burnt = supply l)%N ∧
    (burnt = rc_fee r ∨ rc_ok r = false ∧ burnt = 0%N).
Proof.
  intros [fee|fee payer Hle|fee ks l1 Hnd Hout Hsum]; simpl.
  - exists 0%N. split; [lia|by right].
  - exists fee. split; [|by left].
    pose proof (supply_put l payer (balance l payer - fee)). lia.
  - exists fee. split; [|by left]. pose proof (supply_agree ks l l1 Hnd Hout). lia.
Qed.

(** ** An instance as a ledger *)

Lemma list_sum_fmap {A B} (f : B → N) (g : A → B) l :
  list_sum f (g <$> l) = list_sum (λ x, f (g x)) l.
Proof. induction l as [|x l IH]; [done|]. rewrite fmap_cons. simpl. by f_equal. Qed.

Lemma list_sum_ext {A} (f g : A → N) l :
  (∀ x, x ∈ l → f x = g x) → list_sum f l = list_sum g l.
Proof.
  unfold list_sum. induction l as [|x l IH]; intros Hfg; simpl; [done|].
  rewrite Hfg, IH; [done| |]; set_solver.
Qed.

Definition nonzero (n : N) : option N := if (n =? 0)%N then None else Some n.

Definition ledger_of (m : gmap address account) : ledger := omap (λ a, nonzero (lamports a)) m.

Lemma ledger_lookup m k : ledger_of m !! k = m !! k ≫= λ a, nonzero (lamports a).
Proof. apply lookup_omap. Qed.

Lemma ledger_balance m k : balance (ledger_of m) k = balance_of m k.
Proof.
  unfold balance, balance_of. rewrite ledger_lookup. destruct (m !! k) as [a|]; simpl; [|done].
  unfold nonzero. by destruct (N.eqb_spec (lamports a) 0) as [->|].
Qed.

Lemma ledger_supply m : supply (ledger_of m) = store_total m.
Proof.
  unfold supply, store_total, ledger_of. induction m as [|k a m Hk IH] using map_ind.
  { by rewrite omap_empty, !map_sum_empty. }
  rewrite map_sum_insert, <-IH by done.
  assert (omap (λ a, nonzero (lamports a)) m !! k = None) as Hk'
    by by rewrite lookup_omap, Hk.
  unfold nonzero in *. destruct (N.eqb_spec (lamports a) 0) as [Hz|Hnz].
  - rewrite omap_insert_None by (unfold nonzero; by rewrite Hz).
    rewrite delete_id by done. lia.
  - rewrite (omap_insert_Some _ _ _ _ (lamports a)), map_sum_insert; try done.
    by destruct (N.eqb_spec (lamports a) 0).
Qed.

(** Charging an account of the store is charging the ledger. *)
Lemma ledger_debit m payer acc n :
  m !! payer = Some acc →
  ledger_of (<[payer := set_lamports acc n]> m) = put (ledger_of m) payer n.
Proof.
  intros Hacc. apply map_eq. intros k. rewrite put_lookup, ledger_lookup.
  case_decide as Hk; [subst; by simplify_map_eq|].
  by rewrite lookup_insert_ne, ledger_lookup by done.
Qed.

Section ledger.
Context `{Host}.

Definition instance_ledger (s : LiteSVM) : ledger := ledger_of (inner (accounts s)).

Definition receipt_of (r : TransactionResult) : receipt :=
  match r with
  | Ok meta => Receipt (meta_fee meta) true
  | Err f => Receipt (meta_fee (failed_meta f)) false
  end.

(** The message of a transaction, if it can be sanitized, does not take the
    instructions sysvar writable and takes its fee payer writable. *)
Definition regular (s : LiteSVM) (tx : VersionedTransaction) : Prop :=
  ∀ stx, sanitize s tx = Ret (Ok stx) →
  (∀ i, account_keys (message stx) !! i = Some instructions_id →
        is_writable (message stx) i = false) ∧
  (∀ i k, account_keys (message stx) !! i = Some k → fee_payer (message stx) = Some k →
          is_writable (message stx) i = true).

Context `{!SystemLaws} `{!PartitionLaws} `{!SanitizeLaws} `{!VmPermissions} `{!VmLaws}.

Lemma send_Ok_ledger s tx s' meta :
  balances_wf (accounts s) → regular s tx → send_transaction s tx = Ret (s', Ok meta) →
  ledger_step (instance_ledger s) (receipt_of (Ok meta)) (instance_ledger s').
Proof.
  intros Hwf Hreg Hsend.
  destruct (send_Ok_run _ _ _ _ Hwf Hsend) as (_ & _ & stx & _ & _ & _ & _ & Hs & _).
  destruct (Hreg stx Hs) as [Hins Hpay].
  destruct (send_Ok_moves _ _ _ _ _ Hwf Hsend Hs Hins Hpay) as (l & Hnd & [Hin Hout] & Hsum).
  apply ledger_commit with l.*1; [done| |].
  - intros k Hk. unfold instance_ledger. by rewrite !ledger_lookup, Hout.
  - rewrite !list_sum_fmap. unfold instance_ledger.
    rewrite (list_sum_ext (λ x, balance (ledger_of (inner (accounts s))) x.1)
      (λ x, balance_of (inner (accounts s)) x.1)) by (intros; apply ledger_balance).
    rewrite <-Hsum. f_equal. apply list_sum_ext. intros [k acc] Hx.
    rewrite ledger_balance. unfold balance_of. simpl. rewrite (Hin k acc Hx). unfold stored.
    by destruct (N.eqb_spec (lamports acc) 0) as [->|].
Qed.

Lemma send_Err_ledger s tx s' f :
  balances_wf (accounts s) → send_transaction s tx = Ret (s', Err f) →
  ledger_step (instance_ledger s) (receipt_of (Err f)) (instance_ledger s').
Proof.
  intros Hwf Hsend.
  destruct (send_Err_run _ _ _ _ Hwf Hsend) as (er & lc & _ & _ & Hmeta & Heff).
  simpl. rewrite Hmeta. destruct (included er); [|subst; constructor].
  destruct Heff as (stx & payer & acc & _ & _ & Hacc & Hle & ->).
  assert (instance_ledger (if is_enabled (history s)
      then with_history (debit s payer acc (er_fee er))
             (add_new_transaction (history s) (er_signature er) (Err f))
      else debit s payer acc (er_fee er))
    = put (instance_ledger s) payer (balance (instance_ledger s) payer - er_fee er)) as ->.
  { unfold instance_ledger. rewrite ledger_balance. unfold balance_of. rewrite Hacc. simpl.
    destruct (is_enabled (history s)); by apply ledger_debit. }
  apply ledger_charge. unfold instance_ledger. rewrite ledger_balance. unfold balance_of.
  by rewrite Hacc.
Qed.

(** ** Sequences of calls *)

(** The calls that send transactions, and the settings that do not touch the
    accounts, with the receipt that a call gives. *)
Inductive client_step (s : LiteSVM) : option receipt → LiteSVM → Prop :=
| client_send tx s' r :
    regular s tx → send_transaction s tx = Ret (s', r) → client_step s (Some (receipt_of r)) s'
| client_airdrop k n s' r :
    (∀ payer tx, transfer_transaction (airdrop_kp s) payer k n (latest_blockhash s) = Some tx →
                 regular s tx) →
    airdrop s k n = Ret (s', r) → client_step s (Some (receipt_of r)) s'
| client_simulate tx r : simulate_transaction s tx = Ret r → client_step s None s
| client_sigverify b : client_step s None (with_sigverify s b)
| client_blockhash_check b : client_step s None (with_blockhash_check s b)
| client_compute_budget b : client_step s None (with_compute_budget s b)
| client_history n : client_step s None (with_transaction_history s n)
| client_log_limit n : client_step s None (with_log_bytes_limit s n).

Inductive client_run : LiteSVM → list receipt → LiteSVM → Prop :=
| client_done s : client_run s [] s
| client_next s r s1 rs s2 :
    client_step s r s1 → client_run s1 rs s2 → client_run s (option_list r ++ rs) s2.

(** The supply bounds every balance. *)
Lemma supply_balances_wf s :
  (store_total (inner (accounts s)) ≤ u64_max)%N → balances_wf (accounts s).
Proof. intros Hs k acc Hk. pose proof (map_sum_le lamports _ _ _ Hk). unfold store_total in *. lia. Qed.

Lemma send_ledger s tx s' r :
  balances_wf (accounts s) → regular s tx → send_transaction s tx = Ret (s', r) →
  ledger_step (instance_ledger s) (receipt_of r) (instance_ledger s').
Proof. destruct r; [apply send_Ok_ledger|]. intros Hwf _. by apply send_Err_ledger. Qed.

Lemma client_step_ledger s r s' :
  balances_wf (accounts s) → client_step s r s' →
  match r with
  | Some r => ledger_step (instance_ledger s) r (instance_ledger s')
  | None => accounts s' = accounts s
  end.
Proof.
  intros Hwf [tx s1 r1 Hreg Hsend|k n s1 r1 Hreg Hair|tx r1 _|b|b|b|n|n]; try done.
  - by eapply send_ledger.
  - unfold airdrop in Hair. destruct (unwrap (keypair_pubkey _)) as [payer|]; simpl in Hair; [|done].
    destruct (transfer_transaction _ _ _ _ _) as [tx|] eqn:Htx; simpl in Hair; [|done].
    eapply send_ledger; [done| |done]. by eapply Hreg.
Qed.

(** ** Properties *)

(** The fees of the receipts that satisfy [p]. *)
Definition fees (p : receipt → bool) (rs : list receipt) : N :=
  list_sum (λ r, if p r then rc_fee r else 0%N) rs.

Lemma client_step_supply s r s' :
  balances_wf (accounts s) → client_step s r s' →
  ∃ burnt, (store_total (inner (accounts s')) + burnt = store_total (inner (accounts s)))%N ∧
    (fees rc_ok (option_list r) ≤ burnt ≤ fees (λ _, true) (option_list r))%N.
Proof.
  intros Hwf Hstep%client_step_ledger; [|done]. destruct r as [r|].
  - apply ledger_step_supply in Hstep as (burnt & Hs & Hb). exists burnt.
    unfold instance_ledger in Hs. rewrite !ledger_supply in Hs. split; [done|].
    unfold fees. simpl. destruct Hb as [->|[-> ->]]; destruct (rc_ok r); lia.
  - exists 0%N. rewrite Hstep. unfold fees. simpl. lia.
Qed.

Lemma fees_app p rs rs' : fees p (rs ++ rs') = (fees p rs + fees p rs')%N.
Proof. unfold fees. induction rs as [|r rs IH]; simpl; [done|]. rewrite IH. lia. Qed.

(** C4.  The books balance over any sequence of transactions, airdrops,
    simulations and settings: what the store lost is at least the fees of the
    transactions reported as successful and at most all the fees reported, so no
    sequence creates lamports (an airdrop does not either), and no balance leaves
    the range of a [u64] if the supply was within it.  (The messages take their payer
    writable and do not take the instructions sysvar writable.) *)
Theorem client_run_balances s rs s'
  (Hsupply : (store_total (inner (accounts s)) ≤ u64_max)%N) (Hrun : client_run s rs s') :
  balances_wf (accounts s') ∧
  ∃ burnt, (store_total (inner (accounts s')) + burnt = store_total (inner (accounts s)))%N ∧
    (fees rc_ok rs ≤ burnt ≤ fees (λ _, true) rs)%N.
Proof.
  induction Hrun as [s|s r s1 rs s2 Hstep _ IH].
  { split; [by apply supply_balances_wf|]. exists 0%N. unfold fees. simpl. lia. }
  apply client_step_supply in Hstep as (b1 & Hs1 & Hb1); [|by apply supply_balances_wf].
  destruct IH as (Hwf & b2 & Hs2 & Hb2); [lia|]. split; [done|].
  exists (b1 + b2)%N. rewrite !fees_app. lia.
Qed.
End ledger.
