(* ===== verification/Persistence.v ===== *)
(** * Snapshots (crates/persistence/src/lib.rs and types.rs)

    Extracting the state of an instance into a snapshot, the three versions of the
    format with their migrations, and rebuilding an instance from a snapshot.  The
    byte layout of a snapshot is an interface here; Wire.v gives it. *)

From stdpp Require Import sorting.
From S2P Require Import Prelude Errors ComputeBudget Runtime Utils Types History EpochStake.
From S2P Require Import AccountsDb Vm Features Svm.

(** ** Snapshots *)

Inductive PersistenceError : Type :=
| PE_Io
| PE_Write
| PE_Read
| PE_EmptyInput
| PE_UnsupportedVersion (version : Byte.byte)
| PE_CacheRebuild (e : LiteSVMError)
| PE_InvalidEpochStakes (e : LiteSVMError)
| PE_DuplicateEpochStake (vote_account : address)
| PE_ThreadPanic.

Inductive TxResult : Type :=
| TxOk (m : TransactionMetadata)
| TxErr (e : FailedTransactionMetadata).

Definition tx_from_result (r : TransactionResult) : TxResult :=
  match r with Ok m => TxOk m | Err e => TxErr e end.

Definition tx_into_result (r : TxResult) : TransactionResult :=
  match r with TxOk m => Ok m | TxErr e => Err e end.

Record FeatureActivationWire : Type := { fa_address : address; fa_slot : N }.

Record FeatureSetSnapshot : Type := {
  fss_active : list FeatureActivationWire;
  fss_inactive : list address }.

Record AccountEntryWire : Type := { ae_address : address; ae_account : account }.

Record LiteSvmSnapshotV1 : Type := {
  v1_accounts : list AccountEntryWire;
  v1_airdrop_kp : bytes;
  v1_feature_set : FeatureSetSnapshot;
  v1_latest_blockhash : hash;
  v1_history : list (signature * TxResult);
  v1_history_capacity : N;
  v1_compute_budget : option ComputeBudgetV1;
  v1_sigverify : bool;
  v1_blockhash_check : bool;
  v1_fee_structure : FeeStructure;
  v1_log_bytes_limit : option N }.

Record LiteSvmSnapshotV2 : Type := {
  v2_accounts : list AccountEntryWire;
  v2_airdrop_kp : bytes;
  v2_feature_set : FeatureSetSnapshot;
  v2_latest_blockhash : hash;
  v2_history : list (signature * TxResult);
  v2_history_capacity : N;
  v2_compute_budget : option ComputeBudget;
  v2_sigverify : bool;
  v2_blockhash_check : bool;
  v2_fee_structure : FeeStructure;
  v2_log_bytes_limit : option N }.

Record LiteSvmSnapshotV3 : Type := {
  v3_state : LiteSvmSnapshotV2;
  v3_epoch_vote_stakes : list (address * N) }.

Definition v2_from_v1 (value : LiteSvmSnapshotV1) : LiteSvmSnapshotV2 := {|
  v2_accounts := v1_accounts value;
  v2_airdrop_kp := v1_airdrop_kp value;
  v2_feature_set := v1_feature_set value;
  v2_latest_blockhash := v1_latest_blockhash value;
  v2_history := v1_history value;
  v2_history_capacity := v1_history_capacity value;
  v2_compute_budget := compute_budget_from_v1 <$> v1_compute_budget value;
  v2_sigverify := v1_sigverify value;
  v2_blockhash_check := v1_blockhash_check value;
  v2_fee_structure := v1_fee_structure value;
  v2_log_bytes_limit := v1_log_bytes_limit value |}.

Definition v3_from_v2 (state : LiteSvmSnapshotV2) : LiteSvmSnapshotV3 :=
  {| v3_state := state; v3_epoch_vote_stakes := [] |}.

Definition V1_STATE_VERSION : Byte.byte := Byte.x01.
Definition V2_STATE_VERSION : Byte.byte := Byte.x02.
Definition STATE_VERSION : Byte.byte := Byte.x03.

(** The wincode schemas; writing may fail. *)
Class SnapshotCodec : Type := {
  v1_deserialize : bytes → option LiteSvmSnapshotV1;
  v2_deserialize : bytes → option LiteSvmSnapshotV2;
  v3_deserialize : bytes → option LiteSvmSnapshotV3;
  v3_serialize : LiteSvmSnapshotV3 → option bytes }.

Class SnapshotCodecLaws `{SnapshotCodec} : Prop := {
  v3_roundtrip s b : v3_serialize s = Some b → v3_deserialize b = Some s }.

(** The order of vote accounts. *)
Definition key_le (x y : address * N) : Prop := (x.1 ≤ y.1)%N.

#[export] Instance key_le_dec x y : Decision (key_le x y) := N.le_dec x.1 y.1.
#[export] Instance key_le_total : Total key_le.
Proof. intros x y. unfold key_le. lia. Qed.
#[export] Instance key_le_trans : Transitive key_le.
Proof. intros x y z. unfold key_le. lia. Qed.

Definition sort_by_vote_account (l : list (address * N)) : list (address * N) :=
  merge_sort key_le l.

Section persistence.
Context `{Host}.

Definition from_feature_set (fs : FeatureSet) : FeatureSetSnapshot := {|
  fss_active := (λ '(k, v), {| fa_address := k; fa_slot := v |}) <$> fs_active fs;
  fss_inactive := fs_inactive fs |}.

Definition into_feature_set (f : FeatureSetSnapshot) : FeatureSet :=
  fs_new ((λ w, (fa_address w, fa_slot w)) <$> fss_active f) (fss_inactive f).

(** ** Extraction *)

Definition extract_snapshot_v2 (svm : LiteSVM) : LiteSvmSnapshotV2 := {|
  v2_accounts := (λ '(k, v), {| ae_address := k; ae_account := v |})
                   <$> map_to_list (inner (accounts svm));
  v2_airdrop_kp := airdrop_kp svm;
  v2_feature_set := from_feature_set (feature_set svm);
  v2_latest_blockhash := latest_blockhash svm;
  v2_history := prod_map id tx_from_result <$> history_entries (history svm);
  v2_history_capacity := history_capacity (history svm);
  v2_compute_budget := compute_budget svm;
  v2_sigverify := sigverify svm;
  v2_blockhash_check := blockhash_check svm;
  v2_fee_structure := fee_structure svm;
  v2_log_bytes_limit := log_bytes_limit svm |}.

Definition extract_snapshot (svm : LiteSVM) : LiteSvmSnapshotV3 := {|
  v3_state := extract_snapshot_v2 svm;
  v3_epoch_vote_stakes :=
    sort_by_vote_account (map_to_list (epoch_vote_stakes (epoch_stakes svm))) |}.

(** ** Restoration *)

(** [windows(2).find(|e| e[0].0 == e[1].0)] *)
Fixpoint find_adjacent (l : list (address * N)) : option address :=
  match l with
  | x :: ((y :: _) as l') => if (x.1 =? y.1)%N then Some x.1 else find_adjacent l'
  | _ => None
  end.

(** The configuration part, up to the stakes; [keypair] is the fresh key pair of
    [LiteSVM::default]. *)
Definition restore_config (keypair : bytes) (state : LiteSvmSnapshotV2) : LiteSVM :=
  let svm := set_feature_set (svm_default keypair) (into_feature_set (v2_feature_set state)) in
  let svm := set_sigverify svm (v2_sigverify state) in
  let svm := set_blockhash_check svm (v2_blockhash_check state) in
  let svm := set_log_bytes_limit svm (v2_log_bytes_limit state) in
  let svm := match v2_compute_budget state with
             | Some cb => set_compute_budget svm cb
             | None => svm
             end in
  let svm := set_fee_structure svm (v2_fee_structure state) in
  let svm := set_latest_blockhash svm (v2_latest_blockhash state) in
  set_airdrop_keypair svm (v2_airdrop_kp state).

Definition restore_accounts (svm : LiteSVM) (l : list AccountEntryWire) : LiteSVM :=
  foldl (λ svm e, set_account_no_checks svm (ae_address e) (ae_account e)) svm l.

Definition restore_from_snapshot (keypair : bytes) (snapshot : LiteSvmSnapshotV3)
    : outcome (result PersistenceError LiteSVM) :=
  let state := v3_state snapshot in
  let svm := restore_config keypair state in
  let stakes := sort_by_vote_account (v3_epoch_vote_stakes snapshot) in
  match find_adjacent stakes with
  | Some k => Ret (Err (PE_DuplicateEpochStake k))
  | None =>
      match svm_set_epoch_stakes svm stakes with
      | (_, Err e) => Ret (Err (PE_InvalidEpochStakes e))
      | (svm, Ok _) =>
          let svm := restore_accounts svm (v2_accounts state) in
          let svm := restore_transaction_history svm
                       (im_collect (prod_map id tx_into_result <$> v2_history state))
                       (v2_history_capacity state) in
          r ← rebuild_caches svm;
          match r with
          | (svm, Ok _) => Ret (Ok svm)
          | (_, Err e) => Ret (Err (PE_CacheRebuild e))
          end
      end
  end.

(** ** Bytes *)

Context `{SnapshotCodec}.

Definition deserialize_snapshot (version : Byte.byte) (b : bytes)
    : result PersistenceError LiteSvmSnapshotV3 :=
  if decide (version = V1_STATE_VERSION) then
    s ← ok_or (v1_deserialize b) PE_Read; Ok (v3_from_v2 (v2_from_v1 s))
  else if decide (version = V2_STATE_VERSION) then
    s ← ok_or (v2_deserialize b) PE_Read; Ok (v3_from_v2 s)
  else if decide (version = STATE_VERSION) then ok_or (v3_deserialize b) PE_Read
  else Err (PE_UnsupportedVersion version).

Definition to_bytes (svm : LiteSVM) : result PersistenceError bytes :=
  payload ← ok_or (v3_serialize (extract_snapshot svm)) PE_Write;
  Ok (STATE_VERSION :: payload).

Definition from_bytes (keypair : bytes) (b : bytes) : outcome (result PersistenceError LiteSVM) :=
  match b with
  | [] => Ret (Err PE_EmptyInput)
  | version :: rest =>
      match deserialize_snapshot version rest with
      | Err e => Ret (Err e)
      | Ok snapshot => restore_from_snapshot keypair snapshot
      end
  end.
End persistence.

(** ** Lemmas *)

Lemma list_sum_Permutation {A} (f : A → N) l l' : l ≡ₚ l' → list_sum f l = list_sum f l'.
Proof. induction 1; simpl; lia. Qed.

Lemma map_sum_to_list {A} (f : A → N) (m : gmap N A) :
  map_sum f m = list_sum (λ x, f x.2) (map_to_list m).
Proof.
  unfold map_sum, list_sum. rewrite map_fold_foldr.
  generalize (map_to_list m) as l. induction l as [|[k v] l IH]; simpl; by rewrite ?IH.
Qed.

Lemma tx_result_roundtrip r : tx_into_result (tx_from_result r) = r.
Proof. by destruct r. Qed.

Section sorting.
Implicit Types l : list (address * N).

Lemma sort_by_vote_account_perm l : sort_by_vote_account l ≡ₚ l.
Proof. apply merge_sort_Permutation. Qed.

Lemma sort_by_vote_account_sorted l :
  StronglySorted key_le (sort_by_vote_account l).
Proof. unfold sort_by_vote_account. apply (StronglySorted_merge_sort key_le). Qed.

(** On a sorted list, adjacent equal keys are the only way to repeat one. *)
Lemma find_adjacent_sorted l :
  StronglySorted key_le l →
  match find_adjacent l with
  | Some k => ∃ i j x y, i ≠ j ∧ l !! i = Some (k, x) ∧ l !! j = Some (k, y)
  | None => NoDup l.*1
  end.
Proof.
  induction 1 as [|[k v] l Hs IH Hall]; simpl; [constructor|].
  destruct l as [|[k' v'] l]; [apply NoDup_singleton|].
  cbn [fst]. destruct (N.eqb_spec k k') as [->|Hne].
  - exists 0, 1, v, v'. done.
  - destruct (find_adjacent ((k', v') :: l)) as [d|].
    + destruct IH as (i & j & x & y & Hij & Hi & Hj). exists (S i), (S j), x, y. auto.
    + cbn [fmap list_fmap fst]. apply NoDup_cons. split; [|done].
      apply Forall_cons in Hall as [Hk Hall]. cbn [fst] in Hk.
      apply StronglySorted_inv in Hs as [_ Hs].
      intros [->|Hin]%elem_of_cons; [done|].
      apply list_elem_of_fmap in Hin as ([k2 v2] & -> & Hin). cbn [fst] in *.
      rewrite Forall_forall in Hs. specialize (Hs _ Hin). unfold key_le in Hs. simpl in Hs.
      rewrite Forall_forall in Hall. specialize (Hall _ Hin). unfold key_le in Hk, Hall. simpl in *. lia.
Qed.
End sorting.

Lemma foldl_insert_lookup {A} (l : list (N * A)) : ∀ m : gmap N A,
  NoDup l.*1 →
  (∀ k a, (k, a) ∈ l → foldl (λ m '(k, a), <[k := a]> m) m l !! k = Some a) ∧
  (∀ k, k ∉ l.*1 → foldl (λ m '(k, a), <[k := a]> m) m l !! k = m !! k).
Proof.
  induction l as [|[k a] l IH]; intros m Hnd; simpl; [split; [set_solver|done]|].
  apply NoDup_cons in Hnd as [Hk Hnd]. destruct (IH (<[k := a]> m) Hnd) as [Hin Hout]. split.
  - intros k' a' [[= -> ->]|?]%elem_of_cons; [|eauto]. rewrite Hout by done. by simplify_map_eq.
  - intros k' Hk'. rewrite Hout by set_solver. apply lookup_insert_ne. set_solver.
Qed.

Lemma foldl_insert_map_to_list {A} (m : gmap N A) :
  foldl (λ m '(k, a), <[k := a]> m) ∅ (map_to_list m) = m.
Proof.
  destruct (foldl_insert_lookup (map_to_list m) ∅ (NoDup_fst_map_to_list m)) as [Hin Hout].
  apply map_eq. intros k. destruct (m !! k) as [a|] eqn:Hk.
  - apply Hin. by apply elem_of_map_to_list.
  - rewrite Hout; [apply lookup_empty|]. intros ([k' a] & -> & Hx)%list_elem_of_fmap.
    apply elem_of_map_to_list in Hx. simpl in *. congruence.
Qed.

Lemma im_collect_entries `{IndexMapAlloc} {V} (l : list (signature * V)) :
  NoDup l.*1 → im_entries (im_collect l) = l.
Proof.
  intros Hnd. unfold im_collect. simpl.
  assert (∀ acc, NoDup (acc ++ l).*1 →
    foldl (λ m '(k, v), entries_insert k v m) acc l = acc ++ l) as Hgen.
  { clear Hnd. induction l as [|[k v] l IH]; intros acc Hnd; simpl; [by rewrite app_nil_r|].
    rewrite entries_insert_fresh.
    - rewrite IH, <-app_assoc; [done|]. by rewrite <-app_assoc.
    - rewrite fmap_app in Hnd. apply NoDup_app in Hnd as (_ & Hd & _). intros Hin.
      apply (Hd k Hin). set_solver. }
  by apply (Hgen []).
Qed.

(** ** Rebuilding the caches *)

Section rebuild.
Context `{Host}.

Lemma restore_accounts_spec l : ∀ s,
  restore_accounts s l
  = with_accounts s (with_inner (accounts s)
      (foldl (λ m '(k, a), <[k := a]> m) (inner (accounts s))
         ((λ e, (ae_address e, ae_account e)) <$> l))).
Proof.
  unfold restore_accounts. induction l as [|e l IH]; intros s; simpl; [by destruct s as [[]]|].
  rewrite IH. done.
Qed.

(** The builtins that the feature set enables, and the store with their accounts
    installed afresh. *)
Definition builtin_active (fs : FeatureSet) (b : Builtin) : bool :=
  match enable_feature_id b with None => true | Some x => fs_is_active fs x end.

Definition builtin_account (b : Builtin) : account :=
  create_loadable_account_for_test dummy_inheritable_account_fields (name b).

Definition install_builtins (fs : FeatureSet) (bs : list Builtin) (m : gmap address account)
    : gmap address account :=
  foldl (λ m b, if builtin_active fs b then <[program_id b := builtin_account b]> m else m) m bs.

Lemma install_builtins_other fs bs k : ∀ m,
  (∀ b, b ∈ bs → builtin_active fs b = true → program_id b ≠ k) →
  install_builtins fs bs m !! k = m !! k.
Proof.
  unfold install_builtins. induction bs as [|b bs IH]; intros m Hk; simpl; [done|].
  rewrite IH by set_solver. destruct (builtin_active fs b) eqn:Hb; [|done].
  apply lookup_insert_ne, Hk; [set_solver|done].
Qed.

Lemma install_builtins_id fs bs (m : gmap address account) :
  (∀ b, b ∈ bs → builtin_active fs b = true → m !! program_id b = Some (builtin_account b)) →
  install_builtins fs bs m = m.
Proof.
  unfold install_builtins. induction bs as [|b bs IH]; intros Hm; simpl; [done|].
  destruct (builtin_active fs b) eqn:Hb; [|apply IH; set_solver].
  rewrite insert_id by (apply Hm; [set_solver|done]). apply IH. set_solver.
Qed.

(** What a step on the program cache keeps. *)
Definition keeps_entries (c c' : ProgramCache) : Prop :=
  ∀ k, is_Some (cache_find c k) → is_Some (cache_find c' k).

Lemma replenish_keeps `{!ProgramLaws} c k e : keeps_entries c (cache_replenish c k e).
Proof.
  intros k' Hk'. destruct (decide (k = k')) as [->|Hne]; [apply cache_find_replenish_eq|].
  by rewrite cache_find_replenish_ne.
Qed.

Lemma add_builtins_spec `{!ProgramLaws} bs : ∀ s,
  ∃ db, foldl add_one_builtin s bs = with_accounts s db ∧
    inner db = install_builtins (feature_set s) bs (inner (accounts s)) ∧
    keeps_entries (programs_cache (accounts s)) (programs_cache db) ∧
    (∀ b, b ∈ bs → builtin_active (feature_set s) b = true →
       is_Some (cache_find (programs_cache db) (program_id b))).
Proof.
  induction bs as [|b bs IH]; intros s; simpl.
  { exists (accounts s). split_and!; [by destruct s|done|by intros k|set_solver]. }
  destruct (IH (add_one_builtin s b)) as (db & -> & Hdb & Hkeep & Hin).
  unfold add_one_builtin in *. fold (builtin_active (feature_set s) b) in *.
  destruct (builtin_active (feature_set s) b) eqn:Hb; simpl in *.
  - exists db. split_and!; [done|done| |].
    + intros k Hk. by apply Hkeep, replenish_keeps.
    + intros b' [->|Hb']%elem_of_cons Hact; [|by apply Hin].
      apply Hkeep, cache_find_replenish_eq.
  - exists db. split_and!; [done..|]. intros b' [->|Hb']%elem_of_cons Hact; [congruence|by apply Hin].
Qed.

(** Loading a program does not depend on the program cache. *)
Lemma load_program_cache (db : AccountsDb) pc acc :
  load_program (with_programs_cache db pc) acc = load_program db acc.
Proof. done. Qed.

(** Loading the stored programs touches the program cache only, reads keys it just
    enumerated, and stops at the first program that does not load. *)
Lemma load_programs_spec `{!ProgramLaws} keys : ∀ db : AccountsDb,
  (∀ k, k ∈ keys → is_Some (inner db !! k)) →
  ∃ pc r, load_programs db keys = Ret (with_programs_cache db pc, r) ∧
    keeps_entries (programs_cache db) pc ∧
    match r with
    | Ok _ => ∀ k acc, k ∈ keys → inner db !! k = Some acc →
        is_Some (cache_find pc k) ∧ ∃ e, load_program db acc = Ok e
    | Err le => ∃ e k acc, le = LE_Instruction e ∧ k ∈ keys ∧ inner db !! k = Some acc ∧
        load_program db acc = Err e
    end.
Proof.
  induction keys as [|k keys IH]; intros db Hk; simpl.
  { exists (programs_cache db), (Ok ()). split_and!; [by destruct db|by intros k|set_solver]. }
  destruct (Hk k) as [acc Hacc]; [set_solver|]. rewrite Hacc. simpl.
  destruct (load_program db acc) as [entry|e] eqn:Hload.
  - set (db1 := with_programs_cache db _).
    destruct (IH db1) as (pc & r & -> & Hkeep & Hr); [simpl; set_solver|].
    exists pc, r. split_and!; [done| |].
    + intros k' Hk'. by apply Hkeep, replenish_keeps.
    + destruct r as [[]|le].
      * intros k' acc' [->|Hk']%elem_of_cons Hacc'; [|by eapply Hr].
        rewrite Hacc in Hacc'. injection Hacc' as <-. split; [|by eexists].
        apply Hkeep, cache_find_replenish_eq.
      * destruct Hr as (e & k' & acc' & ? & ? & ? & ?). exists e, k', acc'.
        split_and!; try done. set_solver.
  - exists (programs_cache db), (Err (LE_Instruction e)).
    split_and!; [by destruct db|by intros k'|]. exists e, k, acc. split_and!; try done. set_solver.
Qed.

Lemma executable_keys_stored (db : AccountsDb) k :
  k ∈ executable_keys db → is_Some (inner db !! k).
Proof.
  unfold executable_keys. intros ([k' a] & -> & Hin)%list_elem_of_fmap.
  apply list_elem_of_filter in Hin as [_ Hin]. apply elem_of_map_to_list in Hin. eauto.
Qed.

Lemma executable_keys_elem (db : AccountsDb) k acc :
  inner db !! k = Some acc → executable acc = true → owner acc ≠ native_loader_id →
  k ∈ executable_keys db.
Proof.
  intros Hk He Ho. unfold executable_keys. apply list_elem_of_fmap. exists (k, acc).
  split; [done|]. apply list_elem_of_filter. split; [done|]. by apply elem_of_map_to_list.
Qed.

Lemma rebuild_sysvar_cache_spec `{!SysvarLaws} `{!ProgramLaws} (db : AccountsDb) :
  let db' := rebuild_sysvar_cache db in
  db_coherent db' ∧ inner db' = inner db ∧ env_for_execution db' = env_for_execution db ∧
  env_for_deployment db' = env_for_deployment db ∧
  keeps_entries (programs_cache db) (programs_cache db').
Proof.
  unfold rebuild_sysvar_cache, db_coherent. pose proof (cache_reflects_fill (sysvar_cache db) (inner db)).
  destruct (cache_get_clock _); split_and!; try done; intros k Hk; [|done].
  by apply cache_find_set_slot.
Qed.

(** The program cache and the environments that fit the accounts of an instance:
    it has the enabled builtins and every stored program, which all load. *)
Definition programs_ready (s : LiteSVM) : Prop :=
  (∃ envs, create_program_runtime_environments s = Ret envs ∧
     env_for_execution (accounts s) = envs.1 ∧ env_for_deployment (accounts s) = envs.2) ∧
  (∀ b, b ∈ BUILTINS → builtin_active (feature_set s) b = true →
     is_Some (cache_find (programs_cache (accounts s)) (program_id b))) ∧
  (∀ k acc, inner (accounts s) !! k = Some acc → executable acc = true →
     owner acc ≠ native_loader_id →
     is_Some (cache_find (programs_cache (accounts s)) k) ∧
     ∃ e, load_program (accounts s) acc = Ok e).

(** A stored program that does not load. *)
Definition broken_program (s : LiteSVM) (le : LiteSVMError) : Prop :=
  ∃ e k acc, le = LE_Instruction e ∧ inner (accounts s) !! k = Some acc ∧
    load_program (accounts s) acc = Err e.

(** Rebuilding installs the builtins and fills the caches; it fails with a stored
    program that does not load, and panics only when no runtime environment can be
    built. *)
Lemma rebuild_caches_spec `{!SysvarLaws} `{!ProgramLaws} s :
  match rebuild_caches s with
  | Ret (s', r) =>
      (∃ db, s' = with_accounts
                    (with_reserved_account_keys s
                       (reserved_account_keys_for_feature_set (feature_set s))) db) ∧
      db_coherent (accounts s') ∧
      inner (accounts s') = install_builtins (feature_set s) BUILTINS (inner (accounts s)) ∧
      match r with Ok _ => programs_ready s' | Err le => broken_program s' le end
  | Panic => create_program_runtime_environments s = Panic
  end.
Proof.
  unfold rebuild_caches, set_builtins.
  set (s0 := with_reserved_account_keys _ _).
  destruct (add_builtins_spec BUILTINS s0) as (db & -> & Hdb & _ & Hbuiltins).
  change (create_program_runtime_environments (with_accounts s0 db))
    with (create_program_runtime_environments s).
  destruct (create_program_runtime_environments s) as [[e1 e2]|] eqn:Henv; simpl; [|done].
  set (db1 := with_environments db e1 e2).
  destruct (rebuild_sysvar_cache_spec db1) as (Hco & Hin & He1 & He2 & Hkeep).
  destruct (load_programs_spec (executable_keys (rebuild_sysvar_cache db1))
    (rebuild_sysvar_cache db1)) as (pc & r & Hl & Hkeep' & Hr); [apply executable_keys_stored|].
  unfold load_all_existing_programs. rewrite Hl. simpl. split_and!; [by eexists|done|by rewrite Hin|].
  destruct r as [[]|le].
  - split_and!; simpl.
    + exists (e1, e2). split_and!; [exact Henv|by rewrite He1|by rewrite He2].
    + intros b Hb Hact. by apply Hkeep', Hkeep, Hbuiltins.
    + intros k acc Hacc Hex Hown. rewrite load_program_cache.
      apply Hr; [by eapply executable_keys_elem|done].
  - destruct Hr as (e & k & acc & -> & _ & Hacc & Hload). exists e, k, acc. done.
Qed.

Lemma restore_config_fields kp st :
  let s := restore_config kp st in
  feature_set s = into_feature_set (v2_feature_set st) ∧ sigverify s = v2_sigverify st ∧
  blockhash_check s = v2_blockhash_check st ∧ log_bytes_limit s = v2_log_bytes_limit st ∧
  compute_budget s = v2_compute_budget st ∧ fee_structure s = v2_fee_structure st ∧
  latest_blockhash s = v2_latest_blockhash st ∧ airdrop_kp s = v2_airdrop_kp st ∧
  custom_syscalls s = [] ∧ inner (accounts s) = ∅ ∧ enable_register_tracing s = env_trace_dir.
Proof. unfold restore_config. by destruct (v2_compute_budget st). Qed.

(** The stakes of a well-formed instance survive sorting and re-adding. *)
Lemma restore_stakes s e :
  stakes_wf e →
  let l := sort_by_vote_account (map_to_list (epoch_vote_stakes e)) in
  find_adjacent (sort_by_vote_account l) = None ∧
  svm_set_epoch_stakes s (sort_by_vote_account l) = (with_epoch_stakes s e, Ok ()).
Proof.
  intros (Htot & Hnz & Hmax) l.
  assert (sort_by_vote_account l ≡ₚ map_to_list (epoch_vote_stakes e)) as Hp
    by (unfold l; by rewrite !sort_by_vote_account_perm).
  assert (NoDup (sort_by_vote_account l).*1) as Hnd
    by (rewrite Hp; apply NoDup_fst_map_to_list).
  split.
  { pose proof (find_adjacent_sorted _ (sort_by_vote_account_sorted l)) as Hf.
    destruct (find_adjacent _) as [k|]; [|done]. exfalso.
    destruct Hf as (i & j & x & y & Hij & Hi & Hj).
    apply (NoDup_ne _ i j k k Hnd); rewrite ?list_lookup_fmap, ?Hi, ?Hj; done. }
  unfold svm_set_epoch_stakes, set_epoch_stakes.
  pose proof (collect_stakes_spec (sort_by_vote_account l) 0 ∅ no_stakes_wf Hnd) as Hc.
  assert (list_sum snd (sort_by_vote_account l) = epoch_total_stake e) as Hsum.
  { rewrite (list_sum_Permutation _ _ _ Hp), Htot, map_sum_to_list. done. }
  destruct (collect_stakes 0 ∅ _) as [[t m]|err].
  - destruct Hc as (Hwf & -> & Hin & Hout); [set_solver|].
    rewrite N.add_0_l in *. destruct e as [total stakes]. simpl in *.
    assert (m = stakes) as ->; [|by rewrite Hsum].
    apply map_eq. intros k. destruct (stakes !! k) as [v|] eqn:Hk.
    + assert ((k, v) ∈ sort_by_vote_account l) as Hkv
        by (rewrite Hp; by apply elem_of_map_to_list).
      specialize (Hin _ _ Hkv). destruct (m !! k); simpl in Hin; [by subst|].
      subst v. by destruct (Hnz _ _ Hk).
    + apply Hout. rewrite Hp. intros ([k' v] & -> & Hx)%list_elem_of_fmap.
      apply elem_of_map_to_list in Hx. simpl in *. congruence.
  - destruct Hc as [_ Hgt]; [set_solver|]. rewrite Hsum in Hgt. lia.
Qed.

Lemma feature_set_roundtrip `{!FeatureLaws} fs : into_feature_set (from_feature_set fs) = fs.
Proof.
  unfold into_feature_set, from_feature_set. simpl. rewrite <-list_fmap_compose.
  rewrite (list_fmap_ext _ id (fs_active fs)); [|by intros ? []].
  rewrite list_fmap_id. apply fs_new_collections.
Qed.

Lemma history_entries_roundtrip (l : list (signature * TransactionResult)) :
  prod_map id tx_into_result <$> (prod_map id tx_from_result <$> l) = l.
Proof.
  rewrite <-list_fmap_compose. rewrite (list_fmap_ext _ id l); [by rewrite list_fmap_id|].
  intros i [k r] _. simpl. by rewrite tx_result_roundtrip.
Qed.

Lemma from_entries_kept `{!IndexMapAllocLaws} (h : TransactionHistory) :
  history_wf h →
  let h' := from_entries (im_collect (im_entries h)) (im_capacity h) in
  history_wf h' ∧ im_entries h' = im_entries h ∧ is_enabled h' = is_enabled h ∧
  (alloc_collect (len (im_entries h)) = len (im_entries h) → im_capacity h ≤ im_capacity h')%N.
Proof.
  intros [Hnd Hlen]. pose proof (im_collect_entries _ Hnd) as Hc.
  assert (im_capacity (im_collect (im_entries h)) = alloc_collect (len (im_entries h))) as Hk
    by done.
  set (c := im_collect (im_entries h)) in *. clearbody c. unfold from_entries.
  assert (history_wf c) as Hwf.
  { split; rewrite Hc; [done|]. rewrite Hk. apply alloc_collect_ge. }
  pose proof (set_capacity_wf _ (im_capacity h) Hwf) as Hwf'.
  set (h' := set_capacity c (im_capacity h)) in *.
  assert (im_entries h' = im_entries h) as He.
  { unfold h', set_capacity. destruct (_ <=? _)%N; simpl; rewrite Hc; [|done].
    apply take_ge. unfold len in Hlen. lia. }
  assert (alloc_collect (len (im_entries h)) = len (im_entries h) →
          im_capacity h ≤ im_capacity h')%N as Hcap.
  { intros Hex. rewrite Hex in Hk. destruct (N.leb_spec (im_capacity h) (len (im_entries h))).
    - etransitivity; [done|]. rewrite <-He. exact (proj2 Hwf').
    - unfold h', set_capacity. rewrite Hk. destruct (N.leb_spec (im_capacity h) (len (im_entries h)));
        [lia|]. simpl. etransitivity; [|apply alloc_reserve_ge]. rewrite Hc. lia. }
  split_and!; [exact Hwf'|done| |exact Hcap]. unfold is_enabled. f_equal.
  destruct (im_entries h) as [|x l].
  - specialize (Hcap alloc_collect_empty).
    destruct (N.eqb_spec (im_capacity h) 0) as [Hz|Hz]; [|apply N.eqb_neq; lia].
    apply N.eqb_eq. unfold h', set_capacity. rewrite Hz, Hk.
    destruct (N.leb_spec 0 (alloc_collect (len (@nil (signature * TransactionResult)))));
      [|lia]. simpl. apply alloc_shrink_empty.
  - destruct Hwf' as [_ Hl']. rewrite He in Hl'. unfold len in *. simpl in *.
    transitivity false; [apply N.eqb_neq; lia|symmetry; apply N.eqb_neq; lia].
Qed.
End rebuild.

(** ** Properties *)

Section properties.
Context `{Host}.

(** The instance [s'] is [s] restored from a snapshot. *)
Record restored (s s' : LiteSVM) : Prop := {
  restored_store :
    inner (accounts s') = install_builtins (feature_set s) BUILTINS (inner (accounts s));
  restored_sysvars : db_coherent (accounts s');
  restored_programs : programs_ready s';
  restored_airdrop : airdrop_kp s' = airdrop_kp s;
  restored_features : feature_set s' = feature_set s;
  restored_reserved :
    reserved_account_keys s' = reserved_account_keys_for_feature_set (feature_set s);
  restored_blockhash : latest_blockhash s' = latest_blockhash s;
  restored_budget : compute_budget s' = compute_budget s;
  restored_sigverify : sigverify s' = sigverify s;
  restored_blockhash_check : blockhash_check s' = blockhash_check s;
  restored_fees : fee_structure s' = fee_structure s;
  restored_log_limit : log_bytes_limit s' = log_bytes_limit s;
  restored_stakes : epoch_stakes s' = epoch_stakes s;
  restored_history : history_wf (history s') ∧ im_entries (history s') = im_entries (history s);
  restored_enabled : is_enabled (history s') = is_enabled (history s);
  restored_capacity :
    alloc_collect (len (im_entries (history s))) = len (im_entries (history s)) →
    (im_capacity (history s) ≤ im_capacity (history s'))%N;
  restored_syscalls : custom_syscalls s' = [];
  restored_tracing : enable_register_tracing s' = env_trace_dir }.

(** C13.  Restoring the snapshot of a well-formed instance gives the instance back:
    its accounts, its configuration, key pair, blockhash, stakes and recorded
    transactions.  The accounts of the enabled builtins are installed afresh, so the
    store is the same exactly when they were in place.  The caches are rebuilt from
    the store: the sysvar cache reflects it, the program cache has the enabled
    builtins and every stored program, the environments are those of the
    configuration.  The history stays enabled or disabled, and keeps at least its
    capacity where collecting its entries allocates no more than they need.  Custom syscalls
    are not part of a snapshot, and register tracing is on when the restoring
    process asks for it.  The only possible error is that a stored program does not
    load, and it panics only when no runtime environment can be built. *)
Theorem snapshot_roundtrip `{!FeatureLaws} `{!SysvarLaws} `{!ProgramLaws} `{!IndexMapAllocLaws}
  s keypair (Hhist : history_wf (history s)) (Hstakes : stakes_wf (epoch_stakes s)) :
  match restore_from_snapshot keypair (extract_snapshot s) with
  | Ret (Ok s') =>
      restored s s' ∧
      ((∀ b, b ∈ BUILTINS → builtin_active (feature_set s) b = true →
          inner (accounts s) !! program_id b = Some (builtin_account b)) →
       inner (accounts s') = inner (accounts s))
  | Ret (Err e) => ∃ s' le, e = PE_CacheRebuild le ∧ broken_program s' le ∧
      inner (accounts s') = install_builtins (feature_set s) BUILTINS (inner (accounts s))
  | Panic => ∃ s', feature_set s' = feature_set s ∧ compute_budget s' = compute_budget s ∧
      custom_syscalls s' = [] ∧ create_program_runtime_environments s' = Panic
  end.
Proof.
  unfold restore_from_snapshot.
  change (v3_state (extract_snapshot s)) with (extract_snapshot_v2 s).
  change (v3_epoch_vote_stakes (extract_snapshot s)) with
    (sort_by_vote_account (map_to_list (epoch_vote_stakes (epoch_stakes s)))).
  destruct (restore_config_fields keypair (extract_snapshot_v2 s)) as
    (Hf & Hsv & Hbc & Hlb & Hcb & Hfs & Hbh & Hkp & Hcs & Hin & Htr).
  set (s0 := restore_config keypair (extract_snapshot_v2 s)) in *. clearbody s0.
  destruct (restore_stakes s0 (epoch_stakes s) Hstakes) as [-> ->].
  rewrite restore_accounts_spec. simpl. rewrite Hin, <-list_fmap_compose.
  rewrite (list_fmap_ext _ id (map_to_list (inner (accounts s)))), list_fmap_id,
    foldl_insert_map_to_list, history_entries_roundtrip by (by intros ? []).
  simpl in Hf. rewrite feature_set_roundtrip in Hf.
  destruct (from_entries_kept (history s) Hhist) as (Hwf & Hes & Hen & Hcap).
  match goal with |- context [rebuild_caches ?x] =>
    pose proof (rebuild_caches_spec x) as Hr; destruct (rebuild_caches x) as [[s' [[]|e]]|] end;
    simpl in *.
  - destruct Hr as ([db ->] & Hco & Hacc & Hready). simpl in *. rewrite Hf in Hacc.
    split; [|intros Hb; rewrite Hacc; by apply install_builtins_id].
    by constructor; simpl; rewrite ?Hf.
  - destruct Hr as (_ & _ & Hacc & Hbroken). rewrite Hf in Hacc. by exists s', e.
  - eexists. split_and!; [| | |exact Hr]; done.
Qed.

(** C14.  Bytes: what [to_bytes] writes, [from_bytes] restores as the extracted
    snapshot; empty input and unknown versions are refused; a version 1 or 2 input
    is migrated, version 1 dropping the two obsolete compute-budget fields, and
    restores without stakes. *)
Theorem bytes_roundtrip `{SnapshotCodec} `{!SnapshotCodecLaws} keypair :
  (∀ s b, to_bytes s = Ok b →
     from_bytes keypair b = restore_from_snapshot keypair (extract_snapshot s)) ∧
  from_bytes keypair [] = Ret (Err PE_EmptyInput) ∧
  (∀ v b, v ≠ V1_STATE_VERSION → v ≠ V2_STATE_VERSION → v ≠ STATE_VERSION →
     from_bytes keypair (v :: b) = Ret (Err (PE_UnsupportedVersion v))) ∧
  (∀ b s1, v1_deserialize b = Some s1 →
     ∃ s3, from_bytes keypair (V1_STATE_VERSION :: b) = restore_from_snapshot keypair s3 ∧
       v3_epoch_vote_stakes s3 = [] ∧
       v2_compute_budget (v3_state s3) = compute_budget_from_v1 <$> v1_compute_budget s1 ∧
       v2_accounts (v3_state s3) = v1_accounts s1 ∧ v2_history (v3_state s3) = v1_history s1) ∧
  (∀ b s2, v2_deserialize b = Some s2 →
     from_bytes keypair (V2_STATE_VERSION :: b)
     = restore_from_snapshot keypair {| v3_state := s2; v3_epoch_vote_stakes := [] |}).
Proof.
  split_and!.
  - intros s b. unfold to_bytes. destruct (v3_serialize _) as [p|] eqn:Hs; [|done].
    simpl. intros [= <-]. unfold from_bytes, deserialize_snapshot.
    rewrite !decide_False, decide_True by done. by rewrite (v3_roundtrip _ _ Hs).
  - done.
  - intros v b Hv1 Hv2 Hv3. unfold from_bytes, deserialize_snapshot. by rewrite !decide_False by done.
  - intros b s1 Hd. exists (v3_from_v2 (v2_from_v1 s1)).
    unfold from_bytes, deserialize_snapshot. rewrite decide_True, Hd by done. done.
  - intros b s2 Hd. unfold from_bytes, deserialize_snapshot.
    by rewrite decide_False, decide_True, Hd by done.
Qed.

(** A snapshot that lists a vote account twice is refused with that account,
    and only such a snapshot is: the order of the entries does not matter. *)
Theorem duplicate_stakes_rejected keypair snapshot :
  (¬ NoDup (v3_epoch_vote_stakes snapshot).*1 →
   ∃ k x y, restore_from_snapshot keypair snapshot = Ret (Err (PE_DuplicateEpochStake k)) ∧
     (k, x) ∈ v3_epoch_vote_stakes snapshot ∧ (k, y) ∈ v3_epoch_vote_stakes snapshot) ∧
  (∀ k, restore_from_snapshot keypair snapshot = Ret (Err (PE_DuplicateEpochStake k)) →
   ¬ NoDup (v3_epoch_vote_stakes snapshot).*1).
Proof.
  set (l := v3_epoch_vote_stakes snapshot).
  pose proof (sort_by_vote_account_perm l) as Hp.
  pose proof (find_adjacent_sorted _ (sort_by_vote_account_sorted l)) as Hf.
  unfold restore_from_snapshot. fold l.
  destruct (find_adjacent (sort_by_vote_account l)) as [k|].
  - destruct Hf as (i & j & x & y & Hij & Hi & Hj). split.
    + intros _. exists k, x, y. split; [done|]. rewrite <-!Hp.
      split; by eapply list_elem_of_lookup_2.
    + intros _ _. rewrite <-Hp. intros Hnd.
      apply (NoDup_ne _ i j k k Hnd); rewrite ?list_lookup_fmap, ?Hi, ?Hj; done.
  - rewrite Hp in Hf. split; [done|]. intros k Hr _.
    destruct (svm_set_epoch_stakes _ _) as [s1 [[]|e]]; [|done].
    destruct (rebuild_caches _) as [[s2 [[]|e]]|]; simpl in Hr; congruence.
Qed.
End properties.
