(* ===== verification/Wire.v ===== *)
(** * The layout of snapshots (crates/persistence/src/types.rs)

    The wire structs and the schemas that wincode derives for them: a struct is its
    fields in order, an enum a tag and its fields.  How wincode writes integers,
    strings, sequences and options, and the schemas of the Solana types, are an
    interface.  The three versions of the snapshot format are then codecs in the
    sense of Persistence.v, whose laws follow from those of the parts; version 1 is
    read only.  What the bytes are is stated again without the schemas, field by
    field, and [from_bytes] is shown to read it. *)

From S2P Require Import Prelude Errors ComputeBudget Runtime Utils Types History EpochStake.
From S2P Require Import AccountsDb Vm Features Svm Persistence.

(** ** Schemas *)

(** Writing may fail; reading leaves the rest of the input. *)
Record schema (A : Type) : Type := mkSchema {
  write : A → option bytes;
  read : bytes → option (A * bytes) }.
Arguments mkSchema {A}.
Arguments write {A}.
Arguments read {A}.

(** What is written is read back, whatever follows. *)
Definition lawful {A} (c : schema A) : Prop :=
  ∀ x b rest, write c x = Some b → read c (b ++ rest) = Some (x, rest).

Definition schema_pair {A B} (c : schema A) (d : schema B) : schema (A * B) := {|
  write p := b ← write c p.1; b' ← write d p.2; Some (b ++ b');
  read b := '(x, b) ← read c b; '(y, b) ← read d b; Some ((x, y), b) |}.

(** A struct through the tuple of its fields. *)
Definition schema_as {A B} (c : schema A) (f : B → A) (g : A → option B) : schema B := {|
  write x := write c (f x);
  read b := '(x, b) ← read c b; y ← g x; Some (y, b) |}.

(** A struct that is only read. *)
Definition read_only {A B} (c : schema A) (g : A → option B) : schema B := {|
  write _ := None;
  read b := '(x, b) ← read c b; y ← g x; Some (y, b) |}.

(** An enum with two variants: the tag, then the field. *)
Definition schema_either {A B} (t : schema N) (c : schema A) (d : schema B) : schema (A + B) := {|
  write r :=
    match r with
    | inl x => b ← write t 0%N; b' ← write c x; Some (b ++ b')
    | inr y => b ← write t 1%N; b' ← write d y; Some (b ++ b')
    end;
  read b :=
    '(n, b) ← read t b;
    match n with
    | 0%N => '(x, b) ← read c b; Some (inl x, b)
    | 1%N => '(y, b) ← read d b; Some (inr y, b)
    | _ => None
    end |}.

(** Fields of numbers, each with its type. *)
Fixpoint write_fields (cs : list (schema N)) (l : list N) : option bytes :=
  match cs, l with
  | [], [] => Some []
  | c :: cs, x :: l => b ← write c x; b' ← write_fields cs l; Some (b ++ b')
  | _, _ => None
  end.

Fixpoint read_fields (cs : list (schema N)) (b : bytes) : option (list N * bytes) :=
  match cs with
  | [] => Some ([], b)
  | c :: cs => '(x, b) ← read c b; '(l, b) ← read_fields cs b; Some (x :: l, b)
  end.

Definition schema_fields (cs : list (schema N)) : schema (list N) :=
  {| write := write_fields cs; read := read_fields cs |}.

Notation "c ⊗ d" := (schema_pair c d) (at level 40, left associativity).

Lemma schema_pair_lawful {A B} (c : schema A) (d : schema B) :
  lawful c → lawful d → lawful (c ⊗ d).
Proof.
  intros Hc Hd [x y] b rest. simpl.
  destruct (write c x) as [b1|] eqn:H1; simpl; [|done].
  destruct (write d y) as [b2|] eqn:H2; simpl; [|done]. intros [= <-].
  rewrite <-app_assoc, (Hc _ _ _ H1). simpl. by rewrite (Hd _ _ _ H2).
Qed.

Lemma schema_either_lawful {A B} (t : schema N) (c : schema A) (d : schema B) :
  lawful t → lawful c → lawful d → lawful (schema_either t c d).
Proof.
  intros Ht Hc Hd [x|y] b rest; simpl.
  - destruct (write t 0%N) as [b1|] eqn:H1; simpl; [|done].
    destruct (write c x) as [b2|] eqn:H2; simpl; [|done]. intros [= <-].
    rewrite <-app_assoc, (Ht _ _ _ H1). simpl. by rewrite (Hc _ _ _ H2).
  - destruct (write t 1%N) as [b1|] eqn:H1; simpl; [|done].
    destruct (write d y) as [b2|] eqn:H2; simpl; [|done]. intros [= <-].
    rewrite <-app_assoc, (Ht _ _ _ H1). simpl. by rewrite (Hd _ _ _ H2).
Qed.

Lemma schema_as_lawful {A B} (c : schema A) (f : B → A) (g : A → option B) :
  lawful c → (∀ y, g (f y) = Some y) → lawful (schema_as c f g).
Proof.
  intros Hc Hg y b rest Hw. simpl in *. rewrite (Hc _ _ _ Hw). simpl. by rewrite Hg.
Qed.

Lemma schema_fields_lawful cs : Forall lawful cs → lawful (schema_fields cs).
Proof.
  intros Hall l. simpl. revert l.
  induction Hall as [|c cs Hc _ IH]; intros [|x l] b rest; simpl; try done.
  { by intros [= <-]. }
  destruct (write c x) as [b1|] eqn:H1; simpl; [|done].
  destruct (write_fields cs l) as [b2|] eqn:H2; simpl; [|done]. intros [= <-].
  rewrite <-app_assoc, (Hc _ _ _ H1). simpl. by rewrite (IH _ _ _ H2).
Qed.

Create HintDb wire discriminated.
#[export] Hint Constants Opaque : wire.
#[export] Hint Resolve schema_pair_lawful schema_either_lawful : wire.

(** ** The parts that wincode and the Solana crates provide *)

Class Wincode : Type := {
  wc_u8 : schema N;
  wc_u32 : schema N;
  wc_u64 : schema N;
  wc_usize : schema N;
  wc_bool : schema bool;
  wc_string : schema str;
  wc_vec : ∀ {A}, schema A → schema (list A);
  wc_option : ∀ {A}, schema A → schema (option A);
  (** The tags of an option *)
  wc_none : bytes;
  wc_some : bytes;
  (** The discriminant of an enum *)
  wc_tag : schema N;
  (** [[u8; 64]] *)
  wc_bytes64 : schema bytes;
  wc_address : schema address;
  wc_hash : schema hash;
  wc_signature : schema signature;
  wc_account : schema account;
  wc_compiled_instruction : schema CompiledInstruction;
  wc_return_data : schema TransactionReturnData;
  wc_transaction_error : schema TransactionError;
  (** Whether [deserialize] accepts bytes after the value *)
  wc_accepts_rest : bytes → bool }.

Class WincodeLaws `{Wincode} : Prop := {
  wc_u8_lawful : lawful wc_u8;
  wc_u32_lawful : lawful wc_u32;
  wc_u64_lawful : lawful wc_u64;
  wc_usize_lawful : lawful wc_usize;
  wc_bool_lawful : lawful wc_bool;
  wc_string_lawful : lawful wc_string;
  wc_vec_lawful {A} (c : schema A) : lawful c → lawful (wc_vec c);
  wc_option_write {A} (c : schema A) o :
    write (wc_option c) o
    = match o with None => Some wc_none | Some x => b ← write c x; Some (wc_some ++ b) end;
  wc_option_read_none {A} (c : schema A) rest :
    read (wc_option c) (wc_none ++ rest) = Some (None, rest);
  wc_option_read_some {A} (c : schema A) rest :
    read (wc_option c) (wc_some ++ rest) = '(x, b) ← read c rest; Some (Some x, b);
  wc_tag_lawful : lawful wc_tag;
  wc_bytes64_lawful : lawful wc_bytes64;
  wc_address_lawful : lawful wc_address;
  wc_hash_lawful : lawful wc_hash;
  wc_signature_lawful : lawful wc_signature;
  wc_account_lawful : lawful wc_account;
  wc_compiled_instruction_lawful : lawful wc_compiled_instruction;
  wc_return_data_lawful : lawful wc_return_data;
  wc_transaction_error_lawful : lawful wc_transaction_error;
  wc_accepts_nothing : wc_accepts_rest [] = true }.

Lemma wc_option_lawful `{WincodeLaws} {A} (c : schema A) : lawful c → lawful (wc_option c).
Proof.
  intros Hc [x|] b rest; rewrite wc_option_write.
  - destruct (write c x) as [bx|] eqn:Hx; simpl; [|done]. intros [= <-].
    rewrite <-app_assoc, wc_option_read_some, (Hc _ _ _ Hx). done.
  - intros [= <-]. apply wc_option_read_none.
Qed.

#[export] Hint Resolve wc_u8_lawful wc_u32_lawful wc_u64_lawful wc_usize_lawful wc_bool_lawful
  wc_string_lawful wc_vec_lawful wc_option_lawful wc_tag_lawful wc_bytes64_lawful
  wc_address_lawful wc_hash_lawful wc_signature_lawful wc_account_lawful
  wc_compiled_instruction_lawful wc_return_data_lawful wc_transaction_error_lawful : wire.

Section wire.
Context `{Wincode}.

(** ** Fees, instructions and transactions *)

Definition FeeBinWire : schema FeeBin :=
  schema_as (wc_u64 ⊗ wc_u64) (λ x, (limit x, fee_of_bin x))
    (λ '(l, f), Some {| limit := l; fee_of_bin := f |}).

Definition FeeStructureWire : schema FeeStructure :=
  schema_as (wc_u64 ⊗ wc_u64 ⊗ wc_vec FeeBinWire)
    (λ x, (lamports_per_signature x, lamports_per_write_lock x, compute_fee_bins x))
    (λ '(a, b, c), Some {| lamports_per_signature := a; lamports_per_write_lock := b;
                           compute_fee_bins := c |}).

Definition InnerInstructionWire : schema InnerInstruction :=
  schema_as (wc_compiled_instruction ⊗ wc_u8) (λ x, (ii_instruction x, ii_stack_height x))
    (λ '(i, h), Some {| ii_instruction := i; ii_stack_height := h |}).

Definition TransactionMetadataWire : schema TransactionMetadata :=
  schema_as
    (wc_signature ⊗ wc_vec wc_string ⊗ wc_vec (wc_vec InnerInstructionWire) ⊗ wc_u64
     ⊗ wc_return_data ⊗ wc_u64)
    (λ m, (meta_signature m, logs m, inner_instructions m, compute_units_consumed m,
           return_data m, meta_fee m))
    (λ '(a, b, c, d, e, f),
       Some {| meta_signature := a; logs := b; inner_instructions := c;
               compute_units_consumed := d; return_data := e; meta_fee := f |}).

Definition FailedTransactionMetadataWire : schema FailedTransactionMetadata :=
  schema_as (wc_transaction_error ⊗ TransactionMetadataWire)
    (λ x, (failed_err x, failed_meta x))
    (λ '(e, m), Some {| failed_err := e; failed_meta := m |}).

Definition TxResultWire : schema TxResult :=
  schema_as (schema_either wc_tag TransactionMetadataWire FailedTransactionMetadataWire)
    (λ r, match r with TxOk m => inl m | TxErr e => inr e end)
    (λ r, Some (match r with inl m => TxOk m | inr e => TxErr e end)).

(** ** Compute budgets *)

(** The types of the fields of [ComputeBudgetWire], in order. *)
Definition compute_budget_wire : list (schema N) :=
  [wc_u64; wc_u64; wc_u64; wc_u64; wc_usize; wc_usize; wc_u64; wc_u64; wc_u64; wc_usize;
   wc_usize; wc_u64; wc_u64; wc_u64; wc_u64; wc_u64; wc_u64; wc_u64; wc_u64; wc_u64; wc_u64;
   wc_u64; wc_u64; wc_u64; wc_u64; wc_u64; wc_u64; wc_u64; wc_u32; wc_u64; wc_u64; wc_u64;
   wc_u64; wc_u64; wc_u64; wc_u64; wc_u64; wc_u64; wc_u64; wc_u64; wc_u64; wc_u64; wc_u64;
   wc_u64; wc_u64; wc_u64; wc_u64; wc_u64; wc_u64; wc_u64; wc_u64; wc_u64; wc_u64; wc_u64;
   wc_u64; wc_u64].

Definition compute_budget_v1_wire : list (schema N) :=
  [wc_u64; wc_u64; wc_u64; wc_u64; wc_usize; wc_usize; wc_u64; wc_u64; wc_u64; wc_usize;
   wc_usize; wc_u64; wc_u64; wc_u64; wc_u64; wc_u64; wc_u64; wc_u64; wc_u64; wc_u64; wc_u64;
   wc_u64; wc_u64; wc_u64; wc_u64; wc_u64; wc_u64; wc_u64; wc_u32; wc_u64; wc_u64; wc_u64;
   wc_u64; wc_u64; wc_u64; wc_u64; wc_u64; wc_u64; wc_u64; wc_u64; wc_u64; wc_u64; wc_u64;
   wc_u64; wc_u64; wc_u64; wc_u64; wc_u64; wc_u64; wc_u64; wc_u64; wc_u64; wc_u64; wc_u64;
   wc_u64; wc_u64; wc_u64; wc_u64].

Definition budget_of_fields (l : list N) : option ComputeBudget :=
  match l with
  | [x1; x2; x3; x4; x5; x6; x7; x8; x9; x10; x11; x12; x13; x14; x15; x16; x17; x18; x19; x20;
     x21; x22; x23; x24; x25; x26; x27; x28; x29; x30; x31; x32; x33; x34; x35; x36; x37; x38;
     x39; x40; x41; x42; x43; x44; x45; x46; x47; x48; x49; x50; x51; x52; x53; x54; x55; x56] =>
      Some (Build_ComputeBudget x1 x2 x3 x4 x5 x6 x7 x8 x9 x10 x11 x12 x13 x14 x15 x16 x17 x18
        x19 x20 x21 x22 x23 x24 x25 x26 x27 x28 x29 x30 x31 x32 x33 x34 x35 x36 x37 x38 x39 x40
        x41 x42 x43 x44 x45 x46 x47 x48 x49 x50 x51 x52 x53 x54 x55 x56)
  | _ => None
  end.

Definition budget_v1_of_fields (l : list N) : option ComputeBudgetV1 :=
  match l with
  | [x1; x2; x3; x4; x5; x6; x7; x8; x9; x10; x11; x12; x13; x14; x15; x16; x17; x18; x19; x20;
     x21; x22; x23; x24; x25; x26; x27; x28; x29; x30; x31; x32; x33; x34; x35; x36; x37; x38;
     x39; x40; x41; x42; x43; x44; x45; x46; x47; x48; x49; x50; x51; x52; x53; x54; x55; x56;
     x57; x58] =>
      Some (Build_ComputeBudgetV1 x1 x2 x3 x4 x5 x6 x7 x8 x9 x10 x11 x12 x13 x14 x15 x16 x17 x18
        x19 x20 x21 x22 x23 x24 x25 x26 x27 x28 x29 x30 x31 x32 x33 x34 x35 x36 x37 x38 x39 x40
        x41 x42 x43 x44 x45 x46 x47 x48 x49 x50 x51 x52 x53 x54 x55 x56 x57 x58)
  | _ => None
  end.

Definition ComputeBudgetWire : schema ComputeBudget :=
  schema_as (schema_fields compute_budget_wire) wire_fields budget_of_fields.

Definition ComputeBudgetV1Wire : schema ComputeBudgetV1 :=
  read_only (schema_fields compute_budget_v1_wire) budget_v1_of_fields.

(** ** Snapshots *)

Definition FeatureActivationSchema : schema FeatureActivationWire :=
  schema_as (wc_address ⊗ wc_u64) (λ w, (fa_address w, fa_slot w))
    (λ '(k, n), Some {| fa_address := k; fa_slot := n |}).

Definition FeatureSetSchema : schema FeatureSetSnapshot :=
  schema_as (wc_vec FeatureActivationSchema ⊗ wc_vec wc_address)
    (λ f, (fss_active f, fss_inactive f))
    (λ '(a, i), Some {| fss_active := a; fss_inactive := i |}).

Definition AccountEntrySchema : schema AccountEntryWire :=
  schema_as (wc_address ⊗ wc_account) (λ e, (ae_address e, ae_account e))
    (λ '(k, a), Some {| ae_address := k; ae_account := a |}).

(** The fields that versions 1 and 2 share, around the compute budget. *)
Definition snapshot_fields {B} (budget : schema B) :=
  wc_vec AccountEntrySchema ⊗ wc_bytes64 ⊗ FeatureSetSchema ⊗ wc_hash
  ⊗ wc_vec (wc_signature ⊗ TxResultWire) ⊗ wc_u64 ⊗ wc_option budget ⊗ wc_bool ⊗ wc_bool
  ⊗ FeeStructureWire ⊗ wc_option wc_u64.

Definition SnapshotV1Schema : schema LiteSvmSnapshotV1 :=
  read_only (snapshot_fields ComputeBudgetV1Wire)
    (λ '(a, b, c, d, e, f, g, h, i, j, k),
       Some (Build_LiteSvmSnapshotV1 a b c d e f g h i j k)).

Definition SnapshotV2Schema : schema LiteSvmSnapshotV2 :=
  schema_as (snapshot_fields ComputeBudgetWire)
    (λ s, (v2_accounts s, v2_airdrop_kp s, v2_feature_set s, v2_latest_blockhash s, v2_history s,
           v2_history_capacity s, v2_compute_budget s, v2_sigverify s, v2_blockhash_check s,
           v2_fee_structure s, v2_log_bytes_limit s))
    (λ '(a, b, c, d, e, f, g, h, i, j, k),
       Some (Build_LiteSvmSnapshotV2 a b c d e f g h i j k)).

Definition SnapshotV3Schema : schema LiteSvmSnapshotV3 :=
  schema_as (SnapshotV2Schema ⊗ wc_vec (wc_address ⊗ wc_u64))
    (λ s, (v3_state s, v3_epoch_vote_stakes s))
    (λ '(a, b), Some {| v3_state := a; v3_epoch_vote_stakes := b |}).

(** [deserialize] of a whole input. *)
Definition deserialize_all {A} (c : schema A) (b : bytes) : option A :=
  '(x, rest) ← read c b; if wc_accepts_rest rest then Some x else None.

#[export] Instance wire_codec : SnapshotCodec := {|
  v1_deserialize := deserialize_all SnapshotV1Schema;
  v2_deserialize := deserialize_all SnapshotV2Schema;
  v3_deserialize := deserialize_all SnapshotV3Schema;
  v3_serialize := write SnapshotV3Schema |}.

(** ** Lawfulness *)

Context `{!WincodeLaws}.

Ltac lawful_struct :=
  apply schema_as_lawful; [auto 20 with wire|by intros []].

Lemma FeeBinWire_lawful : lawful FeeBinWire.
Proof. lawful_struct. Qed.
#[local] Hint Resolve FeeBinWire_lawful : wire.

Lemma FeeStructureWire_lawful : lawful FeeStructureWire.
Proof. lawful_struct. Qed.

Lemma InnerInstructionWire_lawful : lawful InnerInstructionWire.
Proof. lawful_struct. Qed.
#[local] Hint Resolve FeeStructureWire_lawful InnerInstructionWire_lawful : wire.

Lemma TransactionMetadataWire_lawful : lawful TransactionMetadataWire.
Proof. lawful_struct. Qed.
#[local] Hint Resolve TransactionMetadataWire_lawful : wire.

Lemma FailedTransactionMetadataWire_lawful : lawful FailedTransactionMetadataWire.
Proof. lawful_struct. Qed.

#[local] Hint Resolve FailedTransactionMetadataWire_lawful : wire.

Lemma TxResultWire_lawful : lawful TxResultWire.
Proof. lawful_struct. Qed.

Lemma ComputeBudgetWire_lawful : lawful ComputeBudgetWire.
Proof.
  apply schema_as_lawful; [|by intros []]. apply schema_fields_lawful.
  unfold compute_budget_wire. repeat constructor; auto with wire.
Qed.

Lemma FeatureActivationSchema_lawful : lawful FeatureActivationSchema.
Proof. lawful_struct. Qed.
#[local] Hint Resolve FeatureActivationSchema_lawful : wire.

Lemma FeatureSetSchema_lawful : lawful FeatureSetSchema.
Proof. lawful_struct. Qed.

Lemma AccountEntrySchema_lawful : lawful AccountEntrySchema.
Proof. lawful_struct. Qed.
#[local] Hint Resolve TxResultWire_lawful ComputeBudgetWire_lawful FeatureSetSchema_lawful
  AccountEntrySchema_lawful : wire.

Lemma SnapshotV2Schema_lawful : lawful SnapshotV2Schema.
Proof. unfold SnapshotV2Schema, snapshot_fields. lawful_struct. Qed.
#[local] Hint Resolve SnapshotV2Schema_lawful : wire.

Lemma SnapshotV3Schema_lawful : lawful SnapshotV3Schema.
Proof. lawful_struct. Qed.

Lemma deserialize_all_write {A} (c : schema A) x b :
  lawful c → write c x = Some b → deserialize_all c b = Some x.
Proof.
  intros Hc Hw. unfold deserialize_all. pose proof (Hc x b [] Hw) as Hr.
  rewrite app_nil_r in Hr. rewrite Hr. simpl. by rewrite wc_accepts_nothing.
Qed.

#[export] Instance wire_codec_laws : SnapshotCodecLaws.
Proof. split. intros s b. apply deserialize_all_write, SnapshotV3Schema_lawful. Qed.
End wire.

(** ** The documented layouts

    What the bytes of a snapshot are, field by field and independently of the
    schemas: the parts of a payload in order, each written by the encoding of its
    type. *)

Fixpoint write_all (parts : list (option bytes)) : option bytes :=
  match parts with
  | [] => Some []
  | o :: parts => b ← o; b' ← write_all parts; Some (b ++ b')
  end.

Section layout.
Context `{Wincode}.

(** The fields of a compute budget before and after the place where version 1 had
    the two modular-exponentiation costs. *)
Definition budget_before : list ((ComputeBudget → N) * schema N) :=
  [(compute_unit_limit, wc_u64);
   (log_64_units, wc_u64);
   (create_program_address_units, wc_u64);
   (invoke_units, wc_u64);
   (max_instruction_stack_depth, wc_usize);
   (max_instruction_trace_length, wc_usize);
   (sha256_base_cost, wc_u64);
   (sha256_byte_cost, wc_u64);
   (sha256_max_slices, wc_u64);
   (max_call_depth, wc_usize);
   (stack_frame_size, wc_usize);
   (log_pubkey_units, wc_u64);
   (cpi_bytes_per_unit, wc_u64);
   (sysvar_base_cost, wc_u64);
   (secp256k1_recover_cost, wc_u64);
   (syscall_base_cost, wc_u64);
   (curve25519_edwards_validate_point_cost, wc_u64);
   (curve25519_edwards_add_cost, wc_u64);
   (curve25519_edwards_subtract_cost, wc_u64);
   (curve25519_edwards_multiply_cost, wc_u64);
   (curve25519_edwards_msm_base_cost, wc_u64);
   (curve25519_edwards_msm_incremental_cost, wc_u64);
   (curve25519_ristretto_validate_point_cost, wc_u64);
   (curve25519_ristretto_add_cost, wc_u64);
   (curve25519_ristretto_subtract_cost, wc_u64);
   (curve25519_ristretto_multiply_cost, wc_u64);
   (curve25519_ristretto_msm_base_cost, wc_u64);
   (curve25519_ristretto_msm_incremental_cost, wc_u64);
   (heap_size, wc_u32);
   (heap_cost, wc_u64);
   (mem_op_base_cost, wc_u64);
   (alt_bn128_g1_addition_cost, wc_u64);
   (alt_bn128_g2_addition_cost, wc_u64);
   (alt_bn128_g1_multiplication_cost, wc_u64);
   (alt_bn128_g2_multiplication_cost, wc_u64);
   (alt_bn128_pairing_one_pair_cost_first, wc_u64);
   (alt_bn128_pairing_one_pair_cost_other, wc_u64)].

Definition budget_after : list ((ComputeBudget → N) * schema N) :=
  [(poseidon_cost_coefficient_a, wc_u64);
   (poseidon_cost_coefficient_c, wc_u64);
   (get_remaining_compute_units_cost, wc_u64);
   (alt_bn128_g1_compress, wc_u64);
   (alt_bn128_g1_decompress, wc_u64);
   (alt_bn128_g2_compress, wc_u64);
   (alt_bn128_g2_decompress, wc_u64);
   (bls12_381_g1_add_cost, wc_u64);
   (bls12_381_g2_add_cost, wc_u64);
   (bls12_381_g1_subtract_cost, wc_u64);
   (bls12_381_g2_subtract_cost, wc_u64);
   (bls12_381_g1_multiply_cost, wc_u64);
   (bls12_381_g2_multiply_cost, wc_u64);
   (bls12_381_g1_decompress_cost, wc_u64);
   (bls12_381_g2_decompress_cost, wc_u64);
   (bls12_381_g1_validate_cost, wc_u64);
   (bls12_381_g2_validate_cost, wc_u64);
   (bls12_381_one_pair_cost, wc_u64);
   (bls12_381_additional_pair_cost, wc_u64)].

Definition budget_part (fields : list ((ComputeBudget → N) * schema N)) (cb : ComputeBudget)
    : list (option bytes) :=
  (λ f, write f.2 (f.1 cb)) <$> fields.

(** A payload of version 2, with [obsolete] between the two parts of a compute
    budget. *)
Definition payload_parts (obsolete : list (option bytes)) (s : LiteSvmSnapshotV2)
    : list (option bytes) :=
  [write (wc_vec AccountEntrySchema) (v2_accounts s);
   write wc_bytes64 (v2_airdrop_kp s);
   write (wc_vec FeatureActivationSchema) (fss_active (v2_feature_set s));
   write (wc_vec wc_address) (fss_inactive (v2_feature_set s));
   write wc_hash (v2_latest_blockhash s);
   write (wc_vec (wc_signature ⊗ TxResultWire)) (v2_history s);
   write wc_u64 (v2_history_capacity s)]
  ++ match v2_compute_budget s with
     | None => [Some wc_none]
     | Some cb => Some wc_some :: budget_part budget_before cb ++ obsolete
                    ++ budget_part budget_after cb
     end
  ++ [write wc_bool (v2_sigverify s);
      write wc_bool (v2_blockhash_check s);
      write wc_u64 (lamports_per_signature (v2_fee_structure s));
      write wc_u64 (lamports_per_write_lock (v2_fee_structure s));
      write (wc_vec FeeBinWire) (compute_fee_bins (v2_fee_structure s));
      write (wc_option wc_u64) (v2_log_bytes_limit s)].

(** The structs that occur in lists. *)
Definition struct_layouts : Prop :=
  (∀ e, write AccountEntrySchema e
        = write_all [write wc_address (ae_address e); write wc_account (ae_account e)]) ∧
  (∀ w, write FeatureActivationSchema w
        = write_all [write wc_address (fa_address w); write wc_u64 (fa_slot w)]) ∧
  (∀ x, write FeeBinWire x
        = write_all [write wc_u64 (limit x); write wc_u64 (fee_of_bin x)]) ∧
  (∀ x, write InnerInstructionWire x
        = write_all [write wc_compiled_instruction (ii_instruction x);
                     write wc_u8 (ii_stack_height x)]) ∧
  (∀ m, write TransactionMetadataWire m
        = write_all [write wc_signature (meta_signature m); write (wc_vec wc_string) (logs m);
                     write (wc_vec (wc_vec InnerInstructionWire)) (inner_instructions m);
                     write wc_u64 (compute_units_consumed m);
                     write wc_return_data (return_data m); write wc_u64 (meta_fee m)]) ∧
  (∀ m, write TxResultWire (TxOk m)
        = write_all [write wc_tag 0%N; write TransactionMetadataWire m]) ∧
  (∀ f, write TxResultWire (TxErr f)
        = write_all [write wc_tag 1%N; write wc_transaction_error (failed_err f);
                     write TransactionMetadataWire (failed_meta f)]).

(** ** Writing and reading the parts *)

Definition oapp (o o' : option bytes) : option bytes := b ← o; b' ← o'; Some (b ++ b').

Lemma oapp_assoc o1 o2 o3 : oapp o1 (oapp o2 o3) = oapp (oapp o1 o2) o3.
Proof.
  unfold oapp. destruct o1 as [b1|], o2 as [b2|], o3 as [b3|]; simpl; try done.
  by rewrite app_assoc.
Qed.

Lemma oapp_nil_r o : oapp o (Some []) = o.
Proof. unfold oapp. destruct o; simpl; [by rewrite app_nil_r|done]. Qed.

Lemma oapp_Some o o' b : oapp o o' = Some b → ∃ b1 b2, o = Some b1 ∧ o' = Some b2 ∧ b = b1 ++ b2.
Proof. unfold oapp. destruct o as [b1|], o' as [b2|]; simpl; try done. intros [= <-]. eauto. Qed.

Lemma write_all_cons o parts : write_all (o :: parts) = oapp o (write_all parts).
Proof. done. Qed.

Lemma write_all_app parts parts' :
  write_all (parts ++ parts') = oapp (write_all parts) (write_all parts').
Proof.
  induction parts as [|o parts IH]; [unfold oapp; simpl; by destruct (write_all parts')|].
  rewrite <-app_comm_cons, !write_all_cons, IH. apply oapp_assoc.
Qed.

Lemma write_pair {A B} (c : schema A) (d : schema B) p :
  write (c ⊗ d) p = oapp (write c p.1) (write d p.2).
Proof. done. Qed.

Lemma write_as {A B} (c : schema A) (f : B → A) g x : write (schema_as c f g) x = write c (f x).
Proof. done. Qed.

(** [o] holds bytes that [c] reads as [x], whatever follows. *)
Definition reads {A} (c : schema A) (x : A) (o : option bytes) : Prop :=
  ∀ b rest, o = Some b → read c (b ++ rest) = Some (x, rest).

Lemma reads_lawful {A} (c : schema A) x : lawful c → reads c x (write c x).
Proof. intros Hc b rest. apply Hc. Qed.

Lemma reads_pair {A B} (c : schema A) (d : schema B) x y o o' :
  reads c x o → reads d y o' → reads (c ⊗ d) (x, y) (oapp o o').
Proof.
  intros Hc Hd b rest (b1 & b2 & H1 & H2 & ->)%oapp_Some. simpl.
  rewrite <-app_assoc, (Hc _ _ H1). simpl. by rewrite (Hd _ _ H2).
Qed.

Lemma reads_only {A B} (c : schema A) (g : A → option B) x y o :
  reads c x o → g x = Some y → reads (read_only c g) y o.
Proof. intros Hc Hg b rest Ho. simpl. rewrite (Hc _ _ Ho). simpl. by rewrite Hg. Qed.

Lemma reads_some `{!WincodeLaws} {A} (c : schema A) x o :
  reads c x o → reads (wc_option c) (Some x) (oapp (Some wc_some) o).
Proof.
  intros Hc b rest (b1 & b2 & [= <-] & H2 & ->)%oapp_Some.
  rewrite <-app_assoc, wc_option_read_some, (Hc _ _ H2). done.
Qed.

Lemma reads_none `{!WincodeLaws} {A} (c : schema A) : reads (wc_option c) None (Some wc_none).
Proof. intros b rest [= <-]. apply wc_option_read_none. Qed.

Lemma deserialize_all_reads `{!WincodeLaws} {A} (c : schema A) x o b :
  reads c x o → o = Some b → deserialize_all c b = Some x.
Proof.
  intros Hc Ho. unfold deserialize_all. pose proof (Hc b [] Ho) as Hr.
  rewrite app_nil_r in Hr. rewrite Hr. simpl. by rewrite wc_accepts_nothing.
Qed.

(** The parts around the compute budget, grouped as the schemas group them. *)
Definition around_budget (s : LiteSvmSnapshotV2) (o : option bytes) : option bytes :=
  oapp (oapp (oapp (oapp (oapp (oapp (oapp (oapp (oapp (oapp
    (write (wc_vec AccountEntrySchema) (v2_accounts s)) (write wc_bytes64 (v2_airdrop_kp s)))
    (write FeatureSetSchema (v2_feature_set s))) (write wc_hash (v2_latest_blockhash s)))
    (write (wc_vec (wc_signature ⊗ TxResultWire)) (v2_history s)))
    (write wc_u64 (v2_history_capacity s))) o) (write wc_bool (v2_sigverify s)))
    (write wc_bool (v2_blockhash_check s))) (write FeeStructureWire (v2_fee_structure s)))
    (write (wc_option wc_u64) (v2_log_bytes_limit s)).

Definition budget_bytes (obsolete : list (option bytes)) (o : option ComputeBudget)
    : option bytes :=
  match o with
  | None => Some wc_none
  | Some cb => oapp (Some wc_some)
      (write_all (budget_part budget_before cb ++ obsolete ++ budget_part budget_after cb))
  end.

Lemma payload_around obsolete s :
  write_all (payload_parts obsolete s)
  = around_budget s (budget_bytes obsolete (v2_compute_budget s)).
Proof.
  unfold payload_parts, around_budget, FeatureSetSchema, FeeStructureWire.
  rewrite !write_as, !write_pair, !write_all_app. simpl fst. simpl snd.
  assert (write_all match v2_compute_budget s with
          | None => [Some wc_none]
          | Some cb => Some wc_some :: budget_part budget_before cb ++ obsolete
                         ++ budget_part budget_after cb
          end = budget_bytes obsolete (v2_compute_budget s)) as ->.
  { destruct (v2_compute_budget s); [done|]. simpl. by rewrite app_nil_r. }
  rewrite !write_all_cons. cbn [write_all]. rewrite !oapp_nil_r, !oapp_assoc. done.
Qed.

(** The parts of a list of numbers. *)
Fixpoint field_parts (cs : list (schema N)) (l : list N) : list (option bytes) :=
  match cs, l with c :: cs, x :: l => write c x :: field_parts cs l | _, _ => [] end.

Lemma write_schema_fields cs l :
  length l = length cs → write (schema_fields cs) l = write_all (field_parts cs l).
Proof.
  simpl. revert l. induction cs as [|c cs IH]; intros [|x l]; simpl; try done.
  intros [= Hl]. by rewrite (IH l Hl).
Qed.

Lemma write_budget cb :
  write ComputeBudgetWire cb
  = write_all (budget_part budget_before cb ++ [] ++ budget_part budget_after cb).
Proof.
  unfold ComputeBudgetWire. rewrite write_as, write_schema_fields by done.
  apply (f_equal write_all). destruct cb. reflexivity.
Qed.

(** Version 2 is the layout without obsolete fields. *)
Lemma write_v2 `{!WincodeLaws} s : write SnapshotV2Schema s = write_all (payload_parts [] s).
Proof.
  rewrite payload_around. unfold SnapshotV2Schema, snapshot_fields, around_budget.
  rewrite write_as, !write_pair. simpl fst. simpl snd.
  assert (write (wc_option ComputeBudgetWire) (v2_compute_budget s)
          = budget_bytes [] (v2_compute_budget s)) as ->; [|done].
  rewrite wc_option_write. destruct (v2_compute_budget s) as [cb|]; [|done].
  rewrite write_budget. done.
Qed.

(** Version 1 reads the layout with two obsolete fields. *)
Lemma reads_budget_v1 `{!WincodeLaws} cb x y :
  ∃ v, compute_budget_from_v1 v = cb ∧
    reads ComputeBudgetV1Wire v
      (write_all (budget_part budget_before cb ++ [write wc_u64 x; write wc_u64 y]
                  ++ budget_part budget_after cb)).
Proof.
  set (l := take 37 (wire_fields cb) ++ [x; y] ++ drop 37 (wire_fields cb)).
  assert (∃ v, budget_v1_of_fields l = Some v ∧ compute_budget_from_v1 v = cb) as (v & Hv & Hcb)
    by (unfold l; destruct cb; by eexists).
  exists v. split; [done|]. apply reads_only with l; [|done].
  assert (write_all (budget_part budget_before cb ++ [write wc_u64 x; write wc_u64 y]
                     ++ budget_part budget_after cb)
          = write (schema_fields compute_budget_v1_wire) l) as ->.
  { rewrite write_schema_fields by (unfold l; by destruct cb).
    apply (f_equal write_all). unfold l. destruct cb. reflexivity. }
  apply reads_lawful, schema_fields_lawful. unfold compute_budget_v1_wire.
  repeat constructor; auto with wire.
Qed.

Lemma reads_around `{!WincodeLaws} s (v : option ComputeBudgetV1) o :
  reads (wc_option ComputeBudgetV1Wire) v o → compute_budget_from_v1 <$> v = v2_compute_budget s →
  ∃ s1, v2_from_v1 s1 = s ∧ reads SnapshotV1Schema s1 (around_budget s o).
Proof.
  intros Ho Hv. destruct s as [a b c d e f g h i j k]. simpl in Hv. subst g.
  exists (Build_LiteSvmSnapshotV1 a b c d e f v h i j k). split; [done|].
  unfold SnapshotV1Schema, snapshot_fields.
  apply reads_only with (a, b, c, d, e, f, v, h, i, j, k); [|done].
  unfold around_budget. cbn [v2_accounts v2_airdrop_kp v2_feature_set v2_latest_blockhash
    v2_history v2_history_capacity v2_sigverify v2_blockhash_check v2_fee_structure
    v2_log_bytes_limit].
  repeat apply reads_pair; try exact Ho; apply reads_lawful;
    auto using TxResultWire_lawful, FeatureSetSchema_lawful, FeeStructureWire_lawful,
      AccountEntrySchema_lawful with wire.
Qed.

Lemma reads_v1 `{!WincodeLaws} s x y :
  ∃ s1, v2_from_v1 s1 = s ∧
    reads SnapshotV1Schema s1 (write_all (payload_parts [write wc_u64 x; write wc_u64 y] s)).
Proof.
  rewrite payload_around. destruct (v2_compute_budget s) as [cb|] eqn:Hcb; cbn [budget_bytes].
  - destruct (reads_budget_v1 cb x y) as (v & Hv & Hr).
    apply (reads_around s (Some v)); [by apply reads_some|]. simpl. by rewrite Hv, Hcb.
  - apply (reads_around s None); [apply reads_none|]. by rewrite Hcb.
Qed.

Lemma write_struct o1 o2 : oapp o1 o2 = write_all [o1; o2].
Proof. rewrite !write_all_cons. cbn [write_all]. by rewrite oapp_nil_r. Qed.

Lemma write_tx_ok m :
  write TxResultWire (TxOk m) = oapp (write wc_tag 0%N) (write TransactionMetadataWire m).
Proof. done. Qed.

Lemma write_tx_err f :
  write TxResultWire (TxErr f)
  = oapp (write wc_tag 1%N)
      (oapp (write wc_transaction_error (failed_err f))
         (write TransactionMetadataWire (failed_meta f))).
Proof. done. Qed.

Lemma struct_layouts_hold : struct_layouts.
Proof.
  unfold struct_layouts. split_and!; [| | | | |intros m; rewrite write_tx_ok; apply write_struct
    |intros f; by rewrite write_tx_err, write_all_cons, <-write_struct].
  all: unfold AccountEntrySchema, FeatureActivationSchema, FeeBinWire, InnerInstructionWire,
    TransactionMetadataWire; intros x; rewrite write_as, !write_pair, !write_all_cons;
    cbn [write_all]; rewrite !oapp_nil_r, ?oapp_assoc; done.
Qed.
End layout.

(** ** Properties *)

(** C15.  The layout of snapshots.  [from_bytes] reads the documented bytes of every
    version: those of version 2, without stakes; those of version 3, which are the
    same followed by the stakes, and which are what [to_bytes] writes; and those of
    version 1, which have two more numbers in the middle of a compute budget.  In
    all of them the fields are in the order and have the types of the wire structs,
    and so do the structs in their lists. *)
Theorem snapshot_layouts `{Host} `{Wincode} `{!WincodeLaws} keypair s :
  (∀ b, write_all (payload_parts [] s) = Some b →
     from_bytes keypair (V2_STATE_VERSION :: b)
     = restore_from_snapshot keypair {| v3_state := s; v3_epoch_vote_stakes := [] |} ∧
     ∀ stakes b', write (wc_vec (wc_address ⊗ wc_u64)) stakes = Some b' →
       v3_serialize {| v3_state := s; v3_epoch_vote_stakes := stakes |} = Some (b ++ b') ∧
       from_bytes keypair (STATE_VERSION :: b ++ b')
       = restore_from_snapshot keypair {| v3_state := s; v3_epoch_vote_stakes := stakes |}) ∧
  (∀ x y b, write_all (payload_parts [write wc_u64 x; write wc_u64 y] s) = Some b →
     from_bytes keypair (V1_STATE_VERSION :: b)
     = restore_from_snapshot keypair {| v3_state := s; v3_epoch_vote_stakes := [] |}) ∧
  struct_layouts.
Proof.
  split_and!; [intros b Hb; split|intros x y b Hb|apply struct_layouts_hold].
  - rewrite <-write_v2 in Hb. unfold from_bytes, deserialize_snapshot.
    rewrite decide_False, decide_True by done. unfold v2_deserialize, wire_codec.
    by rewrite (deserialize_all_write _ _ _ SnapshotV2Schema_lawful Hb).
  - intros stakes b' Hb'. rewrite <-write_v2 in Hb.
    set (s3 := {| v3_state := s; v3_epoch_vote_stakes := stakes |}).
    assert (v3_serialize s3 = Some (b ++ b')) as Hw.
    { unfold v3_serialize, wire_codec, SnapshotV3Schema. rewrite write_as, write_pair.
      cbn [fst snd v3_state v3_epoch_vote_stakes s3]. unfold oapp. rewrite Hb, Hb'. done. }
    split; [exact Hw|]. unfold from_bytes, deserialize_snapshot.
    rewrite !decide_False, decide_True by done. by rewrite (v3_roundtrip _ _ Hw).
  - destruct (reads_v1 s x y) as (s1 & Hs1 & Hr). unfold from_bytes, deserialize_snapshot.
    rewrite decide_True by done. unfold v1_deserialize, wire_codec.
    rewrite (deserialize_all_reads _ _ _ _ Hr Hb). simpl. by rewrite Hs1.
Qed.
