(* ===== verification/PersistenceFile.v ===== *)
(** * Snapshot files (crates/persistence/src/lib.rs)

    Saving an instance to a file and loading it back, over an interface for files
    and buffered writers. *)

From S2P Require Import Prelude Errors ComputeBudget Runtime Utils Types History EpochStake.
From S2P Require Import AccountsDb Vm Features Svm Persistence.

(** [File], [BufWriter] and their errors; a step that fails may leave the disk
    changed.  What a writer was given reaches the file when it is flushed at the
    latest. *)
Class SnapshotFs : Type := {
  Disk : Type;
  Writer : Type;
  (** [BufWriter::new(File::create(path)?)] *)
  writer_create : Disk → str → Disk * option Writer;
  writer_write_all : Disk → Writer → bytes → Disk * option Writer;
  writer_flush : Disk → Writer → Disk * bool;
  (** Dropping a writer: what is buffered is written if that works. *)
  writer_drop : Disk → Writer → Disk;
  (** [File::open(path)?] and [read_to_end] *)
  disk_read : Disk → str → option bytes;
  writer_path : Writer → str;
  (** Everything the writer was given. *)
  writer_given : Writer → bytes }.

Class SnapshotFsLaws `{SnapshotFs} : Prop := {
  writer_create_ok d p d' w :
    writer_create d p = (d', Some w) →
    writer_path w = p ∧ writer_given w = [] ∧ disk_read d' p = Some [];
  writer_write_ok d w b d' w' :
    writer_write_all d w b = (d', Some w') →
    writer_path w' = writer_path w ∧ writer_given w' = writer_given w ++ b;
  writer_flush_ok d w d' :
    writer_flush d w = (d', true) → disk_read d' (writer_path w) = Some (writer_given w);
  (** After a flush, and before the first write, there is nothing left to write. *)
  writer_drop_clean d w p :
    disk_read d (writer_path w) = Some (writer_given w) →
    disk_read (writer_drop d w) p = disk_read d p }.

Section files.
Context `{Host} `{SnapshotCodec} `{SnapshotFs}.

(** The writer is dropped on every way out but the one of [create]; a write that
    fails has consumed it here. *)
Definition save_to_file (svm : LiteSVM) (path : str) (d : Disk)
    : Disk * result PersistenceError () :=
  let snapshot := extract_snapshot svm in
  match writer_create d path with
  | (d, None) => (d, Err PE_Io)
  | (d, Some w) =>
      match v3_serialize snapshot with
      | None => (writer_drop d w, Err PE_Write)
      | Some payload =>
          match writer_write_all d w [STATE_VERSION] with
          | (d, None) => (d, Err PE_Io)
          | (d, Some w) =>
              match writer_write_all d w payload with
              | (d, None) => (d, Err PE_Io)
              | (d, Some w) =>
                  match writer_flush d w with
                  | (d, false) => (writer_drop d w, Err PE_Io)
                  | (d, true) => (writer_drop d w, Ok ())
                  end
              end
          end
      end
  end.

Definition load_from_file (keypair : bytes) (path : str) (d : Disk)
    : outcome (result PersistenceError LiteSVM) :=
  match disk_read d path with
  | None => Ret (Err PE_Io)
  | Some [] => Ret (Err PE_EmptyInput)
  | Some (version :: rest) =>
      match deserialize_snapshot version rest with
      | Err e => Ret (Err e)
      | Ok snapshot => restore_from_snapshot keypair snapshot
      end
  end.

Context `{!SnapshotFsLaws}.

Lemma load_from_file_bytes keypair path d b :
  disk_read d path = Some b → load_from_file keypair path d = from_bytes keypair b.
Proof. unfold load_from_file. by intros ->. Qed.

(** Files and bytes agree.  A save that succeeds leaves a file that loads as the
    bytes of the same instance do.  The file is truncated before the snapshot is
    serialized: a save that fails there has destroyed what the file held before,
    and loading it reports empty input. *)
Theorem save_load_agrees keypair svm path d :
  (∀ d', save_to_file svm path d = (d', Ok ()) →
     ∃ b, to_bytes svm = Ok b ∧ load_from_file keypair path d' = from_bytes keypair b) ∧
  (∀ d', save_to_file svm path d = (d', Err PE_Write) →
     load_from_file keypair path d' = Ret (Err PE_EmptyInput)).
Proof.
  unfold save_to_file, to_bytes.
  destruct (writer_create d path) as [d1 [w1|]] eqn:E1; [|done].
  destruct (writer_create_ok _ _ _ _ E1) as (Hp1 & Hg1 & Hr1).
  destruct (v3_serialize _) as [payload|]; simpl.
  2:{ split; [done|]. intros d' [= <-].
      by rewrite (load_from_file_bytes _ _ _ []) by (rewrite writer_drop_clean; congruence). }
  destruct (writer_write_all d1 _ _) as [d2 [w2|]] eqn:E2; [|done].
  destruct (writer_write_all d2 _ _) as [d3 [w3|]] eqn:E3; [|done].
  destruct (writer_flush d3 w3) as [d4 []] eqn:E4; [|done].
  split; [|done]. intros d' [= <-].
  destruct (writer_write_ok _ _ _ _ _ E2) as [Hp2 Hg2].
  destruct (writer_write_ok _ _ _ _ _ E3) as [Hp3 Hg3]. apply writer_flush_ok in E4.
  eexists. split; [done|]. apply load_from_file_bytes. rewrite writer_drop_clean by done.
  by rewrite Hp3, Hp2, Hp1, Hg3, Hg2, Hg1 in E4.
Qed.
End files.
