(* ===== verification/NodeErrors.v ===== *)
(** * Errors of the Node bindings (crates/node-litesvm/src/transaction_error.rs)

    The error values that JavaScript sees and the conversions into them from the
    Solana error enums. *)

From S2P Require Import Prelude Errors.

Inductive InstructionErrorFieldless : Type :=
| IEF_GenericError
| IEF_InvalidArgument
| IEF_InvalidInstructionData
| IEF_InvalidAccountData
| IEF_AccountDataTooSmall
| IEF_InsufficientFunds
| IEF_IncorrectProgramId
| IEF_MissingRequiredSignature
| IEF_AccountAlreadyInitialized
| IEF_UninitializedAccount
| IEF_UnbalancedInstruction
| IEF_ModifiedProgramId
| IEF_ExternalAccountLamportSpend
| IEF_ExternalAccountDataModified
| IEF_ReadonlyLamportChange
| IEF_ReadonlyDataModified
| IEF_DuplicateAccountIndex
| IEF_ExecutableModified
| IEF_RentEpochModified
| IEF_NotEnoughAccountKeys
| IEF_AccountDataSizeChanged
| IEF_AccountNotExecutable
| IEF_AccountBorrowFailed
| IEF_AccountBorrowOutstanding
| IEF_DuplicateAccountOutOfSync
| IEF_InvalidError
| IEF_ExecutableDataModified
| IEF_ExecutableLamportChange
| IEF_ExecutableAccountNotRentExempt
| IEF_UnsupportedProgramId
| IEF_CallDepth
| IEF_MissingAccount
| IEF_ReentrancyNotAllowed
| IEF_MaxSeedLengthExceeded
| IEF_InvalidSeeds
| IEF_InvalidRealloc
| IEF_ComputationalBudgetExceeded
| IEF_PrivilegeEscalation
| IEF_ProgramEnvironmentSetupFailure
| IEF_ProgramFailedToComplete
| IEF_ProgramFailedToCompile
| IEF_Immutable
| IEF_IncorrectAuthority
| IEF_AccountNotRentExempt
| IEF_InvalidAccountOwner
| IEF_ArithmeticOverflow
| IEF_UnsupportedSysvar
| IEF_IllegalOwner
| IEF_MaxAccountsDataAllocationsExceeded
| IEF_MaxAccountsExceeded
| IEF_MaxInstructionTraceLengthExceeded
| IEF_BuiltinProgramsMustConsumeComputeUnits
| IEF_BorshIoError.

(** [Either3] of the fieldless errors, the custom code and the Borsh message. *)
Inductive NodeInstructionError : Type :=
| NIE_A (e : InstructionErrorFieldless)
| NIE_B (code : N)
| NIE_C (msg : str).

Definition convert_instruction_error (e : InstructionError) : NodeInstructionError :=
  match e with
  | IE_Custom code => NIE_B code
  | IE_BorshIoError => NIE_A IEF_BorshIoError
  | IE_GenericError => NIE_A IEF_GenericError
  | IE_InvalidArgument => NIE_A IEF_InvalidArgument
  | IE_InvalidInstructionData => NIE_A IEF_InvalidInstructionData
  | IE_InvalidAccountData => NIE_A IEF_InvalidAccountData
  | IE_AccountDataTooSmall => NIE_A IEF_AccountDataTooSmall
  | IE_InsufficientFunds => NIE_A IEF_InsufficientFunds
  | IE_IncorrectProgramId => NIE_A IEF_IncorrectProgramId
  | IE_MissingRequiredSignature => NIE_A IEF_MissingRequiredSignature
  | IE_AccountAlreadyInitialized => NIE_A IEF_AccountAlreadyInitialized
  | IE_UninitializedAccount => NIE_A IEF_UninitializedAccount
  | IE_UnbalancedInstruction => NIE_A IEF_UnbalancedInstruction
  | IE_ModifiedProgramId => NIE_A IEF_ModifiedProgramId
  | IE_ExternalAccountLamportSpend => NIE_A IEF_ExternalAccountLamportSpend
  | IE_ExternalAccountDataModified => NIE_A IEF_ExternalAccountDataModified
  | IE_ReadonlyLamportChange => NIE_A IEF_ReadonlyLamportChange
  | IE_ReadonlyDataModified => NIE_A IEF_ReadonlyDataModified
  | IE_DuplicateAccountIndex => NIE_A IEF_DuplicateAccountIndex
  | IE_ExecutableModified => NIE_A IEF_ExecutableModified
  | IE_RentEpochModified => NIE_A IEF_RentEpochModified
  | IE_NotEnoughAccountKeys => NIE_A IEF_NotEnoughAccountKeys
  | IE_AccountDataSizeChanged => NIE_A IEF_AccountDataSizeChanged
  | IE_AccountNotExecutable => NIE_A IEF_AccountNotExecutable
  | IE_AccountBorrowFailed => NIE_A IEF_AccountBorrowFailed
  | IE_AccountBorrowOutstanding => NIE_A IEF_AccountBorrowOutstanding
  | IE_DuplicateAccountOutOfSync => NIE_A IEF_DuplicateAccountOutOfSync
  | IE_InvalidError => NIE_A IEF_InvalidError
  | IE_ExecutableDataModified => NIE_A IEF_ExecutableDataModified
  | IE_ExecutableLamportChange => NIE_A IEF_ExecutableLamportChange
  | IE_ExecutableAccountNotRentExempt => NIE_A IEF_ExecutableAccountNotRentExempt
  | IE_UnsupportedProgramId => NIE_A IEF_UnsupportedProgramId
  | IE_CallDepth => NIE_A IEF_CallDepth
  | IE_MissingAccount => NIE_A IEF_MissingAccount
  | IE_ReentrancyNotAllowed => NIE_A IEF_ReentrancyNotAllowed
  | IE_MaxSeedLengthExceeded => NIE_A IEF_MaxSeedLengthExceeded
  | IE_InvalidSeeds => NIE_A IEF_InvalidSeeds
  | IE_InvalidRealloc => NIE_A IEF_InvalidRealloc
  | IE_ComputationalBudgetExceeded => NIE_A IEF_ComputationalBudgetExceeded
  | IE_PrivilegeEscalation => NIE_A IEF_PrivilegeEscalation
  | IE_ProgramEnvironmentSetupFailure => NIE_A IEF_ProgramEnvironmentSetupFailure
  | IE_ProgramFailedToComplete => NIE_A IEF_ProgramFailedToComplete
  | IE_ProgramFailedToCompile => NIE_A IEF_ProgramFailedToCompile
  | IE_Immutable => NIE_A IEF_Immutable
  | IE_IncorrectAuthority => NIE_A IEF_IncorrectAuthority
  | IE_AccountNotRentExempt => NIE_A IEF_AccountNotRentExempt
  | IE_InvalidAccountOwner => NIE_A IEF_InvalidAccountOwner
  | IE_ArithmeticOverflow => NIE_A IEF_ArithmeticOverflow
  | IE_UnsupportedSysvar => NIE_A IEF_UnsupportedSysvar
  | IE_IllegalOwner => NIE_A IEF_IllegalOwner
  | IE_MaxAccountsDataAllocationsExceeded => NIE_A IEF_MaxAccountsDataAllocationsExceeded
  | IE_MaxAccountsExceeded => NIE_A IEF_MaxAccountsExceeded
  | IE_MaxInstructionTraceLengthExceeded => NIE_A IEF_MaxInstructionTraceLengthExceeded
  | IE_BuiltinProgramsMustConsumeComputeUnits => NIE_A IEF_BuiltinProgramsMustConsumeComputeUnits
  end.

Inductive TransactionErrorFieldless : Type :=
| TEF_AccountInUse
| TEF_AccountLoadedTwice
| TEF_AccountNotFound
| TEF_ProgramAccountNotFound
| TEF_InsufficientFundsForFee
| TEF_InvalidAccountForFee
| TEF_AlreadyProcessed
| TEF_BlockhashNotFound
| TEF_CallChainTooDeep
| TEF_MissingSignatureForFee
| TEF_InvalidAccountIndex
| TEF_SignatureFailure
| TEF_InvalidProgramForExecution
| TEF_SanitizeFailure
| TEF_ClusterMaintenance
| TEF_AccountBorrowOutstanding
| TEF_WouldExceedMaxBlockCostLimit
| TEF_UnsupportedVersion
| TEF_InvalidWritableAccount
| TEF_WouldExceedMaxAccountCostLimit
| TEF_WouldExceedAccountDataBlockLimit
| TEF_TooManyAccountLocks
| TEF_AddressLookupTableNotFound
| TEF_InvalidAddressLookupTableOwner
| TEF_InvalidAddressLookupTableData
| TEF_InvalidAddressLookupTableIndex
| TEF_InvalidRentPayingAccount
| TEF_WouldExceedMaxVoteCostLimit
| TEF_WouldExceedAccountDataTotalLimit
| TEF_MaxLoadedAccountsDataSizeExceeded
| TEF_ResanitizationNeeded
| TEF_InvalidLoadedAccountsDataSizeLimit
| TEF_UnbalancedTransaction
| TEF_ProgramCacheHitMaxLimit
| TEF_CommitCancelled.

(** [Either5] of the fieldless errors and the four with fields. *)
Inductive NodeTransactionError : Type :=
| NTE_A (e : TransactionErrorFieldless)
| NTE_B (index : N) (error : NodeInstructionError)
| NTE_C (index : N)
| NTE_D (account_index : N)
| NTE_E (account_index : N).

Definition convert_transaction_error (w : TransactionError) : NodeTransactionError :=
  match w with
  | TE_InstructionError index err => NTE_B index (convert_instruction_error err)
  | TE_DuplicateInstruction index => NTE_C index
  | TE_InsufficientFundsForRent account_index => NTE_D account_index
  | TE_ProgramExecutionTemporarilyRestricted account_index => NTE_E account_index
  | TE_AccountInUse => NTE_A TEF_AccountInUse
  | TE_AccountLoadedTwice => NTE_A TEF_AccountLoadedTwice
  | TE_AccountNotFound => NTE_A TEF_AccountNotFound
  | TE_ProgramAccountNotFound => NTE_A TEF_ProgramAccountNotFound
  | TE_InsufficientFundsForFee => NTE_A TEF_InsufficientFundsForFee
  | TE_InvalidAccountForFee => NTE_A TEF_InvalidAccountForFee
  | TE_AlreadyProcessed => NTE_A TEF_AlreadyProcessed
  | TE_BlockhashNotFound => NTE_A TEF_BlockhashNotFound
  | TE_CallChainTooDeep => NTE_A TEF_CallChainTooDeep
  | TE_MissingSignatureForFee => NTE_A TEF_MissingSignatureForFee
  | TE_InvalidAccountIndex => NTE_A TEF_InvalidAccountIndex
  | TE_SignatureFailure => NTE_A TEF_SignatureFailure
  | TE_InvalidProgramForExecution => NTE_A TEF_InvalidProgramForExecution
  | TE_SanitizeFailure => NTE_A TEF_SanitizeFailure
  | TE_ClusterMaintenance => NTE_A TEF_ClusterMaintenance
  | TE_AccountBorrowOutstanding => NTE_A TEF_AccountBorrowOutstanding
  | TE_WouldExceedMaxBlockCostLimit => NTE_A TEF_WouldExceedMaxBlockCostLimit
  | TE_UnsupportedVersion => NTE_A TEF_UnsupportedVersion
  | TE_InvalidWritableAccount => NTE_A TEF_InvalidWritableAccount
  | TE_WouldExceedMaxAccountCostLimit => NTE_A TEF_WouldExceedMaxAccountCostLimit
  | TE_WouldExceedAccountDataBlockLimit => NTE_A TEF_WouldExceedAccountDataBlockLimit
  | TE_TooManyAccountLocks => NTE_A TEF_TooManyAccountLocks
  | TE_AddressLookupTableNotFound => NTE_A TEF_AddressLookupTableNotFound
  | TE_InvalidAddressLookupTableOwner => NTE_A TEF_InvalidAddressLookupTableOwner
  | TE_InvalidAddressLookupTableData => NTE_A TEF_InvalidAddressLookupTableData
  | TE_InvalidAddressLookupTableIndex => NTE_A TEF_InvalidAddressLookupTableIndex
  | TE_InvalidRentPayingAccount => NTE_A TEF_InvalidRentPayingAccount
  | TE_WouldExceedMaxVoteCostLimit => NTE_A TEF_WouldExceedMaxVoteCostLimit
  | TE_WouldExceedAccountDataTotalLimit => NTE_A TEF_WouldExceedAccountDataTotalLimit
  | TE_MaxLoadedAccountsDataSizeExceeded => NTE_A TEF_MaxLoadedAccountsDataSizeExceeded
  | TE_ResanitizationNeeded => NTE_A TEF_ResanitizationNeeded
  | TE_InvalidLoadedAccountsDataSizeLimit => NTE_A TEF_InvalidLoadedAccountsDataSizeLimit
  | TE_UnbalancedTransaction => NTE_A TEF_UnbalancedTransaction
  | TE_ProgramCacheHitMaxLimit => NTE_A TEF_ProgramCacheHitMaxLimit
  | TE_CommitCancelled => NTE_A TEF_CommitCancelled
  end.

(** ** Lemmas *)

#[export] Instance convert_instruction_error_inj : Inj (=) (=) convert_instruction_error.
Proof. intros x y. destruct x, y; simpl; congruence. Qed.

(** No instruction error becomes the Borsh message object. *)
Lemma convert_instruction_error_not_borsh e msg : convert_instruction_error e ≠ NIE_C msg.
Proof. by destruct e. Qed.

(** Searches the constructors for the preimage of a converted value. *)
Ltac find_preimage := unshelve eexists; [econstructor|reflexivity].

Lemma fieldless_instruction_error_reached e : ∃ x, convert_instruction_error x = NIE_A e.
Proof. destruct e; find_preimage. Qed.

Lemma fieldless_transaction_error_reached e : ∃ w, convert_transaction_error w = NTE_A e.
Proof. destruct e; find_preimage. Qed.

(** ** Properties *)

(** The conversion to JavaScript errors loses nothing: different transaction
    errors convert to different values, every fieldless value and every custom
    code is reached, and the Borsh message object never occurs. *)
Theorem convert_transaction_error_faithful :
  (∀ x y, convert_transaction_error x = convert_transaction_error y → x = y) ∧
  (∀ e, ∃ w, convert_transaction_error w = NTE_A e) ∧
  (∀ i e, ∃ w, convert_transaction_error w = NTE_B i (NIE_A e)) ∧
  (∀ i code, ∃ w, convert_transaction_error w = NTE_B i (NIE_B code)) ∧
  (∀ w i msg, convert_transaction_error w ≠ NTE_B i (NIE_C msg)).
Proof.
  split_and!.
  - intros x y. destruct x, y; simpl; try congruence.
    intros [= -> ->%(inj convert_instruction_error)]. done.
  - apply fieldless_transaction_error_reached.
  - intros i e. destruct (fieldless_instruction_error_reached e) as [x Hx].
    exists (TE_InstructionError i x). simpl. by rewrite Hx.
  - intros i code. by exists (TE_InstructionError i (IE_Custom code)).
  - intros w i msg. destruct w; simpl; try done. intros [= _ He].
    by apply convert_instruction_error_not_borsh in He.
Qed.
