(* ===== verification/Text.v ===== *)
(** * Text

    The operations on strings that the log tools use: literals, splitting,
    prefixes, trimming and decimal numbers, as Rust's [str] has them.  A string is
    the list of its Unicode scalar values. *)

From Stdlib.Strings Require Import Ascii.
From S2P Require Import Prelude.

(** An ASCII literal. *)
Definition lit (s : string) : str := N_of_ascii <$> String.list_ascii_of_string s.

Definition SPACE : N := 32.
Definition NEWLINE : N := 10.

(** [str::strip_prefix] and [str::strip_suffix]. *)
Fixpoint strip_prefix (p s : str) : option str :=
  match p, s with
  | [], s => Some s
  | a :: p, b :: s => if (a =? b)%N then strip_prefix p s else None
  | _ :: _, [] => None
  end.

Definition strip_suffix (p s : str) : option str :=
  reverse <$> strip_prefix (reverse p) (reverse s).

(** [str::split(c)]: at least one piece. *)
Fixpoint split_on (c : N) (s : str) : list str :=
  match s with
  | [] => [[]]
  | x :: s =>
      if (x =? c)%N then [] :: split_on c s
      else match split_on c s with
           | w :: ws => (x :: w) :: ws
           | [] => [[x]]
           end
  end.

(** What [splitn(n + 1, c).nth(n)] gives: the text after the [n]-th [c]. *)
Fixpoint after_nth (c : N) (n : nat) (s : str) : option str :=
  match n, s with
  | 0, s => Some s
  | S _, [] => None
  | S n', x :: s => if (x =? c)%N then after_nth c n' s else after_nth c n s
  end.

(** The Unicode [White_Space] property. *)
Definition is_whitespace (c : N) : bool :=
  ((9 <=? c) && (c <=? 13) || (c =? 32) || (c =? 133) || (c =? 160) || (c =? 5760)
   || (8192 <=? c) && (c <=? 8202) || (c =? 8232) || (c =? 8233) || (c =? 8239)
   || (c =? 8287) || (c =? 12288))%N.

Fixpoint trim_start (s : str) : str :=
  match s with
  | c :: s' => if is_whitespace c then trim_start s' else s
  | [] => []
  end.

Definition trim (s : str) : str := reverse (trim_start (reverse (trim_start s))).

(** ** Decimal numbers *)

Definition digit_value (c : N) : option N :=
  if ((48 <=? c) && (c <=? 57))%N then Some (c - 48)%N else None.

(** The value of a run of digits, with the accumulator checked at every step. *)
Fixpoint parse_digits (max acc : N) (s : str) : option N :=
  match s with
  | [] => Some acc
  | c :: s =>
      d ← digit_value c;
      let acc := (acc * 10 + d)%N in
      if (acc <=? max)%N then parse_digits max acc s else None
  end.

(** [str::parse::<u64>]: an optional plus sign, at least one digit. *)
Definition parse_unsigned (max : N) (s : str) : option N :=
  match s with
  | [] => None
  | c :: s' =>
      if (c =? 43)%N then match s' with [] => None | _ => parse_digits max 0 s' end
      else parse_digits max 0 s
  end.

Fixpoint decimal_digits (fuel : nat) (n : N) : str :=
  match fuel with
  | 0 => []
  | S fuel =>
      if (n <? 10)%N then [(48 + n)%N]
      else decimal_digits fuel (n / 10) ++ [(48 + n mod 10)%N]
  end.

(** [u64::to_string]; the number of bits bounds the number of digits. *)
Definition to_decimal (n : N) : str := decimal_digits (S (N.size_nat n)) n.

(** The longest prefix of characters in a class, and what follows it. *)
Fixpoint take_while (p : N → bool) (s : str) : str :=
  match s with
  | c :: s => if p c then c :: take_while p s else []
  | [] => []
  end.

Fixpoint drop_while (p : N → bool) (s : str) : str :=
  match s with
  | c :: s' => if p c then drop_while p s' else s
  | [] => []
  end.

(** ** Lemmas *)

Section while.
Context (p : N → bool).

Lemma take_drop_while s : take_while p s ++ drop_while p s = s.
Proof. induction s as [|c s IH]; simpl; [done|]. destruct (p c); simpl; by rewrite ?IH. Qed.

Lemma take_while_all s : Forall (λ c, p c = true) (take_while p s).
Proof. induction s as [|c s IH]; simpl; [done|]. destruct (p c) eqn:Hc; by repeat constructor. Qed.

Lemma drop_while_app s t : Forall (λ c, p c = true) s → drop_while p (s ++ t) = drop_while p t.
Proof. induction 1 as [|c s Hc _ IH]; simpl; [done|]. by rewrite Hc. Qed.

Lemma take_while_app s t :
  Forall (λ c, p c = true) s → match t with c :: _ => p c = false | [] => True end →
  take_while p (s ++ t) = s ∧ drop_while p (s ++ t) = t.
Proof.
  intros Hs Ht. induction Hs as [|c s Hc _ [IH1 IH2]]; simpl.
  - destruct t as [|c t]; [done|]. simpl. by rewrite Ht.
  - by rewrite Hc, IH1, IH2.
Qed.

Lemma drop_while_head s : match drop_while p s with c :: _ => p c = false | [] => True end.
Proof. induction s as [|c s IH]; simpl; [done|]. by destruct (p c) eqn:Hc. Qed.

Lemma drop_while_id s :
  match s with c :: _ => p c = false | [] => True end → drop_while p s = s.
Proof. destruct s as [|c s]; simpl; [done|]. by intros ->. Qed.

Lemma drop_while_length s : (length (drop_while p s) ≤ length s)%nat.
Proof. induction s as [|c s IH]; simpl; [done|]. destruct (p c); simpl; lia. Qed.

Lemma drop_while_app_length s t : (length (drop_while p t) ≤ length (drop_while p (s ++ t)))%nat.
Proof.
  induction s as [|c s IH]; simpl; [done|]. destruct (p c); [done|]. simpl. rewrite length_app.
  pose proof (drop_while_length t). lia.
Qed.

Lemma drop_while_idemp s : drop_while p (drop_while p s) = drop_while p s.
Proof. apply drop_while_id, drop_while_head. Qed.
End while.

Lemma strip_prefix_Some p s t : strip_prefix p s = Some t ↔ s = p ++ t.
Proof.
  revert s. induction p as [|a p IH]; intros s; simpl; [naive_solver|].
  destruct s as [|b s]; [naive_solver|].
  destruct (N.eqb_spec a b) as [->|Hne]; [rewrite IH|]; naive_solver.
Qed.

Lemma strip_prefix_app p t : strip_prefix p (p ++ t) = Some t.
Proof. by apply strip_prefix_Some. Qed.

(** A common prefix plays no part. *)
Lemma strip_prefix_cancel p q s : strip_prefix (p ++ q) (p ++ s) = strip_prefix q s.
Proof. induction p as [|a p IH]; simpl; [done|]. by rewrite N.eqb_refl. Qed.

(** A prefix whose first [d] comes before any space cannot match a word without
    [d] followed by a space. *)
Lemma strip_prefix_word d w q a r :
  d ≠ SPACE → SPACE ∉ w → d ∉ a → strip_prefix (w ++ d :: q) (a ++ SPACE :: r) = None.
Proof.
  intros Hd Hw Ha. destruct (strip_prefix _ _) as [t|] eqn:Hs; [exfalso|done].
  apply strip_prefix_Some in Hs. revert w Hw Hs.
  induction a as [|x a IH]; intros w Hw Hs; destruct w as [|y w];
    simpl in Hs; injection Hs as Hx Hs; [congruence|set_solver..|].
  apply (IH ltac:(set_solver) w); [set_solver|exact Hs].
Qed.

Lemma split_on_word c w : c ∉ w → split_on c w = [w].
Proof.
  induction w as [|x w IH]; simpl; [done|]. intros Hw.
  destruct (N.eqb_spec x c) as [->|]; [set_solver|]. rewrite IH by set_solver. done.
Qed.

Lemma split_on_app c w s : c ∉ w → split_on c (w ++ c :: s) = w :: split_on c s.
Proof.
  induction w as [|x w IH]; simpl; [by rewrite N.eqb_refl|]. intros Hw.
  destruct (N.eqb_spec x c) as [->|]; [set_solver|]. rewrite IH by set_solver. done.
Qed.

Lemma after_nth_word c n w s : c ∉ w → after_nth c (S n) (w ++ c :: s) = after_nth c n s.
Proof.
  induction w as [|x w IH]; intros Hw; simpl; [by rewrite N.eqb_refl|].
  destruct (N.eqb_spec x c) as [->|]; [set_solver|]. apply IH. set_solver.
Qed.

(** *** Decimal round trip *)

Lemma size_nat_div n : (10 ≤ n)%N → (N.size_nat (n / 10) < N.size_nat n)%nat.
Proof.
  intros Hn. destruct n as [|p]; [lia|].
  assert (∀ m, N.size_nat m = N.to_nat (N.size m)) as Hsz.
  { intros [|q]; [done|]. simpl. induction q as [q IH|q IH|]; simpl; [lia..|done]. }
  pose proof (N.div_str_pos (N.pos p) 10 ltac:(lia)) as Hpos.
  rewrite !Hsz, !N.size_log2 by lia.
  pose proof (N.log2_spec (N.pos p / 10) Hpos) as [Hlo _].
  pose proof (N.log2_spec (N.pos p) ltac:(lia)) as [_ Hhi].
  assert (N.pos p / 10 * 2 ≤ N.pos p)%N by (pose proof (N.Div0.mul_div_le (N.pos p) 10); lia).
  assert (2 ^ N.succ (N.log2 (N.pos p / 10)) < 2 ^ N.succ (N.log2 (N.pos p)))%N as Hlt
    by (rewrite N.pow_succ_r'; lia).
  apply N.pow_lt_mono_r_iff in Hlt; lia.
Qed.

Lemma digit_value_digit d : (d < 10)%N → digit_value (48 + d) = Some d.
Proof.
  intros Hd. unfold digit_value.
  destruct (N.leb_spec 48 (48 + d)); [|lia]. destruct (N.leb_spec (48 + d) 57); [|lia].
  simpl. f_equal. lia.
Qed.

Lemma parse_digits_app max s1 s2 : ∀ acc,
  parse_digits max acc (s1 ++ s2) = parse_digits max acc s1 ≫= λ acc, parse_digits max acc s2.
Proof.
  induction s1 as [|c s1 IH]; intros acc; simpl; [done|].
  destruct (digit_value c); simpl; [|done]. destruct (_ <=? max)%N; [apply IH|done].
Qed.

Lemma parse_decimal_digits max fuel : ∀ n,
  (N.size_nat n < fuel)%nat → (n ≤ max)%N → parse_digits max 0 (decimal_digits fuel n) = Some n.
Proof.
  induction fuel as [|fuel IH]; intros n Hf Hmax; [lia|]. simpl.
  destruct (N.ltb_spec n 10) as [Hlt|Hge].
  - cbn [parse_digits]. rewrite digit_value_digit by lia. cbn [mbind option_bind].
    rewrite N.mul_0_l, N.add_0_l. destruct (N.leb_spec n max); [done|lia].
  - pose proof (size_nat_div n Hge). pose proof (N.Div0.div_le_mono n n 10).
    assert (n / 10 ≤ n)%N by (apply N.Div0.div_le_upper_bound; lia).
    rewrite parse_digits_app, IH by lia. cbn [mbind option_bind parse_digits].
    pose proof (N.mod_lt n 10 ltac:(lia)) as Hm. rewrite digit_value_digit by lia.
    cbn [mbind option_bind].
    pose proof (N.div_mod n 10 ltac:(lia)) as Hdm.
    replace (n / 10 * 10 + n mod 10)%N with n by lia.
    destruct (N.leb_spec n max); [done|lia].
Qed.

Lemma decimal_digits_digits fuel : ∀ n,
  Forall (λ c, 48 ≤ c ≤ 57)%N (decimal_digits fuel n).
Proof.
  induction fuel as [|fuel IH]; intros n; cbn [decimal_digits]; [constructor|].
  destruct (N.ltb_spec n 10); [apply Forall_singleton; lia|].
  apply Forall_app. split; [apply IH|]. apply Forall_singleton.
  pose proof (N.mod_lt n 10 ltac:(lia)) as Hm. cbn beta. clear IH.
  generalize dependent (n mod 10)%N. intros m Hm. lia.
Qed.

Lemma to_decimal_digits n : Forall (λ c, 48 ≤ c ≤ 57)%N (to_decimal n).
Proof. apply decimal_digits_digits. Qed.

Lemma to_decimal_no c n : (c < 48 ∨ 57 < c)%N → c ∉ to_decimal n.
Proof.
  intros Hc Hin. pose proof (to_decimal_digits n) as Hd. rewrite Forall_forall in Hd.
  specialize (Hd _ Hin). simpl in Hd. lia.
Qed.

Lemma to_decimal_nonempty n : to_decimal n ≠ [].
Proof.
  unfold to_decimal. simpl. destruct (n <? 10)%N; [done|]. by destruct (decimal_digits _ _).
Qed.

Lemma parse_to_decimal max n : (n ≤ max)%N → parse_unsigned max (to_decimal n) = Some n.
Proof.
  intros Hn. unfold parse_unsigned.
  pose proof (parse_decimal_digits max (S (N.size_nat n)) n ltac:(lia) Hn) as Hp.
  fold (to_decimal n) in Hp. pose proof (to_decimal_digits n) as Hd.
  destruct (to_decimal n) as [|c s] eqn:Hs; [by apply to_decimal_nonempty in Hs|].
  apply Forall_cons in Hd as [Hc _]. destruct (N.eqb_spec c 43); [lia|]. exact Hp.
Qed.
