(* ===== verification/SerdeStr.v ===== *)
(** * Values serialized as their text (crates/litesvm/src/utils/serde_with_str.rs)

    The two functions that serde calls for the fields that are written as strings,
    over an interface for the format and for the text of a type. *)

From S2P Require Import Prelude Text.

(** A serde format, as far as strings go. *)
Class SerdeFormat : Type := {
  wire : Type;
  serde_error : Type;
  serialize_str : str → result serde_error wire;
  deserialize_str : wire → result serde_error str;
  (** [de::Error::custom] *)
  custom_error : str → serde_error }.

Class SerdeFormatLaws `{SerdeFormat} : Prop := {
  serde_str_roundtrip s w : serialize_str s = Ok w → deserialize_str w = Ok s }.

(** [ToString] and [FromStr] of a type, the error of parsing by its debug text. *)
Class Textual (T : Type) : Type := {
  to_text : T → str;
  parse_text : str → result str T }.

Section serde.
Context `{SerdeFormat} {T : Type} `{Textual T}.

Definition serialize_as_str (t : T) : result serde_error wire := serialize_str (to_text t).

Definition deserialize_as_str (w : wire) : result serde_error T :=
  s ← deserialize_str w;
  map_err (λ e, custom_error (lit "Parse error: " ++ e)) (parse_text s).

(** What is written reads back as what its text parses to; so a value whose text
    parses to itself survives, and a text that does not parse is a custom error. *)
Theorem serde_as_str_roundtrip `{!SerdeFormatLaws} (t : T) w (Hw : serialize_as_str t = Ok w) :
  (parse_text (to_text t) = Ok t → deserialize_as_str w = Ok t) ∧
  (∀ e, parse_text (to_text t) = Err e →
     deserialize_as_str w = Err (custom_error (lit "Parse error: " ++ e))).
Proof.
  unfold deserialize_as_str. rewrite (serde_str_roundtrip _ _ Hw). simpl.
  split; [by intros ->|]. by intros e ->.
Qed.
End serde.
