(* ===== verification/Bytes.v ===== *)
(** * Bytes and little-endian words

    The bytes of machine words, shared by the debugger client and by the floats of
    the bindings. *)

From S2P Require Import Prelude.

(** [n as u8] *)
Definition byte_of (n : N) : Byte.byte := default Byte.x00 (Byte.of_N (n mod 256)).

Fixpoint from_le_bytes (b : bytes) : N :=
  match b with
  | [] => 0
  | x :: b => (Byte.to_N x + 256 * from_le_bytes b)%N
  end.

Fixpoint to_le_bytes (n : nat) (x : N) : bytes :=
  match n with
  | O => []
  | S n => byte_of x :: to_le_bytes n (x / 256)
  end.

Lemma byte_of_to_N n : Byte.to_N (byte_of n) = (n mod 256)%N.
Proof.
  unfold byte_of. assert (n mod 256 < 256)%N as Hlt by (apply N.mod_lt; done).
  destruct (Byte.of_N (n mod 256)) as [b|] eqn:Hb; simpl; [by apply Byte.to_of_N|].
  apply Byte.of_N_None_iff in Hb. lia.
Qed.

Lemma length_to_le_bytes n : ∀ x, length (to_le_bytes n x) = n.
Proof. induction n as [|n IH]; intros x; simpl; by rewrite ?IH. Qed.

Lemma le_bytes_roundtrip n : ∀ x, (x < 256 ^ N.of_nat n)%N →
  from_le_bytes (to_le_bytes n x) = x.
Proof.
  induction n as [|n IH]; intros x Hx; [simpl in *; lia|].
  cbn [to_le_bytes from_le_bytes]. rewrite byte_of_to_N, IH.
  - pose proof (N.div_mod x 256). lia.
  - apply N.Div0.div_lt_upper_bound. by rewrite Nat2N.inj_succ, N.pow_succ_r' in Hx.
Qed.
