(* ===== verification/F64.v ===== *)
(** * The 64-bit floats of the bindings

    What the program uses of Rust's [f64]: the conversion of an integer, the
    product, the saturating cast back and the byte encoding, over the Standard
    Library's specification of IEEE 754 arithmetic.  A NaN carries no payload. *)

From Stdlib Require Import Floats.SpecFloat.
From S2P Require Import Prelude Bytes.

Abbreviation f64 := spec_float (only parsing).

Definition f64_prec : Z := 53.
Definition f64_emax : Z := 1024.

(** The numbers that the format holds. *)
Definition f64_valid (x : f64) : bool := valid_binary f64_prec f64_emax x.

(** [n as f64] *)
Definition u64_as_f64 (n : N) : f64 := binary_normalize f64_prec f64_emax (Z.of_N n) 0 false.

Definition f64_mul (x y : f64) : f64 := SFmul f64_prec f64_emax x y.

(** [x as u64]: towards zero, saturating, 0 for a NaN. *)
Definition f64_as_u64 (x : f64) : N :=
  match x with
  | S754_zero _ | S754_nan => 0
  | S754_infinity negative => if negative then 0 else u64_max
  | S754_finite negative m e =>
      if negative then 0
      else N.min u64_max
             (if (0 <=? e)%Z then Npos m * 2 ^ Z.to_N e else Npos m / 2 ^ Z.to_N (- e))
  end%N.

(** ** Encoding: sign, 11 bits of exponent, 52 bits of fraction *)

Definition pack_fields (negative : bool) (exponent fraction : N) : N :=
  (N.b2n negative * 2 ^ 63 + exponent * 2 ^ 52 + fraction)%N.

Definition f64_to_bits (x : f64) : N :=
  match x with
  | S754_zero s => pack_fields s 0 0
  | S754_infinity s => pack_fields s 2047 0
  | S754_nan => pack_fields false 2047 (2 ^ 51)
  | S754_finite s m e =>
      if (Npos m <? 2 ^ 52)%N then pack_fields s 0 (Npos m)
      else pack_fields s (Z.to_N (e + 1075)) (Npos m - 2 ^ 52)
  end.

Definition f64_from_bits (n : N) : f64 :=
  let s := N.testbit n 63 in
  let exponent := ((n / 2 ^ 52) mod 2 ^ 11)%N in
  let fraction := (n mod 2 ^ 52)%N in
  if (exponent =? 2047)%N then
    if (fraction =? 0)%N then S754_infinity s else S754_nan
  else if (exponent =? 0)%N then
    match fraction with N0 => S754_zero s | Npos m => S754_finite s m (-1074) end
  else S754_finite s (N.succ_pos (fraction + 2 ^ 52 - 1)) (Z.of_N exponent - 1075).

Definition f64_to_le_bytes (x : f64) : bytes := to_le_bytes 8 (f64_to_bits x).
Definition f64_from_le_bytes (b : bytes) : f64 := f64_from_bits (from_le_bytes b).

(** ** Decoding an encoding *)

Lemma pack_fields_bound s e f :
  (e < 2 ^ 11)%N → (f < 2 ^ 52)%N → (pack_fields s e f < 2 ^ 64)%N.
Proof. unfold pack_fields. destruct s; simpl N.b2n; lia. Qed.

Lemma pack_fields_fraction s e f : (f < 2 ^ 52)%N → (pack_fields s e f mod 2 ^ 52 = f)%N.
Proof.
  intros Hf. unfold pack_fields.
  replace (N.b2n s * 2 ^ 63 + e * 2 ^ 52 + f)%N
    with (f + (N.b2n s * 2 ^ 11 + e) * 2 ^ 52)%N by lia.
  by rewrite N.Div0.mod_add, N.mod_small.
Qed.

Lemma pack_fields_div s e f :
  (f < 2 ^ 52)%N → (pack_fields s e f / 2 ^ 52 = N.b2n s * 2 ^ 11 + e)%N.
Proof.
  intros Hf. unfold pack_fields.
  replace (N.b2n s * 2 ^ 63 + e * 2 ^ 52 + f)%N
    with (f + (N.b2n s * 2 ^ 11 + e) * 2 ^ 52)%N by lia.
  by rewrite N.div_add, N.div_small.
Qed.

Lemma pack_fields_exponent s e f :
  (e < 2 ^ 11)%N → (f < 2 ^ 52)%N → ((pack_fields s e f / 2 ^ 52) mod 2 ^ 11 = e)%N.
Proof.
  intros He Hf. rewrite pack_fields_div, N.add_comm by done.
  by rewrite N.Div0.mod_add, N.mod_small.
Qed.

Lemma pack_fields_sign s e f :
  (e < 2 ^ 11)%N → (f < 2 ^ 52)%N → N.testbit (pack_fields s e f) 63 = s.
Proof.
  intros He Hf. rewrite N.testbit_eqb. change 63%N with (52 + 11)%N.
  rewrite N.pow_add_r, <-N.Div0.div_div, pack_fields_div by done.
  rewrite N.add_comm, N.div_add, N.div_small by done. by destruct s.
Qed.

Lemma digits2_pos_bounds m :
  (2 ^ (Zpos (digits2_pos m) - 1) ≤ Zpos m < 2 ^ Zpos (digits2_pos m))%Z.
Proof.
  assert (∀ p, 2 ^ Zpos (Pos.succ p) = 2 * 2 ^ Zpos p ∧
               2 ^ (Zpos (Pos.succ p) - 1) = 2 * 2 ^ (Zpos p - 1))%Z as Hpow.
  { intros p. rewrite Pos2Z.inj_succ. split; [by rewrite Z.pow_succ_r|].
    rewrite <-Z.pow_succ_r by lia. f_equal. lia. }
  induction m as [m IH|m IH|]; simpl digits2_pos; [| |done];
    destruct (Hpow (digits2_pos m)) as [-> ->]; lia.
Qed.

(** A valid finite number is normal, or has the smallest exponent. *)
Lemma valid_finite s m e : f64_valid (S754_finite s m e) = true →
  if (Npos m <? 2 ^ 52)%N then e = (-1074)%Z
  else (Npos m < 2 ^ 53)%N ∧ (-1074 ≤ e ≤ 971)%Z.
Proof.
  unfold f64_valid, valid_binary, bounded, canonical_mantissa, fexp, emin, f64_prec, f64_emax.
  intros [Hc%Z.eqb_eq He%Z.leb_le]%andb_prop. pose proof (digits2_pos_bounds m) as Hm.
  remember (Zpos (digits2_pos m)) as d eqn:Hd.
  assert (d ≤ 53)%Z as Hd53 by lia.
  assert (2 ^ d ≤ 2 ^ 53)%Z as Hpow by (apply Z.pow_le_mono_r; lia).
  destruct (N.ltb_spec (Npos m) (2 ^ 52)) as [Hlt|Hge]; [|lia].
  destruct (decide (d = 53%Z)) as [->|]; [|lia]. simpl in Hm. lia.
Qed.

Lemma f64_bits_roundtrip x : f64_valid x = true → f64_from_bits (f64_to_bits x) = x.
Proof.
  intros Hv. unfold f64_to_bits, f64_from_bits. destruct x as [s|s| |s m e].
  - by rewrite pack_fields_sign, pack_fields_exponent, pack_fields_fraction.
  - by rewrite pack_fields_sign, pack_fields_exponent, pack_fields_fraction.
  - done.
  - apply valid_finite in Hv. destruct (N.ltb_spec (Npos m) (2 ^ 52)).
    + rewrite pack_fields_sign, pack_fields_exponent, pack_fields_fraction by done. by rewrite Hv.
    + rewrite pack_fields_sign, pack_fields_exponent, pack_fields_fraction by lia.
      destruct (N.eqb_spec (Z.to_N (e + 1075)) 2047); [lia|].
      destruct (N.eqb_spec (Z.to_N (e + 1075)) 0); [lia|]. f_equal; [|lia].
      apply (inj Npos). rewrite N.succ_pos_spec. lia.
Qed.

Lemma f64_to_bits_bound x : f64_valid x = true → (f64_to_bits x < 2 ^ 64)%N.
Proof.
  intros Hv. unfold f64_to_bits. destruct x as [s|s| |s m e];
    try (apply pack_fields_bound; done).
  apply valid_finite in Hv. destruct (N.ltb_spec (Npos m) (2 ^ 52));
    apply pack_fields_bound; lia.
Qed.

Lemma f64_le_bytes_roundtrip x :
  f64_valid x = true → f64_from_le_bytes (f64_to_le_bytes x) = x.
Proof.
  intros Hv. unfold f64_from_le_bytes, f64_to_le_bytes.
  rewrite le_bytes_roundtrip; [by apply f64_bits_roundtrip|]. by apply f64_to_bits_bound.
Qed.
