(* ===== verification/FormatLogs.v ===== *)
(** * Formatting of logs (crates/litesvm/src/format_logs.rs)

    The colouring of log lines by importance.  Lower-casing is exact on ASCII texts and
    a parameter elsewhere; the painting of text is the terminal crate's. *)

From S2P Require Import Prelude Errors ComputeBudget Runtime Types Text.

(** ** Text *)

Fixpoint starts_with (p s : str) : bool :=
  match p, s with
  | [], _ => true
  | c :: p, d :: s => (c =? d)%N && starts_with p s
  | _, [] => false
  end.

(** [s.contains(needle)] *)
Fixpoint contains (needle s : str) : bool :=
  starts_with needle s || match s with [] => false | _ :: s => contains needle s end.

(** Lower-casing of texts that are not ASCII. *)
Class UnicodeCase : Type := { lower_unicode : str → str }.

Definition to_lowercase `{UnicodeCase} (s : str) : str :=
  if forallb (λ c, c <? 128)%N s
  then (λ c, if ((65 <=? c) && (c <=? 90))%N then (c + 32)%N else c) <$> s
  else lower_unicode s.

(** ** Styles *)

Inductive Importance : Type := Low | High | VeryHigh | Error.

(** [ansi_term]: a colour and whether it is bold. *)
Inductive Colour : Type := Green | Fixed (n : N).
Record Style : Type := { colour : Colour; bold : bool }.

Class AnsiTerm : Type := { paint : Style → str → str }.

Definition PROGRAM_LOG : str := lit "Program log:".

Section format.
Context `{UnicodeCase} `{AnsiTerm}.

Definition error_words : list str :=
  [lit "error: "; lit "error "; lit "err: "; lit "err "; lit "failure: "; lit "failure ";
   lit "failed: "; lit "failed "; lit "fail: "; lit "fail "].

Definition get_importance (program_source program_log : str) : Importance :=
  let log := to_lowercase program_log in
  if existsb (λ w, contains w log) error_words then Error
  else if contains (lit "signer privilege escalated") log then High
  else if bool_decide (program_source = PROGRAM_LOG) then VeryHigh
  else Low.

Definition style_of (i : Importance) : Style :=
  match i with
  | Error => {| colour := Fixed 9; bold := true |}
  | VeryHigh => {| colour := Green; bold := false |}
  | High => {| colour := Fixed 243; bold := true |}
  | Low => {| colour := Fixed 239; bold := false |}
  end.

Definition colourise (i : Importance) (log : str) : str := paint (style_of i) log.

(** The first of the optional prefixes that the line has, and the rest. *)
Fixpoint split_source (prefixes : list str) (line : str) : str * str :=
  match prefixes with
  | [] => ([], line)
  | p :: prefixes =>
      match strip_prefix p line with
      | Some rest => (p, trim_start rest)
      | None => split_source prefixes line
      end
  end.

Definition log_prefixes : list str :=
  [PROGRAM_LOG; lit "Program"; lit "process_instruction:"; lit "solana_runtime:"].

Definition format_line (line : str) : str :=
  let '(program_source, program_log) := split_source log_prefixes line in
  let importance := get_importance program_source program_log in
  let log := if bool_decide (program_source ∈ [[]; PROGRAM_LOG]) then program_log
             else program_source ++ [SPACE] ++ program_log in
  colourise importance log.

Fixpoint format_logs (logs : list str) : str :=
  match logs with
  | [] => []
  | line :: logs =>
      match line with
      | [] => format_logs logs
      | _ => format_line line ++ [NEWLINE] ++ format_logs logs
      end
  end.

Definition pretty_logs (self : TransactionMetadata) : str := format_logs (logs self).

(** ** Properties *)

(** The text without its white space. *)
Definition squeeze (s : str) : str := filter (λ c, is_whitespace c = false) s.

Lemma squeeze_trim_start s : squeeze (trim_start s) = squeeze s.
Proof.
  induction s as [|c s IH]; [done|]. simpl. destruct (is_whitespace c) eqn:Hc; [|done].
  rewrite IH. unfold squeeze. by rewrite filter_cons_False by (by rewrite Hc).
Qed.

Lemma squeeze_app s t : squeeze (s ++ t) = squeeze s ++ squeeze t.
Proof. apply filter_app. Qed.

Lemma split_source_squeeze prefixes line :
  squeeze (split_source prefixes line).1 ++ squeeze (split_source prefixes line).2
  = squeeze line ∧
  ((split_source prefixes line).1 = [] ∨ (split_source prefixes line).1 ∈ prefixes).
Proof.
  induction prefixes as [|p prefixes [IH1 IH2]]; simpl; [by auto|].
  destruct (strip_prefix p line) as [rest|] eqn:Hp.
  - apply strip_prefix_Some in Hp as ->. simpl. rewrite squeeze_trim_start, squeeze_app.
    split; [done|]. right. by left.
  - split; [done|]. destruct IH2; [by left|]. right. by right.
Qed.

(** Formatting loses no text.  Every line is painted in one style; what is
    painted is the line up to white space, without the tag [Program log:] when it
    has one.  The style is the one of errors exactly when the log, in lower case,
    has one of the error words, and of a program's own log otherwise only with the
    tag. *)
Theorem format_line_keeps_text line :
  let '(source, log) := split_source log_prefixes line in
  ∃ shown, format_line line = paint (style_of (get_importance source log)) shown ∧
    (squeeze shown = squeeze line ∨
     source = PROGRAM_LOG ∧ squeeze PROGRAM_LOG ++ squeeze shown = squeeze line) ∧
    (get_importance source log = Error ↔
       ∃ w, w ∈ error_words ∧ contains w (to_lowercase log) = true) ∧
    (get_importance source log = VeryHigh → source = PROGRAM_LOG).
Proof.
  destruct (split_source log_prefixes line) as [source log] eqn:Hsplit.
  pose proof (split_source_squeeze log_prefixes line) as [Hsq Hin].
  rewrite Hsplit in Hsq, Hin. simpl in Hsq, Hin.
  unfold format_line, colourise. rewrite Hsplit.
  eexists. split; [done|]. split_and!.
  - destruct (bool_decide_reflect (source ∈ [[]; PROGRAM_LOG])) as [Hs|Hs].
    + apply list_elem_of_In in Hs as [<-|[<-|[]]]; [by left|by right].
    + left. rewrite !squeeze_app. change (squeeze [SPACE]) with ([] : str). by rewrite app_nil_l.
  - unfold get_importance. set (has := λ w, contains w (to_lowercase log)).
    pose proof (existsb_exists has error_words) as Hex. destruct (existsb has error_words).
    + split; [|done]. intros _. destruct Hex as [(w & Hw & Hc) _]; [done|].
      exists w. by rewrite list_elem_of_In.
    + split.
      * destruct (contains _ _); [done|]. by destruct (bool_decide (source = PROGRAM_LOG)).
      * intros (w & Hw%list_elem_of_In & Hc). destruct Hex as [_ Hex]. by forward Hex; [eauto|].
  - unfold get_importance. destruct (existsb _ _); [done|]. destruct (contains _ _); [done|].
    by destruct (bool_decide_reflect (source = PROGRAM_LOG)).
Qed.
End format.
