(* ===== verification/CpiTree.v ===== *)
(** * The CPI tree parser (crates/cpi-tree/src/lib.rs)

    Transaction logs as a tree of invocation frames: the per-line classifier, the
    pushdown automaton over the lines, and the compute-unit totals. *)

From S2P Require Import Prelude Text.

(** [Address::from_str] and its [Display]. *)
Class AddressText : Type := {
  address_from_str : str → option address;
  address_to_string : address → str }.

(** Base58 text parses back, and has neither spaces nor colons. *)
Class AddressTextLaws `{AddressText} : Prop := {
  address_text_roundtrip a : address_from_str (address_to_string a) = Some a;
  address_text_no_space a : SPACE ∉ address_to_string a;
  address_text_no_colon a : 58%N ∉ address_to_string a }.

(** ** Data *)

Record ComputeUnits : Type := {
  consumed : N;
  available_at_start : N }.

Inductive FrameLog : Type :=
| Msg (text : str)
| Data (payload : str).

Inductive CpiOutcome : Type :=
| Success
| Failed (failure_message : option str)
| Truncated.

Inductive CpiFrame : Type := mkFrame {
  frame_program_id : address;
  frame_outcome : CpiOutcome;
  frame_compute_units : option ComputeUnits;
  frame_instruction_name : option str;
  frame_logs : list FrameLog;
  frame_children : list CpiFrame }.

Inductive Status : Type :=
| StatusSuccess
| StatusFailed (failure_message : option str).

Inductive LogLine : Type :=
| Invoke (program : str)
| Consumed (cu : ComputeUnits)
| StatusLine (status : Status)
| Other.

(** ** The classifier *)

Definition is_word (w : string) (t : str) : bool := bool_decide (t = lit w).

Definition parse_depth_bracket (token : str) : option N :=
  t ← strip_prefix [91%N] token;
  t ← strip_suffix [93%N] t;
  parse_unsigned u64_max t.

Definition classify_consumed (consumed_text available_text : str) : LogLine :=
  match parse_unsigned u64_max consumed_text, parse_unsigned u64_max available_text with
  | Some c, Some a => Consumed {| consumed := c; available_at_start := a |}
  | _, _ => Other
  end.

Definition failed_status (log : str) : Status :=
  let raw := trim (default [] (after_nth SPACE 3 log)) in
  StatusFailed (match raw with [] => None | _ => Some raw end).

(** The arms of the [match] on the tokens, in order. *)
Definition classify (log : str) : LogLine :=
  match split_on SPACE log with
  | t0 :: t1 :: t2 :: rest =>
      if is_word "Program" t0 then
        match rest with
        | [bracket] =>
            if is_word "invoke" t2 && match parse_depth_bracket bracket with
                                      | Some _ => true | None => false end
            then Invoke t1
            else if is_word "failed:" t2 then StatusLine (failed_status log)
            else Other
        | [] =>
            if is_word "success" t2 then StatusLine StatusSuccess
            else if is_word "failed:" t2 then StatusLine (failed_status log)
            else Other
        | [t3; t4; t5; t6; t7] =>
            if is_word "failed:" t2 then StatusLine (failed_status log)
            else if is_word "consumed" t2 && is_word "of" t4 && is_word "compute" t6
                    && is_word "units" t7
            then classify_consumed t3 t5
            else Other
        | _ => if is_word "failed:" t2 then StatusLine (failed_status log) else Other
        end
      else Other
  | _ => Other
  end.

(** ** The automaton *)

Section parser.
Context `{AddressText}.

(** The stack has its top first. *)
Record ParserState : Type := {
  stack : list CpiFrame;
  roots : list CpiFrame }.

Definition initial_state : ParserState := {| stack := []; roots := [] |}.

(** [stack.last_mut()]. *)
Definition on_top (f : CpiFrame → CpiFrame) (st : ParserState) : ParserState :=
  match stack st with
  | [] => st
  | frame :: rest => {| stack := f frame :: rest; roots := roots st |}
  end.

Definition push_log (l : FrameLog) (f : CpiFrame) : CpiFrame :=
  mkFrame (frame_program_id f) (frame_outcome f) (frame_compute_units f)
    (frame_instruction_name f) (frame_logs f ++ [l]) (frame_children f).

Definition set_compute_units (cu : ComputeUnits) (f : CpiFrame) : CpiFrame :=
  mkFrame (frame_program_id f) (frame_outcome f) (Some cu)
    (frame_instruction_name f) (frame_logs f) (frame_children f).

Definition set_outcome (o : CpiOutcome) (f : CpiFrame) : CpiFrame :=
  mkFrame (frame_program_id f) o (frame_compute_units f)
    (frame_instruction_name f) (frame_logs f) (frame_children f).

Definition push_child (c : CpiFrame) (f : CpiFrame) : CpiFrame :=
  mkFrame (frame_program_id f) (frame_outcome f) (frame_compute_units f)
    (frame_instruction_name f) (frame_logs f) (frame_children f ++ [c]).

Definition is_msg (l : FrameLog) : bool := match l with Msg _ => true | Data _ => false end.

(** An [Instruction] line: drop the messages so far; the first name wins. *)
Definition name_frame (name : str) (f : CpiFrame) : CpiFrame :=
  mkFrame (frame_program_id f) (frame_outcome f) (frame_compute_units f)
    (match frame_instruction_name f with Some n => Some n | None => Some name end)
    (filter (λ l, is_msg l = false) (frame_logs f)) (frame_children f).

Definition push_into_parent_or_roots (frame : CpiFrame) (st : ParserState) : ParserState :=
  match stack st with
  | parent :: rest => {| stack := push_child frame parent :: rest; roots := roots st |}
  | [] => {| stack := []; roots := roots st ++ [frame] |}
  end.

Definition outcome_of_status (s : Status) : CpiOutcome :=
  match s with StatusSuccess => Success | StatusFailed m => Failed m end.

Definition new_frame (program_id : address) : CpiFrame := mkFrame program_id Truncated None None [] [].

Definition cpi_token (st : ParserState) (log : str) (l : LogLine) : ParserState :=
  match l with
  | Invoke program =>
      match address_from_str program with
      | None => st
      | Some program_id => {| stack := new_frame program_id :: stack st; roots := roots st |}
      end
  | Consumed cu => on_top (set_compute_units cu) st
  | StatusLine status =>
      match stack st with
      | [] => st
      | frame :: rest =>
          push_into_parent_or_roots (set_outcome (outcome_of_status status) frame)
            {| stack := rest; roots := roots st |}
      end
  | Other => on_top (push_log (Msg log)) st
  end.

(** One iteration of the loop. *)
Definition cpi_step (st : ParserState) (log : str) : ParserState :=
  match strip_prefix (lit "Program log: Instruction: ") log with
  | Some name => on_top (name_frame name) st
  | None =>
      match strip_prefix (lit "Program log: ") log with
      | Some text => on_top (push_log (Msg text)) st
      | None =>
          match strip_prefix (lit "Program data: ") log with
          | Some payload => on_top (push_log (Data payload)) st
          | None => cpi_token st log (classify log)
          end
      end
  end.

(** The final [while let]: the popped frame goes to its parent, which is popped
    next. *)
Fixpoint drain_from (frame : CpiFrame) (rest : list CpiFrame) (roots : list CpiFrame)
    : list CpiFrame :=
  match rest with
  | [] => roots ++ [frame]
  | parent :: rest => drain_from (push_child frame parent) rest roots
  end.

Definition drain (st : ParserState) : list CpiFrame :=
  match stack st with
  | [] => roots st
  | frame :: rest => drain_from frame rest (roots st)
  end.

Definition cpi_tree (logs : list str) : list CpiFrame := drain (foldl cpi_step initial_state logs).
End parser.

(** ** Totals *)

(** [a + b] on [u64]; it panics on overflow when overflow checks are on. *)
Definition add_u64 (a b : N) : outcome N := unwrap (checked_add u64_max a b).

Definition transaction_total_cu (frames : list CpiFrame) : outcome (option N) :=
  match omap (λ f, consumed <$> frame_compute_units f) frames with
  | [] => Ret None
  | c :: cs => Some <$> foldl (λ acc c, a ← acc; add_u64 a c) (Ret c) cs
  end.

Definition transaction_compute_budget (frames : list CpiFrame) : option N :=
  head (omap (λ f, available_at_start <$> frame_compute_units f) frames).

(** ** Induction on frames *)

Section frame_ind.
Context (P : CpiFrame → Prop).
Context (Hframe : ∀ k o cu n ls cs, Forall P cs → P (mkFrame k o cu n ls cs)).

Fixpoint CpiFrame_ind' (f : CpiFrame) : P f :=
  match f with
  | mkFrame k o cu n ls cs =>
      Hframe k o cu n ls cs
        ((fix go (cs : list CpiFrame) : Forall P cs :=
            match cs with
            | [] => Forall_nil_2 _
            | c :: cs => Forall_cons_2 _ _ _ (CpiFrame_ind' c) (go cs)
            end) cs)
  end.
End frame_ind.

(** ** Counting frames *)

Fixpoint frame_count (f : CpiFrame) : nat :=
  match f with
  | mkFrame _ _ _ _ _ cs =>
      S ((fix go (cs : list CpiFrame) := match cs with [] => 0 | c :: cs => frame_count c + go cs end) cs)
  end.

Definition frames_count (fs : list CpiFrame) : nat := foldr (λ f n, frame_count f + n) 0 fs.

Section counting.
Context `{AddressText}.

(** Does a line open a frame? *)
Definition opens (log : str) : bool :=
  match strip_prefix (lit "Program log: ") log, strip_prefix (lit "Program data: ") log with
  | None, None =>
      match classify log with
      | Invoke p => match address_from_str p with Some _ => true | None => false end
      | _ => false
      end
  | _, _ => false
  end.

Lemma frame_count_unfold f : frame_count f = S (frames_count (frame_children f)).
Proof. by destruct f. Qed.

Lemma frames_count_cons f fs : frames_count (f :: fs) = frame_count f + frames_count fs.
Proof. done. Qed.

Lemma frames_count_app fs gs : frames_count (fs ++ gs) = frames_count fs + frames_count gs.
Proof. induction fs as [|f fs IH]; simpl; [done|]. rewrite IH. lia. Qed.

Lemma frames_count_nil : frames_count [] = 0.
Proof. done. Qed.

#[local] Hint Rewrite frames_count_nil frames_count_cons frames_count_app : svm_sum.

#[local] Opaque frame_count frames_count.

Lemma push_child_count c f : frame_count (push_child c f) = frame_count f + frame_count c.
Proof.
  rewrite (frame_count_unfold (push_child c f)), (frame_count_unfold f). cbn [frame_children push_child].
  autorewrite with svm_sum. lia.
Qed.

Definition state_count (st : ParserState) : nat :=
  frames_count (stack st) + frames_count (roots st).

Lemma on_top_count f st :
  (∀ x, frame_children (f x) = frame_children x) → state_count (on_top f st) = state_count st.
Proof.
  intros Hf. unfold on_top, state_count. destruct (stack st) as [|x rest] eqn:Hs; [by rewrite Hs|].
  simpl. rewrite !frames_count_cons. by rewrite (frame_count_unfold (f x)), Hf, <-frame_count_unfold.
Qed.

Lemma push_into_count f st :
  state_count (push_into_parent_or_roots f st) = state_count st + frame_count f.
Proof.
  unfold push_into_parent_or_roots, state_count.
  destruct (stack st) as [|x rest]; simpl.
  - autorewrite with svm_sum. lia.
  - autorewrite with svm_sum. rewrite push_child_count. lia.
Qed.

(** An instruction line is a log line. *)
Lemma instruction_is_log log name :
  strip_prefix (lit "Program log: Instruction: ") log = Some name →
  strip_prefix (lit "Program log: ") log ≠ None.
Proof.
  intros ->%strip_prefix_Some.
  change (lit "Program log: Instruction: ") with (lit "Program log: " ++ lit "Instruction: ").
  by rewrite <-app_assoc, strip_prefix_app.
Qed.

Lemma cpi_step_count st log :
  state_count (cpi_step st log) = state_count st + (if opens log then 1 else 0).
Proof.
  unfold cpi_step, opens.
  destruct (strip_prefix (lit "Program log: Instruction: ") log) as [name|] eqn:Hi.
  { apply instruction_is_log in Hi. destruct (strip_prefix (lit "Program log: ") log); [|done].
    rewrite on_top_count by done. lia. }
  destruct (strip_prefix (lit "Program log: ") log); [rewrite on_top_count by done; lia|].
  destruct (strip_prefix (lit "Program data: ") log); [rewrite on_top_count by done; lia|].
  destruct (classify log) as [p|cu|s|]; simpl; try (rewrite on_top_count by done; lia).
  - destruct (address_from_str p); [|lia]. unfold state_count. simpl.
    rewrite frames_count_cons, frame_count_unfold. simpl. change (frames_count []) with 0. lia.
  - destruct (stack st) as [|f rest] eqn:Hs; [lia|].
    rewrite push_into_count, frame_count_unfold. unfold state_count. simpl. rewrite Hs.
    autorewrite with svm_sum. rewrite (frame_count_unfold f). lia.
Qed.

Lemma drain_count st : frames_count (drain st) = state_count st.
Proof.
  unfold drain, state_count. destruct (stack st) as [|f rest]; [done|]. simpl.
  generalize (roots st) as rs. revert f. induction rest as [|p rest IH]; intros f rs; simpl.
  - autorewrite with svm_sum. lia.
  - rewrite IH. autorewrite with svm_sum. rewrite push_child_count. lia.
Qed.
End counting.

(** ** Printing a tree as logs

    The lines the runtime emits for an invocation, in the order of a program that
    logs before it calls others. *)

Section printing.
Context `{AddressText}.

Definition program_line (k : address) (r : str) : str :=
  lit "Program " ++ address_to_string k ++ SPACE :: r.

Definition invoke_line (k : address) (depth : N) : str :=
  program_line k (lit "invoke" ++ SPACE :: [91%N] ++ to_decimal depth ++ [93%N]).

Definition consumed_line (k : address) (cu : ComputeUnits) : str :=
  program_line k (lit "consumed" ++ SPACE :: to_decimal (consumed cu) ++ SPACE ::
    lit "of" ++ SPACE :: to_decimal (available_at_start cu) ++ SPACE ::
    lit "compute" ++ SPACE :: lit "units").

Definition log_line (l : FrameLog) : str :=
  match l with Msg t => lit "Program log: " ++ t | Data d => lit "Program data: " ++ d end.

Definition status_lines (k : address) (o : CpiOutcome) : list str :=
  match o with
  | Success => [program_line k (lit "success")]
  | Failed m => [program_line k (lit "failed:" ++ SPACE :: default [] m)]
  | Truncated => []
  end.

Fixpoint frame_lines (depth : N) (f : CpiFrame) : list str :=
  match f with
  | mkFrame k o cu n ls cs =>
      [invoke_line k depth]
      ++ match n with Some n => [lit "Program log: Instruction: " ++ n] | None => [] end
      ++ (log_line <$> ls)
      ++ (fix go (cs : list CpiFrame) :=
            match cs with [] => [] | c :: cs => frame_lines (depth + 1) c ++ go cs end) cs
      ++ match cu with Some cu => [consumed_line k cu] | None => [] end
      ++ status_lines k o
  end.

Definition frames_lines (depth : N) (fs : list CpiFrame) : list str :=
  foldr (λ f ls, frame_lines depth f ++ ls) [] fs.

(** Frames that logs can express: closed, with numbers that fit, failure messages
    without surrounding blanks, and no message that reads as an instruction. *)
Inductive printable : N → CpiFrame → Prop :=
| printable_intro depth k o cu n ls cs :
    (depth ≤ u64_max)%N →
    match o with
    | Success => True
    | Failed None => True
    | Failed (Some m) => m ≠ [] ∧ trim m = m
    | Truncated => False
    end →
    match cu with
    | Some c => (consumed c ≤ u64_max)%N ∧ (available_at_start c ≤ u64_max)%N
    | None => True
    end →
    Forall (λ l, match l with Msg t => strip_prefix (lit "Instruction: ") t = None
                            | Data _ => True end) ls →
    Forall (printable (depth + 1)) cs →
    printable depth (mkFrame k o cu n ls cs).

Lemma frame_lines_unfold depth k o cu n ls cs :
  frame_lines depth (mkFrame k o cu n ls cs)
  = [invoke_line k depth]
    ++ match n with Some n => [lit "Program log: Instruction: " ++ n] | None => [] end
    ++ (log_line <$> ls) ++ frames_lines (depth + 1) cs
    ++ match cu with Some cu => [consumed_line k cu] | None => [] end ++ status_lines k o.
Proof. done. Qed.

Context `{!AddressTextLaws}.

(** *** Structural lines *)

Lemma cpi_step_program st k r :
  cpi_step st (program_line k r) = cpi_token st (program_line k r) (classify (program_line k r)).
Proof.
  assert (∀ w q, SPACE ∉ w →
    strip_prefix (lit "Program " ++ w ++ 58%N :: q) (program_line k r) = None) as Hno.
  { intros w q Hw. unfold program_line. rewrite strip_prefix_cancel.
    apply strip_prefix_word; [done|done|apply address_text_no_colon]. }
  unfold cpi_step.
  change (lit "Program log: Instruction: ")
    with (lit "Program " ++ lit "log" ++ 58%N :: lit " Instruction: ").
  change (lit "Program log: ") with (lit "Program " ++ lit "log" ++ 58%N :: lit " ").
  change (lit "Program data: ") with (lit "Program " ++ lit "data" ++ 58%N :: lit " ").
  rewrite !Hno by by_decision. done.
Qed.

Lemma split_program k r :
  split_on SPACE (program_line k r) = lit "Program" :: address_to_string k :: split_on SPACE r.
Proof.
  unfold program_line. change (lit "Program ") with (lit "Program" ++ [SPACE]).
  rewrite <-app_assoc. change ([SPACE] ++ ?x) with (SPACE :: x).
  rewrite split_on_app by by_decision. f_equal. apply split_on_app, address_text_no_space.
Qed.

Lemma to_decimal_no_space n : SPACE ∉ to_decimal n.
Proof. apply to_decimal_no. unfold SPACE. lia. Qed.

Lemma parse_bracket d :
  (d ≤ u64_max)%N → parse_depth_bracket ([91%N] ++ to_decimal d ++ [93%N]) = Some d.
Proof.
  intros Hd. unfold parse_depth_bracket. rewrite strip_prefix_app. cbn [mbind option_bind].
  unfold strip_suffix. rewrite reverse_app, strip_prefix_app. cbn [fmap option_fmap option_map].
  rewrite reverse_involutive. cbn [mbind option_bind]. by apply parse_to_decimal.
Qed.

Lemma step_invoke st k d :
  (d ≤ u64_max)%N →
  cpi_step st (invoke_line k d) = {| stack := new_frame k :: stack st; roots := roots st |}.
Proof.
  intros Hd. unfold invoke_line. rewrite cpi_step_program.
  assert (classify (program_line k (lit "invoke" ++ SPACE :: [91%N] ++ to_decimal d ++ [93%N]))
          = Invoke (address_to_string k)) as ->.
  { unfold classify. rewrite split_program, split_on_app by by_decision.
    rewrite split_on_word; [by rewrite parse_bracket|].
    rewrite !not_elem_of_app. split_and!; [by_decision|apply to_decimal_no_space|by_decision]. }
  simpl. by rewrite address_text_roundtrip.
Qed.

Lemma step_consumed st k cu :
  (consumed cu ≤ u64_max)%N → (available_at_start cu ≤ u64_max)%N →
  cpi_step st (consumed_line k cu) = on_top (set_compute_units cu) st.
Proof.
  intros Hc Ha. unfold consumed_line. rewrite cpi_step_program. unfold classify.
  rewrite split_program.
  repeat (rewrite split_on_app by (by_decision || apply to_decimal_no_space)).
  rewrite split_on_word by by_decision.
  unfold classify_consumed. cbn -[lit to_decimal parse_unsigned u64_max].
  rewrite !parse_to_decimal by done. by destruct cu.
Qed.

Lemma split_on_nonempty c s : ∃ w ws, split_on c s = w :: ws.
Proof.
  induction s as [|x s (w & ws & IH)]; simpl; [eauto|].
  destruct (x =? c)%N; [eauto|]. rewrite IH. eauto.
Qed.

Lemma classify_failed k m :
  classify (program_line k (lit "failed:" ++ SPACE :: m))
  = StatusLine (StatusFailed (match trim m with [] => None | _ => Some (trim m) end)).
Proof.
  assert (after_nth SPACE 3 (program_line k (lit "failed:" ++ SPACE :: m)) = Some m) as Hm.
  { unfold program_line. change (lit "Program ") with (lit "Program" ++ [SPACE]).
    rewrite <-app_assoc. change ([SPACE] ++ ?x) with (SPACE :: x).
    rewrite !after_nth_word; [by destruct m|by_decision|apply address_text_no_space|by_decision]. }
  unfold classify. rewrite split_program, split_on_app by by_decision.
  destruct (split_on_nonempty SPACE m) as (w & ws & ->).
  unfold failed_status. rewrite Hm.
  destruct ws as [|w1 [|w2 [|w3 [|w4 [|]]]]]; done.
Qed.

Lemma step_status st k o f rest :
  stack st = f :: rest →
  match o with
  | Success => True
  | Failed None => True
  | Failed (Some m) => m ≠ [] ∧ trim m = m
  | Truncated => False
  end →
  foldl cpi_step st (status_lines k o)
  = push_into_parent_or_roots (set_outcome o f) {| stack := rest; roots := roots st |}.
Proof.
  intros Hst Ho. destruct o as [|m|]; [| |done]; cbn [status_lines foldl]; rewrite cpi_step_program.
  - unfold classify. rewrite split_program, split_on_word by by_decision. simpl. by rewrite Hst.
  - rewrite classify_failed. cbn [cpi_token]. rewrite Hst. do 2 f_equal. destruct m as [m|]; simpl; [|done].
    destruct Ho as [Hne ->]. by destruct m.
Qed.

(** *** Payload lines *)

Lemma step_instruction st n :
  cpi_step st (lit "Program log: Instruction: " ++ n) = on_top (name_frame n) st.
Proof. unfold cpi_step. by rewrite strip_prefix_app. Qed.

Lemma step_log st l :
  match l with Msg t => strip_prefix (lit "Instruction: ") t = None | Data _ => True end →
  cpi_step st (log_line l) = on_top (push_log l) st.
Proof.
  intros Hl. unfold cpi_step, log_line.
  change (lit "Program log: Instruction: ") with (lit "Program log: " ++ lit "Instruction: ").
  destruct l as [t|d].
  - rewrite strip_prefix_cancel, Hl. by rewrite strip_prefix_app.
  - change (lit "Program data: ") with (lit "Program " ++ lit "data: ").
    change (lit "Program log: ") with (lit "Program " ++ lit "log: ").
    rewrite <-!app_assoc, !strip_prefix_cancel, strip_prefix_app. done.
Qed.

Lemma run_logs ls : ∀ st f rest,
  stack st = f :: rest →
  Forall (λ l, match l with Msg t => strip_prefix (lit "Instruction: ") t = None
                          | Data _ => True end) ls →
  foldl cpi_step st (log_line <$> ls)
  = {| stack := mkFrame (frame_program_id f) (frame_outcome f) (frame_compute_units f)
                  (frame_instruction_name f) (frame_logs f ++ ls) (frame_children f) :: rest;
       roots := roots st |}.
Proof.
  induction ls as [|l ls IH]; intros st f rest Hst Hls; cbn [fmap list_fmap foldl].
  - rewrite app_nil_r. destruct st, f. simpl in *. by subst.
  - apply Forall_cons in Hls as [Hl Hls]. rewrite step_log by done. unfold on_top. rewrite Hst.
    rewrite (IH _ (push_log l f) rest) by done. simpl. by rewrite <-app_assoc.
Qed.

(** *** Whole frames *)

Lemma run_children cs : ∀ d st f rest,
  stack st = f :: rest →
  Forall (λ c, ∀ st, foldl cpi_step st (frame_lines d c) = push_into_parent_or_roots c st) cs →
  foldl cpi_step st (frames_lines d cs)
  = {| stack := mkFrame (frame_program_id f) (frame_outcome f) (frame_compute_units f)
                  (frame_instruction_name f) (frame_logs f) (frame_children f ++ cs) :: rest;
       roots := roots st |}.
Proof.
  induction cs as [|c cs IH]; intros d st f rest Hst Hcs; simpl.
  - rewrite app_nil_r. destruct st, f. simpl in *. by subst.
  - apply Forall_cons in Hcs as [Hc Hcs]. rewrite foldl_app, Hc.
    unfold push_into_parent_or_roots. rewrite Hst.
    rewrite (IH _ _ (push_child c f) rest) by done. simpl. by rewrite <-app_assoc.
Qed.

Lemma run_frame_lines f : ∀ d st,
  printable d f → foldl cpi_step st (frame_lines d f) = push_into_parent_or_roots f st.
Proof.
  induction f as [k o cu n ls cs IH] using CpiFrame_ind'. intros d st Hp.
  inversion Hp as [? ? ? ? ? ? ? Hd Ho Hcu Hls Hcs]; subst. clear Hp.
  rewrite frame_lines_unfold, !foldl_app. cbn [foldl]. rewrite step_invoke by done.
  set (f1 := mkFrame k Truncated None n [] []).
  assert (foldl cpi_step {| stack := new_frame k :: stack st; roots := roots st |}
            match n with Some n => [lit "Program log: Instruction: " ++ n] | None => [] end
          = {| stack := f1 :: stack st; roots := roots st |}) as ->.
  { destruct n as [n|]; [|done]. cbn [foldl]. by rewrite step_instruction. }
  rewrite (run_logs ls _ f1 (stack st)) by done.
  erewrite run_children; [|done|].
  2:{ rewrite Forall_forall in IH, Hcs |- *. intros c Hc st'. apply IH; [done|]. by apply Hcs. }
  simpl. set (f2 := mkFrame k Truncated cu n ls cs).
  assert (foldl cpi_step {| stack := mkFrame k Truncated None n ls cs :: stack st; roots := roots st |}
            match cu with Some cu => [consumed_line k cu] | None => [] end
          = {| stack := f2 :: stack st; roots := roots st |}) as ->.
  { destruct cu as [cu|]; [|done]. cbn [foldl]. destruct Hcu. by rewrite step_consumed. }
  rewrite (step_status _ k o f2 (stack st)) by done. by destruct st.
Qed.

Lemma run_roots fs : ∀ rs,
  Forall (printable 1) fs →
  foldl cpi_step {| stack := []; roots := rs |} (frames_lines 1 fs)
  = {| stack := []; roots := rs ++ fs |}.
Proof.
  induction fs as [|f fs IH]; intros rs Hfs; simpl; [by rewrite app_nil_r|].
  apply Forall_cons in Hfs as [Hf Hfs]. rewrite foldl_app, run_frame_lines by done.
  unfold push_into_parent_or_roots. simpl. rewrite IH by done. by rewrite <-app_assoc.
Qed.
End printing.

(** ** Properties *)

Section properties.
Context `{AddressText}.

(** C16.  Parsing the logs of any closed forest of invocations gives the forest
    back: nesting, order, outcomes with their messages, compute units, instruction
    names and log entries. *)
Theorem cpi_tree_roundtrip `{!AddressTextLaws} fs (Hfs : Forall (printable 1) fs) :
  cpi_tree (frames_lines 1 fs) = fs.
Proof. unfold cpi_tree, initial_state. by rewrite run_roots. Qed.

(** C39.  On any input at all, the parser neither loses nor invents frames: the
    tree has exactly one frame per well-formed invoke line, whether the frame was
    closed, failed, or still open at the end of the input. *)
Theorem cpi_tree_frame_per_invoke (logs : list str) :
  frames_count (cpi_tree logs) = length (filter (λ l, opens l = true) logs).
Proof.
  unfold cpi_tree. rewrite drain_count.
  assert (∀ st, state_count (foldl cpi_step st logs)
                = state_count st + length (filter (λ l, opens l = true) logs)) as Hgen.
  { induction logs as [|l logs IH]; intros st; simpl; [lia|].
    rewrite IH, cpi_step_count, filter_cons. destruct (opens l); simpl; lia. }
  by rewrite Hgen.
Qed.
End properties.
