(* ===== verification/CpiRender.v ===== *)
(** * Rendering CPI trees (crates/cpi-tree/src/lib.rs and ext.rs)

    Thousands separators, the box-drawing renderer, and the header built from a
    transaction's metadata. *)

From S2P Require Import Prelude Errors ComputeBudget Runtime Types Text CpiTree.

(** ** Thousands separators *)

Definition COMMA : N := 44.

(** The loop over the digits; the index only matters through the number of digits
    left, and through not being the first. *)
Fixpoint commas_from (first : bool) (s : str) : str :=
  match s with
  | [] => []
  | b :: s' =>
      (if negb first && (length s mod 3 =? 0)%nat then [COMMA] else []) ++ b :: commas_from false s'
  end.

Definition with_commas (n : N) : str := commas_from true (to_decimal n).

(** ** The renderer *)

Definition CONN_BRANCH : str := [9500; 9472; 9472; 32]%N.
Definition CONN_LAST : str := [9492; 9472; 9472; 32]%N.
Definition SPINE_CONTINUE : str := [9474; 32; 32; 32]%N.
Definition SPINE_END : str := [32; 32; 32; 32]%N.
Definition LOG_SPINE_CONTINUE : str := [9474; 32]%N.
Definition LOG_SPINE_END : str := [32; 32]%N.

Definition outcome_text (o : CpiOutcome) : str :=
  match o with
  | Success => []
  | Failed m => lit "FAILED: " ++ default [] m ++ [SPACE]
  | Truncated => lit "TRUNCATED "
  end.

Definition units_text (cu : option ComputeUnits) : str :=
  match cu with
  | Some cu => lit "(" ++ with_commas (consumed cu) ++ lit " / "
               ++ with_commas (available_at_start cu) ++ lit " CU) "
  | None => []
  end.

Definition name_text (n : option str) : str :=
  match n with Some n => n ++ [SPACE] | None => [] end.

Definition log_row (child_prefix log_spine : str) (l : FrameLog) : str :=
  child_prefix ++ log_spine
  ++ match l with Msg t => lit ">> log:  " ++ t | Data d => lit ">> data: " ++ d end ++ [NEWLINE].

Definition is_nil {A} (l : list A) : bool := match l with [] => true | _ => false end.

(** A child is the last one when no sibling follows. *)
Fixpoint write_frame (program_label : address → str) (prefix : str) (is_last : bool)
    (frame : CpiFrame) : str :=
  match frame with
  | mkFrame k o cu n ls cs =>
      let child_prefix := prefix ++ (if is_last then SPINE_END else SPINE_CONTINUE) in
      let log_spine := if is_nil cs then LOG_SPINE_END else LOG_SPINE_CONTINUE in
      prefix ++ (if is_last then CONN_LAST else CONN_BRANCH)
      ++ name_text n ++ outcome_text o ++ units_text cu ++ program_label k ++ [NEWLINE]
      ++ mjoin (log_row child_prefix log_spine <$> ls)
      ++ (fix go (cs : list CpiFrame) : str :=
            match cs with
            | [] => []
            | c :: cs => write_frame program_label child_prefix (is_nil cs) c ++ go cs
            end) cs
  end.

Definition write_frames (program_label : address → str) (prefix : str)
    : list CpiFrame → str :=
  fix go (frames : list CpiFrame) : str :=
    match frames with
    | [] => []
    | f :: fs => write_frame program_label prefix (is_nil fs) f ++ go fs
    end.

Definition format_cpi_tree_with (header : str) (frames : list CpiFrame)
    (program_label : address → str) : str :=
  header ++ [NEWLINE] ++ write_frames program_label [] frames.

Section ext.
Context `{AddressText}.

Definition format_cpi_tree (header : str) (frames : list CpiFrame) : str :=
  format_cpi_tree_with header frames address_to_string.

Definition metadata_cpi_tree (m : TransactionMetadata) : list CpiFrame := cpi_tree (logs m).

Definition pretty_cpi_tree (m : TransactionMetadata) : outcome str :=
  let frames := metadata_cpi_tree m in
  total ← transaction_total_cu frames;
  let header :=
    match total, transaction_compute_budget frames with
    | Some total, Some budget =>
        lit "CPI Tree (" ++ with_commas total ++ lit " BPF CU / " ++ with_commas budget
        ++ lit " budget):"
    | _, _ => lit "CPI Tree (no compute units in logs):"
    end in
  Ret (format_cpi_tree header frames).
End ext.

(** ** Lemmas *)

Lemma commas_tail s :
  COMMA ∉ s →
  ∃ g gs, split_on COMMA (commas_from false s) = g :: gs ∧ length g = length s mod 3 ∧
    Forall (λ x, length x = 3) gs ∧ g ++ mjoin gs = s.
Proof.
  induction s as [|b s IH]; intros Hs; [by exists [], []|].
  destruct IH as (g & gs & Hsplit & Hlen & Hgs & Hcat); [set_solver|].
  assert (b ≠ COMMA) as Hb%N.eqb_neq by set_solver.
  cbn [commas_from negb andb]. cbn [length].
  pose proof (Nat.mod_upper_bound (length s) 3 ltac:(lia)) as Hlt.
  assert (S (length s) mod 3 = if decide (length s mod 3 = 2) then 0 else S (length s mod 3)) as Hmod.
  { rewrite <-Nat.add_1_r, Nat.Div0.add_mod. clear Hlen. revert Hlt.
    generalize (length s mod 3) as m. intros m Hm.
    destruct m as [|[|[|m]]]; [done..|lia]. }
  rewrite Hmod. clear Hmod. revert Hlen Hlt. generalize (length s mod 3) as m. intros m Hlen Hlt.
  case_decide as Hd; simpl.
  - rewrite Hb, Hsplit. exists [], ((b :: g) :: gs). simpl. split_and!; [done|done| |by rewrite Hcat].
    constructor; [simpl; lia|done].
  - rewrite Hb, Hsplit. exists (b :: g), gs. simpl. split_and!; [done|lia|done|by rewrite Hcat].
Qed.

(** *** Counting lines *)

Definition newlines (s : str) : nat := length (filter (λ c, c = NEWLINE) s).

Lemma newlines_app s t : newlines (s ++ t) = newlines s + newlines t.
Proof. unfold newlines. by rewrite filter_app, length_app. Qed.

#[export] Hint Rewrite newlines_app : svm_sum.

Lemma newlines_none s : NEWLINE ∉ s → newlines s = 0.
Proof.
  unfold newlines. induction s as [|c s IH]; intros Hs; [done|].
  rewrite filter_cons, decide_False by set_solver. apply IH. set_solver.
Qed.

Lemma with_commas_no_newline n : NEWLINE ∉ with_commas n.
Proof.
  unfold with_commas. pose proof (to_decimal_no NEWLINE n ltac:(unfold NEWLINE; lia)) as Hd.
  revert Hd. generalize true as first, (to_decimal n) as s. intros first s. revert first.
  induction s as [|c s IH]; intros first Hs; cbn [commas_from]; [set_solver|].
  rewrite not_elem_of_app, not_elem_of_cons. split_and!; [|set_solver|apply IH; set_solver].
  destruct (negb first && _); unfold COMMA, NEWLINE; set_solver.
Qed.

(** Texts without line breaks. *)
Inductive single_line : CpiFrame → Prop :=
| single_line_intro k o cu n ls cs :
    match o with Failed (Some m) => NEWLINE ∉ m | _ => True end →
    match n with Some n => NEWLINE ∉ n | None => True end →
    Forall (λ l, match l with Msg t => NEWLINE ∉ t | Data d => NEWLINE ∉ d end) ls →
    Forall single_line cs →
    single_line (mkFrame k o cu n ls cs).

(** The rows of a frame: its own, one per log, and those of its children. *)
Fixpoint rows (f : CpiFrame) : nat :=
  match f with
  | mkFrame _ _ _ _ ls cs =>
      S (length ls + (fix go (cs : list CpiFrame) := match cs with [] => 0 | c :: cs => rows c + go cs end) cs)
  end.

Definition rows_of (fs : list CpiFrame) : nat := foldr (λ f n, rows f + n) 0 fs.

Lemma rows_unfold k o cu n ls cs : rows (mkFrame k o cu n ls cs) = S (length ls + rows_of cs).
Proof. done. Qed.

Lemma write_frame_unfold label (prefix : str) (is_last : bool) k o cu n ls (cs : list CpiFrame) :
  let child_prefix := prefix ++ (if is_last then SPINE_END else SPINE_CONTINUE) in
  let log_spine := if is_nil cs then LOG_SPINE_END else LOG_SPINE_CONTINUE in
  write_frame label prefix is_last (mkFrame k o cu n ls cs)
  = prefix ++ (if is_last then CONN_LAST else CONN_BRANCH)
    ++ name_text n ++ outcome_text o ++ units_text cu ++ label k ++ [NEWLINE]
    ++ mjoin (log_row child_prefix log_spine <$> ls) ++ write_frames label child_prefix cs.
Proof. reflexivity. Qed.

Lemma log_rows_newlines cp sp ls :
  newlines cp = 0 → newlines sp = 0 →
  Forall (λ l, match l with Msg t => NEWLINE ∉ t | Data d => NEWLINE ∉ d end) ls →
  newlines (mjoin (log_row cp sp <$> ls)) = length ls.
Proof.
  intros Hcp Hsp. induction 1 as [|l ls Hl Hls IH]; [done|].
  change (mjoin (log_row cp sp <$> l :: ls)) with (log_row cp sp l ++ mjoin (log_row cp sp <$> ls)).
  unfold log_row at 1. autorewrite with svm_sum. rewrite IH, Hcp, Hsp.
  destruct l as [t|d]; rewrite newlines_app, (newlines_none _ Hl); done.
Qed.

Lemma header_newlines n o cu :
  match o with Failed (Some m) => NEWLINE ∉ m | _ => True end →
  match n with Some n => NEWLINE ∉ n | None => True end →
  newlines (name_text n) = 0 ∧ newlines (outcome_text o) = 0 ∧ newlines (units_text cu) = 0.
Proof.
  intros Ho Hn. split_and!.
  - destruct n as [n|]; [|done]. simpl. by rewrite newlines_app, (newlines_none _ Hn).
  - destruct o as [|[m|]|]; try done. unfold outcome_text.
    change (default [] (Some m)) with m. autorewrite with svm_sum. rewrite (newlines_none _ Ho). done.
  - destruct cu as [cu|]; [|done]. unfold units_text.
    autorewrite with svm_sum.
    rewrite !(newlines_none (with_commas _)) by apply with_commas_no_newline. done.
Qed.

Lemma write_frame_newlines label f :
  (∀ k, NEWLINE ∉ label k) → single_line f →
  ∀ prefix is_last, newlines prefix = 0 → newlines (write_frame label prefix is_last f) = rows f.
Proof.
  intros Hlabel. induction f as [k o cu n ls cs IH] using CpiFrame_ind'. intros Hf prefix is_last Hp.
  inversion Hf as [? ? ? ? ? ? Ho Hn Hls Hcs]; subst. clear Hf.
  rewrite write_frame_unfold, rows_unfold.
  set (cp := prefix ++ (if is_last then SPINE_END else SPINE_CONTINUE)).
  assert (newlines cp = 0) as Hcp by (unfold cp; rewrite newlines_app, Hp; by destruct is_last).
  assert (newlines (write_frames label cp cs) = rows_of cs) as Hchildren.
  { clear -IH Hcs Hcp. induction cs as [|c cs IHcs]; [done|]. change (write_frames ?l ?p (?f :: ?fs))
    with (write_frame l p (is_nil fs) f ++ write_frames l p fs).
    apply Forall_cons in IH as [IHc IH]. apply Forall_cons in Hcs as [Hc Hcs].
    rewrite newlines_app, (IHc Hc) by done. simpl. by rewrite IHcs. }
  destruct (header_newlines n o cu Ho Hn) as (H1 & H2 & H3).
  autorewrite with svm_sum. rewrite Hp, H1, H2, H3, (newlines_none _ (Hlabel k)), Hchildren.
  rewrite log_rows_newlines; [|done|by destruct (is_nil cs)|done].
  replace (newlines (if is_last then CONN_LAST else CONN_BRANCH)) with 0 by (by destruct is_last).
  replace (newlines [NEWLINE]) with 1 by done. lia.
Qed.

(** ** Properties *)

(** [with_commas] writes the decimal digits of the number in groups of three
    from the right, the first group of one to three digits: splitting at the
    commas gives such groups, and joining them gives a numeral that parses back to
    the number. *)
Theorem with_commas_groups n (Hn : (n ≤ u64_max)%N) :
  ∃ g gs, split_on COMMA (with_commas n) = g :: gs ∧ 1 ≤ length g ≤ 3 ∧
    Forall (λ x, length x = 3) gs ∧ parse_unsigned u64_max (g ++ mjoin gs) = Some n.
Proof.
  pose proof (parse_to_decimal u64_max n Hn) as Hparse.
  pose proof (to_decimal_no COMMA n ltac:(unfold COMMA; lia)) as Hno.
  unfold with_commas. destruct (to_decimal n) as [|b s]; [done|]. cbn [commas_from negb andb app].
  destruct (commas_tail s) as (g & gs & Hsplit & Hlen & Hgs & Hcat); [set_solver|].
  assert (b ≠ COMMA) as Hb%N.eqb_neq by set_solver.
  exists (b :: g), gs. simpl. rewrite Hb, Hsplit, Hcat. split_and!; try done; simpl; [lia|].
  pose proof (Nat.mod_upper_bound (length s) 3 ltac:(lia)) as Hlt. revert Hlen Hlt.
  generalize (length s mod 3) as m. intros. lia.
Qed.

Lemma with_commas_groups_witness :
  ∃ g gs, split_on COMMA (with_commas 53402) = g :: gs ∧ 1 ≤ length g ≤ 3.
Proof.
  destruct (with_commas_groups 53402) as (g & gs & Hs & Hl & _).
  - vm_compute. discriminate.
  - exists g, gs. exact (conj Hs Hl).
Defined.

(** The rendered tree has one line for the header, one per frame and one per
    log entry, when the texts have no line breaks of their own. *)
Theorem rendered_rows header frames label
  (Hheader : NEWLINE ∉ header) (Hlabel : ∀ k, NEWLINE ∉ label k)
  (Hframes : Forall single_line frames) :
  newlines (format_cpi_tree_with header frames label) = S (rows_of frames).
Proof.
  unfold format_cpi_tree_with. autorewrite with svm_sum. rewrite (newlines_none _ Hheader).
  change (newlines [NEWLINE]) with 1. simpl. f_equal.
  induction Hframes as [|f fs Hf Hfs IH]; [done|]. change (write_frames ?l ?p (?f :: ?fs))
    with (write_frame l p (is_nil fs) f ++ write_frames l p fs).
  autorewrite with svm_sum. rewrite write_frame_newlines, IH by done. done.
Qed.

Lemma rendered_rows_witness :
  newlines (format_cpi_tree_with (lit "CPI Tree:")
    [mkFrame 1 Success None None [Msg (lit "hi")] [mkFrame 2 Truncated None None [] []]]
    (λ _, lit "P")) = 4.
Proof.
  refine (rendered_rows _ _ _ _ _ _).
  - by_decision.
  - intros _. by_decision.
  - repeat constructor; by_decision.
Defined.
