(* ===== verification/Base58.v ===== *)
(** * Addresses as text

    The base58 text of a 32-byte address, an instance of the interface through
    which the CPI tree parser reads and prints program ids, and UTF-8 literals.
    Addresses parse back from their text. *)

From Stdlib.Strings Require Import Ascii.
From S2P Require Import Prelude Text CpiTree.

(** ** Base58 *)

Definition alphabet : str := lit "123456789ABCDEFGHJKLMNPQRSTUVWXYZabcdefghijkmnopqrstuvwxyz".

Definition base58_digit (d : N) : N := default 0%N (alphabet !! N.to_nat d).

Definition base58_value (c : N) : option N :=
  N.of_nat ∘ fst <$> list_find (λ x, x = c) alphabet.

(** Digits of a number, most significant first. *)
Fixpoint digits (base : N) (fuel : nat) (n : N) (acc : list N) : list N :=
  match fuel with
  | 0 => acc
  | S fuel => if (n =? 0)%N then acc else digits base fuel (n / base) ((n mod base)%N :: acc)
  end.

Definition of_digits (base : N) (l : list N) : N := foldl (λ acc d, acc * base + d)%N 0%N l.

(** The number of bytes of a number. *)
Definition byte_length (n : N) : nat := length (digits 256 (N.size_nat n) n []).

(** One [1] per leading zero byte, then the number. *)
Definition base58_encode (a : N) : str :=
  replicate (32 - byte_length a) 49%N ++ (base58_digit <$> digits 58 (N.size_nat a) a []).

Definition base58_decode (s : str) : option N :=
  let zeros := length (take_while (λ c, c =? 49)%N s) in
  ds ← mapM base58_value (drop_while (λ c, c =? 49)%N s);
  let n := of_digits 58 ds in
  if decide (zeros + byte_length n = 32) then Some n else None.

Definition base58_text : AddressText :=
  {| address_from_str := base58_decode; address_to_string := base58_encode |}.

(** [address!] *)
Definition address_lit (s : string) : address := default 0%N (base58_decode (lit s)).

(** ** UTF-8 *)

(** Sequences of up to three bytes; the payload of a byte that does not follow the
    pattern is taken as it is. *)
Fixpoint utf8_from (s : str) : str :=
  match s with
  | a :: ((b :: ((c :: s3) as s2)) as s1) =>
      if (a <? 128)%N then a :: utf8_from s1
      else if (a <? 224)%N then ((a - 192) * 64 + (b - 128))%N :: utf8_from s2
      else ((a - 224) * 4096 + (b - 128) * 64 + (c - 128))%N :: utf8_from s3
  | s => s
  end.

Definition utf8 (s : string) : str := utf8_from (lit s).

(** ** Reading back *)

Lemma digits_acc base fuel : ∀ n acc, digits base fuel n acc = digits base fuel n [] ++ acc.
Proof.
  induction fuel as [|fuel IH]; intros n acc; simpl; [done|].
  destruct (n =? 0)%N; [done|]. by rewrite IH, (IH _ [_]), <-app_assoc.
Qed.

Lemma of_digits_snoc base l d : of_digits base (l ++ [d]) = (of_digits base l * base + d)%N.
Proof. unfold of_digits. by rewrite foldl_snoc. Qed.

(** The digits of a number give it back, are digits, and start with one that is
    not zero. *)
Lemma digits_spec base fuel : ∀ n,
  (2 ≤ base)%N → (n < 2 ^ N.of_nat fuel)%N →
  of_digits base (digits base fuel n []) = n ∧
  Forall (λ d, d < base)%N (digits base fuel n []) ∧
  head (digits base fuel n []) ≠ Some 0%N.
Proof.
  induction fuel as [|fuel IH]; intros n Hb Hn; simpl.
  { split_and!; [unfold of_digits; simpl; simpl in Hn; lia|done|done]. }
  destruct (N.eqb_spec n 0) as [->|Hnz]; [done|].
  rewrite digits_acc.
  assert (n / base < 2 ^ N.of_nat fuel)%N as Hdiv.
  { rewrite Nat2N.inj_succ, N.pow_succ_r' in Hn.
    apply N.Div0.div_lt_upper_bound. nia. }
  destruct (IH (n / base)%N Hb Hdiv) as (Hof & Hall & Hhd).
  split_and!.
  - rewrite of_digits_snoc, Hof. pose proof (N.div_mod n base ltac:(lia)). lia.
  - apply Forall_app. split; [done|]. constructor; [|constructor]. apply N.mod_lt. lia.
  - destruct (digits base fuel (n / base) []) as [|d l] eqn:Hd; simpl; [|done].
    intros [= Hm]. unfold of_digits in Hof. simpl in Hof.
    pose proof (N.div_mod n base ltac:(lia)). lia.
Qed.

Lemma size_bound n : (n < 2 ^ N.of_nat (N.size_nat n))%N.
Proof.
  destruct n as [|p]; [done|]. simpl N.size_nat. induction p as [p IH|p IH|]; [| |done];
    simpl Pos.size_nat; rewrite Nat2N.inj_succ, N.pow_succ_r'; lia.
Qed.

Lemma base58_value_digit d : (d < 58)%N → base58_value (base58_digit d) = Some d.
Proof.
  intros Hd. assert (Forall (λ n, base58_value (base58_digit (N.of_nat n)) = Some (N.of_nat n))
    (seq 0 58)) as Hall by by_decision.
  rewrite Forall_forall in Hall. specialize (Hall (N.to_nat d)). rewrite N2Nat.id in Hall.
  apply Hall, elem_of_seq. lia.
Qed.

Lemma base58_digit_one d : (d < 58)%N → base58_digit d = 49%N → d = 0%N.
Proof.
  intros Hd He. apply base58_value_digit in Hd. rewrite He in Hd. by injection Hd.
Qed.

Lemma no_leading_one ds :
  Forall (λ d, d < 58)%N ds → head ds ≠ Some 0%N →
  match base58_digit <$> ds with c :: _ => (c =? 49)%N = false | [] => True end.
Proof.
  intros Hall Hhd. destruct Hall as [|d ds Hd _]; [done|]. simpl.
  destruct (N.eqb_spec (base58_digit d) 49) as [He|]; [|done].
  apply base58_digit_one in He as ->; done.
Qed.

Lemma mapM_digits ds :
  Forall (λ d, d < 58)%N ds → mapM base58_value (base58_digit <$> ds) = Some ds.
Proof.
  induction 1 as [|d ds Hd _ IH]; [done|]. rewrite fmap_cons. simpl.
  by rewrite base58_value_digit, IH.
Qed.

(** A number below [256 ^ k] has at most [k] bytes. *)
Lemma digits_length base fuel : ∀ k n,
  (2 ≤ base)%N → (n < base ^ N.of_nat k)%N → length (digits base fuel n []) ≤ k.
Proof.
  induction fuel as [|fuel IH]; intros k n Hb Hn; simpl; [lia|].
  destruct (N.eqb_spec n 0) as [|Hnz]; [simpl; lia|]. rewrite digits_acc, length_app. simpl.
  destruct k as [|k]; [simpl in Hn; lia|]. rewrite Nat2N.inj_succ, N.pow_succ_r' in Hn.
  specialize (IH k (n / base)%N Hb). forward IH; [|lia].
  apply N.Div0.div_lt_upper_bound. lia.
Qed.

(** Every 32-byte address parses back from its text. *)
Theorem base58_roundtrip a (Ha : (a < 2 ^ 256)%N) : base58_decode (base58_encode a) = Some a.
Proof.
  unfold base58_decode, base58_encode.
  destruct (digits_spec 58 (N.size_nat a) a ltac:(lia) (size_bound a)) as (Hof & Hall & Hhd).
  assert (Forall (λ c, (c =? 49)%N = true) (replicate (32 - byte_length a) 49%N)) as Hones
    by by apply Forall_replicate.
  destruct (take_while_app _ _ _ Hones (no_leading_one _ Hall Hhd)) as [-> ->].
  rewrite mapM_digits by done. simpl. rewrite Hof, length_replicate.
  assert (byte_length a ≤ 32)%nat.
  { apply (digits_length 256 _ 32 a); [lia|]. change (256 ^ N.of_nat 32)%N with (2 ^ 256)%N. done. }
  rewrite decide_True by lia. done.
Qed.

Lemma base58_roundtrip_witness : base58_decode (base58_encode 77) = Some 77%N.
Proof. apply base58_roundtrip. reflexivity. Defined.
