(* ===== verification/TestsCpiTree.v ===== *)
(** * The unit tests of the CPI tree crate (crates/cpi-tree/src/lib.rs and ext.rs)

    The crate's own tests, as executable checks of the model: the log-line
    constructors, the fixtures and every test function, with addresses in base58.
    All of them evaluate to true. *)

From S2P Require Import Prelude Errors ComputeBudget Runtime Types Text Base58 CpiTree CpiRender.
From S2P Require Import FormatLogs.

Module CpiTests.

#[local] Existing Instance base58_text.

(** ** Equality *)

#[export] Instance FrameLog_eq_dec : EqDecision FrameLog.
Proof. solve_decision. Defined.
#[export] Instance CpiOutcome_eq_dec : EqDecision CpiOutcome.
Proof. solve_decision. Defined.
#[export] Instance ComputeUnits_eq_dec : EqDecision ComputeUnits.
Proof. solve_decision. Defined.

(** ** Fixtures *)

Definition SYSTEM_PROG : address := address_lit "11111111111111111111111111111111".
Definition TOKEN_PROG : address := address_lit "TokenkegQfeZyiNwAJbNbGKPFXCWuBvf9Ss623VQ5DA".
Definition CONFIG_PROG : address := address_lit "Config1111111111111111111111111111111111111".
Definition PROG_A : address := address_lit "GtdambwDgHWrDJdVPBkEHGhCwokqgAoch162teUjJse2".
Definition PROG_B : address := address_lit "6Ng7PojJBe6XjbsR65ftKKBpHUe2erD7E5dgGdMUjcgg".
Definition PROG_C : address := address_lit "22222222222222222222222222222222222222222222".

Definition invoke (addr : address) (depth : N) : str :=
  lit "Program " ++ address_to_string addr ++ lit " invoke [" ++ to_decimal depth ++ lit "]".
Definition instruction (name : string) : str := lit "Program log: Instruction: " ++ lit name.
Definition program_log (text : string) : str := lit "Program log: " ++ lit text.
Definition program_data (payload : string) : str := lit "Program data: " ++ lit payload.
Definition log_consumed (addr : address) (cu : N) : str :=
  lit "Program " ++ address_to_string addr ++ lit " consumed " ++ to_decimal cu
  ++ lit " of 200000 compute units".
Definition success (addr : address) : str :=
  lit "Program " ++ address_to_string addr ++ lit " success".
Definition failed (addr : address) (msg : string) : str :=
  lit "Program " ++ address_to_string addr ++ lit " failed: " ++ lit msg.

Definition render (logs : list str) : str := format_cpi_tree (lit "CPI Tree:") (cpi_tree logs).

(** ** Expected renderings *)

(** [trim_end], [lines] and [join] of [str]. *)
Definition trim_end (s : str) : str := reverse (trim_start (reverse s)).

Definition lines (s : str) : list str :=
  let ls := split_on NEWLINE s in
  match reverse ls with [] :: rest => reverse rest | _ => ls end.

Fixpoint join (sep : str) (l : list str) : str :=
  match l with [] => [] | [x] => x | x :: l => x ++ sep ++ join sep l end.

Definition min_list (l : list nat) : option nat :=
  match l with [] => None | x :: l => Some (foldl Nat.min x l) end.

(** Indentation is counted in characters: it is ASCII. *)
Definition dedent (s : str) : str :=
  let ls := lines (trim_end (drop_while (λ c, c =? NEWLINE)%N s)) in
  let indent := default 0 (min_list
    ((λ l, length l - length (trim_start l)) <$> filter (λ l, trim l ≠ []) ls)) in
  join [NEWLINE] ((λ l, if decide (indent ≤ length l) then drop indent l else l) <$> ls)
  ++ [NEWLINE].

(** The literal is UTF-8. *)
Definition render_eq (actual : str) (expected : string) : bool :=
  bool_decide (actual = dedent (utf8 expected)).

(** ** Assertions on frames *)

Definition on (l : list CpiFrame) (i : nat) (p : CpiFrame → bool) : bool :=
  match l !! i with Some f => p f | None => false end.
Definition has_id (k : address) (f : CpiFrame) : bool := (frame_program_id f =? k)%N.
Definition named (n : string) (f : CpiFrame) : bool :=
  bool_decide (frame_instruction_name f = Some (lit n)).
Definition has_units (c a : N) (f : CpiFrame) : bool :=
  bool_decide (frame_compute_units f = Some {| consumed := c; available_at_start := a |}).
Definition has_consumed (c : N) (f : CpiFrame) : bool :=
  bool_decide (consumed <$> frame_compute_units f = Some c).
Definition ended (o : CpiOutcome) (f : CpiFrame) : bool := bool_decide (frame_outcome f = o).
Definition is_failed (f : CpiFrame) : bool :=
  match frame_outcome f with Failed _ => true | _ => false end.
Definition has_logs (ls : list FrameLog) (f : CpiFrame) : bool := bool_decide (frame_logs f = ls).
Definition first_msg_contains (w : string) (f : CpiFrame) : bool :=
  match frame_logs f with Msg t :: _ => contains (lit w) t | _ => false end.
Definition totals (n : option N) (tree : list CpiFrame) : bool :=
  match transaction_total_cu tree with Ret r => bool_decide (r = n) | Panic => false end.

(** ** The tests *)

Definition empty_stream_yields_empty_tree : bool :=
  is_nil (cpi_tree []).

Definition stream_with_no_invoke_lines_yields_empty_tree : bool :=
  let tree := cpi_tree
    [lit "Program log: this looks like a log but no invoke ever happened";
     lit "Some unrelated runtime chatter"] in
  is_nil tree.

Definition multiple_roots_keep_invocation_order : bool :=
  let tree := cpi_tree
    [invoke SYSTEM_PROG 1; success SYSTEM_PROG; invoke TOKEN_PROG 1; success TOKEN_PROG] in
  (length tree =? 2)%nat && on tree 0 (has_id SYSTEM_PROG) && on tree 1 (has_id TOKEN_PROG).

Definition nested_cpi_attaches_child_under_parent : bool :=
  let tree := cpi_tree
    [invoke PROG_A 1; instruction "Mint"; invoke TOKEN_PROG 2; instruction "MintTo";
     log_consumed TOKEN_PROG 1500; success TOKEN_PROG; log_consumed PROG_A 5000; success PROG_A] in
  (length tree =? 1)%nat && on tree 0 (λ f,
    named "Mint" f && has_units 5000 200000 f && ended Success f
    && (length (frame_children f) =? 1)%nat && on (frame_children f) 0 (named "MintTo")).

Definition instruction_header_clears_pre_handler_msg_chatter_but_keeps_data : bool :=
  let tree := cpi_tree
    [invoke PROG_A 1; program_log "pre-dispatch chatter"; program_data "PreDispatchData";
     instruction "Mint"; program_log "post-dispatch log"; success PROG_A] in
  on tree 0 (λ f,
    named "Mint" f && has_logs [Data (lit "PreDispatchData"); Msg (lit "post-dispatch log")] f).

Definition instruction_header_does_not_overwrite_existing_name : bool :=
  let tree := cpi_tree
    [invoke TOKEN_PROG 1; instruction "TransferChecked"; instruction "SomethingElse";
     success TOKEN_PROG] in
  on tree 0 (named "TransferChecked").

Definition failed_frame_carries_message_and_logs : bool :=
  let tree := cpi_tree
    [invoke PROG_A 1; instruction "Withdraw";
     program_log "AnchorError caused by account: vault. Error Code: ConstraintHasOne.";
     failed PROG_A "custom program error: 0x7d1"] in
  on tree 0 (λ f,
    ended (Failed (Some (lit "custom program error: 0x7d1"))) f
    && (length (frame_logs f) =? 1)%nat && first_msg_contains "ConstraintHasOne" f).

Definition failed_message_preserves_internal_whitespace : bool :=
  let tree := cpi_tree
    [invoke SYSTEM_PROG 1; failed SYSTEM_PROG "missing required signature for instruction"] in
  on tree 0
    (ended (Failed (Some (lit "missing required signature for instruction")))).

Definition unclosed_frames_drain_as_truncated : bool :=
  let tree := cpi_tree
    [invoke PROG_A 1; invoke TOKEN_PROG 2] in
  (length tree =? 1)%nat && on tree 0 (λ f,
    ended Truncated f && on (frame_children f) 0 (ended Truncated)).

Definition truncation_marks_open_spine_not_resolved_siblings : bool :=
  let tree := cpi_tree
    [invoke PROG_A 1; instruction "Outer"; invoke TOKEN_PROG 2; log_consumed TOKEN_PROG 500;
     success TOKEN_PROG; invoke PROG_C 2] in
  (length tree =? 1)%nat && on tree 0 (λ f,
    has_id PROG_A f && ended Truncated f && (length (frame_children f) =? 2)%nat
    && on (frame_children f) 0 (λ c, has_id TOKEN_PROG c && ended Success c && has_consumed 500 c)
    && on (frame_children f) 1 (λ c, has_id PROG_C c && ended Truncated c)).

Definition invalid_program_id_in_invoke_is_dropped : bool :=
  let tree := cpi_tree
    [lit "Program not-a-valid-base58-pubkey invoke [1]"; invoke SYSTEM_PROG 1;
     success SYSTEM_PROG] in
  (length tree =? 1)%nat && on tree 0 (has_id SYSTEM_PROG).

Definition unprefixed_runtime_line_captured_as_msg : bool :=
  let tree := cpi_tree
    [invoke CONFIG_PROG 1;
     lit "account J2kSTGu6eod7MUAy2nNZhFW5ye5ZdhAri6bcJJHRhhXy signer_key().is_none()";
     failed CONFIG_PROG "missing required signature for instruction"] in
  on tree 0 (λ f,
    is_failed f && (length (frame_logs f) =? 1)%nat
    && first_msg_contains "signer_key().is_none()" f).

Definition non_program_diagnostics_outside_frame_are_dropped : bool :=
  let tree := cpi_tree
    [lit "stray text before any frame"; invoke SYSTEM_PROG 1;
     failed SYSTEM_PROG "custom program error: 0x1"; lit "stray text after the frame closed"] in
  (length tree =? 1)%nat && on tree 0 (λ f,
    is_failed f && is_nil (frame_logs f)).

Definition format_nested_grandchild_extends_pipe_through_non_last_branch : bool :=
  render_eq (render
    [invoke PROG_A 1; instruction "Mint"; invoke TOKEN_PROG 2; instruction "MintTo";
     invoke SYSTEM_PROG 3; log_consumed SYSTEM_PROG 50; success SYSTEM_PROG;
     log_consumed TOKEN_PROG 1500; success TOKEN_PROG; invoke PROG_C 2;
     log_consumed PROG_C 100; success PROG_C; log_consumed PROG_A 5000; success PROG_A])
"
            CPI Tree:
            └── Mint (5,000 / 200,000 CU) GtdambwDgHWrDJdVPBkEHGhCwokqgAoch162teUjJse2
                ├── MintTo (1,500 / 200,000 CU) TokenkegQfeZyiNwAJbNbGKPFXCWuBvf9Ss623VQ5DA
                │   └── (50 / 200,000 CU) 11111111111111111111111111111111
                └── (100 / 200,000 CU) 22222222222222222222222222222222222222222222
            ".

Definition format_failed_frame_shows_message : bool :=
  render_eq (render
    [invoke PROG_A 1; instruction "Withdraw"; log_consumed PROG_A 3100;
     failed PROG_A "custom program error: 0x7d1"])
"
            CPI Tree:
            └── Withdraw FAILED: custom program error: 0x7d1 (3,100 / 200,000 CU) GtdambwDgHWrDJdVPBkEHGhCwokqgAoch162teUjJse2
            ".

Definition format_truncated_frame_marks_it : bool :=
  render_eq (render
    [invoke PROG_A 1])
"
            CPI Tree:
            └── TRUNCATED GtdambwDgHWrDJdVPBkEHGhCwokqgAoch162teUjJse2
            ".

Definition format_truncated_spine_with_resolved_sibling : bool :=
  render_eq (render
    [invoke PROG_A 1; instruction "Outer"; invoke TOKEN_PROG 2; log_consumed TOKEN_PROG 500;
     success TOKEN_PROG; invoke PROG_C 2])
"
            CPI Tree:
            └── Outer TRUNCATED GtdambwDgHWrDJdVPBkEHGhCwokqgAoch162teUjJse2
                ├── (500 / 200,000 CU) TokenkegQfeZyiNwAJbNbGKPFXCWuBvf9Ss623VQ5DA
                └── TRUNCATED 22222222222222222222222222222222222222222222
            ".

Definition format_empty_tree_yields_only_header : bool :=
  bool_decide (format_cpi_tree (lit "CPI Tree:") [] = lit "CPI Tree:" ++ [NEWLINE]).

Definition format_multiple_roots_group_under_header : bool :=
  render_eq (render
    [invoke SYSTEM_PROG 1; success SYSTEM_PROG; invoke TOKEN_PROG 1; instruction "Foo";
     log_consumed TOKEN_PROG 200; success TOKEN_PROG; invoke PROG_A 1; success PROG_A])
"
            CPI Tree:
            ├── 11111111111111111111111111111111
            ├── Foo (200 / 200,000 CU) TokenkegQfeZyiNwAJbNbGKPFXCWuBvf9Ss623VQ5DA
            └── GtdambwDgHWrDJdVPBkEHGhCwokqgAoch162teUjJse2
            ".

Definition format_frame_with_data_no_children_uses_plain_pad : bool :=
  render_eq (render
    [invoke PROG_B 1; instruction "EmitTwo"; program_data "BqfPDIBaUMVcAAAA";
     program_data "AnotherBase64String"; log_consumed PROG_B 1500; success PROG_B])
"
            CPI Tree:
            └── EmitTwo (1,500 / 200,000 CU) 6Ng7PojJBe6XjbsR65ftKKBpHUe2erD7E5dgGdMUjcgg
                  >> data: BqfPDIBaUMVcAAAA
                  >> data: AnotherBase64String
            ".

Definition format_frame_with_data_and_children_uses_spine : bool :=
  render_eq (render
    [invoke PROG_A 1; instruction "Mint"; program_data "ParentDataPayload"; invoke TOKEN_PROG 2;
     instruction "MintTo"; log_consumed TOKEN_PROG 1500; success TOKEN_PROG;
     log_consumed PROG_A 5000; success PROG_A])
"
            CPI Tree:
            └── Mint (5,000 / 200,000 CU) GtdambwDgHWrDJdVPBkEHGhCwokqgAoch162teUjJse2
                │ >> data: ParentDataPayload
                └── MintTo (1,500 / 200,000 CU) TokenkegQfeZyiNwAJbNbGKPFXCWuBvf9Ss623VQ5DA
            ".

Definition format_frame_with_no_data_omits_data_lines : bool :=
  render_eq (render
    [invoke SYSTEM_PROG 1; log_consumed SYSTEM_PROG 100; success SYSTEM_PROG])
"
            CPI Tree:
            └── (100 / 200,000 CU) 11111111111111111111111111111111
            ".

Definition logs_and_data_preserve_interleaved_order : bool :=
  let tree := cpi_tree
    [invoke PROG_B 1; instruction "Mix"; program_log "step 1"; program_data "FirstData";
     program_log "step 2"; program_data "SecondData"; program_log "step 3";
     log_consumed PROG_B 1500; success PROG_B] in
  (length tree =? 1)%nat && on tree 0 (has_logs
    [Msg (lit "step 1"); Data (lit "FirstData"); Msg (lit "step 2"); Data (lit "SecondData");
     Msg (lit "step 3")]).

Definition format_interleaved_logs_and_data : bool :=
  render_eq (render
    [invoke PROG_B 1; instruction "Mix"; program_log "step 1"; program_data "FirstData";
     program_log "step 2"; log_consumed PROG_B 1500; success PROG_B])
"
            CPI Tree:
            └── Mix (1,500 / 200,000 CU) 6Ng7PojJBe6XjbsR65ftKKBpHUe2erD7E5dgGdMUjcgg
                  >> log:  step 1
                  >> data: FirstData
                  >> log:  step 2
            ".

Definition success_frame_captures_data_entries : bool :=
  let tree := cpi_tree
    [invoke PROG_B 1; instruction "EmitTwo"; program_data "BqfPDIBaUMVcAAAA";
     program_data "AnotherBase64String"; log_consumed PROG_B 1500; success PROG_B] in
  (length tree =? 1)%nat && on tree 0 (λ f,
    ended Success f
    && has_logs [Data (lit "BqfPDIBaUMVcAAAA"); Data (lit "AnotherBase64String")] f).

Definition parser_captures_consumed_and_available : bool :=
  let tree := cpi_tree
    [invoke PROG_A 1;
     lit "Program GtdambwDgHWrDJdVPBkEHGhCwokqgAoch162teUjJse2 consumed 1500 of 198000 compute units";
     success PROG_A] in
  on tree 0 (has_units 1500 198000).

Definition with_commas_inserts_thousands_separators : bool :=
  bool_decide (with_commas 0 = lit "0") && bool_decide (with_commas 42 = lit "42")
  && bool_decide (with_commas 999 = lit "999") && bool_decide (with_commas 1000 = lit "1,000")
  && bool_decide (with_commas 53402 = lit "53,402")
  && bool_decide (with_commas 1234567890 = lit "1,234,567,890").

Definition transaction_total_cu_sums_top_level_frames : bool :=
  let tree := cpi_tree
    [invoke PROG_A 1; log_consumed PROG_A 4817; success PROG_A; invoke PROG_B 1;
     log_consumed PROG_B 9497; success PROG_B; invoke TOKEN_PROG 1;
     log_consumed TOKEN_PROG 17173; success TOKEN_PROG] in
  totals (Some 31487%N) tree.

Definition transaction_total_cu_returns_none_when_no_frame_has_cu : bool :=
  let tree := cpi_tree
    [invoke SYSTEM_PROG 1; success SYSTEM_PROG] in
  on tree 0 (λ f, bool_decide (frame_compute_units f = None)) && totals None tree.

Definition transaction_compute_budget_reads_first_available : bool :=
  let tree := cpi_tree
    [invoke SYSTEM_PROG 1; success SYSTEM_PROG; invoke PROG_A 1;
     lit "Program GtdambwDgHWrDJdVPBkEHGhCwokqgAoch162teUjJse2 consumed 4817 of 1000000 compute units";
     success PROG_A] in
  bool_decide (transaction_compute_budget tree = Some 1000000%N).

Definition format_with_custom_label_replaces_program_id : bool :=
  let frames := cpi_tree
    [invoke SYSTEM_PROG 1; success SYSTEM_PROG] in
  render_eq (format_cpi_tree_with (lit "tx") frames
    (λ addr, lit "<" ++ address_to_string addr ++ lit ">"))
"
            tx
            └── <11111111111111111111111111111111>
            ".

Definition format_with_custom_label_threads_through_recursion : bool :=
  let frames := cpi_tree
    [invoke PROG_A 1; invoke TOKEN_PROG 2; success TOKEN_PROG; success PROG_A] in
  render_eq (format_cpi_tree_with (lit "tx") frames
    (λ addr, lit "<" ++ address_to_string addr ++ lit ">"))
"
            tx
            └── <GtdambwDgHWrDJdVPBkEHGhCwokqgAoch162teUjJse2>
                └── <TokenkegQfeZyiNwAJbNbGKPFXCWuBvf9Ss623VQ5DA>
            ".

Definition transaction_total_cu_does_not_double_count_children : bool :=
  let tree := cpi_tree
    [invoke PROG_A 1; invoke TOKEN_PROG 2; log_consumed TOKEN_PROG 500; success TOKEN_PROG;
     log_consumed PROG_A 1500; success PROG_A] in
  on tree 0 (λ f, has_consumed 1500 f && on (frame_children f) 0 (has_consumed 500))
  && totals (Some 1500%N) tree.

(** ** The tests of the metadata extension *)

Definition meta_with_logs (ls : list str) : TransactionMetadata :=
  {| meta_signature := default_signature; logs := ls; inner_instructions := [];
     compute_units_consumed := 0; return_data := default_return_data; meta_fee := 0 |}.

Definition pretty_starts_with (ls : list str) (header : string) : bool :=
  match pretty_cpi_tree (meta_with_logs ls) with
  | Ret out => starts_with (lit header) out
  | Panic => false
  end.

Definition pretty_cpi_tree_header_shows_total_and_budget : bool :=
  pretty_starts_with
    [lit "Program GtdambwDgHWrDJdVPBkEHGhCwokqgAoch162teUjJse2 invoke [1]";
     lit "Program GtdambwDgHWrDJdVPBkEHGhCwokqgAoch162teUjJse2 consumed 4817 of 1000000 compute units";
     lit "Program GtdambwDgHWrDJdVPBkEHGhCwokqgAoch162teUjJse2 success"]
    "CPI Tree (4,817 BPF CU / 1,000,000 budget):".

Definition pretty_cpi_tree_header_notes_missing_cu : bool :=
  pretty_starts_with
    [lit "Program 11111111111111111111111111111111 invoke [1]";
     lit "Program 11111111111111111111111111111111 success"]
    "CPI Tree (no compute units in logs):".

(** ** Outcome *)

Definition all_tests : list bool :=
  [empty_stream_yields_empty_tree;
   stream_with_no_invoke_lines_yields_empty_tree;
   multiple_roots_keep_invocation_order;
   nested_cpi_attaches_child_under_parent;
   instruction_header_clears_pre_handler_msg_chatter_but_keeps_data;
   instruction_header_does_not_overwrite_existing_name;
   failed_frame_carries_message_and_logs;
   failed_message_preserves_internal_whitespace;
   unclosed_frames_drain_as_truncated;
   truncation_marks_open_spine_not_resolved_siblings;
   invalid_program_id_in_invoke_is_dropped;
   unprefixed_runtime_line_captured_as_msg;
   non_program_diagnostics_outside_frame_are_dropped;
   format_nested_grandchild_extends_pipe_through_non_last_branch;
   format_failed_frame_shows_message;
   format_truncated_frame_marks_it;
   format_truncated_spine_with_resolved_sibling;
   format_empty_tree_yields_only_header;
   format_multiple_roots_group_under_header;
   format_frame_with_data_no_children_uses_plain_pad;
   format_frame_with_data_and_children_uses_spine;
   format_frame_with_no_data_omits_data_lines;
   logs_and_data_preserve_interleaved_order;
   format_interleaved_logs_and_data;
   success_frame_captures_data_entries;
   parser_captures_consumed_and_available;
   with_commas_inserts_thousands_separators;
   transaction_total_cu_sums_top_level_frames;
   transaction_total_cu_returns_none_when_no_frame_has_cu;
   transaction_compute_budget_reads_first_available;
   format_with_custom_label_replaces_program_id;
   format_with_custom_label_threads_through_recursion;
   transaction_total_cu_does_not_double_count_children;
   pretty_cpi_tree_header_shows_total_and_budget;
   pretty_cpi_tree_header_notes_missing_cu].

(** The model passes every unit test of the crate. *)
Theorem cpi_tree_tests_pass : Forall (λ t, t = true) all_tests.
Proof. by_decision. Qed.
End CpiTests.
