(* ===== verification/TraceFilter.v ===== *)
(** * Trace filters (crates/litesvm/src/register_tracing_filter.rs)

    The filter language of register tracing: its syntax tree, the recursive-descent
    parser built from nom's combinators, and the evaluator over rows of values.
    The parser is compared with a grammar, the evaluator with the boolean meaning
    of a filter. *)

From S2P Require Import Prelude Text.

(** ** nom

    A parser takes the input to what is left of it and its output.  The
    combinators are the crate's: operations here, with their documented
    behaviour as laws.  The complete parsers used never ask for more input and
    nothing cuts, so the only failures are recoverable ones. *)

Class Nom : Type := {
  nom_error : Type;
  nom_error_to_string : nom_error → str;
  multispace0 : str → result nom_error (str * str);
  tag : str → str → result nom_error (str * str);
  take_while1 : (N → bool) → str → result nom_error (str * str);
  pmap {A B} : (A → B) → (str → result nom_error (str * A)) → str → result nom_error (str * B);
  tuple3 {A B C} :
    (str → result nom_error (str * A)) → (str → result nom_error (str * B)) →
    (str → result nom_error (str * C)) → str → result nom_error (str * (A * B * C));
  alt {A} :
    (str → result nom_error (str * A)) → (str → result nom_error (str * A)) →
    str → result nom_error (str * A);
  delimited {A B C} :
    (str → result nom_error (str * A)) → (str → result nom_error (str * B)) →
    (str → result nom_error (str * C)) → str → result nom_error (str * B);
  separated_list1 {A B} :
    (str → result nom_error (str * A)) → (str → result nom_error (str * B)) →
    str → result nom_error (str * list B) }.

(** Space, tab, carriage return and line feed. *)
Definition is_multispace (c : N) : bool := ((c =? 32) || (c =? 9) || (c =? 13) || (c =? 10))%N.

Abbreviation parser A := (str → result nom_error (str * A)) (only parsing).

Class NomLaws `{Nom} : Prop := {
  multispace0_run i :
    multispace0 i = Ok (drop_while is_multispace i, take_while is_multispace i);
  tag_run t i :
    match strip_prefix t i with
    | Some rest => tag t i = Ok (rest, t)
    | None => is_err (tag t i) = true
    end;
  take_while1_run p i :
    match take_while p i with
    | [] => is_err (take_while1 p i) = true
    | w => take_while1 p i = Ok (drop_while p i, w)
    end;
  pmap_run {A B} (f : A → B) p i : pmap f p i = (r ← p i; Ok (r.1, f r.2));
  tuple3_run {A B C} (p : parser A) (q : parser B) (r : parser C) i :
    tuple3 p q r i = (a ← p i; b ← q a.1; c ← r b.1; Ok (c.1, (a.2, b.2, c.2)));
  alt_run {A} (p q : parser A) i :
    match p i with
    | Ok r => alt p q i = Ok r
    | Err _ => match q i with
               | Ok r => alt p q i = Ok r
               | Err _ => is_err (alt p q i) = true
               end
    end;
  delimited_run {A B C} (p : parser A) (q : parser B) (r : parser C) i :
    delimited p q r i = (a ← p i; b ← q a.1; c ← r b.1; Ok (c.1, b.2));
  separated_list1_none {A B} (sep : parser A) (f : parser B) i :
    is_err (f i) = true → is_err (separated_list1 sep f i) = true;
  separated_list1_stop {A B} (sep : parser A) (f : parser B) i i1 o :
    f i = Ok (i1, o) →
    match sep i1 with Err _ => True | Ok (i2, _) => is_err (f i2) = true end →
    separated_list1 sep f i = Ok (i1, [o]);
  separated_list1_more {A B} (sep : parser A) (f : parser B) i i1 o i2 x y :
    f i = Ok (i1, o) → sep i1 = Ok (i2, x) → (length i2 < length i1 ≤ length i)%nat →
    f i2 = Ok y →
    separated_list1 sep f i = (r ← separated_list1 sep f i2; Ok (r.1, o :: r.2)) }.

(** [char::is_alphanumeric]; its Unicode tables matter only outside ASCII. *)
Class CharClass : Type := { is_alphanumeric : N → bool }.

Definition is_ascii_alphanumeric (c : N) : bool :=
  ((48 <=? c) && (c <=? 57) || (65 <=? c) && (c <=? 90) || (97 <=? c) && (c <=? 122))%N.

Class CharClassLaws `{CharClass} : Prop := {
  is_alphanumeric_ascii c : (c < 128)%N → is_alphanumeric c = is_ascii_alphanumeric c }.

(** ** Syntax *)

Inductive Op : Type := Eq | Neq.

Record Cond : Type := { field : str; cond_op : Op; value : str }.

Inductive Expr : Type :=
| ETrue
| ECond (c : Cond)
| EAnd (xs : list Expr)
| EOr (xs : list Expr).

(** ** The parser *)

Section parser.
Context `{Nom} `{CharClass}.

Definition ws {A} (inner : parser A) : parser A := delimited multispace0 inner multispace0.

Definition ident_char (c : N) : bool :=
  is_alphanumeric c || existsb (λ x, x =? c)%N (lit "_-.").

Definition ident : parser str := ws (take_while1 ident_char).

Definition op : parser Op :=
  ws (alt (pmap (λ _, Neq) (tag (lit "!="))) (pmap (λ _, Eq) (tag (lit "==")))).

Definition cond : parser Expr :=
  pmap (λ '(f, o, v), ECond {| field := f; cond_op := o; value := v |}) (tuple3 ident op ident).

(** The three mutually recursive parsers take the innermost one as an argument. *)
Definition factor (expr_inner : parser Expr) : parser Expr :=
  alt (delimited (ws (tag (lit "("))) expr_inner (ws (tag (lit ")")))) cond.

Definition unless_single (f : list Expr → Expr) (xs : list Expr) : Expr :=
  match xs with [x] => x | _ => f xs end.

Definition and_expr (expr_inner : parser Expr) : parser Expr :=
  pmap (unless_single EAnd) (separated_list1 (ws (tag (lit "&&"))) (factor expr_inner)).

Definition or_expr (expr_inner : parser Expr) : parser Expr :=
  pmap (unless_single EOr) (separated_list1 (ws (tag (lit "||"))) (and_expr expr_inner)).

(** The fuel bounds the nesting of parentheses; without fuel the parser fails. *)
Fixpoint expr_inner (fuel : nat) (input : str) : result nom_error (str * Expr) :=
  match fuel with
  | 0 => r ← take_while1 (λ _, false) input; Ok (r.1, ETrue)
  | S fuel =>
      r ← multispace0 input;
      match r.1 with
      | [] => Ok ([], ETrue)
      | _ => or_expr (expr_inner fuel) input
      end
  end.

(** Each level of nesting takes two characters, so the length is fuel enough. *)
Definition expr (input : str) : result str Expr :=
  match expr_inner (S (length input)) input with
  | Ok ([], ast) => Ok ast
  | Ok (rest, _) => Err (lit "unexpected trailing input: '" ++ trim rest ++ lit "'")
  | Err e => Err (nom_error_to_string e)
  end.
End parser.

(** ** The evaluator *)

(** The loop over the conjuncts: an equality on a field that an earlier conjunct
    equates with another value. *)
Fixpoint contradictory (eq_by_field : gmap str str) (xs : list Expr) : bool :=
  match xs with
  | [] => false
  | ECond {| field := f; cond_op := Eq; value := v |} :: xs =>
      match eq_by_field !! f with
      | Some prev => if bool_decide (prev = v) then contradictory (<[f := v]> eq_by_field) xs
                     else true
      | None => contradictory (<[f := v]> eq_by_field) xs
      end
  | _ :: xs => contradictory eq_by_field xs
  end.

Definition row_get (row : gmap str (list str)) (f : str) : list str := default [] (row !! f).

Definition eval_cond (c : Cond) (row : gmap str (list str)) : bool :=
  let vals := row_get row (field c) in
  match cond_op c with
  | Eq => existsb (λ v, bool_decide (v = value c)) vals
  | Neq => forallb (λ v, negb (bool_decide (v = value c))) vals
  end.

Fixpoint eval (e : Expr) (row : gmap str (list str)) : bool :=
  match e with
  | ETrue => true
  | ECond c => eval_cond c row
  | EAnd xs => if contradictory ∅ xs then false else forallb (λ x, eval x row) xs
  | EOr xs => existsb (λ x, eval x row) xs
  end.

(** ** The grammar

    The language of the filter expressions, by depth of parentheses: tokens may
    have white space around them. *)

Definition spaces (s : str) : Prop := Forall (λ c, is_multispace c = true) s.

Definition token (t s : str) : Prop := ∃ l r, spaces l ∧ spaces r ∧ s = l ++ t ++ r.

(** One or more phrases with separators between them. *)
Inductive separated {A} (sep : str → Prop) (R : str → A → Prop) : str → list A → Prop :=
| separated_one s e : R s e → separated sep R s [e]
| separated_cons s e t s' es :
    R s e → sep t → separated sep R s' es → separated sep R (s ++ t ++ s') (e :: es).

Definition op_text (o : Op) : str := match o with Eq => lit "==" | Neq => lit "!=" end.

Section grammar.
Context `{CharClass}.

Definition word (w : str) : Prop := w ≠ [] ∧ Forall (λ c, ident_char c = true) w.

Inductive g_factor (inner : str → Expr → Prop) : str → Expr → Prop :=
| g_group s1 s e s2 :
    token (lit "(") s1 → inner s e → token (lit ")") s2 → g_factor inner (s1 ++ s ++ s2) e
| g_cond f o v s1 s2 s3 :
    word f → word v → token f s1 → token (op_text o) s2 → token v s3 →
    g_factor inner (s1 ++ s2 ++ s3) (ECond {| field := f; cond_op := o; value := v |}).

Inductive g_and (inner : str → Expr → Prop) : str → Expr → Prop :=
| g_and_intro s xs :
    separated (token (lit "&&")) (g_factor inner) s xs → g_and inner s (unless_single EAnd xs).

Inductive g_or (inner : str → Expr → Prop) : str → Expr → Prop :=
| g_or_intro s xs :
    separated (token (lit "||")) (g_and inner) s xs → g_or inner s (unless_single EOr xs).

Fixpoint g_expr (depth : nat) : str → Expr → Prop :=
  match depth with
  | 0 => λ _ _, False
  | S depth => g_or (g_expr depth)
  end.

(** A filter is empty or an expression of some depth. *)
Definition filter_text (s : str) (e : Expr) : Prop :=
  (spaces s ∧ e = ETrue) ∨ ∃ depth, g_expr depth s e.
End grammar.

(** ** Lemmas on the combinators *)

Section combinators.
Context `{Nom} `{!NomLaws}.

Lemma spaces_take s : spaces (take_while is_multispace s).
Proof. apply take_while_all. Qed.

Lemma is_err_true {E A} (r : result E A) : is_err r = true ↔ ∃ e, r = Err e.
Proof. destruct r; unfold is_err, is_ok; simpl; naive_solver. Qed.

(** What follows a phrase, once its white space is gone. *)
Abbreviation trimmed := (drop_while is_multispace) (only parsing).

Lemma ws_Ok {A} (p : parser A) i r x :
  ws p i = Ok (r, x) ↔ ∃ r', p (trimmed i) = Ok (r', x) ∧ r = trimmed r'.
Proof.
  unfold ws. rewrite delimited_run, multispace0_run. simpl.
  destruct (p (trimmed i)) as [[r' x']|e]; simpl; [|naive_solver].
  rewrite multispace0_run. simpl. naive_solver.
Qed.

Lemma tag_Ok t i r x : tag t i = Ok (r, x) ↔ i = t ++ r ∧ x = t.
Proof.
  pose proof (tag_run t i) as Ht. destruct (strip_prefix t i) as [rest|] eqn:Hs.
  - apply strip_prefix_Some in Hs as ->. rewrite Ht. split; [by intros [= <- <-]|].
    by intros [<-%app_inv_head ->].
  - apply is_err_true in Ht as [e ->]. split; [done|]. intros [-> _].
    by rewrite strip_prefix_app in Hs.
Qed.

Lemma tag_Err t i : strip_prefix t i = None → is_err (tag t i) = true.
Proof. intros Hs. pose proof (tag_run t i) as Ht. by rewrite Hs in Ht. Qed.

Lemma alt_Ok {A} (p q : parser A) i r :
  alt p q i = Ok r ↔ p i = Ok r ∨ is_err (p i) = true ∧ q i = Ok r.
Proof.
  pose proof (alt_run p q i) as Ha. destruct (p i) as [r'|e].
  - rewrite Ha. naive_solver.
  - destruct (q i) as [r'|e']; [rewrite Ha; naive_solver|].
    apply is_err_true in Ha as [e'' ->]. naive_solver.
Qed.

Lemma pmap_Ok {A B} (f : A → B) p i r y :
  pmap f p i = Ok (r, y) ↔ ∃ x, p i = Ok (r, x) ∧ y = f x.
Proof. rewrite pmap_run. destruct (p i) as [[r' x]|e]; simpl; naive_solver. Qed.

(** A token is read wherever it is, with the white space around it. *)
Lemma ws_tag_token t s r :
  token t s → match t with c :: _ => is_multispace c = false | [] => False end →
  ws (tag t) (s ++ r) = Ok (trimmed r, t).
Proof.
  intros (l & r' & Hl & Hr & ->) Ht. apply ws_Ok. exists (r' ++ r).
  rewrite <-!app_assoc, drop_while_app by done. rewrite drop_while_id by (by destruct t).
  split; [by apply tag_Ok|]. by rewrite drop_while_app.
Qed.

Lemma ws_tag_sound t i r x : ws (tag t) i = Ok (r, x) → ∃ s, token t s ∧ i = s ++ r.
Proof.
  intros (r' & [Hi ->]%tag_Ok & ->)%ws_Ok.
  exists (take_while is_multispace i ++ t ++ take_while is_multispace r'). split.
  - eexists _, _. split_and!; [apply spaces_take..|done].
  - by rewrite <-!app_assoc, take_drop_while, <-Hi, take_drop_while.
Qed.

(** [p] accepts phrases of [R] only, and whole ones. *)
Definition sound {A} (p : parser A) (R : str → A → Prop) : Prop :=
  ∀ i r x, p i = Ok (r, x) → ∃ s, R s x ∧ i = s ++ r.

(** The same, only for runs that leave something. *)
Definition sound_open {A} (p : parser A) (R : str → A → Prop) : Prop :=
  ∀ i r x, p i = Ok (r, x) → r ≠ [] → ∃ s, R s x ∧ i = s ++ r.

(** [p] reads every phrase of [R] that is followed by [stop], and the white space
    after it; leading white space does not matter. *)
Definition reads {A} (p : parser A) (R : str → A → Prop) (stop : str → Prop) : Prop :=
  ∀ s x i r, R s x → stop (trimmed r) → trimmed i = trimmed (s ++ r) → p i = Ok (trimmed r, x).

Section separated.
Context {A B} (sep : parser A) (f : parser B) (S : str → Prop) (R : str → B → Prop).
Context (Hsep : ∀ i r x, sep i = Ok (r, x) → ∃ s, S s ∧ i = s ++ r) (Hf : sound f R).
Context (HS : ∀ s, S s → s ≠ []).

Lemma sep_shorter i r x : sep i = Ok (r, x) → (length r < length i)%nat.
Proof.
  intros (s & Hs%HS & ->)%Hsep. rewrite length_app. destruct s; [done|]. simpl. lia.
Qed.

Lemma f_shorter i r x : f i = Ok (r, x) → (length r ≤ length i)%nat.
Proof. intros (s & _ & ->)%Hf. rewrite length_app. lia. Qed.

Lemma separated_sound : sound (separated_list1 sep f) (separated S R).
Proof.
  intros i. remember (length i) as n eqn:Hn. revert i Hn.
  induction n as [n IH] using (well_founded_induction lt_wf). intros i Hn.
  intros r xs Hrun. destruct (f i) as [[i1 o]|e] eqn:Hfi.
  2:{ assert (is_err (f i) = true) as He by (by rewrite Hfi).
      apply (separated_list1_none sep), is_err_true in He as [e' He]. congruence. }
  destruct (Hf _ _ _ Hfi) as (s & Hs & ->).
  assert (separated_list1 sep f (s ++ i1) = Ok (i1, [o]) → ∃ s', separated S R s' xs ∧ s ++ i1 = s' ++ r)
    as Hstop.
  { rewrite Hrun. intros [= -> ->]. exists s. split; [by constructor|done]. }
  destruct (sep i1) as [[i2 x]|e] eqn:Hs1.
  2:{ apply Hstop, separated_list1_stop with (i1 := i1); [done|]. by rewrite Hs1. }
  destruct (f i2) as [y|e] eqn:Hf2.
  2:{ apply Hstop, separated_list1_stop with (i1 := i1); [done|]. rewrite Hs1. by rewrite Hf2. }
  pose proof (sep_shorter _ _ _ Hs1) as Hlt. destruct (Hsep _ _ _ Hs1) as (t & Ht & ->).
  rewrite (separated_list1_more sep f _ _ _ _ _ _ Hfi Hs1 (conj Hlt (f_shorter _ _ _ Hfi)) Hf2)
    in Hrun.
  destruct (separated_list1 sep f i2) as [[r' os]|e] eqn:Hrec; simpl in Hrun; [|done].
  injection Hrun as <- <-.
  destruct (IH (length i2)) with (i := i2) (r := r') (x := os) as (s' & Hs' & ->); [|done..|].
  { rewrite Hn, length_app. lia. }
  exists (s ++ t ++ s'). split; [by constructor|]. by rewrite <-!app_assoc.
Qed.

Context (stop_f stop : str → Prop) (Hread : reads f R stop_f).
Context (Hsep_reads : ∀ t i r, S t → trimmed i = trimmed (t ++ r) → ∃ x, sep i = Ok (trimmed r, x)).
Context (Hsep_stop : ∀ r, stop r → stop_f r ∧ is_err (sep r) = true).
Context (Hsep_next : ∀ t r, S t → stop_f (trimmed (t ++ r))).

Lemma separated_reads : reads (separated_list1 sep f) (separated S R) stop.
Proof.
  intros s xs i r Hs Hr. revert i. induction Hs as [s e He|s e t s' es He Ht Hs IH]; intros i Hi.
  - destruct (Hsep_stop _ Hr) as [Hsf [e' Herr]%is_err_true].
    apply separated_list1_stop; [by eapply Hread|]. by rewrite Herr.
  - rewrite <-!app_assoc in Hi.
    assert (f i = Ok (trimmed (t ++ s' ++ r), e)) as Hfi by (eapply Hread; eauto).
    destruct (Hsep_reads t (trimmed (t ++ s' ++ r)) (s' ++ r) Ht) as [x Hx].
    { by rewrite drop_while_idemp. }
    specialize (IH (trimmed (s' ++ r))). forward IH; [by rewrite drop_while_idemp|].
    assert (∃ y, f (trimmed (s' ++ r)) = Ok y) as [y Hy].
    { destruct (f (trimmed (s' ++ r))) as [y|e'] eqn:Hfe; [by eauto|].
      pose proof (separated_list1_none sep f (trimmed (s' ++ r))) as Hnone.
      rewrite Hfe, IH in Hnone. by specialize (Hnone eq_refl). }
    erewrite separated_list1_more;
      [|done|done|split; [by eapply sep_shorter|]|done]; [by rewrite IH|].
    pose proof (drop_while_app_length is_multispace s (t ++ s' ++ r)) as Hlen.
    rewrite <-Hi in Hlen. pose proof (drop_while_length is_multispace i). lia.
Qed.
End separated.
End combinators.

(** ** The parser against the grammar *)

Section correct.
Context `{Nom} `{!NomLaws} `{CharClass} `{!CharClassLaws}.
Abbreviation trimmed := (drop_while is_multispace) (only parsing).

Lemma ident_char_not_space c : ident_char c = true → is_multispace c = false.
Proof.
  unfold ident_char, is_multispace. intros Hc. apply not_true_iff_false. intros Hs.
  assert (c = 32 ∨ c = 9 ∨ c = 13 ∨ c = 10)%N as Hcases
    by (rewrite !orb_true_iff, !N.eqb_eq in Hs; tauto).
  rewrite is_alphanumeric_ascii in Hc by lia. destruct Hcases as [->|[->|[->| ->]]]; done.
Qed.

Lemma punctuation_not_ident c : c ∈ lit "()&|=! " → ident_char c = false.
Proof.
  intros Hc. unfold ident_char.
  assert (c < 128)%N as Hlt.
  { revert c Hc. apply Forall_forall. by repeat constructor. }
  rewrite is_alphanumeric_ascii by done. revert c Hc Hlt.
  assert (Forall (λ c, is_ascii_alphanumeric c || existsb (λ x, x =? c)%N (lit "_-.") = false)
    (lit "()&|=! ")) as Hall by (by repeat constructor).
  rewrite Forall_forall in Hall. auto.
Qed.

(** The text does not go on with a character of the class. *)
Definition not_starting (p : N → bool) (r : str) : Prop :=
  match r with c :: _ => p c = false | [] => True end.

Lemma ident_sound : sound ident (λ s w, word w ∧ token w s).
Proof.
  intros i r w (r' & Hw & ->)%ws_Ok.
  pose proof (take_while1_run ident_char (trimmed i)) as Ht.
  destruct (take_while ident_char (trimmed i)) as [|c w'] eqn:Hc.
  { apply is_err_true in Ht as [e Ht]. congruence. }
  rewrite Hw in Ht. injection Ht as -> ->.
  pose proof (take_while_all ident_char (trimmed i)) as Hall. rewrite Hc in Hall.
  exists (take_while is_multispace i ++ (c :: w') ++ take_while is_multispace
    (drop_while ident_char (trimmed i))). split; [split; [done|]|].
  - eexists _, _. split_and!; [apply spaces_take..|done].
  - rewrite <-!app_assoc, take_drop_while, <-Hc, take_drop_while. by rewrite take_drop_while.
Qed.

Lemma ident_reads : reads ident (λ s w, word w ∧ token w s) (not_starting ident_char).
Proof.
  intros s w i r [[Hne Hw] (l & r' & Hl & Hr' & ->)] Hstop Hi. apply ws_Ok.
  exists (r' ++ r). split; [|by rewrite drop_while_app].
  rewrite <-!app_assoc, drop_while_app in Hi by done.
  rewrite (drop_while_id is_multispace (w ++ _)) in Hi.
  2:{ destruct Hw as [|c w Hc _]; [done|]. by apply ident_char_not_space. }
  rewrite Hi. pose proof (take_while1_run ident_char (w ++ r' ++ r)) as Ht.
  destruct (take_while_app ident_char w (r' ++ r) Hw) as [E1 E2].
  - destruct Hr' as [|c r' Hc _]; simpl.
    + destruct r as [|c r]; [done|]. simpl in Hstop.
      destruct (is_multispace c) eqn:Hc; [|done].
      apply not_true_iff_false. intros Hid%ident_char_not_space. congruence.
    + apply not_true_iff_false. intros Hid%ident_char_not_space. congruence.
  - rewrite E1, E2 in Ht. by destruct w.
Qed.

Lemma op_sound : sound op (λ s o, token (op_text o) s).
Proof.
  intros i r o (r' & Hop & ->)%ws_Ok.
  assert (trimmed i = op_text o ++ r') as Hi.
  { apply alt_Ok in Hop as [Hop|[_ Hop]]; by apply pmap_Ok in Hop as (x & [Hi _]%tag_Ok & ->). }
  exists (take_while is_multispace i ++ op_text o ++ take_while is_multispace r'). split.
  - eexists _, _. split_and!; [apply spaces_take..|done].
  - by rewrite <-!app_assoc, take_drop_while, <-Hi, take_drop_while.
Qed.

Lemma op_reads : reads op (λ s o, token (op_text o) s) (λ _, True).
Proof.
  intros s o i r (l & r' & Hl & Hr' & ->) _ Hi. apply ws_Ok. exists (r' ++ r).
  split; [|by rewrite drop_while_app].
  rewrite <-!app_assoc, drop_while_app in Hi by done. rewrite Hi.
  rewrite drop_while_id by (by destruct o). apply alt_Ok. destruct o; [right|left]; simpl op_text.
  - split.
    + rewrite pmap_run.
      assert (is_err (tag (lit "!=") (lit "==" ++ r' ++ r)) = true) as [e ->]%is_err_true
        by (by apply tag_Err).
      done.
    + apply pmap_Ok. exists (lit "=="). split; [|done]. by apply tag_Ok.
  - apply pmap_Ok. exists (lit "!="). split; [|done]. by apply tag_Ok.
Qed.

Lemma cond_sound inner : sound cond (g_factor inner).
Proof.
  intros i r e ([[f o] v] & Ht & ->)%pmap_Ok. rewrite tuple3_run in Ht.
  destruct (ident i) as [[i1 f']|] eqn:Hp1; simpl in Ht; [|done].
  destruct (op i1) as [[i2 o']|] eqn:Hp2; simpl in Ht; [|done].
  destruct (ident i2) as [[i3 v']|] eqn:Hp3; simpl in Ht; [|done].
  injection Ht as <- <- <- <-.
  apply ident_sound in Hp1 as (s1 & [Hw1 Ht1] & ->), Hp3 as (s3 & [Hw3 Ht3] & ->).
  apply op_sound in Hp2 as (s2 & Ht2 & ->).
  exists (s1 ++ s2 ++ s3). split; [by constructor|]. by rewrite <-!app_assoc.
Qed.

Lemma op_not_ident o r : not_starting ident_char (op_text o ++ r).
Proof. destruct o; apply punctuation_not_ident; by_decision. Qed.

Lemma cond_reads f o v s1 s2 s3 i r :
  word f → word v → token f s1 → token (op_text o) s2 → token v s3 →
  not_starting ident_char (trimmed r) → trimmed i = trimmed ((s1 ++ s2 ++ s3) ++ r) →
  cond i = Ok (trimmed r, ECond {| field := f; cond_op := o; value := v |}).
Proof.
  intros Hf Hv Hp1 Hp2 Hp3 Hr Hi. apply pmap_Ok. exists (f, o, v). split; [|done].
  rewrite <-!app_assoc in Hi. rewrite tuple3_run.
  rewrite (ident_reads s1 f i (s2 ++ s3 ++ r)); [|done| |done].
  2:{ destruct Hp2 as (l & r' & Hl & _ & ->). rewrite <-!app_assoc, drop_while_app by done.
      rewrite drop_while_id by (by destruct o). apply op_not_ident. }
  simpl. rewrite (op_reads s2 o _ (s3 ++ r)); [|done..|by rewrite drop_while_idemp].
  simpl. by rewrite (ident_reads s3 v _ r); [|done..|by rewrite drop_while_idemp].
Qed.

(** What may follow a factor, a conjunction and a disjunction. *)
Definition followed_by (cs r : str) : Prop := match r with c :: _ => c ∈ cs | [] => True end.

Lemma followed_by_mono cs ds r : cs ⊆ ds → followed_by cs r → followed_by ds r.
Proof. destruct r; simpl; auto. Qed.

Lemma followed_not_ident r : followed_by (lit ")&|") r → not_starting ident_char r.
Proof.
  destruct r as [|c r]; simpl; [done|]. intros Hc. apply punctuation_not_ident.
  revert Hc. change (lit "()&|=! ") with ([40%N] ++ lit ")&|" ++ lit "=! "). set_solver.
Qed.

(** The head of a trimmed phrase of a token. *)
Lemma token_trimmed t s r : token t s →
  match t with c :: _ => is_multispace c = false | [] => False end →
  ∃ r', trimmed (s ++ r) = t ++ r'.
Proof.
  intros (l & r' & Hl & _ & ->) Ht. exists (r' ++ r).
  rewrite <-!app_assoc, drop_while_app by done. apply drop_while_id. by destruct t.
Qed.

Lemma token_nonempty t s : t ≠ [] → token t s → s ≠ [].
Proof. intros Ht (l & r & _ & _ & ->) [_ [Hnil _]%app_nil]%app_nil. done. Qed.

Lemma app_nonempty_l {A} (l k : list A) : l ≠ [] → l ++ k ≠ [].
Proof. by destruct l. Qed.

Lemma ws_trimmed {A} (p : parser A) i i' :
  trimmed i = trimmed i' → ∀ r x, ws p i = Ok (r, x) → ws p i' = Ok (r, x).
Proof. intros Hi r x. rewrite !ws_Ok. by rewrite Hi. Qed.

Lemma ws_tag_reads t s i r :
  match t with c :: _ => is_multispace c = false | [] => False end → token t s →
  trimmed i = trimmed (s ++ r) → ws (tag t) i = Ok (trimmed r, t).
Proof.
  intros Hc Hs Hi. eapply ws_trimmed; [by symmetry|]. by apply ws_tag_token.
Qed.

Lemma ws_Err {A} (p : parser A) i : is_err (p (trimmed i)) = true → is_err (ws p i) = true.
Proof.
  intros [e He]%is_err_true. destruct (ws p i) as [[r x]|] eqn:Hw; [|done].
  apply ws_Ok in Hw as (r' & Hw & _). congruence.
Qed.

Lemma factor_sound p inner : sound_open p inner → sound (factor p) (g_factor inner).
Proof.
  intros Hp i r e [Hd|[_ Hc]]%alt_Ok; [|by eapply cond_sound].
  rewrite delimited_run in Hd.
  destruct (ws (tag (lit "(")) i) as [[i1 x]|] eqn:Hp1; simpl in Hd; [|done].
  destruct (p i1) as [[i2 e']|] eqn:Hp2; simpl in Hd; [|done].
  destruct (ws (tag (lit ")")) i2) as [[i3 y]|] eqn:Hp3; simpl in Hd; [|done].
  injection Hd as <- <-.
  apply ws_tag_sound in Hp1 as (s1 & Ht1 & ->), Hp3 as (s3 & Ht3 & ->).
  assert (s3 ++ i3 ≠ []) as Hne by (by apply app_nonempty_l, (token_nonempty (lit ")"))).
  destruct (Hp _ _ _ Hp2 Hne) as (s2 & He & ->).
  exists (s1 ++ s2 ++ s3). split; [by constructor|]. by rewrite <-!app_assoc.
Qed.

Lemma factor_reads p inner :
  reads p inner (followed_by (lit ")")) → reads (factor p) (g_factor inner) (followed_by (lit ")&|")).
Proof.
  intros Hp s e i r He Hr Hi. apply alt_Ok. destruct He as [s1 s e s2 Ht1 He Ht2|f o v s1 s2 s3 Hf Hv Ht1 Ht2 Ht3].
  - left. rewrite <-!app_assoc in Hi. rewrite delimited_run.
    rewrite (ws_tag_reads (lit "(") s1 i (s ++ s2 ++ r) eq_refl Ht1 Hi). simpl.
    rewrite (Hp s e _ (s2 ++ r)); [|done| |by rewrite drop_while_idemp].
    2:{ destruct (token_trimmed _ _ r Ht2) as [r' ->]; [done|]. simpl. by left. }
    simpl. by rewrite (ws_tag_reads (lit ")") s2 _ r eq_refl Ht2) by (by rewrite drop_while_idemp).
  - right. split; [|eapply (cond_reads _ _ _ s1 s2 s3); eauto using followed_not_ident].
    assert (is_err (ws (tag (lit "(")) i) = true) as [e Herr]%is_err_true.
    { apply ws_Err. rewrite Hi, <-!app_assoc. destruct Hf as [Hne Hf].
      destruct Hf as [|c f Hc _]; [done|].
      destruct (token_trimmed _ _ (s2 ++ s3 ++ r) Ht1) as [r' ->]; [by apply ident_char_not_space|].
      apply tag_Err. change (lit "(") with [40%N]. cbn [app strip_prefix].
      destruct (N.eqb_spec 40 c) as [<-|Hn]; [|done].
      by rewrite (punctuation_not_ident 40) in Hc by by_decision. }
    rewrite delimited_run, Herr. done.
Qed.

(** A list of phrases: with separator [t] after phrases that [fol] may follow. *)
Lemma list_sound {A} (p : parser A) R t : t ≠ [] → sound p R →
  sound (separated_list1 (ws (tag t)) p) (separated (token t) R).
Proof.
  intros Ht Hp. apply separated_sound; [|done|].
  - intros i r x Hx. by eapply ws_tag_sound.
  - intros s. by apply token_nonempty.
Qed.

Lemma list_reads {A} (p : parser A) R c fol fol' :
  reads p R (followed_by fol) → is_multispace c = false → c ∉ fol' → c ∈ fol →
  fol' ⊆ fol → Forall (λ x, is_multispace x = false) fol' →
  reads (separated_list1 (ws (tag [c; c])) p) (separated (token [c; c]) R) (followed_by fol').
Proof.
  intros Hp Hc Hn Hin Hsub Hfol. eapply separated_reads; [..|exact Hp| | |].
  - intros i r x Hx. by eapply ws_tag_sound.
  - intros s. by apply token_nonempty.
  - intros t i r Ht Hi. exists [c; c]. by apply (ws_tag_reads [c; c] t).
  - intros r Hr. split; [by eapply followed_by_mono|]. apply ws_Err, tag_Err.
    destruct r as [|x r]; [done|]. simpl in Hr. rewrite Forall_forall in Hfol.
    rewrite drop_while_id by auto. cbn [strip_prefix].
    by destruct (N.eqb_spec c x) as [->|].
  - intros t r Ht. destruct (token_trimmed _ _ r Ht) as [r' ->]; [done|]. done.
Qed.

Lemma and_expr_sound p inner : sound_open p inner → sound (and_expr p) (g_and inner).
Proof.
  intros Hp i r e (xs & Hxs & ->)%pmap_Ok.
  apply (list_sound (factor p) (g_factor inner)) in Hxs as (s & Hs & ->); [|done|by apply factor_sound].
  exists s. split; [by constructor|done].
Qed.

Lemma or_expr_sound p inner : sound_open p inner → sound (or_expr p) (g_or inner).
Proof.
  intros Hp i r e (xs & Hxs & ->)%pmap_Ok.
  apply (list_sound (and_expr p) (g_and inner)) in Hxs as (s & Hs & ->);
    [|done|by apply and_expr_sound].
  exists s. split; [by constructor|done].
Qed.

Lemma and_expr_reads p inner :
  reads p inner (followed_by (lit ")")) → reads (and_expr p) (g_and inner) (followed_by (lit ")|")).
Proof.
  intros Hp s e i r [s' xs Hxs] Hr Hi. apply pmap_Ok. exists xs. split; [|done].
  eapply (list_reads (factor p) (g_factor inner) 38 (lit ")&|") (lit ")|")); eauto.
  - by apply factor_reads.
  - by_decision.
  - by_decision.
  - intros x. change (lit ")&|") with [41; 38; 124]%N. change (lit ")|") with [41; 124]%N. set_solver.
  - by repeat constructor.
Qed.

Lemma or_expr_reads p inner :
  reads p inner (followed_by (lit ")")) → reads (or_expr p) (g_or inner) (followed_by (lit ")")).
Proof.
  intros Hp s e i r [s' xs Hxs] Hr Hi. apply pmap_Ok. exists xs. split; [|done].
  eapply (list_reads (and_expr p) (g_and inner) 124 (lit ")|") (lit ")")); eauto.
  - by apply and_expr_reads.
  - by_decision.
  - by_decision.
  - intros x. change (lit ")|") with [41; 124]%N. change (lit ")") with [41]%N. set_solver.
  - by repeat constructor.
Qed.

(** A phrase is not blank. *)
Definition nonblank (s : str) : Prop := Exists (λ c, is_multispace c = false) s.

Lemma nonblank_app s t : nonblank (s ++ t) ↔ nonblank s ∨ nonblank t.
Proof. apply Exists_app. Qed.

Lemma nonblank_trimmed s r : nonblank s → trimmed (s ++ r) ≠ [].
Proof.
  induction 1 as [c s Hc|c s _ IH]; simpl; [by rewrite Hc|]. by destruct (is_multispace c).
Qed.

Lemma nonblank_token t s :
  match t with c :: _ => is_multispace c = false | [] => False end → token t s → nonblank s.
Proof.
  intros Ht (l & r & _ & _ & ->). rewrite !nonblank_app. right. left.
  destruct t; [done|]. by left.
Qed.

Lemma separated_nonblank {A} sep (R : str → A → Prop) s es :
  (∀ s e, R s e → nonblank s) → separated sep R s es → nonblank s.
Proof. intros HR Hs. destruct Hs; rewrite ?nonblank_app; eauto. Qed.

Lemma g_or_nonblank inner s e : g_or inner s e → nonblank s.
Proof.
  intros [s' xs Hs]. eapply separated_nonblank; [|done]. intros t x [t' ys Ht].
  eapply separated_nonblank; [|done]. intros u y [s1 s2 z s3 Hu _ _|f o v s1 s2 s3 [Hne Hf] _ Hu _ _];
    rewrite nonblank_app; left; (eapply nonblank_token; [|exact Hu]); [done|].
  destruct Hf; [done|]. by apply ident_char_not_space.
Qed.

(** Only phrases two characters shorter occur inside a phrase. *)
Lemma separated_mono {A} sep (R R' : str → A → Prop) s es :
  separated sep R s es → (∀ s' e, (length s' ≤ length s)%nat → R s' e → R' s' e) →
  separated sep R' s es.
Proof.
  induction 1 as [s e He|s e t s' es He Ht Hs IH]; intros HR.
  - constructor. by apply HR.
  - rewrite !length_app in HR. constructor; [apply HR; [lia|done]|done|].
    apply IH. intros u x Hu. apply HR. lia.
Qed.

Lemma g_or_mono (inner inner' : str → Expr → Prop) s e :
  (∀ s' e', (length s' + 2 ≤ length s)%nat → inner s' e' → inner' s' e') →
  g_or inner s e → g_or inner' s e.
Proof.
  intros Hin Hg. destruct Hg as [s xs Hs]. constructor. eapply separated_mono; [done|].
  intros t x Hlt Hg. destruct Hg as [t ys Ht]. constructor. eapply separated_mono; [done|].
  intros u y Hlu Hu. destruct Hu as [s1 s2 z s3 Hu1 Hu2 Hu3|]; [|by constructor].
  apply g_group; [done| |done]. apply Hin; [|done]. rewrite !length_app in Hlu.
  apply token_nonempty in Hu1, Hu3; [|done..]. destruct s1, s3; try done. simpl in Hlu. lia.
Qed.

Lemma g_expr_mono n m s e : (n ≤ m)%nat → g_expr n s e → g_expr m s e.
Proof.
  revert m s e. induction n as [|n IH]; intros [|m] s e Hle Hg; simpl in *; [done..|lia|].
  eapply g_or_mono; [|exact Hg]. intros s' e' _. apply IH. lia.
Qed.

Lemma g_expr_depth n s e : g_expr n s e → g_expr (S (length s)) s e.
Proof.
  revert s e. induction n as [|n IH]; intros s e Hg; [done|]. simpl in *.
  eapply g_or_mono; [|exact Hg]. intros s' e' Hlt Hs'. eapply (g_expr_mono (S (length s'))); [lia|]. by apply IH.
Qed.

Lemma expr_inner_sound fuel i r e : expr_inner fuel i = Ok (r, e) →
  (spaces i ∧ r = [] ∧ e = ETrue) ∨ ∃ s, g_expr fuel s e ∧ i = s ++ r.
Proof.
  revert i r e. induction fuel as [|fuel IH]; intros i r e; simpl.
  - pose proof (take_while1_run (λ _, false) i) as Ht.
    assert (take_while (λ _, false) i = []) as Hnil by (by destruct i).
    rewrite Hnil in Ht. by apply is_err_true in Ht as [e' ->].
  - rewrite multispace0_run. simpl. destruct (trimmed i) as [|c t] eqn:Hi.
    + intros [= <- <-]. left. split_and!; try done.
      rewrite <-(take_drop_while is_multispace i), Hi, app_nil_r. apply spaces_take.
    + intros Hor. right. apply (or_expr_sound _ (g_expr fuel)) in Hor as (s & Hs & ->); [by eauto|].
      intros i' r' x Hx Hne. apply IH in Hx as [(_ & -> & _)|Hx]; done.
Qed.

Lemma expr_inner_reads n fuel :
  (n ≤ fuel)%nat → reads (expr_inner fuel) (g_expr n) (followed_by (lit ")")).
Proof.
  revert fuel. induction n as [|n IH]; intros [|fuel] Hle s e i r Hg Hr Hi; [done|done|lia|].
  simpl in Hg |- *. rewrite multispace0_run. simpl.
  pose proof (nonblank_trimmed s r (g_or_nonblank _ _ _ Hg)) as Hnb. rewrite <-Hi in Hnb.
  destruct (trimmed i) eqn:Ht; [done|].
  eapply or_expr_reads; [|done..|by rewrite Ht]. apply IH. lia.
Qed.
End correct.

(** ** The evaluator against the meaning of a filter *)

Definition cond_holds (c : Cond) (row : gmap str (list str)) : Prop :=
  match cond_op c with
  | Eq => value c ∈ row_get row (field c)
  | Neq => value c ∉ row_get row (field c)
  end.

(** Two conjuncts equate one field with different values. *)
Definition conflict (xs : list Expr) : Prop :=
  ∃ f v w, v ≠ w ∧ ECond {| field := f; cond_op := Eq; value := v |} ∈ xs
           ∧ ECond {| field := f; cond_op := Eq; value := w |} ∈ xs.

(** The boolean meaning, with [strict] conjunctions false when they conflict. *)
Fixpoint holds (strict : bool) (e : Expr) (row : gmap str (list str)) : Prop :=
  match e with
  | ETrue => True
  | ECond c => cond_holds c row
  | EAnd xs => (strict = true → ¬ conflict xs) ∧ foldr (λ x P, holds strict x row ∧ P) True xs
  | EOr xs => foldr (λ x P, holds strict x row ∨ P) False xs
  end.

Section expr_ind.
Context (P : Expr → Prop) (HT : P ETrue) (HC : ∀ c, P (ECond c)).
Context (HA : ∀ xs, Forall P xs → P (EAnd xs)) (HO : ∀ xs, Forall P xs → P (EOr xs)).

Fixpoint Expr_ind' (e : Expr) : P e :=
  let all := fix all (xs : list Expr) : Forall P xs :=
    match xs with
    | [] => Forall_nil_2 P
    | x :: xs => Forall_cons_2 P x xs (Expr_ind' x) (all xs)
    end in
  match e with
  | ETrue => HT
  | ECond c => HC c
  | EAnd xs => HA xs (all xs)
  | EOr xs => HO xs (all xs)
  end.
End expr_ind.

Lemma eval_cond_spec c row : eval_cond c row = true ↔ cond_holds c row.
Proof.
  unfold eval_cond, cond_holds. destruct (cond_op c).
  - rewrite existsb_exists. setoid_rewrite bool_decide_eq_true.
    setoid_rewrite <-list_elem_of_In. naive_solver.
  - rewrite forallb_forall. setoid_rewrite negb_true_iff. setoid_rewrite bool_decide_eq_false.
    setoid_rewrite <-list_elem_of_In. naive_solver.
Qed.

Definition is_equality (x : Expr) : bool :=
  match x with ECond {| cond_op := Eq |} => true | _ => false end.

(** The loop finds a conflict with what it has seen or among the conjuncts. *)
Lemma contradictory_spec xs : ∀ seen : gmap str str,
  contradictory seen xs = true ↔
  conflict xs ∨ ∃ f v w, v ≠ w ∧ seen !! f = Some v
                         ∧ ECond {| field := f; cond_op := Eq; value := w |} ∈ xs.
Proof.
  unfold conflict. induction xs as [|x xs IH]; intros seen; cbn [contradictory].
  { set_solver. }
  destruct (decide (is_equality x)) as [Heq|Hne].
  2:{ assert (∀ f v, ECond {| field := f; cond_op := Eq; value := v |} ∈ x :: xs ↔
        ECond {| field := f; cond_op := Eq; value := v |} ∈ xs) as Hskip.
      { intros f v. rewrite elem_of_cons. split; [|by right]. by intros [<-|]. }
      setoid_rewrite Hskip. rewrite <-IH. by destruct x as [|[f [] v]|ys|ys]. }
  destruct x as [|[f [] v]|ys|ys]; try done. clear Heq. setoid_rewrite elem_of_cons.
  destruct (seen !! f) as [prev|] eqn:Hprev.
  - case_bool_decide as Heq; subst.
    + rewrite insert_id by done. rewrite IH. split.
      * intros [(g & a & b & Hab & Ha & Hb)|(g & a & b & Hab & Hg & Hin)]; eauto 10.
      * intros [(g & a & b & Hab & Ha & Hb)|(g & a & b & Hab & Hg & [Hin|Hin])];
          [|by simplify_eq|by eauto 10].
        destruct Ha as [Ha|Ha], Hb as [Hb|Hb]; simplify_eq; eauto 10.
    + split; [|done]. intros _. right. exists f, prev, v. auto.
  - rewrite IH. split.
    + intros [(g & a & b & Hab & Ha & Hb)|(g & a & b & Hab & Hg & Hin)]; [by eauto 10|].
      destruct (decide (g = f)) as [->|Hne].
      * rewrite lookup_insert_eq in Hg. simplify_eq. eauto 10.
      * rewrite lookup_insert_ne in Hg by done. eauto 10.
    + intros [(g & a & b & Hab & Ha & Hb)|(g & a & b & Hab & Hg & Hin)].
      * destruct Ha as [Ha|Ha], Hb as [Hb|Hb]; simplify_eq; [| |by eauto 10].
        -- right. exists f, v, b. by rewrite lookup_insert_eq.
        -- right. exists f, v, a. by rewrite lookup_insert_eq.
      * right. exists g, a, b. destruct (decide (g = f)) as [->|Hne]; [congruence|].
        rewrite lookup_insert_ne by done. destruct Hin as [Hin|Hin]; [by simplify_eq|auto].
Qed.

Lemma foldr_and {A} (Q : A → Prop) xs : foldr (λ x P, Q x ∧ P) True xs ↔ Forall Q xs.
Proof. induction xs; simpl; rewrite ?Forall_nil, ?Forall_cons; naive_solver. Qed.

Lemma foldr_or {A} (Q : A → Prop) xs : foldr (λ x P, Q x ∨ P) False xs ↔ Exists Q xs.
Proof. induction xs; simpl; rewrite ?Exists_nil, ?Exists_cons; naive_solver. Qed.

Lemma eval_holds e row : eval e row = true ↔ holds true e row.
Proof.
  induction e as [|c|xs IH|xs IH] using Expr_ind'; cbn [eval holds].
  - done.
  - apply eval_cond_spec.
  - rewrite foldr_and. pose proof (contradictory_spec xs ∅) as Hc.
    assert (contradictory ∅ xs = true ↔ conflict xs) as Hcon.
    { rewrite Hc. split; [|by left]. intros [?|(f & v & w & _ & Hl & _)]; [done|].
      by rewrite lookup_empty in Hl. }
    assert (forallb (λ x, eval x row) xs = true ↔ Forall (λ x, holds true x row) xs) as Hall.
    { rewrite forallb_forall, Forall_forall. setoid_rewrite <-list_elem_of_In.
      rewrite Forall_forall in IH. naive_solver. }
    destruct (contradictory ∅ xs); naive_solver.
  - rewrite foldr_or, existsb_exists, Exists_exists. setoid_rewrite <-list_elem_of_In.
    rewrite Forall_forall in IH. naive_solver.
Qed.

(** Being strict only matters when a field has several values. *)
Lemma holds_strict e row : holds true e row → holds false e row.
Proof.
  induction e as [|c|xs IH|xs IH] using Expr_ind'; cbn [holds]; try done.
  - rewrite !foldr_and. intros [_ Hxs]. split; [done|]. rewrite Forall_forall in *. eauto.
  - rewrite !foldr_or, !Exists_exists. rewrite Forall_forall in IH. naive_solver.
Qed.

Lemma holds_single e row : (∀ f, length (row_get row f) ≤ 1)%nat →
  holds false e row → holds true e row.
Proof.
  intros Hrow. induction e as [|c|xs IH|xs IH] using Expr_ind'; cbn [holds]; try done.
  - rewrite !foldr_and. intros [_ Hxs]. rewrite Forall_forall in IH, Hxs. split.
    + intros _ (f & v & w & Hne & Hv & Hw). apply Hxs in Hv, Hw. cbn in Hv, Hw.
      specialize (Hrow f). destruct (row_get row f) as [|x [|y l]]; simpl in *; [set_solver| |lia].
      apply Hne. set_solver.
    + rewrite Forall_forall. eauto.
  - rewrite !foldr_or, !Exists_exists. rewrite Forall_forall in IH. naive_solver.
Qed.

Section spec.
Context `{Nom} `{!NomLaws} `{CharClass} `{!CharClassLaws}.

Lemma expr_spec s e : expr s = Ok e ↔ filter_text s e.
Proof.
  unfold expr. split.
  - destruct (expr_inner _ s) as [[[|c r] e']|] eqn:Hx; [|done..]. intros [= ->].
    apply expr_inner_sound in Hx as [(Hs & _ & ->)|(t & Ht & ->)]; [by left|].
    rewrite app_nil_r in *. right. by eexists.
  - intros [[Hs ->]|[n Hn]].
    + cbn [expr_inner]. rewrite multispace0_run. simpl.
      destruct (take_while_app is_multispace s [] Hs I) as [_ E].
      by rewrite app_nil_r in E; rewrite E.
    + apply g_expr_depth in Hn.
      by rewrite (expr_inner_reads _ (S (length s)) (le_n _) s e s [] Hn I)
        by (by rewrite app_nil_r).
Qed.

(** ** Properties *)

(** C22.  The parser accepts exactly the filters of the grammar and builds their
    trees: a text parses to [e] if and only if it is blank and [e] matches
    everything, or it is a disjunction of conjunctions of conditions and
    parenthesised groups whose tree is [e]; so no text has two trees, and every
    other text is an error. *)
Theorem expr_accepts_grammar s :
  (∀ e, expr s = Ok e ↔ filter_text s e) ∧
  ((∀ e, ¬ filter_text s e) ↔ is_err (expr s) = true).
Proof.
  split; [apply expr_spec|]. split.
  - intros Hno. destruct (expr s) as [e|] eqn:Hx; [|done].
    by destruct (Hno e (proj1 (expr_spec s e) Hx)).
  - intros [e' He]%is_err_true e Hf%expr_spec. congruence.
Qed.
End spec.

(** The evaluator decides the meaning of a filter: conditions test membership
    of the value among the values of the field, and a conjunction whose direct
    conjuncts equate a field with two values is false.  That rule only makes a
    filter stricter than its boolean meaning, and changes nothing on rows with at
    most one value per field. *)
Theorem eval_decides_meaning e row :
  (eval e row = true ↔ holds true e row) ∧
  (eval e row = true → holds false e row) ∧
  ((∀ f, length (row_get row f) ≤ 1)%nat → (eval e row = true ↔ holds false e row)).
Proof.
  pose proof (eval_holds e row) as Heval. pose proof (holds_strict e row) as Hstrict.
  pose proof (holds_single e row) as Hsingle. naive_solver.
Qed.
