(* ===== verification/Debugger.v ===== *)
(** * The debugger client (crates/litesvm/src/debugger.rs)

    Packets of the GDB remote serial protocol: building and parsing them, and the
    exchanges with the stub that the virtual machine exposes. *)

From S2P Require Import Prelude Text Bytes.

(** ** Bytes and text *)

(** [into_bytes] of a text of ASCII characters. *)
Definition ascii_bytes (s : str) : bytes := byte_of <$> s.

Definition hex_digit (d : N) : N := if (d <? 10)%N then (48 + d)%N else (87 + d)%N.

Fixpoint hex_digits (fuel : nat) (n : N) : str :=
  match fuel with
  | 0 => []
  | S fuel =>
      if (n <? 16)%N then [hex_digit n] else hex_digits fuel (n / 16) ++ [hex_digit (n mod 16)]
  end.

(** [{n:x}]; the number of bits bounds the number of digits. *)
Definition to_hex (n : N) : str := hex_digits (S (N.size_nat n)) n.

(** [{n:02x}] of a byte. *)
Definition to_hex2 (n : N) : str := [hex_digit (n / 16); hex_digit (n mod 16)].

(** [String::from_utf8_lossy]: each maximal ill-formed part becomes one
    replacement character. *)
Definition REPLACEMENT : N := 65533.

Definition in_range (lo hi : N) (b : Byte.byte) : bool :=
  let n := Byte.to_N b in ((lo <=? n) && (n <=? hi))%N.

(** The range of the second byte of a sequence of three or four bytes. *)
Definition second_range (b0 : N) : N * N :=
  if (b0 =? 224)%N then (160, 191)%N
  else if (b0 =? 237)%N then (128, 159)%N
  else if (b0 =? 240)%N then (144, 191)%N
  else if (b0 =? 244)%N then (128, 143)%N
  else (128, 191)%N.

Definition tail_bits (b : Byte.byte) : N := (Byte.to_N b mod 64)%N.

Fixpoint from_utf8_lossy (b : bytes) : str :=
  match b with
  | [] => []
  | x0 :: r0 =>
      let b0 := Byte.to_N x0 in
      let (lo, hi) := second_range b0 in
      if (b0 <? 128)%N then b0 :: from_utf8_lossy r0
      else if ((194 <=? b0) && (b0 <=? 223))%N then
        match r0 with
        | x1 :: r1 =>
            if in_range 128 191 x1
            then ((b0 - 192) * 64 + tail_bits x1)%N :: from_utf8_lossy r1
            else REPLACEMENT :: from_utf8_lossy r0
        | [] => [REPLACEMENT]
        end
      else if ((224 <=? b0) && (b0 <=? 239))%N then
        match r0 with
        | x1 :: r1 =>
            if in_range lo hi x1 then
              match r1 with
              | x2 :: r2 =>
                  if in_range 128 191 x2
                  then ((b0 - 224) * 4096 + tail_bits x1 * 64 + tail_bits x2)%N
                         :: from_utf8_lossy r2
                  else REPLACEMENT :: from_utf8_lossy r1
              | [] => [REPLACEMENT]
              end
            else REPLACEMENT :: from_utf8_lossy r0
        | [] => [REPLACEMENT]
        end
      else if ((240 <=? b0) && (b0 <=? 244))%N then
        match r0 with
        | x1 :: r1 =>
            if in_range lo hi x1 then
              match r1 with
              | x2 :: r2 =>
                  if in_range 128 191 x2 then
                    match r2 with
                    | x3 :: r3 =>
                        if in_range 128 191 x3
                        then ((b0 - 240) * 262144 + tail_bits x1 * 4096 + tail_bits x2 * 64
                              + tail_bits x3)%N :: from_utf8_lossy r3
                        else REPLACEMENT :: from_utf8_lossy r2
                    | [] => [REPLACEMENT]
                    end
                  else REPLACEMENT :: from_utf8_lossy r1
              | [] => [REPLACEMENT]
              end
            else REPLACEMENT :: from_utf8_lossy r0
        | [] => [REPLACEMENT]
        end
      else REPLACEMENT :: from_utf8_lossy r0
  end.

(** The hex crate: two digits per byte. *)
Class HexApi : Type := { hex_decode : str → option bytes }.

Definition hex_encode (b : bytes) : str := mjoin ((λ x, to_hex2 (Byte.to_N x)) <$> b).

Class HexLaws `{HexApi} : Prop := { hex_decode_encode b : hex_decode (hex_encode b) = Some b }.

(** ** Packets *)

Definition checksum (payload : str) : N := foldl (λ acc b, (acc + b) mod 256)%N 0%N payload.

Definition packet (payload : str) : bytes :=
  ascii_bytes (lit "$" ++ payload ++ lit "#" ++ to_hex2 (checksum payload)).

Definition gdb_read_memory_cmd (addr size : N) : bytes :=
  packet (lit "m" ++ to_hex addr ++ lit "," ++ to_hex size).

Definition gdb_read_register_cmd (reg_num : N) : bytes := packet (lit "p" ++ to_hex reg_num).

Definition GDB_RLE_OFFSET : N := 29.

(** [strip_prefix(c).unwrap_or(s)] *)
Definition skip_prefix (p s : str) : str := default s (strip_prefix p s).

(** The loop over the characters. *)
Fixpoint expand_rle (hex_str : str) (chars : str) : option str :=
  match chars with
  | [] => Some hex_str
  | c :: chars =>
      if (c =? 42)%N then
        match chars with
        | [] => None
        | count_char :: chars =>
            let repeat := (count_char mod 256 - GDB_RLE_OFFSET)%N in
            last ← last hex_str;
            expand_rle (hex_str ++ replicate (N.to_nat repeat) last) chars
        end
      else expand_rle (hex_str ++ [c]) chars
  end.

Section packets.
Context `{HexApi}.

Definition gdb_parse_packet (input : str) : option bytes :=
  let data := skip_prefix (lit "+") input in
  data ← strip_prefix (lit "$") data;
  let data := skip_prefix (lit "O") data in
  data ← head (split_on 35 data);
  hex_str ← expand_rle [] data;
  hex_decode hex_str.
End packets.

(** ** The connection *)

(** [BufRead] and [Write] over one stream; [read_byte] is a read into a buffer of
    one byte, [None] when nothing was read. *)
Class Connection : Type := {
  conn : Type;
  io_error : Type;
  write_all : conn → bytes → result io_error conn;
  flush : conn → result io_error conn;
  read_until : Byte.byte → conn → result io_error (conn * bytes);
  read_byte : conn → result io_error (conn * option Byte.byte) }.

Inductive StubError `{Connection} : Type :=
| Io (e : io_error)
| InvalidData
| InvalidPacket
| Expected8Bytes
| InvalidInput.

Section stub.
Context `{HexApi} `{Connection}.

Definition io {A} (r : result io_error A) : result StubError A := map_err Io r.

(** The one-byte buffer keeps its value when nothing is read. *)
Definition read_reply (c : conn) : result StubError (conn * str) :=
  '(c, buf) ← io (read_until (byte_of 35) c);
  '(c, x) ← io (read_byte c);
  let cbuf := default Byte.x00 x in
  '(c, y) ← io (read_byte c);
  Ok (c, from_utf8_lossy (buf ++ [cbuf; default cbuf y])).

(** One turn of the loop: the request for a chunk and its reply. *)
Definition read_chunk (c : conn) (addr size : N) : result StubError (conn * bytes) :=
  c ← io (write_all c (gdb_read_memory_cmd addr size));
  c ← io (flush c);
  '(c, reply) ← read_reply c;
  parsed_reply ← ok_or (gdb_parse_packet reply) InvalidData;
  Ok (c, parsed_reply).

(** [None] when the fuel runs out before the loop ends; the address addition
    panics on overflow. *)
Fixpoint read_chunks (fuel : nat) (c : conn) (addr total_size chunk_size offset : N)
    (res : bytes) : option (outcome (result StubError (conn * bytes))) :=
  match fuel with
  | 0 => None
  | S fuel =>
      if (offset <? total_size)%N then
        let size := N.min chunk_size (total_size - offset) in
        match checked_add u64_max addr offset with
        | None => Some Panic
        | Some a =>
            match read_chunk c a size with
            | Err e => Some (Ret (Err e))
            | Ok (c, parsed_reply) =>
                read_chunks fuel c addr total_size chunk_size (offset + size)
                  (res ++ parsed_reply)
            end
        end
      else Some (Ret (Ok (c, res)))
  end.

(** Every chunk takes a byte at least, when chunks are not empty. *)
Definition stub_read_memory_chunked (c : conn) (addr total_size chunk_size : N)
    : option (outcome (result StubError (conn * bytes))) :=
  read_chunks (S (N.to_nat total_size)) c addr total_size chunk_size 0 [].

Definition stub_read_register (c : conn) (reg_num : N) : result StubError (conn * N) :=
  c ← io (write_all c (gdb_read_register_cmd reg_num));
  c ← io (flush c);
  '(c, reply) ← read_reply c;
  parsed_reply ← ok_or (gdb_parse_packet reply) InvalidPacket;
  if decide (8 ≤ length parsed_reply) then Ok (c, from_le_bytes (take 8 parsed_reply))
  else Err Expected8Bytes.

(** [split_once] *)
Fixpoint split_once (c : N) (s : str) : option (str * str) :=
  match s with
  | [] => None
  | x :: s => if (x =? c)%N then Some ([], s) else r ← split_once c s; Some (x :: r.1, r.2)
  end.

(** [trim_end] *)
Definition trim_end (s : str) : str := reverse (trim_start (reverse s)).

Definition parse_metadata (parsed : bytes) : gmap str str :=
  foldl (λ m e, match split_once 61 e with Some (k, v) => <[k := v]> m | None => m end) ∅
    (split_on 59 (trim_end (from_utf8_lossy parsed))).

(** The assertion on the reply panics. *)
Definition stub_fetch_debug_metadata (c : conn)
    : outcome (result StubError (conn * gmap str str)) :=
  match (c ← io (write_all c (ascii_bytes (lit "$qRcmd,6d65746164617461#9d")));
         '(c, reply) ← read_reply c;
         parsed ← ok_or (gdb_parse_packet reply) InvalidInput;
         '(c, reply) ← read_reply c;
         Ok (c, parsed, reply)) with
  | Err e => Ret (Err e)
  | Ok (c, parsed, reply) =>
      if decide (reply = lit "$OK#9a") then Ret (Ok (c, parse_metadata parsed)) else Panic
  end.

Definition stub_send_continue_command (c : conn) : outcome (result StubError conn) :=
  match (c ← io (write_all c (ascii_bytes (lit "$vCont;c:p1.-1#0f"))); read_reply c) with
  | Err e => Ret (Err e)
  | Ok (c, reply) => if decide (reply = lit "+$W00#b7") then Ret (Ok c) else Panic
  end.

(** [connect] gives the outcome of each attempt; the result has the number of
    attempts made.  A connected stream is cloned into a reader and a writer. *)
Fixpoint stub_connect_from (connect : nat → result io_error conn)
    (try_clone : conn → result io_error conn) (attempt retries : nat)
    : nat * result io_error conn :=
  match connect attempt with
  | Ok stream => (S attempt, try_clone stream)
  | Err e =>
      match retries with
      | 0 => (S attempt, Err e)
      | S retries => stub_connect_from connect try_clone (S attempt) retries
      end
  end.

Definition stub_connect (connect : nat → result io_error conn)
    (try_clone : conn → result io_error conn) (retries : nat) : nat * result io_error conn :=
  stub_connect_from connect try_clone 0 retries.
End stub.

(** ** Lemmas *)

(** A run-length encoding of a text: characters, and repetitions of the last one.
    The marks of the protocol do not occur in it. *)
Inductive rle : str → str → Prop :=
| rle_nil : rle [] []
| rle_char p e c : rle p e → c ∉ lit "*#" → rle (p ++ [c]) (e ++ [c])
| rle_run p e c n :
    rle p e → last e = Some c → (n + 29 < 256)%N → (n + 29 ≠ 35)%N →
    rle (p ++ [42; n + 29]%N) (e ++ replicate (N.to_nat n) c).

Lemma expand_rle_app p e : rle p e → ∀ q, expand_rle [] (p ++ q) = expand_rle e q.
Proof.
  induction 1 as [|p e c _ IH Hc|p e c n _ IH Hl Hn _]; intros q; [done| |].
  - rewrite <-app_assoc, IH. simpl. destruct (N.eqb_spec c 42) as [->|]; [|done].
    exfalso. apply Hc. by_decision.
  - rewrite <-app_assoc, IH. cbn [app expand_rle]. rewrite Hl. cbn.
    rewrite N.mod_small by done. unfold GDB_RLE_OFFSET. by rewrite N.add_sub.
Qed.

Lemma rle_expand p e : rle p e → expand_rle [] p = Some e.
Proof. intros Hr. rewrite <-(app_nil_r p). by rewrite (expand_rle_app p e). Qed.

Lemma rle_no_hash p e : rle p e → 35%N ∉ p.
Proof.
  induction 1 as [|p e c _ IH Hc|p e c n _ IH Hl Hn Hne]; [set_solver| |].
  - assert (c ≠ 35%N) by (intros ->; apply Hc; by_decision). set_solver.
  - rewrite not_elem_of_app. split; [done|]. rewrite !not_elem_of_cons.
    split_and!; [done|by apply not_eq_sym|]. apply not_elem_of_nil.
Qed.

(** The first character is never part of a repetition. *)
Lemma rle_head p e : rle p e → head p = head e.
Proof.
  induction 1 as [|p e c _ IH Hc|p e c n _ IH Hl Hn Hne]; [done| |].
  - destruct p, e; simpl in *; congruence.
  - destruct e; [done|]. destruct p; simpl in *; congruence.
Qed.

Lemma hex_encode_head b : head (hex_encode b) ≠ Some 79%N.
Proof.
  destruct b as [|x b]; [done|]. cbn. unfold hex_digit.
  pose proof (Byte.to_N_bounded x) as Hx. intros [= Hd]. revert Hd.
  destruct (N.ltb_spec (Byte.to_N x / 16) 10); intros Hd; [lia|].
  assert (Byte.to_N x / 16 < 16)%N; [|lia]. apply N.Div0.div_lt_upper_bound. lia.
Qed.

Lemma skip_prefix_app p s : skip_prefix p (p ++ s) = s.
Proof. unfold skip_prefix. by rewrite strip_prefix_app. Qed.

Lemma skip_prefix_other c s : head s ≠ Some c → skip_prefix [c] s = s.
Proof.
  unfold skip_prefix. destruct s as [|x s]; simpl; [done|]. intros Hc.
  destruct (N.eqb_spec c x) as [->|]; [done|]. done.
Qed.

Section packet_lemmas.
Context `{HexApi} `{!HexLaws}.

(** A packet of the protocol with its optional acknowledgement and console mark. *)
Definition reply_packet (ack console : bool) (p rest : str) : str :=
  (if ack then lit "+" else []) ++ lit "$" ++ (if console then lit "O" else []) ++ p
  ++ lit "#" ++ rest.

Lemma parse_reply_packet ack console p b rest :
  rle p (hex_encode b) → gdb_parse_packet (reply_packet ack console p rest) = Some b.
Proof.
  intros Hr. unfold gdb_parse_packet, reply_packet.
  replace (skip_prefix (lit "+") _)
    with (lit "$" ++ (if console then lit "O" else []) ++ p ++ lit "#" ++ rest)
    by (destruct ack; [symmetry; apply skip_prefix_app|symmetry; by apply (skip_prefix_other 43)]).
  rewrite strip_prefix_app. cbn [mbind option_bind].
  replace (skip_prefix (lit "O") _) with (p ++ lit "#" ++ rest).
  2:{ destruct console; [symmetry; apply skip_prefix_app|].
      symmetry. apply (skip_prefix_other 79). pose proof (rle_head _ _ Hr) as Hh.
      pose proof (hex_encode_head b) as Hb. rewrite <-Hh in Hb. by destruct p. }
  change (lit "#" ++ rest) with (35%N :: rest).
  rewrite split_on_app by (by eapply rle_no_hash). cbn [head mbind option_bind].
  rewrite (rle_expand _ _ Hr). simpl. apply hex_decode_encode.
Qed.
End packet_lemmas.

(** The memory that a stub serves, in packets of up to a limit: a request is
    answered by one packet, acknowledged or not, with the bytes run-length encoded
    or not, and the connection is ready for the next one. *)
Class MemoryStub `{Connection} : Type := {
  stub_memory : N → Byte.byte;
  packet_limit : N;
  serving : conn → Prop }.

Definition memory_range `{MemoryStub} (addr size : N) : bytes :=
  (λ i, stub_memory (addr + N.of_nat i)%N) <$> seq 0 (N.to_nat size).

Class MemoryStubLaws `{MemoryStub} : Prop := {
  stub_serves c addr size :
    serving c → (0 < size ≤ packet_limit)%N →
    ∃ c1 c2 c3 c4 c5 body x y ack p rest,
      write_all c (gdb_read_memory_cmd addr size) = Ok c1 ∧ flush c1 = Ok c2 ∧
      read_until (byte_of 35) c2 = Ok (c3, body) ∧ read_byte c3 = Ok (c4, Some x) ∧
      read_byte c4 = Ok (c5, Some y) ∧ serving c5 ∧
      rle p (hex_encode (memory_range addr size)) ∧
      from_utf8_lossy (body ++ [x; y]) = reply_packet ack false p rest }.

Section chunks.
Context `{HexApi} `{!HexLaws} `{MemoryStub} `{!MemoryStubLaws}.

Lemma read_chunk_serves c addr size :
  serving c → (0 < size ≤ packet_limit)%N →
  ∃ c', read_chunk c addr size = Ok (c', memory_range addr size) ∧ serving c'.
Proof.
  intros Hc Hs. destruct (stub_serves c addr size Hc Hs)
    as (c1 & c2 & c3 & c4 & c5 & body & x & y & ack & p & rest & E1 & E2 & E3 & E4 & E5 & Hc5 & Hp & E6).
  exists c5. split; [|done]. unfold read_chunk, read_reply, io.
  rewrite E1. cbn [map_err mbind result_bind]. rewrite E2. cbn [map_err mbind result_bind].
  rewrite E3. cbn [map_err mbind result_bind]. rewrite E4. cbn [map_err mbind result_bind].
  rewrite E5. cbn [map_err mbind result_bind default from_option id]. rewrite E6.
  by rewrite (parse_reply_packet ack false p (memory_range addr size) rest Hp).
Qed.

Lemma memory_range_app addr m n :
  memory_range addr (m + n) = memory_range addr m ++ memory_range (addr + m) n.
Proof.
  unfold memory_range. rewrite N2Nat.inj_add, seq_app, fmap_app. f_equal.
  replace (seq (0 + N.to_nat m) (N.to_nat n)) with (Nat.add (N.to_nat m) <$> seq 0 (N.to_nat n))
    by (rewrite fmap_add_seq; f_equal; lia).
  rewrite <-list_fmap_compose. apply list_fmap_ext. intros i x _. simpl. f_equal. lia.
Qed.

Lemma read_chunks_spec addr total chunk fuel : ∀ c offset,
  serving c → (0 < chunk ≤ packet_limit)%N → (addr + total ≤ u64_max + 1)%N →
  (offset ≤ total)%N → (N.to_nat (total - offset) < fuel)%nat →
  ∃ c', read_chunks fuel c addr total chunk offset (memory_range addr offset)
        = Some (Ret (Ok (c', memory_range addr total))) ∧ serving c'.
Proof.
  induction fuel as [|fuel IH]; intros c offset Hc Hchunk Haddr Hoff Hfuel; [lia|].
  cbn [read_chunks]. destruct (N.ltb_spec offset total) as [Hlt|Hge].
  2:{ assert (offset = total) as -> by lia. by exists c. }
  set (size := N.min chunk (total - offset)). unfold checked_add.
  destruct (N.leb_spec (addr + offset) u64_max) as [_|Hbad]; [|lia].
  destruct (read_chunk_serves c (addr + offset) size Hc) as (c1 & -> & Hc1); [lia|].
  rewrite <-memory_range_app. apply IH; [done..|lia|lia].
Qed.
End chunks.

(** ** Properties *)

Section properties.
Context `{HexApi}.

(** C27.  Parsing a packet gives the bytes it carries, with or without an
    acknowledgement or console mark and whatever the checksum, and however the
    digits are run-length encoded. *)
Theorem packet_roundtrip `{!HexLaws} ack console p b rest (Hp : rle p (hex_encode b)) :
  gdb_parse_packet (reply_packet ack console p rest) = Some b.
Proof. by apply parse_reply_packet. Qed.

(** C26.  Reading a memory region in chunks returns exactly the bytes of the
    region, for every chunk size the stub can serve and whether or not it divides
    the total; the loop ends, and the connection stays usable. *)
Theorem chunked_read_correct `{!HexLaws} `{MemoryStub} `{!MemoryStubLaws} c addr total chunk
  (Hc : serving c) (Hchunk : (0 < chunk ≤ packet_limit)%N)
  (Haddr : (addr + total ≤ u64_max + 1)%N) :
  ∃ c', stub_read_memory_chunked c addr total chunk
        = Some (Ret (Ok (c', memory_range addr total))) ∧ serving c'.
Proof. apply (read_chunks_spec addr total chunk); [done..|lia|lia]. Qed.

(** A chunk size of zero makes the loop ask for nothing again and again: while
    the stub answers, no number of turns ends it. *)
Theorem chunked_read_zero_diverges `{Connection} addr total fuel
  (Htotal : (0 < total)%N) (Haddr : (addr ≤ u64_max)%N)
  (Hanswers : ∀ c, is_ok (read_chunk c addr 0) = true) c res :
  read_chunks fuel c addr total 0 0 res = None.
Proof.
  revert c res. induction fuel as [|fuel IH]; intros c res; [done|]. cbn [read_chunks].
  destruct (N.ltb_spec 0 total) as [_|?]; [|lia]. unfold checked_add. rewrite N.add_0_r.
  destruct (N.leb_spec addr u64_max) as [_|?]; [|lia]. rewrite N.min_0_l.
  pose proof (Hanswers c) as Hok. destruct (read_chunk c addr 0) as [[c' b]|]; [|done].
  apply IH.
Qed.

(** C40.  Connecting keeps trying while attempts are left: the first attempt that
    succeeds within the retries is the connection returned, and otherwise exactly
    one attempt more than the retries is made and the last error is returned. *)
Theorem connect_eventually `{Connection} connect try_clone retries :
  (∀ k stream, (k ≤ retries)%nat → connect k = Ok stream →
     (∀ j, (j < k)%nat → is_err (connect j) = true) →
     stub_connect connect try_clone retries = (S k, try_clone stream)) ∧
  (∀ e, (∀ j, (j ≤ retries)%nat → is_err (connect j) = true) → connect retries = Err e →
     stub_connect connect try_clone retries = (S retries, Err e)).
Proof.
  unfold stub_connect. split.
  - intros k stream Hk Hok Hbefore.
    assert (∀ n a, (a + n = k)%nat → ∀ r, (n ≤ r)%nat →
      stub_connect_from connect try_clone a r = (S k, try_clone stream)) as Hgen.
    { induction n as [|n IH]; intros a Ha r Hr.
      - assert (a = k) as -> by lia. destruct r; cbn; by rewrite Hok.
      - destruct r as [|r]; [lia|]. cbn. pose proof (Hbefore a ltac:(lia)) as He.
        destruct (connect a); [done|]. apply IH; lia. }
    apply (Hgen k 0); lia.
  - intros e Hall Hlast.
    assert (∀ r a, (a + r = retries)%nat →
      stub_connect_from connect try_clone a r = (S retries, Err e)) as Hgen.
    { induction r as [|r IH]; intros a Ha; cbn.
      - assert (a = retries) as -> by lia. by rewrite Hlast.
      - pose proof (Hall a ltac:(lia)) as He. destruct (connect a); [done|]. apply IH; lia. }
    apply (Hgen retries 0); lia.
Qed.
End properties.
