(* ===== verification/RegisterTrace.v ===== *)
(** * Register tracing (crates/litesvm/src/register_tracing.rs)

    The default inspection callback: whether a transaction is traced or debugged,
    and the files it leaves for each executed program.  The file system is an
    interface; the build has the register-tracing and sbpf-debugger features. *)

From S2P Require Import Prelude Errors ComputeBudget Runtime RentState Utils Types History.
From S2P Require Import EpochStake AccountsDb Vm InnerInstructions Features Svm.
From S2P Require Import Text Bytes TraceFilter Debugger.

(** ** The file system and the runtime objects *)

(** Files are named by their paths; a write appends and reports how much of the
    data it took. *)
Class FsApi : Type := {
  FileSystem : Type;
  IoError : Type;
  current_dir : FileSystem → result IoError str;
  create_dir_all : FileSystem → str → FileSystem * result IoError ();
  file_create : FileSystem → str → FileSystem * result IoError ();
  file_write : FileSystem → str → bytes → FileSystem * result IoError N;
  path_join : str → str → str;
  with_extension : str → str → str;
  (** The content of a file, if it exists. *)
  file_content : FileSystem → str → option bytes }.

(** A path whose last component is a word of letters and digits. *)
Definition plain_path `{FsApi} (p : str) : Prop :=
  ∃ dir name, p = path_join dir name ∧ name ≠ [] ∧
    Forall (λ c, is_ascii_alphanumeric c = true) name.

(** Operations touch the named file only, a write appends the part of the data it
    reports, and different extensions of a file name make different names. *)
Class FsLaws `{FsApi} : Prop := {
  create_dir_content fs p fs' r q :
    create_dir_all fs p = (fs', r) → file_content fs' q = file_content fs q;
  file_create_content fs p fs' q :
    file_create fs p = (fs', Ok ()) →
    file_content fs' q = if decide (q = p) then Some [] else file_content fs q;
  file_write_content fs p b fs' n q old :
    file_write fs p b = (fs', Ok n) → file_content fs p = Some old →
    file_content fs' q
    = if decide (q = p) then Some (old ++ take (N.to_nat n) b) else file_content fs q;
  file_write_other fs p b fs' r q :
    file_write fs p b = (fs', r) → q ≠ p → file_content fs' q = file_content fs q;
  with_extension_distinct base e e' :
    plain_path base → e ≠ e' → with_extension base e ≠ with_extension base e' }.

(** Writes that succeed are complete. *)
Class FullWrites `{FsApi} : Prop := {
  file_write_full fs p b fs' n : file_write fs p b = (fs', Ok n) → n = len b }.

(** What the callback uses of the virtual machine. *)
Class TraceApi `{Host} `{FsApi} : Type := {
  Executable : Type;
  (** [executable.get_text_bytes().1] *)
  get_text_bytes : Executable → bytes;
  (** [get_insn_unchecked(program, pc).to_array()], eight bytes *)
  get_insn : bytes → N → bytes;
  (** [Analysis::from_executable] and its disassembly into a file, errors printed *)
  disassemble_into : FileSystem → str → Executable → list (list N) → FileSystem;
  InstrContext : Type;
  get_program_key : InstrContext → result InstructionError address;
  address_to_string : address → str;
  signature_to_string : signature → str;
  tx_signatures : SanitizedTransaction → list signature;
  sha256_digest : bytes → bytes;
  ic_set_debug_port : InvokeContext → N → InvokeContext;
  (** The traces that [iterate_vm_traces] visits. *)
  vm_traces : InvokeContext → list (InstrContext * Executable * list (list N));
  (** The order in which a hash set of addresses is visited. *)
  set_order : list address → list address;
  text_set_order : list str → list str }.

(** The disassembly goes to its file; a digest has 32 bytes; a hash set is visited
    once per element. *)
Class TraceLaws `{TraceApi} : Prop := {
  disassemble_content fs p exe trace q :
    q ≠ p → file_content (disassemble_into fs p exe trace) q = file_content fs q;
  sha256_digest_length b : length (sha256_digest b) = 32;
  set_order_elements l : set_order l ≡ₚ remove_dups l;
  text_set_order_elements l : text_set_order l ≡ₚ remove_dups l }.

(** [Box<dyn Error>] *)
Inductive BoxError `{FsApi} : Type :=
| BoxIo (e : IoError)
| BoxInstruction (e : InstructionError).

Section tracing.
Context `{TraceApi} `{Nom} `{CharClass}.

(** ** Effects: the file system threaded through, errors returned early *)

Abbreviation io A := (FileSystem → FileSystem * result BoxError A) (only parsing).

Definition io_ret {A} (x : A) : io A := λ fs, (fs, Ok x).
Definition io_bind {A B} (m : io A) (k : A → io B) : io B := λ fs,
  match m fs with
  | (fs, Ok x) => k x fs
  | (fs, Err e) => (fs, Err e)
  end.
Definition io_op {A} (op : FileSystem → FileSystem * result IoError A) : io A := λ fs,
  let r := op fs in (r.1, map_err BoxIo r.2).
Definition io_get {A} (get : FileSystem → result IoError A) : io A := λ fs,
  (fs, map_err BoxIo (get fs)).
(** [let _ = op;] *)
Definition io_ignore {A} (op : FileSystem → FileSystem * result IoError A) : io () := λ fs,
  ((op fs).1, Ok ()).

#[local] Notation "x <-- m ; k" := (io_bind m (λ x, k))
  (at level 100, m at next level, right associativity).
#[local] Notation "m ;;; k" := (io_bind m (λ _, k)) (at level 100, right associativity).

(** ** The callback *)

Definition DEFAULT_PATH : str := lit "target/sbf/trace".

Record DefaultRegisterTracingCallback : Type := {
  sbf_trace_dir : str;
  sbf_trace_disassemble : bool;
  sbf_trace_filter : str;
  sbf_debug_port : option N }.

(** [env] gives the environment variables. *)
Definition callback_default (env : str → option str) : DefaultRegisterTracingCallback := {|
  sbf_trace_dir := default DEFAULT_PATH (env (lit "SBF_TRACE_DIR"));
  sbf_trace_disassemble := bool_decide (is_Some (env (lit "SBF_TRACE_DISASSEMBLE")));
  sbf_trace_filter := default [] (env (lit "SBF_TRACE_FILTER"));
  sbf_debug_port := env (lit "SBF_DEBUG_PORT") ≫= parse_unsigned 65535 |}.

Definition filter_row (tx_sigs program_ids : list str) : gmap str (list str) :=
  <[lit "txsig" := tx_sigs]> (<[lit "program_id" := program_ids]> ∅).

Definition match_filter (self : DefaultRegisterTracingCallback) (tx_sigs program_ids : list str)
    : bool :=
  match expr (sbf_trace_filter self) with
  | Err _ => true
  | Ok ast => eval ast (filter_row tx_sigs program_ids)
  end.

(** [regs.as_slice()] as memory, little endian *)
Definition as_bytes (regs : list N) : bytes := mjoin (to_le_bytes 8 <$> regs).

Definition compute_hash (slice : bytes) : str := hex_encode (sha256_digest slice).

(** The keys that an instruction's account indices name; indices past the end are
    skipped. *)
Definition instruction_keys (tx : SanitizedTransaction) (ix : CompiledInstruction)
    : list address :=
  omap (λ i, account_keys (message tx) !! N.to_nat i) (ix_accounts ix).

Definition write_elf_hash (s : LiteSVM) (file : str) (k : address) : io () :=
  match try_program_elf_bytes (accounts s) k with
  | Err _ => io_ret ()
  | Ok elf_data =>
      io_ignore (λ fs, file_write fs file
        (ascii_bytes (address_to_string k ++ lit "=" ++ compute_hash elf_data ++ [NEWLINE])))
  end.

Fixpoint write_elf_hashes (s : LiteSVM) (file : str) (ks : list address) : io () :=
  match ks with
  | [] => io_ret ()
  | k :: ks => write_elf_hash s file k ;;; write_elf_hashes s file ks
  end.

Definition elf_accounts_to_sha256 (self : DefaultRegisterTracingCallback) (s : LiteSVM)
    (tx : SanitizedTransaction) : io () :=
  dir <-- io_get current_dir;
  let trace_dir := path_join dir (sbf_trace_dir self) in
  io_op (λ fs, create_dir_all fs trace_dir) ;;;
  let file := with_extension (path_join trace_dir (lit "program_ids")) (lit "map") in
  io_op (λ fs, file_create fs file) ;;;
  let ks := mjoin ((λ x, x.1 :: instruction_keys tx x.2)
                     <$> program_instructions_iter (message tx)) in
  write_elf_hashes s file (set_order ks).

(** Programs that the instructions might invoke: executable accounts of the
    instructions of other programs than the loaders and the system program. *)
Definition might_cpi_program_ids (s : LiteSVM) (tx : SanitizedTransaction) : list address :=
  filter (λ k, executable <$> get_account (accounts s) k = Some true)
    (mjoin ((λ x, instruction_keys tx x.2)
              <$> filter (λ x, x.1 ∉ [bpf_loader_upgradeable_id; bpf_loader_id;
                                      bpf_loader_deprecated_id; system_program_id])
                    (program_instructions_iter (message tx)))).

(** An error of the hash file is printed and ignored. *)
Definition pre_handler (self : DefaultRegisterTracingCallback) (s : LiteSVM)
    (tx : SanitizedTransaction) (ic : InvokeContext) (fs : FileSystem)
    : FileSystem * InvokeContext :=
  match sbf_debug_port self with
  | None => (fs, ic)
  | Some debug_port =>
      let fs := (elf_accounts_to_sha256 self s tx fs).1 in
      let top_level := (λ x, address_to_string x.1)
                         <$> program_instructions_iter (message tx) in
      let might_cpi := address_to_string <$> might_cpi_program_ids s tx in
      let sigs := signature_to_string <$> tx_signatures tx in
      if match_filter self sigs (text_set_order (top_level ++ might_cpi))
      then (fs, ic_set_debug_port ic debug_port)
      else (fs, ic)
  end.

(** The program counter is register 11. *)
Fixpoint write_trace (program : bytes) (regs_file insns_file : str) (trace : list (list N))
    : io () :=
  match trace with
  | [] => io_ret ()
  | regs :: trace =>
      io_op (λ fs, file_write fs regs_file (as_bytes regs)) ;;;
      io_op (λ fs, file_write fs insns_file (get_insn program (nth 11 regs 0%N))) ;;;
      write_trace program regs_file insns_file trace
  end.

(** The files next to the trace: the program id, the disassembly if it is wanted,
    and the hash of the program if its bytes are known. *)
Definition write_program_files (self : DefaultRegisterTracingCallback) (s : LiteSVM)
    (base : str) (program_id : address) (exe : Executable) (trace : list (list N)) : io () :=
  let program_id_file := with_extension base (lit "program_id") in
  io_op (λ fs, file_create fs program_id_file) ;;;
  (if sbf_trace_disassemble self then
     let trace_file := with_extension base (lit "trace") in
     io_op (λ fs, file_create fs trace_file) ;;;
     (λ fs, (disassemble_into fs trace_file exe trace, Ok ()))
   else io_ret ()) ;;;
  io_ignore (λ fs, file_write fs program_id_file (ascii_bytes (address_to_string program_id))) ;;;
  match try_program_elf_bytes (accounts s) program_id with
  | Err _ => io_ret ()
  | Ok elf_data =>
      let so_hash_file := with_extension base (lit "exec.sha256") in
      io_op (λ fs, file_create fs so_hash_file) ;;;
      io_ignore (λ fs, file_write fs so_hash_file (ascii_bytes (compute_hash elf_data)))
  end.

Definition post_handler (self : DefaultRegisterTracingCallback) (s : LiteSVM)
    (tx : SanitizedTransaction) (ctx : InstrContext) (exe : Executable) (trace : list (list N))
    : io () := λ fs,
  match trace with
  | [] => (fs, Ok ())
  | _ =>
    (program_id <-- (λ fs, (fs, map_err BoxInstruction (get_program_key ctx)));
     let sigs := signature_to_string <$> tx_signatures tx in
     if negb (match_filter self sigs [address_to_string program_id]) then io_ret ()
     else
       dir <-- io_get current_dir;
       let trace_dir := path_join dir (sbf_trace_dir self) in
       io_op (λ fs, create_dir_all fs trace_dir) ;;;
       let trace_digest := compute_hash (mjoin (as_bytes <$> trace)) in
       let base := path_join trace_dir (take 16 trace_digest) in
       let regs_file := with_extension base (lit "regs") in
       let insns_file := with_extension base (lit "insns") in
       io_op (λ fs, file_create fs regs_file) ;;;
       io_op (λ fs, file_create fs insns_file) ;;;
       write_program_files self s base program_id exe trace ;;;
       write_trace (get_text_bytes exe) regs_file insns_file trace) fs
  end.

(** ** The inspection callbacks *)

Definition before_invocation (self : DefaultRegisterTracingCallback) (s : LiteSVM)
    (tx : SanitizedTransaction) (ic : InvokeContext) (register_tracing_enabled : bool)
    (fs : FileSystem) : FileSystem * InvokeContext :=
  if register_tracing_enabled then pre_handler self s tx ic fs else (fs, ic).

(** Errors are printed, and the next trace is handled. *)
Definition after_invocation (self : DefaultRegisterTracingCallback) (s : LiteSVM)
    (tx : SanitizedTransaction) (ic : InvokeContext) (register_tracing_enabled : bool)
    (fs : FileSystem) : FileSystem :=
  if register_tracing_enabled
  then foldl (λ fs '(ctx, exe, trace), (post_handler self s tx ctx exe trace fs).1)
         fs (vm_traces ic)
  else fs.
End tracing.

(** ** Lemmas *)

Section facts.
Context `{TraceApi} `{!FsLaws} `{!TraceLaws} `{Nom} `{CharClass}.

(** The content of a file before and after, through the steps of an effect. *)
Lemma io_bind_Ok {A B} (m : FileSystem → FileSystem * result BoxError A)
    (k : A → FileSystem → FileSystem * result BoxError B) fs fs' y :
  io_bind m k fs = (fs', Ok y) → ∃ fs1 x, m fs = (fs1, Ok x) ∧ k x fs1 = (fs', Ok y).
Proof. unfold io_bind. destruct (m fs) as [fs1 [x|e]]; [eauto|done]. Qed.

Lemma io_op_Ok {A} (op : FileSystem → FileSystem * result IoError A) fs fs' x :
  io_op op fs = (fs', Ok x) → op fs = (fs', Ok x).
Proof. unfold io_op. destruct (op fs) as [fs1 [y|]]; simpl; [|done]. by intros [= <- <-]. Qed.

(** A write appends a part of its data, and all of it when writes are complete. *)
Definition written_part (part b : bytes) : Prop := part `prefix_of` b ∧ (FullWrites → part = b).

Lemma file_write_appends fs p b fs' n old :
  file_write fs p b = (fs', Ok n) → file_content fs p = Some old →
  ∃ part, written_part part b ∧
    ∀ q, file_content fs' q = if decide (q = p) then Some (old ++ part) else file_content fs q.
Proof.
  intros Hw Hold. exists (take (N.to_nat n) b). split; [split|].
  - exists (drop (N.to_nat n) b). by rewrite take_drop.
  - intros Hfull. rewrite (file_write_full _ _ _ _ _ Hw). unfold len. rewrite Nat2N.id.
    by rewrite take_ge by lia.
  - intros q. by rewrite (file_write_content _ _ _ _ _ q _ Hw Hold).
Qed.

Lemma write_trace_content program rf jf trace : ∀ fs fs' old_r old_i,
  rf ≠ jf → write_trace program rf jf trace fs = (fs', Ok ()) →
  file_content fs rf = Some old_r → file_content fs jf = Some old_i →
  ∃ rs js, Forall2 written_part rs (as_bytes <$> trace) ∧
    Forall2 written_part js ((λ regs, get_insn program (nth 11 regs 0%N)) <$> trace) ∧
    file_content fs' rf = Some (old_r ++ mjoin rs) ∧
    file_content fs' jf = Some (old_i ++ mjoin js).
Proof.
  induction trace as [|regs trace IH]; intros fs fs' old_r old_i Hne Hrun Hr Hi.
  { injection Hrun as <-. exists [], []. simpl. rewrite !app_nil_r. by repeat constructor. }
  apply io_bind_Ok in Hrun as (fs1 & n1 & H1'%io_op_Ok & Hrun).
  apply io_bind_Ok in Hrun as (fs2 & n2 & H2'%io_op_Ok & Hrun).
  destruct (file_write_appends _ _ _ _ _ _ H1' Hr) as (r & Hpr & H1r).
  assert (file_content fs1 jf = Some old_i) as Hi1 by by rewrite H1r, decide_False.
  destruct (file_write_appends _ _ _ _ _ _ H2' Hi1) as (j & Hpj & H2j).
  destruct (IH fs2 fs' (old_r ++ r) (old_i ++ j)) as (rs & js & Hrs & Hjs & Er & Ej); try done.
  - by rewrite H2j, decide_False, H1r, decide_True by done.
  - by rewrite H2j, decide_True.
  - exists (r :: rs), (j :: js). rewrite !fmap_cons, Er, Ej, <-!app_assoc.
    split_and!; [by constructor..|done|done].
Qed.

Lemma written_parts_prefix parts l : Forall2 written_part parts l → Forall2 prefix parts l.
Proof. induction 1 as [|p b parts l [Hp _] _ IH]; by constructor. Qed.

(** A file of the size of the data holds the data. *)
Lemma written_parts_length parts l :
  Forall2 written_part parts l → (length (mjoin parts) ≤ length (mjoin l))%nat.
Proof.
  induction 1 as [|p b parts l [Hp%prefix_length _] _ IH]; [done|].
  change (length (p ++ mjoin parts) ≤ length (b ++ mjoin l))%nat. rewrite !length_app. lia.
Qed.

Lemma written_parts_complete parts l :
  Forall2 written_part parts l → length (mjoin parts) = length (mjoin l) → parts = l.
Proof.
  induction 1 as [|p b parts l [Hp _] Hl IH]; [done|].
  change (length (p ++ mjoin parts) = length (b ++ mjoin l) → p :: parts = b :: l).
  rewrite !length_app. intros Heq. pose proof (written_parts_length _ _ Hl).
  pose proof (prefix_length _ _ Hp). assert (p = b) as ->; [|f_equal; apply IH; lia].
  apply prefix_length_eq; [exact Hp|lia].
Qed.

Lemma written_parts_full `{!FullWrites} parts l : Forall2 written_part parts l → parts = l.
Proof. induction 1 as [|p b parts l [_ Hp] _ IH]; [done|]. f_equal; [by apply Hp|done]. Qed.

(** ** Effects that leave a file alone *)

Definition untouched {A} (q : str) (m : FileSystem → FileSystem * result BoxError A) : Prop :=
  ∀ fs fs' x, m fs = (fs', Ok x) → file_content fs' q = file_content fs q.

Lemma untouched_ret {A} q (x : A) : untouched q (io_ret x).
Proof. by intros fs fs' y [= <- <-]. Qed.

Lemma untouched_bind {A B} q (m : FileSystem → FileSystem * result BoxError A)
    (k : A → FileSystem → FileSystem * result BoxError B) :
  untouched q m → (∀ x, untouched q (k x)) → untouched q (io_bind m k).
Proof.
  intros Hm Hk fs fs' y (fs1 & x & H1' & H2')%io_bind_Ok.
  rewrite (Hk x _ _ _ H2'). by eapply Hm.
Qed.

Lemma untouched_create q p : q ≠ p → untouched q (io_op (λ fs, file_create fs p)).
Proof.
  intros Hne fs fs' [] Hc%io_op_Ok. by rewrite (file_create_content _ _ _ q Hc), decide_False.
Qed.

Lemma untouched_write q p b : q ≠ p → untouched q (io_ignore (λ fs, file_write fs p b)).
Proof.
  unfold io_ignore. intros Hne fs fs' x. destruct (file_write fs p b) as [fs1 r] eqn:Hw.
  intros [= <- _]. by eapply file_write_other.
Qed.

Lemma untouched_disassemble q p exe trace :
  q ≠ p → untouched q (λ fs, (disassemble_into fs p exe trace, Ok ())).
Proof. intros Hne fs fs' x [= <- _]. by apply disassemble_content. Qed.

(** The files next to the trace are none of the two files of the trace. *)
Lemma write_program_files_untouched self s base k exe trace e :
  plain_path base → e ∈ [lit "regs"; lit "insns"] →
  untouched (with_extension base e) (write_program_files self s base k exe trace).
Proof.
  intros Hbase He. assert (∀ e', e' ∉ [lit "regs"; lit "insns"] →
    with_extension base e ≠ with_extension base e') as Hne.
  { intros e' He'. apply with_extension_distinct; [done|]. by intros <-. }
  unfold write_program_files. apply untouched_bind; [apply untouched_create, Hne; by_decision|].
  intros _. apply untouched_bind.
  { destruct (sbf_trace_disassemble self); [|apply untouched_ret].
    apply untouched_bind; [apply untouched_create, Hne; by_decision|].
    intros _. apply untouched_disassemble, Hne; by_decision. }
  intros _. apply untouched_bind; [apply untouched_write, Hne; by_decision|].
  intros _. destruct (try_program_elf_bytes _ _); [|apply untouched_ret].
  apply untouched_bind; [apply untouched_create, Hne; by_decision|].
  intros _. apply untouched_write, Hne; by_decision.
Qed.
End facts.

Lemma hex_digit_plain d : (d < 16)%N → is_ascii_alphanumeric (hex_digit d) = true.
Proof.
  intros Hd. unfold hex_digit, is_ascii_alphanumeric.
  destruct (N.ltb_spec d 10); apply orb_true_iff; [left; apply orb_true_iff; left|right];
    apply andb_true_iff; rewrite !N.leb_le; lia.
Qed.

Lemma hex_encode_plain b : Forall (λ c, is_ascii_alphanumeric c = true) (hex_encode b).
Proof.
  induction b as [|x b IH]; [done|]. unfold hex_encode in *. cbn [fmap list_fmap mjoin list_join].
  apply Forall_app. split; [|done]. pose proof (Byte.to_N_bounded x) as Hx.
  repeat constructor; apply hex_digit_plain.
  - apply N.Div0.div_lt_upper_bound. lia.
  - by apply N.mod_lt.
Qed.

Section lockstep.
Context `{TraceApi} `{!FsLaws} `{!TraceLaws} `{Nom} `{CharClass}.

(** The files of a trace. *)
Definition trace_base (self : DefaultRegisterTracingCallback) (dir : str) (trace : list (list N))
    : str :=
  path_join (path_join dir (sbf_trace_dir self))
    (take 16 (compute_hash (mjoin (as_bytes <$> trace)))).

(** The instruction at each step's program counter. *)
Definition trace_insns (exe : Executable) (trace : list (list N)) : list bytes :=
  (λ regs, get_insn (get_text_bytes exe) (nth 11 regs 0%N)) <$> trace.

Lemma trace_base_plain self dir trace : plain_path (trace_base self dir trace).
Proof.
  eexists _, _. split; [done|]. unfold compute_hash.
  pose proof (sha256_digest_length (mjoin (as_bytes <$> trace))) as Hlen.
  pose proof (hex_encode_plain (sha256_digest (mjoin (as_bytes <$> trace)))) as Hhex.
  split; [|by apply Forall_take]. by destruct (sha256_digest _).
Qed.

Lemma post_handler_Ok self s tx ctx exe trace program_id dir fs fs' :
  trace ≠ [] → get_program_key ctx = Ok program_id → current_dir fs = Ok dir →
  match_filter self (signature_to_string <$> tx_signatures tx)
    [address_to_string program_id] = true →
  post_handler self s tx ctx exe trace fs = (fs', Ok ()) →
  let base := trace_base self dir trace in
  ∃ rs js, Forall2 written_part rs (as_bytes <$> trace) ∧
    Forall2 written_part js (trace_insns exe trace) ∧
    file_content fs' (with_extension base (lit "regs")) = Some (mjoin rs) ∧
    file_content fs' (with_extension base (lit "insns")) = Some (mjoin js).
Proof.
  intros Hne Hkey Hdir Hmatch Hrun base. unfold post_handler in Hrun.
  destruct trace as [|regs trace]; [done|]. set (tr := regs :: trace) in *.
  apply io_bind_Ok in Hrun as (fs1 & k & H1' & Hrun). rewrite Hkey in H1'.
  injection H1' as <- <-. rewrite Hmatch in Hrun. cbn [negb] in Hrun.
  apply io_bind_Ok in Hrun as (fs1 & d & H1' & Hrun). unfold io_get in H1'.
  rewrite Hdir in H1'. injection H1' as <- <-.
  apply io_bind_Ok in Hrun as (fs1 & [] & Hmk%io_op_Ok & Hrun). fold (trace_base self dir tr) in Hrun.
  fold base in Hrun.
  set (rf := with_extension base (lit "regs")) in *.
  set (jf := with_extension base (lit "insns")) in *.
  apply io_bind_Ok in Hrun as (fs2 & [] & Hc1%io_op_Ok & Hrun).
  apply io_bind_Ok in Hrun as (fs3 & [] & Hc2%io_op_Ok & Hrun).
  pose proof (trace_base_plain self dir tr : plain_path base) as Hplain.
  assert (rf ≠ jf) as Hrj by (by apply with_extension_distinct).
  assert (file_content fs3 rf = Some [] ∧ file_content fs3 jf = Some []) as [Hr Hj].
  { rewrite !(file_create_content _ _ _ _ Hc2), (file_create_content _ _ _ _ Hc1).
    by rewrite decide_False, !decide_True. }
  apply io_bind_Ok in Hrun as (fs4 & [] & Hs4 & Hrun).
  assert (file_content fs4 rf = Some [] ∧ file_content fs4 jf = Some []) as [Hr' Hj'].
  { split; [rewrite <-Hr|rewrite <-Hj];
      (eapply write_program_files_untouched; [exact Hplain| |exact Hs4]); rewrite !elem_of_cons; auto. }
  exact (write_trace_content _ _ _ _ _ _ [] [] Hrj Hrun Hr' Hj').
Qed.

(** ** Properties *)

(** C25.  The files of a register trace.  An empty trace, and one whose program and
    signatures the filter rejects, leave the file system alone.  Otherwise, if
    handling the trace succeeds, the [.regs] file holds, for every step in order, as
    much of its registers as the file system accepted in one write, and the [.insns]
    file as much of the instruction at the step's program counter: the count that a
    write returns is ignored.  Each file is exact when it has the size of the trace's
    data, and both are on a file system whose successful writes are complete, so
    that the n-th instruction belongs to the n-th register set. *)
Theorem register_trace_files self s tx ctx exe trace program_id dir fs
  (Hkey : get_program_key ctx = Ok program_id) (Hdir : current_dir fs = Ok dir) :
  let selected := match_filter self (signature_to_string <$> tx_signatures tx)
                    [address_to_string program_id] in
  let regs := as_bytes <$> trace in
  let insns := (λ regs, get_insn (get_text_bytes exe) (nth 11 regs 0%N)) <$> trace in
  if bool_decide (trace = []) || negb selected
  then post_handler self s tx ctx exe trace fs = (fs, Ok ())
  else ∀ fs', post_handler self s tx ctx exe trace fs = (fs', Ok ()) →
    let base := trace_base self dir trace in
    ∃ rs js, Forall2 prefix rs regs ∧ Forall2 prefix js insns ∧
      file_content fs' (with_extension base (lit "regs")) = Some (mjoin rs) ∧
      file_content fs' (with_extension base (lit "insns")) = Some (mjoin js) ∧
      (length (mjoin rs) = length (mjoin regs) → rs = regs) ∧
      (length (mjoin js) = length (mjoin insns) → js = insns) ∧
      (FullWrites → rs = regs ∧ js = insns).
Proof.
  intros selected regs insns. destruct (bool_decide_reflect (trace = [])) as [->|Hne]; [done|].
  destruct selected eqn:Hsel; simpl.
  - intros fs' Hrun.
    destruct (post_handler_Ok _ _ _ _ _ _ _ _ _ _ Hne Hkey Hdir Hsel Hrun)
      as (rs & js & Hrs & Hjs & Er & Ej). exists rs, js.
    split_and!; try done; [by apply written_parts_prefix..| | |].
    + by apply written_parts_complete.
    + by apply written_parts_complete.
    + intros Hfull. split; by apply written_parts_full.
  - unfold post_handler, io_bind. destruct trace; [done|]. rewrite Hkey. simpl.
    unfold selected in Hsel. by rewrite Hsel.
Qed.
End lockstep.

Section filter.
Context `{Nom} `{!NomLaws} `{CharClass} `{!CharClassLaws}.

(** Only the values of the fields matter, not their order or repetitions. *)
Lemma holds_ext e row row' :
  (∀ f v, v ∈ row_get row f ↔ v ∈ row_get row' f) → holds true e row ↔ holds true e row'.
Proof.
  intros Hrow. induction e as [|c|xs IH|xs IH] using Expr_ind'; cbn [holds]; [done| | |].
  - unfold cond_holds. destruct (cond_op c); by rewrite Hrow.
  - rewrite !foldr_and, !Forall_forall. rewrite Forall_forall in IH. naive_solver.
  - rewrite !foldr_or, !Exists_exists. rewrite Forall_forall in IH. naive_solver.
Qed.

Lemma filter_row_ext sigs sigs' ids ids' :
  (∀ v, v ∈ sigs ↔ v ∈ sigs') → (∀ v, v ∈ ids ↔ v ∈ ids') →
  ∀ f v, v ∈ row_get (filter_row sigs ids) f ↔ v ∈ row_get (filter_row sigs' ids') f.
Proof.
  intros Hs Hi f v. unfold row_get, filter_row.
  destruct (decide (f = lit "txsig")) as [->|]; [by rewrite !lookup_insert_eq; simpl|].
  rewrite !(lookup_insert_ne _ (lit "txsig")) by done.
  destruct (decide (f = lit "program_id")) as [->|]; [by rewrite !lookup_insert_eq; simpl|].
  by rewrite !lookup_insert_ne.
Qed.

Lemma match_filter_holds self sigs ids :
  match_filter self sigs ids = true ↔
  ∀ e, filter_text (sbf_trace_filter self) e → holds true e (filter_row sigs ids).
Proof.
  unfold match_filter. destruct (expr (sbf_trace_filter self)) as [ast|err] eqn:Hx.
  - rewrite eval_holds. split; [|intros Hall; by apply Hall, expr_spec].
    intros Hh e He%expr_spec. congruence.
  - split; [|done]. intros _ e He%expr_spec. congruence.
Qed.

(** C24.  What a filter selects.  A transaction and a set of programs match exactly
    when the meaning of the filter text holds of them; a blank filter selects
    everything, and so does a text that is no filter.  The order in which a hash
    set hands out the program ids does not matter. *)
Theorem match_filter_selects self sigs ids :
  (match_filter self sigs ids = true ↔
   ∀ e, filter_text (sbf_trace_filter self) e → holds true e (filter_row sigs ids)) ∧
  (∀ ids', (∀ k, k ∈ ids ↔ k ∈ ids') →
     match_filter self sigs ids' = match_filter self sigs ids).
Proof.
  split; [apply match_filter_holds|]. intros ids' Hids. apply eq_true_iff_eq.
  rewrite !match_filter_holds. apply forall_proper. intros e.
  split; intros Hh He; (eapply holds_ext; [|by apply Hh]); apply filter_row_ext;
    try done; intros k; by rewrite Hids.
Qed.
End filter.
