(* ===== verification/Inspect.v ===== *)
(** * Inspected execution (crates/litesvm/src/lib.rs)

    The pipeline of Process.v and Exec.v in the build with the
    [invocation-inspect-callback] feature: an instance holds a callback, which is
    called before and after the instructions of every transaction that reaches the
    runtime, and may change the invoke context before they run.  What a callback
    does elsewhere (files, a debugger, its own state) is a world that is threaded
    through.  A callback that leaves the invoke context alone is not observable. *)

From S2P Require Import Prelude Errors ComputeBudget Runtime RentState Utils Types History.
From S2P Require Import EpochStake AccountsDb Vm InnerInstructions Features Svm Process.
From S2P Require Import ProcessLemmas Exec ExecLemmas Text Bytes TraceFilter Debugger RegisterTrace.

(** ** The callback *)

Section callback.
Context `{Host}.

(** [before_invocation] has the invoke context mutably, [after_invocation] not;
    either may panic. *)
Record InvocationInspectCallback (W : Type) : Type := {
  on_before : LiteSVM → SanitizedTransaction → list N → InvokeContext → bool → W →
              outcome (W * InvokeContext);
  on_after : LiteSVM → SanitizedTransaction → list N → InvokeContext → bool → W →
             outcome W }.

Definition EmptyInvocationInspectCallback (W : Type) : InvocationInspectCallback W := {|
  on_before _ _ _ ic _ w := Ret (w, ic);
  on_after _ _ _ _ _ w := Ret w |}.

(** An instance with its callback. *)
Record InspectedSVM (W : Type) : Type := mkInspected {
  the_svm : LiteSVM;
  invocation_inspect_callback : InvocationInspectCallback W }.

Definition set_invocation_inspect_callback {W} (s : InspectedSVM W)
    (callback : InvocationInspectCallback W) : InspectedSVM W :=
  mkInspected W (the_svm W s) callback.
End callback.
Arguments on_before {_ W}.
Arguments on_after {_ W}.
Arguments mkInspected {_ W}.
Arguments the_svm {_ W}.
Arguments invocation_inspect_callback {_ W}.

(** ** The pipeline *)

Section inspected.
Context `{Host} {W : Type}.
Implicit Types (si : InspectedSVM W) (w : W).

Definition inspected_run_message (si : InspectedSVM W) (tx : SanitizedTransaction)
    (budget : ComputeBudget) (rent : Rent) (fee : N) (lc : LogCollector) (st : LoadState)
    (accs : list (address * account)) (program_indices : list N) (w : W)
    : outcome (W * ProcessOutput) :=
  let s := the_svm si in
  let cb := invocation_inspect_callback si in
  let msg := message tx in
  context ← create_transaction_context s budget accs (length (instructions msg));
  let ic := invoke_context_new context (programs_cache (accounts s))
              (environment_config s (recent_blockhash msg)) lc budget in
  '(w, ic) ← on_before cb s tx program_indices ic (enable_register_tracing s) w;
  let '(units, ic, tx_result) := process_message msg program_indices ic 0 in
  w ← on_after cb s tx program_indices ic (enable_register_tracing s) w;
  let context := ic_context ic in
  let tx_result :=
    _ ← tx_result; check_accounts_rent tx context rent (pre_rent_states st) in
  Ret (w, {| po_result := tx_result; po_units := units; po_context := Some context;
             po_fee := fee; po_payer := payer_key st; po_logs := ic_log_collector ic |}).

Definition inspected_process_loaded (si : InspectedSVM W) (tx : SanitizedTransaction)
    (budget : ComputeBudget) (rent : Rent) (fee : N) (lc : LogCollector) (st : LoadState)
    (accs : list (address * account)) (w : W) : outcome (W * ProcessOutput) :=
  if negb (validated_fee_payer st)
  then Ret (w, unprocessed TE_AccountNotFound fee (payer_key st) lc)
  else
    r ← program_indices_of (the_svm si) (length accs) accs (instructions (message tx));
    match r with
    | (_, Err e) => Ret (w, unprocessed e fee (payer_key st) lc)
    | (accs, Ok program_indices) =>
        inspected_run_message si tx budget rent fee lc st accs program_indices w
    end.

Definition inspected_process_transaction (si : InspectedSVM W) (tx : SanitizedTransaction)
    (tx_config : TransactionConfiguration) (lc : LogCollector) (w : W)
    : outcome (W * ProcessOutput) :=
  let s := the_svm si in
  let budget := transaction_budget s tx_config in
  rent ← unwrap (cache_get_rent (sysvar_cache (accounts s)));
  let msg := message tx in
  let fee := transaction_fee s tx_config msg in
  let (d, res) :=
    increase_calculated_data_size
      (with_max_size (tc_loaded_accounts_data_size_limit tx_config))
      (saturating_mul u64_max (num_lookup_tables msg) ADDRESS_LOOKUP_TABLE_BASE_SIZE) in
  match res with
  | Err e => Ret (w, unprocessed e fee None lc)
  | Ok _ =>
      r ← load_accounts s msg rent fee (initial_load_state d) 0 (account_keys msg);
      match r with
      | (st, Err e) => Ret (w, unprocessed e fee (payer_key st) lc)
      | (st, Ok accs) => inspected_process_loaded si tx budget rent fee lc st accs w
      end
  end.

Definition inspected_check_and_process (si : InspectedSVM W) (tx : SanitizedTransaction)
    (lc : LogCollector) (w : W) : outcome (W * result ExecutionResult ProcessOutput) :=
  match check_transaction_before (the_svm si) tx with
  | Err e => Ret (w, Err e)
  | Ok tx_config => prod_map id Ok <$> inspected_process_transaction si tx tx_config lc w
  end.

Definition inspected_execute_sanitized (si : InspectedSVM W) (tx : SanitizedTransaction)
    (lc : LogCollector) (w : W) : outcome (W * (LiteSVM * ExecutionResult * LogCollector)) :=
  '(w, c) ← inspected_check_and_process si tx lc w;
  match c with
  | Err e => Ret (w, (the_svm si, e, lc))
  | Ok p =>
      r ← charge_failed (the_svm si) p (processed_result tx p);
      Ret (w, (r, po_logs p))
  end.

Definition inspected_execute_sanitized_readonly (si : InspectedSVM W)
    (tx : SanitizedTransaction) (lc : LogCollector) (w : W)
    : outcome (W * (ExecutionResult * LogCollector)) :=
  '(w, c) ← inspected_check_and_process si tx lc w;
  match c with
  | Err e => Ret (w, (e, lc))
  | Ok p => Ret (w, (processed_result tx p, po_logs p))
  end.

(** [execute_transaction] and [execute_transaction_no_verify], by the flag. *)
Definition inspected_execute (si : InspectedSVM W) (verify : bool) (tx : VersionedTransaction)
    (lc : LogCollector) (w : W) : outcome (W * (LiteSVM * ExecutionResult * LogCollector)) :=
  let s := the_svm si in
  res ← (if verify then sanitize_transaction s tx else sanitize_transaction_no_verify s tx);
  map_sanitize_result res (λ e, Ret (w, (s, e, lc)))
    (λ s_tx, inspected_execute_sanitized si s_tx lc w).

Definition inspected_execute_readonly (si : InspectedSVM W) (verify : bool)
    (tx : VersionedTransaction) (lc : LogCollector) (w : W)
    : outcome (W * (ExecutionResult * LogCollector)) :=
  let s := the_svm si in
  res ← (if verify then sanitize_transaction s tx else sanitize_transaction_no_verify s tx);
  map_sanitize_result res (λ e, Ret (w, (e, lc)))
    (λ s_tx, inspected_execute_sanitized_readonly si s_tx lc w).

Definition inspected_send_transaction (si : InspectedSVM W) (tx : VersionedTransaction) (w : W)
    : outcome (W * (InspectedSVM W * TransactionResult)) :=
  let s := the_svm si in
  let lc := log_collector_new (log_bytes_limit s) in
  '(w, (s, r, lc)) ← inspected_execute si (sigverify s) tx lc w;
  '(s, res) ← commit_result s r (meta_of r lc);
  Ret (w, (mkInspected s (invocation_inspect_callback si), res)).

Definition inspected_simulate_transaction (si : InspectedSVM W) (tx : VersionedTransaction)
    (w : W)
    : outcome (W * result FailedTransactionMetadata SimulatedTransactionInfo) :=
  let s := the_svm si in
  let lc := log_collector_new (log_bytes_limit s) in
  '(w, (r, lc)) ← inspected_execute_readonly si (sigverify s) tx lc w;
  let meta := meta_of r lc in
  Ret (w, match tx_result r with
          | Err tx_err => Err {| failed_err := tx_err; failed_meta := meta |}
          | Ok _ => Ok {| sim_meta := meta; sim_post_accounts := post_accounts r |}
          end).
End inspected.

(** ** Construction with register tracing *)

Section tracing.
Context `{TraceApi} `{Nom} `{CharClass}.

Definition tracing_callback (self : DefaultRegisterTracingCallback)
    : InvocationInspectCallback FileSystem := {|
  on_before s tx _ ic tracing fs := Ret (before_invocation self s tx ic tracing fs);
  on_after s tx _ ic tracing fs := Ret (after_invocation self s tx ic tracing fs) |}.

(** The callback of a new instance; [env] gives the environment variables. *)
Definition inspected_new_inner (env : str → option str) (keypair : bytes) (tracing : bool)
    : InspectedSVM FileSystem :=
  let s := mkInspected (new_inner keypair tracing) (EmptyInvocationInspectCallback _) in
  if tracing then set_invocation_inspect_callback s (tracing_callback (callback_default env))
  else s.

Definition inspected_default (env : str → option str) (keypair : bytes)
    : InspectedSVM FileSystem :=
  inspected_new_inner env keypair (bool_decide (is_Some (env (lit "SBF_TRACE_DIR")))).

Definition inspected_into_basic {W} (si : InspectedSVM W) : outcome (InspectedSVM W) :=
  s ← into_basic (the_svm si); Ret (mkInspected s (invocation_inspect_callback si)).

Definition inspected_new (env : str → option str) (keypair : bytes)
    : outcome (InspectedSVM FileSystem) :=
  inspected_into_basic (inspected_default env keypair).

Definition inspected_new_debuggable (env : str → option str) (keypair : bytes) (tracing : bool)
    : outcome (InspectedSVM FileSystem) :=
  inspected_into_basic (inspected_new_inner env keypair tracing).
End tracing.

(** ** Agreement with the plain pipeline *)

(** An inspected computation returns what the plain one does, and a world, or
    panics with it. *)
Definition agrees {W A} (o : outcome A) (oi : outcome (W * A)) : Prop :=
  match o with
  | Ret x => ∃ w, oi = Ret (w, x)
  | Panic => oi = Panic
  end.
Arguments agrees : simpl never.

Section agreement.
Context {W : Type}.

Lemma agrees_ret {A} (x : A) (w : W) : agrees (Ret x) (Ret (w, x)).
Proof. by eexists. Qed.

Lemma agrees_bind {A B} (o : outcome A) (oi : outcome (W * A)) (k : A → outcome B)
    (ki : W * A → outcome (W * B)) :
  agrees o oi → (∀ x w, agrees (k x) (ki (w, x))) → agrees (o ≫= k) (oi ≫= ki).
Proof.
  intros Ho Hk. unfold agrees in Ho. destruct o as [x|]; [|by subst].
  destruct Ho as [w ->]. apply Hk.
Qed.

(** A step outside the inspected part. *)
Lemma agrees_step {A B} (o : outcome A) (k : A → outcome B) (ki : A → outcome (W * B)) :
  (∀ x, agrees (k x) (ki x)) → agrees (o ≫= k) (o ≫= ki).
Proof. intros Hk. destruct o as [x|]; [apply Hk|done]. Qed.
End agreement.

#[export] Hint Resolve agrees_ret : svm.

Section transparency.
Context `{Host} {W : Type}.

(** A callback that returns and leaves the invoke context as it is. *)
Definition transparent (cb : InvocationInspectCallback W) : Prop :=
  (∀ s tx idx ic b w, ∃ w', on_before cb s tx idx ic b w = Ret (w', ic)) ∧
  (∀ s tx idx ic b w, ∃ w', on_after cb s tx idx ic b w = Ret w').

Context (cb : InvocationInspectCallback W) (Hcb : transparent cb).

Lemma run_message_agrees s tx budget rent fee lc st accs idx w :
  agrees (run_message s tx budget rent fee lc st accs idx)
    (inspected_run_message (mkInspected s cb) tx budget rent fee lc st accs idx w).
Proof.
  unfold run_message, inspected_run_message. simpl. apply agrees_step. intros c.
  destruct Hcb as [Hb Ha].
  match goal with |- context [on_before cb s tx idx ?ic ?b w] =>
    destruct (Hb s tx idx ic b w) as [w1 ->] end. simpl.
  destruct (process_message _ _ _ _) as [[u ic] r].
  match goal with |- context [on_after cb s tx idx ?ic ?b ?w] =>
    destruct (Ha s tx idx ic b w) as [w2 ->] end. simpl. auto with svm.
Qed.

Lemma process_transaction_agrees s tx cfg lc w :
  agrees (process_transaction s tx cfg lc)
    (inspected_process_transaction (mkInspected s cb) tx cfg lc w).
Proof.
  unfold process_transaction, inspected_process_transaction. simpl. apply agrees_step.
  intros rent. destruct (increase_calculated_data_size _ _) as [d [|e]]; [|auto with svm].
  apply agrees_step. intros [st [accs|e]]; [|auto with svm].
  unfold process_loaded, inspected_process_loaded. simpl.
  destruct (negb (validated_fee_payer st)); [auto with svm|].
  apply agrees_step. intros [accs' [idx|e]]; [apply run_message_agrees|auto with svm].
Qed.

Lemma check_and_process_agrees s tx lc w :
  agrees (check_and_process_transaction s tx lc)
    (inspected_check_and_process (mkInspected s cb) tx lc w).
Proof.
  unfold check_and_process_transaction, inspected_check_and_process. simpl.
  destruct (check_transaction_before s tx) as [cfg|e]; [|auto with svm].
  pose proof (process_transaction_agrees s tx cfg lc w) as Hp.
  unfold agrees in *. destruct (process_transaction s tx cfg lc) as [p|]; simpl; [|by rewrite Hp].
  destruct Hp as [w' ->]. by exists w'.
Qed.

Lemma execute_sanitized_agrees s tx lc w :
  agrees (execute_sanitized_transaction s tx lc)
    (inspected_execute_sanitized (mkInspected s cb) tx lc w).
Proof.
  eapply agrees_bind; [apply check_and_process_agrees|]. intros [p|e] w'; [|auto with svm].
  apply agrees_step. auto with svm.
Qed.

Lemma execute_sanitized_readonly_agrees s tx lc w :
  agrees (execute_sanitized_transaction_readonly s tx lc)
    (inspected_execute_sanitized_readonly (mkInspected s cb) tx lc w).
Proof.
  eapply agrees_bind; [apply check_and_process_agrees|]. intros [p|e] w'; auto with svm.
Qed.

Lemma execute_agrees s tx lc w :
  agrees (if sigverify s then execute_transaction s tx lc
          else execute_transaction_no_verify s tx lc)
    (inspected_execute (mkInspected s cb) (sigverify s) tx lc w).
Proof.
  unfold inspected_execute, execute_transaction, execute_transaction_no_verify. simpl.
  destruct (sigverify s); apply agrees_step; intros [stx|e]; simpl;
    auto using execute_sanitized_agrees with svm.
Qed.

Lemma execute_readonly_agrees s tx lc w :
  agrees (if sigverify s then execute_transaction_readonly s tx lc
          else execute_transaction_no_verify_readonly s tx lc)
    (inspected_execute_readonly (mkInspected s cb) (sigverify s) tx lc w).
Proof.
  unfold inspected_execute_readonly, execute_transaction_readonly,
    execute_transaction_no_verify_readonly. simpl.
  destruct (sigverify s); apply agrees_step; intros [stx|e]; simpl;
    auto using execute_sanitized_readonly_agrees with svm.
Qed.
End transparency.

(** The register tracing callback without a debug port only writes files. *)
Lemma tracing_callback_transparent `{TraceApi} `{Nom} `{CharClass} self :
  sbf_debug_port self = None → transparent (tracing_callback self).
Proof.
  intros Hport. split; intros s tx idx ic b fs; [|by eexists].
  exists fs. simpl. unfold before_invocation, pre_handler. rewrite Hport. by destruct b.
Qed.

Lemma empty_callback_transparent `{Host} W : transparent (EmptyInvocationInspectCallback W).
Proof. split; intros s tx idx ic b w; by exists w. Qed.

(** ** What a callback sees *)

Section recording.
Context `{Host}.

(** The calls of a callback, with all that they are given but the instance. *)
Inductive inspection : Type :=
| Before (tx : SanitizedTransaction) (program_indices : list N) (ic : InvokeContext) (b : bool)
| After (tx : SanitizedTransaction) (program_indices : list N) (ic : InvokeContext) (b : bool).

Definition recorder : InvocationInspectCallback (list inspection) := {|
  on_before _ tx idx ic b w := Ret (w ++ [Before tx idx ic b], ic);
  on_after _ tx idx ic b w := Ret (w ++ [After tx idx ic b]) |}.

Lemma recorder_transparent : transparent recorder.
Proof. split; intros s tx idx ic b w; by eexists. Qed.

(** The invoke context in which the instructions of a message start: over the loaded
    accounts [all], with the programs and the environment of the instance. *)
Definition start_context (s : LiteSVM) (msg : SanitizedMessage) (rent : Rent)
    (budget : ComputeBudget) (lc : LogCollector) (all : list (address * account))
    : InvokeContext :=
  invoke_context_new
    (context_new all rent (max_instruction_stack_depth budget)
       (max_instruction_trace_length budget) (length (instructions msg)))
    (programs_cache (accounts s)) (environment_config s (recent_blockhash msg)) lc budget.

(** The calls made for a transaction.  When it reached the runtime there are two:
    one with the context in which its instructions start, over its loaded accounts
    (the payer's charged with the fee) and the owners of its programs, and one with
    the context in which they end, whose accounts and units the result reports.
    Otherwise there is none. *)
Definition calls_made (s : LiteSVM) (tx : SanitizedTransaction) (lc : LogCollector)
    (er : ExecutionResult) (w w' : list inspection) : Prop :=
  let msg := message tx in
  if included er then
    ∃ rent budget accs payer all idx ic' r,
      cache_get_rent (sysvar_cache (accounts s)) = Some rent ∧
      loads s msg rent (er_fee er) 0 (account_keys msg) accs (Some payer) ∧
      accs `prefix_of` all ∧
      let ic := start_context s msg rent budget lc all in
      process_message msg idx ic 0 = (er_compute_units_consumed er, ic', r) ∧
      post_accounts er = writable_from msg 0 (context_accounts (ic_context ic')) ∧
      w' = w ++ [Before tx idx ic (enable_register_tracing s);
                 After tx idx ic' (enable_register_tracing s)]
  else w' = w.

Lemma run_message_calls s tx budget rent rent' fee lc st all idx w w' p :
  cache_get_rent (sysvar_cache (accounts s)) = Some rent →
  inspected_run_message (mkInspected s recorder) tx budget rent' fee lc st all idx w
  = Ret (w', p) →
  let ic := start_context s (message tx) rent budget lc all in
  ∃ ic' r, process_message (message tx) idx ic 0 = (po_units p, ic', r) ∧
    po_context p = Some (ic_context ic') ∧ po_fee p = fee ∧
    w' = w ++ [Before tx idx ic (enable_register_tracing s);
               After tx idx ic' (enable_register_tracing s)].
Proof.
  intros Hrent. unfold inspected_run_message, create_transaction_context. simpl. rewrite Hrent.
  simpl. fold (start_context s (message tx) rent budget lc all).
  destruct (process_message _ _ _ _) as [[u ic'] r] eqn:Hpm. intros [= <- <-].
  exists ic', r. by rewrite <-app_assoc.
Qed.

Lemma process_transaction_calls s tx cfg lc w w' p :
  inspected_process_transaction (mkInspected s recorder) tx cfg lc w = Ret (w', p) →
  calls_made s tx lc (processed_result tx p) w w'.
Proof.
  unfold inspected_process_transaction. simpl.
  destruct (cache_get_rent (sysvar_cache (accounts s))) as [rent|] eqn:Hrent; simpl; [|done].
  destruct (increase_calculated_data_size _ _) as [d [|e]]; [|by intros [= <- <-]].
  destruct (load_accounts _ _ _ _ _ _ _) as [[st [accs|e]]|] eqn:Hload; simpl;
    [|by intros [= <- <-]|done].
  destruct (load_accounts_Ok _ _ _ _ _ _ _ _ _ Hload) as (_ & pay & Hl & Hpay).
  unfold inspected_process_loaded. simpl.
  destruct (validated_fee_payer st) eqn:Hv; simpl; [|by intros [= <- <-]].
  destruct pay as [payer|]; [|simpl in Hpay; destruct Hpay; congruence].
  destruct (program_indices_of _ _ _ _) as [[all [idx|e]]|] eqn:Hidx; simpl;
    [|by intros [= <- <-]|done].
  apply program_indices_of_prefix in Hidx.
  intros (ic' & r & Hpm & Hc & Hfee & ->)%(run_message_calls _ _ _ rent); [|done].
  unfold calls_made, processed_result. rewrite Hc. simpl. rewrite Hfee.
  by exists rent, (transaction_budget s cfg), accs, payer, all, idx, ic', r.
Qed.

Lemma execute_readonly_calls s tx lc w w' er lc' :
  inspected_execute_readonly (mkInspected s recorder) (sigverify s) tx lc w
  = Ret (w', (er, lc')) →
  match sanitize s tx with
  | Ret (Ok stx) => calls_made s stx lc er w w'
  | _ => included er = false ∧ w' = w
  end.
Proof.
  unfold inspected_execute_readonly, sanitize, sanitize_transaction,
    sanitize_transaction_no_verify. simpl. intros Hrun.
  destruct (if sigverify s then sanitize_transaction_inner s tx
            else sanitize_transaction_no_verify_inner s tx) as [[stx|e]|] eqn:Hs;
    destruct (sigverify s); rewrite Hs in Hrun; simpl in Hrun; try done;
    try (by injection Hrun as <- <- _).
  all: unfold inspected_execute_sanitized_readonly, inspected_check_and_process in Hrun;
    simpl in Hrun; destruct (check_transaction_before s stx) as [cfg|e] eqn:Hc; simpl in Hrun;
    [|injection Hrun as <- <- _; by apply check_before_Err in Hc as [e' ->]].
  all: destruct (inspected_process_transaction _ _ _ _ _) as [[w1 p]|] eqn:Hp;
    simpl in Hrun; [|done]; injection Hrun as <- <- _; by eapply process_transaction_calls.
Qed.

(** Sending calls the callback as simulating does. *)
Lemma execute_same_world {W} (si : InspectedSVM W) verify tx lc w w' x :
  inspected_execute si verify tx lc w = Ret (w', x) →
  ∃ y, inspected_execute_readonly si verify tx lc w = Ret (w', y).
Proof.
  unfold inspected_execute, inspected_execute_readonly, inspected_execute_sanitized,
    inspected_execute_sanitized_readonly.
  destruct (if verify then _ else _) as [[stx|e]|]; simpl; [|by intros [= <- _]; eexists|done].
  destruct (inspected_check_and_process _ _ _ _) as [[w1 [p|e]]|]; simpl;
    [|by intros [= <- _]; eexists|done].
  destruct (charge_failed _ _ _) as [r|]; simpl; [|done]. intros [= <- _]. by eexists.
Qed.

Lemma executes_calls s tx w er lc :
  executes s tx = Ret (er, lc) →
  ∃ w', inspected_execute_readonly (mkInspected s recorder) (sigverify s) tx
          (log_collector_new (log_bytes_limit s)) w = Ret (w', (er, lc)) ∧
    match sanitize s tx with
    | Ret (Ok stx) => calls_made s stx (log_collector_new (log_bytes_limit s)) er w w'
    | _ => included er = false ∧ w' = w
    end.
Proof.
  intros Hex. pose proof (execute_readonly_agrees recorder recorder_transparent s tx
    (log_collector_new (log_bytes_limit s)) w) as Ha.
  unfold executes in Hex. rewrite Hex in Ha. destruct Ha as [w' Hw']. exists w'.
  split; [done|]. by eapply execute_readonly_calls.
Qed.
End recording.

(** ** Properties *)

Section properties.
Context `{Host} {W : Type}.

(** C19.  Inspection is transparent: with a callback that returns and does not
    change the invoke context (the empty one, or register tracing without a debug
    port), sending and simulating give the results, errors, panics and resulting
    instances of the build without callbacks; only the callback's own world
    changes. *)
Theorem inspection_transparent (cb : InvocationInspectCallback W) s tx w
  (Hcb : transparent cb) :
  agrees (x ← send_transaction s tx; Ret (mkInspected x.1 cb, x.2))
    (inspected_send_transaction (mkInspected s cb) tx w) ∧
  agrees (simulate_transaction s tx)
    (inspected_simulate_transaction (mkInspected s cb) tx w).
Proof.
  split.
  - unfold send_transaction, inspected_send_transaction. simpl.
    pose proof (execute_agrees cb Hcb s tx (log_collector_new (log_bytes_limit s)) w) as He.
    unfold agrees in *.
    destruct (if sigverify s then _ else _) as [[[s1 r] lc]|]; simpl; [|by rewrite He].
    destruct He as [w1 ->]. simpl.
    destruct (commit_result s1 r (meta_of r lc)) as [[s2 res]|]; [by exists w1|done].
  - eapply agrees_bind; [by apply execute_readonly_agrees|]. intros [r lc] w'. auto with svm.
Qed.
End properties.

(** C20.  The callback is called for the transactions that reach the runtime, and
    for no other: once with the context in which the instructions start, over the
    accounts as they were loaded, and once with the context in which that run of the
    instructions ended, whether they succeeded, whose units and accounts the result
    reports; both times with the transaction, its program indices and the tracing
    flag.  Sending and simulating call it alike. *)
Theorem inspection_calls `{Host} s tx w er lc (Hex : executes s tx = Ret (er, lc)) :
  ∃ w', (∃ r, inspected_simulate_transaction (mkInspected s recorder) tx w = Ret (w', r)) ∧
    (∀ w1 x, inspected_send_transaction (mkInspected s recorder) tx w = Ret (w1, x) → w1 = w') ∧
    match sanitize s tx with
    | Ret (Ok stx) => calls_made s stx (log_collector_new (log_bytes_limit s)) er w w'
    | _ => included er = false ∧ w' = w
    end.
Proof.
  destruct (executes_calls s tx w er lc Hex) as (w' & Hrun & Hcalls). exists w'.
  split_and!; [|intros w1 x Hsend|done].
  - unfold inspected_simulate_transaction. simpl. rewrite Hrun. simpl. by eexists.
  - unfold inspected_send_transaction in Hsend. simpl in Hsend.
    destruct (inspected_execute _ _ _ _ _) as [[w2 [[s2 r2] lc2]]|] eqn:He; simpl in Hsend; [|done].
    destruct (commit_result _ _ _) as [[]|]; simpl in Hsend; [|done]. injection Hsend as <- _.
    apply execute_same_world in He as [y Hy]. rewrite Hrun in Hy. by injection Hy as <-.
Qed.
