(* ===== verification/TxBuild.v ===== *)
(** * Building transactions

    The part of the Solana SDK with which the helper crates build transactions
    (key pairs, instructions, signing), as an interface, and sending a built
    transaction. *)

From S2P Require Import Prelude Errors ComputeBudget Runtime RentState Utils Types History.
From S2P Require Import EpochStake AccountsDb Vm InnerInstructions Features Svm Process Exec.

Class TxBuilder `{Host} : Type := {
  Keypair : Type;
  pubkey : Keypair → address;
  Instruction : Type;
  Transaction : Type;
  (** [Transaction::new_with_payer(&ixs, Some(&payer))] *)
  tx_new_with_payer : list Instruction → address → Transaction;
  (** [tx.partial_sign(&keypairs, blockhash)]; it panics when signing fails. *)
  tx_partial_sign : Transaction → list Keypair → hash → outcome Transaction;
  (** [Transaction::new_signed_with_payer(&ixs, Some(&payer), &keypairs, blockhash)];
      it panics when signing fails. *)
  tx_new_signed_with_payer : list Instruction → address → list Keypair → hash → outcome Transaction;
  (** [VersionedTransaction::from] *)
  tx_into_versioned : Transaction → VersionedTransaction;
  (** The first account key of the message, which pays the fee. *)
  tx_fee_payer : Transaction → option address;
  (** The keys an instruction marks as signers. *)
  ix_signers : Instruction → list address;
  (** [solana_system_interface::instruction::create_account] *)
  system_create_account : address → address → N → N → address → Instruction }.

(** The payer a transaction is built with is the first key of its message, and
    signing leaves the message alone; a sanitized message does not invoke its payer;
    signing everything fails when a required signer has no key pair. *)
Class TxBuilderLaws `{TxBuilder} : Prop := {
  tx_new_with_payer_payer ixs payer :
    tx_fee_payer (tx_new_with_payer ixs payer) = Some payer;
  tx_partial_sign_payer tx kps h tx' :
    tx_partial_sign tx kps h = Ret tx' → tx_fee_payer tx' = tx_fee_payer tx;
  tx_new_signed_payer ixs payer kps h tx :
    tx_new_signed_with_payer ixs payer kps h = Ret tx → tx_fee_payer tx = Some payer;
  tx_versioned_payer tx loader reserved stx :
    try_create (tx_into_versioned tx) loader reserved = Ret (Ok stx) →
    head (account_keys (message stx)) = tx_fee_payer tx;
  tx_payer_not_invoked tx loader reserved stx :
    try_create (tx_into_versioned tx) loader reserved = Ret (Ok stx) →
    is_invoked (message stx) 0 = false;
  tx_new_signed_missing ixs payer kps h k :
    k ∈ payer :: mjoin (ix_signers <$> ixs) → k ∉ pubkey <$> kps →
    tx_new_signed_with_payer ixs payer kps h = Panic }.

Section build.
Context `{TxBuilder}.

(** [svm.send_transaction(tx)?; Ok(())] *)
Definition send_tx (s : LiteSVM) (tx : Transaction)
    : outcome (LiteSVM * result FailedTransactionMetadata ()) :=
  r ← send_transaction s (tx_into_versioned tx);
  Ret (r.1, map_ok (λ _, ()) r.2).

(** A transaction signed in full with the latest blockhash, then sent. *)
Definition send_signed (s : LiteSVM) (ixs : list Instruction) (payer : address)
    (kps : list Keypair) : outcome (LiteSVM * result FailedTransactionMetadata ()) :=
  tx ← tx_new_signed_with_payer ixs payer kps (latest_blockhash s);
  send_tx s tx.

(** Transactions sent one after another, up to the first that fails. *)
Fixpoint send_all (s : LiteSVM) (payer : address) (txs : list (list Instruction * list Keypair))
    : outcome (LiteSVM * result FailedTransactionMetadata ()) :=
  match txs with
  | [] => Ret (s, Ok ())
  | (ixs, kps) :: txs =>
      r ← send_signed s ixs payer kps;
      match r with
      | (s, Err e) => Ret (s, Err e)
      | (s, Ok _) => send_all s payer txs
      end
  end.
End build.
