(* ===== verification/Loader.v ===== *)
(** * Deploying programs (crates/loader/src/lib.rs)

    The helpers that deploy a program through the upgradeable loader: a buffer
    account written in chunks, the deployment from it, and the change of upgrade
    authority. *)

From S2P Require Import Prelude Errors ComputeBudget Runtime RentState Utils Types History.
From S2P Require Import EpochStake AccountsDb Vm InnerInstructions Features Svm Process Exec TxBuild.

(** [solana_loader_v3_interface]: instructions and account sizes. *)
Class LoaderApi `{TxBuilder} : Type := {
  ix_set_upgrade_authority : address → address → option address → Instruction;
  ix_create_buffer :
    address → address → address → N → N → option (list Instruction);
  ix_write : address → address → N → bytes → Instruction;
  ix_deploy_with_max_program_len :
    address → address → address → address → N → N → bool → option (list Instruction);
  size_of_buffer : N → N }.

Definition CHUNK_SIZE : N := 512.

(** [slice.chunks(n)] *)
Fixpoint chunks_from (fuel : nat) (n : nat) (l : bytes) : list bytes :=
  match fuel, l with
  | S fuel, _ :: _ => take n l :: chunks_from fuel n (drop n l)
  | _, _ => []
  end.

Definition chunks (n : nat) (l : bytes) : list bytes := chunks_from (length l) n l.

Section loader.
Context `{LoaderApi}.

Definition set_upgrade_authority (s : LiteSVM) (from_keypair : Keypair)
    (program_address : address) (current_authority_keypair : Keypair)
    (new_authority_address : option address)
    : outcome (LiteSVM * result FailedTransactionMetadata ()) :=
  send_signed s
    [ix_set_upgrade_authority program_address (pubkey current_authority_keypair)
       new_authority_address]
    (pubkey from_keypair) [from_keypair].

(** The loop over the chunks; the offset is a [u32]. *)
Fixpoint write_chunks (s : LiteSVM) (payer_kp : Keypair) (buffer_pk : address) (offset : N)
    (l : list bytes) : outcome (LiteSVM * result FailedTransactionMetadata ()) :=
  match l with
  | [] => Ret (s, Ok ())
  | chunk :: l =>
      r ← send_signed s [ix_write buffer_pk (pubkey payer_kp) offset chunk] (pubkey payer_kp)
            [payer_kp];
      match r with
      | (s, Err e) => Ret (s, Err e)
      | (s, Ok _) =>
          offset ← unwrap (checked_add u32_max offset CHUNK_SIZE);
          write_chunks s payer_kp buffer_pk offset l
      end
  end.

(** [buffer_kp] is the fresh key pair of [Keypair::new()]. *)
Definition load_upgradeable_buffer (s : LiteSVM) (payer_kp buffer_kp : Keypair)
    (program_bytes : bytes) : outcome (LiteSVM * result FailedTransactionMetadata address) :=
  let payer_pk := pubkey payer_kp in
  let buffer_pk := pubkey buffer_kp in
  let buffer_len := size_of_buffer (len program_bytes) in
  let lamports := minimum_balance_for_rent_exemption s buffer_len in
  ixs ← unwrap (ix_create_buffer payer_pk buffer_pk payer_pk lamports (len program_bytes));
  r ← send_signed s ixs payer_pk [payer_kp; buffer_kp];
  match r with
  | (s, Err e) => Ret (s, Err e)
  | (s, Ok _) =>
      r ← write_chunks s payer_kp buffer_pk 0 (chunks (N.to_nat CHUNK_SIZE) program_bytes);
      Ret (r.1, map_ok (λ _, buffer_pk) r.2)
  end.

Definition deploy_upgradeable_program (s : LiteSVM) (payer_kp program_kp buffer_kp : Keypair)
    (program_bytes : bytes) : outcome (LiteSVM * result FailedTransactionMetadata ()) :=
  let program_pk := pubkey program_kp in
  let payer_pk := pubkey payer_kp in
  r ← load_upgradeable_buffer s payer_kp buffer_kp program_bytes;
  match r with
  | (s, Err e) => Ret (s, Err e)
  | (s, Ok buffer_pk) =>
      let lamports := minimum_balance_for_rent_exemption s (len program_bytes) in
      ixs ← unwrap (ix_deploy_with_max_program_len payer_pk program_pk buffer_pk payer_pk lamports
                      (len program_bytes * 2) true);
      send_signed s ixs payer_pk [payer_kp; program_kp]
  end.
End loader.

(** The current authority signs the change of authority. *)
Class LoaderLaws `{LoaderApi} : Prop := {
  set_upgrade_authority_signer p a n : a ∈ ix_signers (ix_set_upgrade_authority p a n) }.

(** ** What a sequence of writes leaves in a buffer *)

Definition write_at (buf : bytes) (offset : N) (chunk : bytes) : bytes :=
  take (N.to_nat offset) buf ++ chunk ++ drop (N.to_nat offset + length chunk) buf.

Definition apply_writes (buf : bytes) (ws : list (N * bytes)) : bytes :=
  foldl (λ buf w, write_at buf w.1 w.2) buf ws.

(** The writes of a program: chunk [i] at offset [512 * i]. *)
Fixpoint writes_from (offset : N) (l : list bytes) : list (N * bytes) :=
  match l with
  | [] => []
  | chunk :: l => (offset, chunk) :: writes_from (offset + CHUNK_SIZE) l
  end.

Definition buffer_writes (program_bytes : bytes) : list (N * bytes) :=
  writes_from 0 (chunks (N.to_nat CHUNK_SIZE) program_bytes).

(** ** Lemmas *)

Lemma chunks_sizes fuel n l : (0 < n)%nat →
  Forall (λ c, (0 < length c ≤ n)%nat) (chunks_from fuel n l).
Proof.
  intros Hn. revert l. induction fuel as [|fuel IH]; intros [|x l]; simpl; try done.
  constructor; [|apply IH]. rewrite length_take. simpl. lia.
Qed.

Lemma chunks_length fuel n l : (0 < n)%nat → (length (chunks_from fuel n l) * n < length l + n)%nat.
Proof.
  intros Hn. revert l. induction fuel as [|fuel IH]; intros [|x l]; cbn [chunks_from length]; try lia.
  specialize (IH (drop n (x :: l))). rewrite length_drop in IH. cbn [length] in IH.
  destruct (decide (n ≤ S (length l))); [lia|].
  rewrite drop_ge by (simpl; lia). destruct fuel; simpl; lia.
Qed.

(** Writing the chunks of [l] behind [done] completes [done ++ l]. *)
Lemma apply_chunks n l : (0 < n)%nat → N.to_nat CHUNK_SIZE = n → ∀ fuel done,
  (length l ≤ fuel)%nat →
  apply_writes (done ++ zeros (length l)) (writes_from (len done) (chunks_from fuel n l)) = done ++ l.
Proof.
  intros Hn Hc. remember (length l) as m eqn:Hm. revert l Hm.
  induction m as [m IH] using (well_founded_induction lt_wf). intros l Hm fuel done Hf.
  destruct l as [|x l]; [subst m; by destruct fuel|].
  destruct fuel as [|fuel]; [simpl in Hm; lia|]. cbn [chunks_from writes_from apply_writes foldl fst snd].
  fold (apply_writes (write_at (done ++ zeros m) (len done) (take n (x :: l)))).
  set (c := take n (x :: l)). set (r := drop n (x :: l)).
  assert (c ++ r = x :: l) as Hcr by apply take_drop.
  assert (length c + length r = m)%nat as Hlen by (rewrite Hm, <-Hcr, length_app; lia).
  assert (write_at (done ++ zeros m) (len done) c = (done ++ c) ++ zeros (length r)) as ->.
  { unfold write_at, len. rewrite Nat2N.id, take_app_length. rewrite <-app_assoc. do 2 f_equal.
    rewrite drop_app_ge by lia. unfold zeros. rewrite drop_replicate. f_equal. lia. }
  destruct (decide (r = [])) as [Hr|Hr].
  - rewrite Hr in *. simpl in Hlen. rewrite app_nil_r in Hcr. rewrite Hcr.
    destruct fuel; simpl; by rewrite app_nil_r.
  - assert (length c = n) as Hcn.
    { unfold c. rewrite length_take. unfold r in Hr. destruct (decide (n ≤ length (x :: l))); [lia|].
      rewrite drop_ge in Hr by lia. done. }
    replace (len done + CHUNK_SIZE)%N with (len (done ++ c))
      by (unfold len; rewrite length_app; lia).
    assert (0 < length r)%nat by (destruct r; [done|simpl; lia]).
    rewrite (IH (length r)) by lia. by rewrite <-app_assoc, Hcr.
Qed.

Section properties.
Context `{LoaderApi}.

Definition write_tx (payer_kp : Keypair) (buffer_pk : address) (w : N * bytes)
    : list Instruction * list Keypair :=
  ([ix_write buffer_pk (pubkey payer_kp) w.1 w.2], [payer_kp]).

Lemma write_chunks_send_all payer_kp buffer_pk l : ∀ s offset,
  (offset + CHUNK_SIZE * len l ≤ u32_max)%N →
  write_chunks s payer_kp buffer_pk offset l
  = send_all s (pubkey payer_kp) (write_tx payer_kp buffer_pk <$> writes_from offset l).
Proof.
  induction l as [|c l IH]; intros s offset Hoff; [done|].
  cbn [write_chunks writes_from fmap list_fmap send_all write_tx].
  cbn [fst snd]. destruct (send_signed _ _ _ _) as [[s1 [[]|e]]|]; simpl; [|done..].
  assert (len (c :: l) = 1 + len l)%N as Hlen by (unfold len; simpl length; lia).
  rewrite Hlen in Hoff. unfold checked_add. destruct (N.leb_spec (offset + CHUNK_SIZE) u32_max); [|lia].
  simpl. apply IH. lia.
Qed.

(** C28.  Loading a program into a buffer sends the creation of the buffer and then
    its writes in order, up to the first failure; the writes, each of at most 512
    bytes, fill a zeroed buffer of the program's length with exactly the program. *)
Theorem upload_covers_program s payer_kp buffer_kp program_bytes ixs
  (Hixs : ix_create_buffer (pubkey payer_kp) (pubkey buffer_kp) (pubkey payer_kp)
            (minimum_balance_for_rent_exemption s (size_of_buffer (len program_bytes)))
            (len program_bytes) = Some ixs)
  (Hlen : (len program_bytes + CHUNK_SIZE ≤ u32_max)%N) :
  load_upgradeable_buffer s payer_kp buffer_kp program_bytes
  = (r ← send_all s (pubkey payer_kp)
           ((ixs, [payer_kp; buffer_kp])
            :: (write_tx payer_kp (pubkey buffer_kp) <$> buffer_writes program_bytes));
     Ret (r.1, map_ok (λ _, pubkey buffer_kp) r.2)) ∧
  apply_writes (zeros (length program_bytes)) (buffer_writes program_bytes) = program_bytes ∧
  Forall (λ w, 0 < length w.2 ≤ 512)%nat (buffer_writes program_bytes).
Proof.
  split_and!.
  - unfold load_upgradeable_buffer. rewrite Hixs. cbn [unwrap mbind outcome_bind send_all].
    destruct (send_signed _ _ _ _) as [[s1 [[]|e]]|]; simpl; [|done..].
    rewrite write_chunks_send_all; [done|].
    pose proof (chunks_length (length program_bytes) (N.to_nat CHUNK_SIZE) program_bytes) as Hc.
    unfold chunks, len in *. unfold CHUNK_SIZE in *. lia.
  - apply (apply_chunks (N.to_nat CHUNK_SIZE) program_bytes) with (done := []); [|done..].
    unfold CHUNK_SIZE. lia.
  - unfold buffer_writes, chunks.
    pose proof (chunks_sizes (length program_bytes) (N.to_nat CHUNK_SIZE) program_bytes) as Hs.
    forward Hs; [unfold CHUNK_SIZE; lia|]. change (N.to_nat CHUNK_SIZE) with 512 in *. revert Hs.
    generalize (chunks_from (length program_bytes) 512 program_bytes) as l.
    generalize 0%N as o. intros o l Hl. revert o.
    induction Hl as [|c l Hc _ IH]; intros o; simpl; constructor; auto.
Qed.

(** Changing the upgrade authority of a program whose authority is not the
    payer panics: the transaction is signed by the payer only, although the key
    pair of the authority is an argument. *)
Theorem set_upgrade_authority_unsigned `{!TxBuilderLaws} `{!LoaderLaws} s from_keypair
  program_address current_authority_keypair new_authority
  (Hne : pubkey current_authority_keypair ≠ pubkey from_keypair) :
  set_upgrade_authority s from_keypair program_address current_authority_keypair new_authority
  = Panic.
Proof.
  unfold set_upgrade_authority, send_signed.
  rewrite (tx_new_signed_missing _ _ _ _ (pubkey current_authority_keypair)); [done| |].
  - right. simpl. rewrite app_nil_r. apply set_upgrade_authority_signer.
  - simpl. rewrite list_elem_of_singleton. done.
Qed.
End properties.
