(* ===== verification/Token.v ===== *)
(** * Token helpers (crates/token/src)

    The builders that send one SPL token transaction each, in the build without
    the token-2022 feature (Token2022.v has what differs in the other one).  The
    builders with an authority share their payer, program, owner and signers, so
    these are one record with one set of setters; what each of them adds is a record
    of its own. *)

From S2P Require Import Prelude Errors ComputeBudget Runtime RentState Utils Types History.
From S2P Require Import EpochStake AccountsDb Vm InnerInstructions Features Svm Process Exec.
From S2P Require Import ExecLemmas ExecProps TxBuild.

(** ** The token interface crates *)

(** [spl_token_interface::state::Mint] *)
Record Mint : Type := {
  mint_authority : option address;
  mint_supply : N;
  mint_decimals : N;
  mint_is_initialized : bool;
  mint_freeze_authority : option address }.

(** Instruction constructors fail with the [u64] code of a [ProgramError]. *)
Class TokenApi `{TxBuilder} : Type := {
  TOKEN_ID : address;
  ACCOUNT_LEN : N;
  MINT_LEN : N;
  MULTISIG_LEN : N;
  NATIVE_MINT_DECIMALS : N;
  native_mint_id : address;
  mint_unpack : bytes → result N Mint;
  (** [Mint::pack] into zeroed data of the given length. *)
  mint_pack : Mint → N → option bytes;
  AuthorityType : Type;
  (** wallet, mint, token program *)
  get_associated_token_address_with_program_id : address → address → address → address;
  ix_approve : address → address → address → address → list address → N → result N Instruction;
  ix_approve_checked :
    address → address → address → address → address → list address → N → N → result N Instruction;
  ix_burn : address → address → address → address → list address → N → result N Instruction;
  ix_burn_checked :
    address → address → address → address → list address → N → N → result N Instruction;
  ix_close_account : address → address → address → address → list address → result N Instruction;
  ix_freeze_account : address → address → address → address → list address → result N Instruction;
  ix_thaw_account : address → address → address → address → list address → result N Instruction;
  ix_mint_to : address → address → address → address → list address → N → result N Instruction;
  ix_mint_to_checked :
    address → address → address → address → list address → N → N → result N Instruction;
  ix_revoke : address → address → address → list address → result N Instruction;
  ix_set_authority :
    address → address → option address → AuthorityType → address → list address →
    result N Instruction;
  ix_transfer : address → address → address → address → list address → N → result N Instruction;
  ix_transfer_checked :
    address → address → address → address → address → list address → N → N → result N Instruction;
  ix_sync_native : address → address → result N Instruction;
  ix_initialize_account3 : address → address → address → address → result N Instruction;
  ix_initialize_mint2 :
    address → address → address → option address → N → result N Instruction;
  ix_initialize_multisig2 : address → address → list address → N → result N Instruction;
  ix_create_associated_token_account : address → address → address → address → Instruction;
  ix_create_associated_token_account_idempotent :
    address → address → address → address → Instruction }.

Section token.
Context `{TokenApi}.

(** [?] on a [ProgramError]. *)
Definition program_error {A} (r : result N A) : result FailedTransactionMetadata A :=
  map_err failed_from_program_error r.

Definition account_not_found : FailedTransactionMetadata :=
  {| failed_err := TE_AccountNotFound; failed_meta := default_metadata |}.

(** Slicing the data panics when it is shorter than the packed length. *)
Definition get_spl_account {T} (T_LEN : N) (unpack : bytes → result N T) (s : LiteSVM)
    (k : address) : outcome (result FailedTransactionMetadata T) :=
  match svm_get_account s k with
  | None => Ret (Err account_not_found)
  | Some acc =>
      if (T_LEN <=? len (data acc))%N
      then Ret (program_error (unpack (take (N.to_nat T_LEN) (data acc))))
      else Panic
  end.

Definition get_multisig_signers (authority : address) (signing_pubkeys : list address)
    : list address :=
  if decide (signing_pubkeys = [authority]) then [] else signing_pubkeys.

(** ** Builders with an authority *)

Record Base : Type := {
  base_svm : LiteSVM;
  base_payer : Keypair;
  base_token_program_id : option address;
  base_owner : option address;
  base_signers : list Keypair }.

Record Builder (F : Type) : Type := mkBuilder { base : Base; fields : F }.
#[global] Arguments mkBuilder {F} base fields.
#[global] Arguments base {F} b : rename.
#[global] Arguments fields {F} b : rename.

Definition base_new (s : LiteSVM) (kp : Keypair) : Base :=
  {| base_svm := s; base_payer := kp; base_token_program_id := None; base_owner := None;
     base_signers := [kp] |}.

Definition builder_token_program_id {F} (b : Builder F) (program_id : address) : Builder F :=
  mkBuilder {| base_svm := base_svm (base b); base_payer := base_payer (base b);
               base_token_program_id := Some program_id; base_owner := base_owner (base b);
               base_signers := base_signers (base b) |} (fields b).

Definition builder_owner {F} (b : Builder F) (kp : Keypair) : Builder F :=
  mkBuilder {| base_svm := base_svm (base b); base_payer := base_payer (base b);
               base_token_program_id := base_token_program_id (base b); base_owner := Some (pubkey kp);
               base_signers := [kp] |} (fields b).

Definition builder_multisig {F} (b : Builder F) (multisig : address) (kps : list Keypair)
    : Builder F :=
  mkBuilder {| base_svm := base_svm (base b); base_payer := base_payer (base b);
               base_token_program_id := base_token_program_id (base b); base_owner := Some multisig;
               base_signers := kps |} (fields b).

Definition base_program (b : Base) : address := default TOKEN_ID (base_token_program_id b).
Definition base_authority (b : Base) : address := default (pubkey (base_payer b)) (base_owner b).
Definition base_signer_keys (b : Base) : list address :=
  get_multisig_signers (base_authority b) (pubkey <$> base_signers b).

(** The tail of every [send]: the instruction, signed by the payer and then by the
    signers, and sent. *)
Definition send_authorised (b : Base) (ix : result FailedTransactionMetadata Instruction)
    : outcome (LiteSVM * result FailedTransactionMetadata ()) :=
  match ix with
  | Err f => Ret (base_svm b, Err f)
  | Ok ix =>
      let block_hash := latest_blockhash (base_svm b) in
      let tx := tx_new_with_payer [ix] (pubkey (base_payer b)) in
      tx ← tx_partial_sign tx [base_payer b] block_hash;
      tx ← tx_partial_sign tx (base_signers b) block_hash;
      send_tx (base_svm b) tx
  end.

(** The [decimals] of a checked instruction: the mint is read in any case. *)
Definition checked_decimals (b : Base) (mint : address) (d : option N)
    (ix : N → result N Instruction) : outcome (LiteSVM * result FailedTransactionMetadata ()) :=
  m ← get_spl_account MINT_LEN mint_unpack (base_svm b) mint;
  send_authorised b (m ← m; program_error (ix (default (mint_decimals m) d))).

(** The associated token account of the authority, unless another one was given. *)
Definition or_associated (b : Base) (k : option address) (mint : address) : address :=
  match k with
  | Some k => k
  | None => get_associated_token_address_with_program_id (base_authority b) mint (base_program b)
  end.

Record Approve : Type := {
  ap_delegate : address;
  ap_source : address;
  ap_amount : N }.

Definition approve_new (s : LiteSVM) (kp : Keypair) (delegate : address) (source : address)
    (amount : N)
    : Builder Approve :=
  mkBuilder (base_new s kp)
    {| ap_delegate := delegate; ap_source := source; ap_amount := amount |}.

Definition approve_send (builder : Builder Approve)
    : outcome (LiteSVM * result FailedTransactionMetadata ()) :=
  let b := base builder in
  let f := fields builder in
  send_authorised b (program_error
    (ix_approve (base_program b) (ap_source f) (ap_delegate f) (base_authority b)
       (base_signer_keys b) (ap_amount f))).

Record ApproveChecked : Type := {
  ac_delegate : address;
  ac_mint : address;
  ac_source : option address;
  ac_amount : N;
  ac_decimals : option N }.

Definition approve_checked_new (s : LiteSVM) (kp : Keypair) (delegate : address) (mint : address)
    (amount : N)
    : Builder ApproveChecked :=
  mkBuilder (base_new s kp)
    {| ac_delegate := delegate; ac_mint := mint; ac_source := None; ac_amount := amount;
       ac_decimals := None |}.

Definition approve_checked_source (b : Builder ApproveChecked) (x : address)
    : Builder ApproveChecked :=
  mkBuilder (base b)
    {| ac_delegate := ac_delegate (fields b); ac_mint := ac_mint (fields b); ac_source := Some x;
       ac_amount := ac_amount (fields b); ac_decimals := ac_decimals (fields b) |}.

Definition approve_checked_send (builder : Builder ApproveChecked)
    : outcome (LiteSVM * result FailedTransactionMetadata ()) :=
  let b := base builder in
  let f := fields builder in
  checked_decimals b (ac_mint f) (ac_decimals f)
    (ix_approve_checked (base_program b) (or_associated b (ac_source f) (ac_mint f)) (ac_mint f)
       (ac_delegate f) (base_authority b) (base_signer_keys b) (ac_amount f)).

Record Burn : Type := {
  bu_mint : address;
  bu_account : address;
  bu_amount : N }.

Definition burn_new (s : LiteSVM) (kp : Keypair) (mint : address) (account : address) (amount : N)
    : Builder Burn :=
  mkBuilder (base_new s kp)
    {| bu_mint := mint; bu_account := account; bu_amount := amount |}.

Definition burn_send (builder : Builder Burn)
    : outcome (LiteSVM * result FailedTransactionMetadata ()) :=
  let b := base builder in
  let f := fields builder in
  send_authorised b (program_error
    (ix_burn (base_program b) (bu_account f) (bu_mint f) (base_authority b) (base_signer_keys b)
       (bu_amount f))).

Record BurnChecked : Type := {
  bc_mint : address;
  bc_account : address;
  bc_amount : N;
  bc_decimals : option N }.

Definition burn_checked_new (s : LiteSVM) (kp : Keypair) (mint : address) (account : address)
    (amount : N)
    : Builder BurnChecked :=
  mkBuilder (base_new s kp)
    {| bc_mint := mint; bc_account := account; bc_amount := amount; bc_decimals := None |}.

Definition burn_checked_decimals (b : Builder BurnChecked) (x : N)
    : Builder BurnChecked :=
  mkBuilder (base b)
    {| bc_mint := bc_mint (fields b); bc_account := bc_account (fields b);
       bc_amount := bc_amount (fields b); bc_decimals := Some x |}.

Definition burn_checked_send (builder : Builder BurnChecked)
    : outcome (LiteSVM * result FailedTransactionMetadata ()) :=
  let b := base builder in
  let f := fields builder in
  checked_decimals b (bc_mint f) (bc_decimals f)
    (ix_burn_checked (base_program b) (bc_account f) (bc_mint f) (base_authority b)
       (base_signer_keys b) (bc_amount f)).

Record CloseAccount : Type := {
  cl_account : address;
  cl_destination : address }.

Definition close_account_new (s : LiteSVM) (kp : Keypair) (account : address) (destination
    : address)
    : Builder CloseAccount :=
  mkBuilder (base_new s kp)
    {| cl_account := account; cl_destination := destination |}.

Definition close_account_send (builder : Builder CloseAccount)
    : outcome (LiteSVM * result FailedTransactionMetadata ()) :=
  let b := base builder in
  let f := fields builder in
  send_authorised b (program_error
    (ix_close_account (base_program b) (cl_account f) (cl_destination f) (base_authority b)
       (base_signer_keys b))).

Record FreezeAccount : Type := {
  fz_mint : address;
  fz_account : option address }.

Definition freeze_account_new (s : LiteSVM) (kp : Keypair) (mint : address)
    : Builder FreezeAccount :=
  mkBuilder (base_new s kp)
    {| fz_mint := mint; fz_account := None |}.

Definition freeze_account_send (builder : Builder FreezeAccount)
    : outcome (LiteSVM * result FailedTransactionMetadata ()) :=
  let b := base builder in
  let f := fields builder in
  send_authorised b (program_error
    (ix_freeze_account (base_program b) (or_associated b (fz_account f) (fz_mint f)) (fz_mint f)
       (base_authority b) (base_signer_keys b))).

Record ThawAccount : Type := {
  th_mint : address;
  th_account : option address }.

Definition thaw_account_new (s : LiteSVM) (kp : Keypair) (mint : address)
    : Builder ThawAccount :=
  mkBuilder (base_new s kp)
    {| th_mint := mint; th_account := None |}.

Definition thaw_account_send (builder : Builder ThawAccount)
    : outcome (LiteSVM * result FailedTransactionMetadata ()) :=
  let b := base builder in
  let f := fields builder in
  send_authorised b (program_error
    (ix_thaw_account (base_program b) (or_associated b (th_account f) (th_mint f)) (th_mint f)
       (base_authority b) (base_signer_keys b))).

Record MintTo : Type := {
  mt_mint : address;
  mt_destination : address;
  mt_amount : N }.

Definition mint_to_new (s : LiteSVM) (kp : Keypair) (mint : address) (destination : address)
    (amount : N)
    : Builder MintTo :=
  mkBuilder (base_new s kp)
    {| mt_mint := mint; mt_destination := destination; mt_amount := amount |}.

Definition mint_to_send (builder : Builder MintTo)
    : outcome (LiteSVM * result FailedTransactionMetadata ()) :=
  let b := base builder in
  let f := fields builder in
  send_authorised b (program_error
    (ix_mint_to (base_program b) (mt_mint f) (mt_destination f) (base_authority b)
       (base_signer_keys b) (mt_amount f))).

Record MintToChecked : Type := {
  mc_mint : address;
  mc_destination : address;
  mc_amount : N;
  mc_decimals : option N }.

Definition mint_to_checked_new (s : LiteSVM) (kp : Keypair) (mint : address) (destination
    : address) (amount : N)
    : Builder MintToChecked :=
  mkBuilder (base_new s kp)
    {| mc_mint := mint; mc_destination := destination; mc_amount := amount; mc_decimals := None |}.

Definition mint_to_checked_decimals (b : Builder MintToChecked) (x : N)
    : Builder MintToChecked :=
  mkBuilder (base b)
    {| mc_mint := mc_mint (fields b); mc_destination := mc_destination (fields b);
       mc_amount := mc_amount (fields b); mc_decimals := Some x |}.

Definition mint_to_checked_send (builder : Builder MintToChecked)
    : outcome (LiteSVM * result FailedTransactionMetadata ()) :=
  let b := base builder in
  let f := fields builder in
  checked_decimals b (mc_mint f) (mc_decimals f)
    (ix_mint_to_checked (base_program b) (mc_mint f) (mc_destination f) (base_authority b)
       (base_signer_keys b) (mc_amount f)).

Record Revoke : Type := {
  rv_source : address }.

Definition revoke_new (s : LiteSVM) (kp : Keypair) (source : address)
    : Builder Revoke :=
  mkBuilder (base_new s kp)
    {| rv_source := source |}.

Definition revoke_send (builder : Builder Revoke)
    : outcome (LiteSVM * result FailedTransactionMetadata ()) :=
  let b := base builder in
  let f := fields builder in
  send_authorised b (program_error
    (ix_revoke (base_program b) (rv_source f) (base_authority b) (base_signer_keys b))).

Record SetAuthority : Type := {
  sa_account : address;
  sa_authority_type : AuthorityType;
  sa_new_authority : option address }.

Definition set_authority_new (s : LiteSVM) (kp : Keypair) (account : address) (authority_type
    : AuthorityType)
    : Builder SetAuthority :=
  mkBuilder (base_new s kp)
    {| sa_account := account; sa_authority_type := authority_type; sa_new_authority := None |}.

Definition set_authority_new_authority (b : Builder SetAuthority) (x : address)
    : Builder SetAuthority :=
  mkBuilder (base b)
    {| sa_account := sa_account (fields b); sa_authority_type := sa_authority_type (fields b);
       sa_new_authority := Some x |}.

Definition set_authority_send (builder : Builder SetAuthority)
    : outcome (LiteSVM * result FailedTransactionMetadata ()) :=
  let b := base builder in
  let f := fields builder in
  send_authorised b (program_error
    (ix_set_authority (base_program b) (sa_account f) (sa_new_authority f) (sa_authority_type f)
       (base_authority b) (base_signer_keys b))).

Record Transfer : Type := {
  tr_mint : address;
  tr_source : option address;
  tr_destination : address;
  tr_amount : N }.

Definition transfer_new (s : LiteSVM) (kp : Keypair) (mint : address) (destination : address)
    (amount : N)
    : Builder Transfer :=
  mkBuilder (base_new s kp)
    {| tr_mint := mint; tr_source := None; tr_destination := destination; tr_amount := amount |}.

Definition transfer_source (b : Builder Transfer) (x : address)
    : Builder Transfer :=
  mkBuilder (base b)
    {| tr_mint := tr_mint (fields b); tr_source := Some x;
       tr_destination := tr_destination (fields b); tr_amount := tr_amount (fields b) |}.

Definition transfer_send (builder : Builder Transfer)
    : outcome (LiteSVM * result FailedTransactionMetadata ()) :=
  let b := base builder in
  let f := fields builder in
  send_authorised b (program_error
    (ix_transfer (base_program b) (or_associated b (tr_source f) (tr_mint f)) (tr_destination f)
       (base_authority b) (base_signer_keys b) (tr_amount f))).

Record TransferChecked : Type := {
  tc_mint : address;
  tc_source : option address;
  tc_destination : address;
  tc_amount : N;
  tc_decimals : option N }.

Definition transfer_checked_new (s : LiteSVM) (kp : Keypair) (mint : address) (destination
    : address) (amount : N)
    : Builder TransferChecked :=
  mkBuilder (base_new s kp)
    {| tc_mint := mint; tc_source := None; tc_destination := destination; tc_amount := amount;
       tc_decimals := None |}.

Definition transfer_checked_source (b : Builder TransferChecked) (x : address)
    : Builder TransferChecked :=
  mkBuilder (base b)
    {| tc_mint := tc_mint (fields b); tc_source := Some x;
       tc_destination := tc_destination (fields b); tc_amount := tc_amount (fields b);
       tc_decimals := tc_decimals (fields b) |}.

Definition transfer_checked_decimals (b : Builder TransferChecked) (x : N)
    : Builder TransferChecked :=
  mkBuilder (base b)
    {| tc_mint := tc_mint (fields b); tc_source := tc_source (fields b);
       tc_destination := tc_destination (fields b); tc_amount := tc_amount (fields b);
       tc_decimals := Some x |}.

Definition transfer_checked_send (builder : Builder TransferChecked)
    : outcome (LiteSVM * result FailedTransactionMetadata ()) :=
  let b := base builder in
  let f := fields builder in
  checked_decimals b (tc_mint f) (tc_decimals f)
    (ix_transfer_checked (base_program b) (or_associated b (tc_source f) (tc_mint f)) (tc_mint f)
       (tc_destination f) (base_authority b) (base_signer_keys b) (tc_amount f)).

(** ** Builders without an authority *)

(** [unwrap_or(Keypair::new())]: [fresh] is the new key pair. *)
Record CreateAccount : Type := {
  ca_svm : LiteSVM;
  ca_payer : Keypair;
  ca_mint : address;
  ca_owner : option address;
  ca_account_kp : option Keypair;
  ca_token_program_id : option address }.

Definition create_account_new (s : LiteSVM) (kp : Keypair) (mint : address) : CreateAccount :=
  {| ca_svm := s; ca_payer := kp; ca_mint := mint; ca_owner := None; ca_account_kp := None;
     ca_token_program_id := None |}.

Definition create_account_owner (b : CreateAccount) (x : address) : CreateAccount :=
  {| ca_svm := ca_svm b; ca_payer := ca_payer b; ca_mint := ca_mint b; ca_owner := Some x;
     ca_account_kp := ca_account_kp b; ca_token_program_id := ca_token_program_id b |}.

Definition create_account_account_kp (b : CreateAccount) (x : Keypair) : CreateAccount :=
  {| ca_svm := ca_svm b; ca_payer := ca_payer b; ca_mint := ca_mint b; ca_owner := ca_owner b;
     ca_account_kp := Some x; ca_token_program_id := ca_token_program_id b |}.

Definition create_account_token_program_id (b : CreateAccount) (x : address) : CreateAccount :=
  {| ca_svm := ca_svm b; ca_payer := ca_payer b; ca_mint := ca_mint b; ca_owner := ca_owner b;
     ca_account_kp := ca_account_kp b; ca_token_program_id := Some x |}.

(** The body after the length of the account is known. *)
Definition create_account_of_len (b : CreateAccount) (fresh : Keypair) (account_len : N)
    : outcome (LiteSVM * result FailedTransactionMetadata address) :=
  let s := ca_svm b in
  let lamports := minimum_balance_for_rent_exemption s account_len in
  let account_kp := default fresh (ca_account_kp b) in
  let account_pk := pubkey account_kp in
  let token_program_id := default TOKEN_ID (ca_token_program_id b) in
  let payer_pk := pubkey (ca_payer b) in
  let ix1 := system_create_account payer_pk account_pk lamports account_len token_program_id in
  match program_error (ix_initialize_account3 token_program_id account_pk (ca_mint b)
                         (default payer_pk (ca_owner b))) with
  | Err f => Ret (s, Err f)
  | Ok ix2 =>
      r ← send_signed s [ix1; ix2] payer_pk [ca_payer b; account_kp];
      Ret (r.1, map_ok (λ _, account_pk) r.2)
  end.

Definition create_account_send (b : CreateAccount) (fresh : Keypair)
    : outcome (LiteSVM * result FailedTransactionMetadata address) :=
  create_account_of_len b fresh ACCOUNT_LEN.

Record CreateMint : Type := {
  cm_svm : LiteSVM;
  cm_payer : Keypair;
  cm_authority : option address;
  cm_freeze_authority : option address;
  cm_decimals : option N;
  cm_token_program_id : option address }.

Definition create_mint_new (s : LiteSVM) (kp : Keypair) : CreateMint :=
  {| cm_svm := s; cm_payer := kp; cm_authority := None; cm_freeze_authority := None;
     cm_decimals := None; cm_token_program_id := None |}.

Definition create_mint_authority (b : CreateMint) (x : address) : CreateMint :=
  {| cm_svm := cm_svm b; cm_payer := cm_payer b; cm_authority := Some x;
     cm_freeze_authority := cm_freeze_authority b; cm_decimals := cm_decimals b;
     cm_token_program_id := cm_token_program_id b |}.

Definition create_mint_freeze_authority (b : CreateMint) (x : address) : CreateMint :=
  {| cm_svm := cm_svm b; cm_payer := cm_payer b; cm_authority := cm_authority b;
     cm_freeze_authority := Some x; cm_decimals := cm_decimals b;
     cm_token_program_id := cm_token_program_id b |}.

Definition create_mint_decimals (b : CreateMint) (x : N) : CreateMint :=
  {| cm_svm := cm_svm b; cm_payer := cm_payer b; cm_authority := cm_authority b;
     cm_freeze_authority := cm_freeze_authority b; cm_decimals := Some x;
     cm_token_program_id := cm_token_program_id b |}.

Definition create_mint_token_program_id (b : CreateMint) (x : address) : CreateMint :=
  {| cm_svm := cm_svm b; cm_payer := cm_payer b; cm_authority := cm_authority b;
     cm_freeze_authority := cm_freeze_authority b; cm_decimals := cm_decimals b;
     cm_token_program_id := Some x |}.

Definition create_mint_of_len (b : CreateMint) (mint_kp : Keypair) (mint_size : N)
    : outcome (LiteSVM * result FailedTransactionMetadata address) :=
  let s := cm_svm b in
  let mint_pk := pubkey mint_kp in
  let token_program_id := default TOKEN_ID (cm_token_program_id b) in
  let payer_pk := pubkey (cm_payer b) in
  let ix1 := system_create_account payer_pk mint_pk (minimum_balance_for_rent_exemption s mint_size)
               mint_size token_program_id in
  match program_error (ix_initialize_mint2 token_program_id mint_pk
                         (default payer_pk (cm_authority b)) (cm_freeze_authority b)
                         (default 8%N (cm_decimals b))) with
  | Err f => Ret (s, Err f)
  | Ok ix2 =>
      r ← send_signed s [ix1; ix2] payer_pk [cm_payer b; mint_kp];
      Ret (r.1, map_ok (λ _, mint_pk) r.2)
  end.

Definition create_mint_send (b : CreateMint) (mint_kp : Keypair)
    : outcome (LiteSVM * result FailedTransactionMetadata address) :=
  create_mint_of_len b mint_kp MINT_LEN.

Record CreateMultisig : Type := {
  cs_svm : LiteSVM;
  cs_payer : Keypair;
  cs_signers : list address;
  cs_required_signatures : N;
  cs_multisig_kp : option Keypair;
  cs_token_program_id : option address }.

Definition create_multisig_new (s : LiteSVM) (kp : Keypair) (signers : list address)
    (required_signatures : N) : CreateMultisig :=
  {| cs_svm := s; cs_payer := kp; cs_signers := signers;
     cs_required_signatures := required_signatures; cs_multisig_kp := None;
     cs_token_program_id := None |}.

Definition create_multisig_token_program_id (b : CreateMultisig) (x : address) : CreateMultisig :=
  {| cs_svm := cs_svm b; cs_payer := cs_payer b; cs_signers := cs_signers b;
     cs_required_signatures := cs_required_signatures b; cs_multisig_kp := cs_multisig_kp b;
     cs_token_program_id := Some x |}.

Definition create_multisig_send (b : CreateMultisig) (fresh : Keypair)
    : outcome (LiteSVM * result FailedTransactionMetadata address) :=
  let s := cs_svm b in
  let token_program_id := default TOKEN_ID (cs_token_program_id b) in
  let multisig_len := MULTISIG_LEN in
  let multisig_kp := default fresh (cs_multisig_kp b) in
  let multisig_pk := pubkey multisig_kp in
  let payer_pk := pubkey (cs_payer b) in
  let ix1 := system_create_account payer_pk multisig_pk
               (minimum_balance_for_rent_exemption s multisig_len) multisig_len token_program_id in
  match program_error (ix_initialize_multisig2 token_program_id multisig_pk (cs_signers b)
                         (cs_required_signatures b)) with
  | Err f => Ret (s, Err f)
  | Ok ix2 =>
      r ← send_signed s [ix1; ix2] payer_pk [cs_payer b; multisig_kp];
      Ret (r.1, map_ok (λ _, multisig_pk) r.2)
  end.

Record CreateAssociatedTokenAccount : Type := {
  at_svm : LiteSVM;
  at_payer : Keypair;
  at_mint : address;
  at_token_program_id : option address;
  at_owner : option address }.

Definition create_ata_new (s : LiteSVM) (kp : Keypair) (mint : address)
    : CreateAssociatedTokenAccount :=
  {| at_svm := s; at_payer := kp; at_mint := mint; at_token_program_id := None; at_owner := None |}.

Definition create_ata_owner (b : CreateAssociatedTokenAccount) (x : address)
    : CreateAssociatedTokenAccount :=
  {| at_svm := at_svm b; at_payer := at_payer b; at_mint := at_mint b;
     at_token_program_id := at_token_program_id b; at_owner := Some x |}.

Definition create_ata_token_program_id (b : CreateAssociatedTokenAccount) (x : address)
    : CreateAssociatedTokenAccount :=
  {| at_svm := at_svm b; at_payer := at_payer b; at_mint := at_mint b;
     at_token_program_id := Some x; at_owner := at_owner b |}.

Definition create_ata_send (b : CreateAssociatedTokenAccount)
    : outcome (LiteSVM * result FailedTransactionMetadata address) :=
  let token_program_id := default TOKEN_ID (at_token_program_id b) in
  let payer_pk := pubkey (at_payer b) in
  let authority := default payer_pk (at_owner b) in
  let ix := ix_create_associated_token_account payer_pk authority (at_mint b) token_program_id in
  r ← send_signed (at_svm b) [ix] payer_pk [at_payer b];
  Ret (r.1, map_ok (λ _, get_associated_token_address_with_program_id authority (at_mint b)
                           token_program_id) r.2).

Record CreateAssociatedTokenAccountIdempotent : Type := {
  ai_svm : LiteSVM;
  ai_payer : Keypair;
  ai_mint : address;
  ai_token_program_id : option address;
  ai_owner : option address }.

Definition create_ata_idempotent_new (s : LiteSVM) (kp : Keypair) (mint : address)
    : CreateAssociatedTokenAccountIdempotent :=
  {| ai_svm := s; ai_payer := kp; ai_mint := mint; ai_token_program_id := None; ai_owner := None |}.

Definition create_ata_idempotent_owner (b : CreateAssociatedTokenAccountIdempotent) (x : address)
    : CreateAssociatedTokenAccountIdempotent :=
  {| ai_svm := ai_svm b; ai_payer := ai_payer b; ai_mint := ai_mint b;
     ai_token_program_id := ai_token_program_id b; ai_owner := Some x |}.

Definition create_ata_idempotent_token_program_id (b : CreateAssociatedTokenAccountIdempotent) (x
    : address) : CreateAssociatedTokenAccountIdempotent :=
  {| ai_svm := ai_svm b; ai_payer := ai_payer b; ai_mint := ai_mint b;
     ai_token_program_id := Some x; ai_owner := ai_owner b |}.

Definition create_ata_idempotent_send (b : CreateAssociatedTokenAccountIdempotent)
    : outcome (LiteSVM * result FailedTransactionMetadata address) :=
  let token_program_id := default TOKEN_ID (ai_token_program_id b) in
  let payer_pk := pubkey (ai_payer b) in
  let authority := default payer_pk (ai_owner b) in
  let ix := ix_create_associated_token_account_idempotent payer_pk authority (ai_mint b)
              token_program_id in
  r ← send_signed (ai_svm b) [ix] payer_pk [ai_payer b];
  Ret (r.1, map_ok (λ _, get_associated_token_address_with_program_id authority (ai_mint b)
                           token_program_id) r.2).

Record SyncNative : Type := {
  sn_svm : LiteSVM;
  sn_payer : Keypair;
  sn_account : address;
  sn_token_program_id : option address }.

Definition sync_native_new (s : LiteSVM) (kp : Keypair) (account : address) : SyncNative :=
  {| sn_svm := s; sn_payer := kp; sn_account := account; sn_token_program_id := None |}.

Definition sync_native_token_program_id (b : SyncNative) (x : address) : SyncNative :=
  {| sn_svm := sn_svm b; sn_payer := sn_payer b; sn_account := sn_account b;
     sn_token_program_id := Some x |}.

Definition sync_native_send (b : SyncNative)
    : outcome (LiteSVM * result FailedTransactionMetadata ()) :=
  let token_program_id := default TOKEN_ID (sn_token_program_id b) in
  match program_error (ix_sync_native token_program_id (sn_account b)) with
  | Err f => Ret (sn_svm b, Err f)
  | Ok ix => send_signed (sn_svm b) [ix] (pubkey (sn_payer b)) [sn_payer b]
  end.

(** ** The native mint *)

Definition create_native_mint (s : LiteSVM) : outcome LiteSVM :=
  let mint := {| mint_authority := None; mint_supply := 0; mint_decimals := NATIVE_MINT_DECIMALS;
                 mint_is_initialized := true; mint_freeze_authority := None |} in
  data ← unwrap (mint_pack mint MINT_LEN);
  rent ← get_sysvar s;
  let acc := Account (rent_minimum_balance rent (len data)) data TOKEN_ID false 0 in
  match set_account s native_mint_id acc with
  | (s, Ok _) => Ret s
  | (_, Err _) => Panic
  end.
End token.
