(* ===== verification/TokenProps.v ===== *)
(** * Properties of the token helpers

    All the builders as one type of operations; what a failed one may change, what
    the accounts default to, and the accounts that freezing and thawing reach. *)

From S2P Require Import Prelude Errors ComputeBudget Runtime RentState Utils Types History.
From S2P Require Import EpochStake AccountsDb Vm InnerInstructions Features Svm Process.
From S2P Require Import ProcessLemmas Exec ExecLemmas ExecProps TxBuild Token.

Section operations.
Context `{TokenApi}.

(** A builder whose fields are set, with the key pair drawn by [Keypair::new()]
    where [send] draws one. *)
Inductive TokenOp : Type :=
| OpApprove (b : Builder Approve)
| OpApproveChecked (b : Builder ApproveChecked)
| OpBurn (b : Builder Burn)
| OpBurnChecked (b : Builder BurnChecked)
| OpCloseAccount (b : Builder CloseAccount)
| OpFreezeAccount (b : Builder FreezeAccount)
| OpThawAccount (b : Builder ThawAccount)
| OpMintTo (b : Builder MintTo)
| OpMintToChecked (b : Builder MintToChecked)
| OpRevoke (b : Builder Revoke)
| OpSetAuthority (b : Builder SetAuthority)
| OpTransfer (b : Builder Transfer)
| OpTransferChecked (b : Builder TransferChecked)
| OpCreateAccount (b : CreateAccount) (fresh : Keypair)
| OpCreateMint (b : CreateMint) (fresh : Keypair)
| OpCreateMultisig (b : CreateMultisig) (fresh : Keypair)
| OpCreateAta (b : CreateAssociatedTokenAccount)
| OpCreateAtaIdempotent (b : CreateAssociatedTokenAccountIdempotent)
| OpSyncNative (b : SyncNative).

(** The instance the operation borrows. *)
Definition op_svm (op : TokenOp) : LiteSVM :=
  match op with
  | OpApprove b => base_svm (base b)
  | OpApproveChecked b => base_svm (base b)
  | OpBurn b => base_svm (base b)
  | OpBurnChecked b => base_svm (base b)
  | OpCloseAccount b => base_svm (base b)
  | OpFreezeAccount b => base_svm (base b)
  | OpThawAccount b => base_svm (base b)
  | OpMintTo b => base_svm (base b)
  | OpMintToChecked b => base_svm (base b)
  | OpRevoke b => base_svm (base b)
  | OpSetAuthority b => base_svm (base b)
  | OpTransfer b => base_svm (base b)
  | OpTransferChecked b => base_svm (base b)
  | OpCreateAccount b _ => ca_svm b
  | OpCreateMint b _ => cm_svm b
  | OpCreateMultisig b _ => cs_svm b
  | OpCreateAta b => at_svm b
  | OpCreateAtaIdempotent b => ai_svm b
  | OpSyncNative b => sn_svm b
  end.

Definition op_payer (op : TokenOp) : Keypair :=
  match op with
  | OpApprove b => base_payer (base b)
  | OpApproveChecked b => base_payer (base b)
  | OpBurn b => base_payer (base b)
  | OpBurnChecked b => base_payer (base b)
  | OpCloseAccount b => base_payer (base b)
  | OpFreezeAccount b => base_payer (base b)
  | OpThawAccount b => base_payer (base b)
  | OpMintTo b => base_payer (base b)
  | OpMintToChecked b => base_payer (base b)
  | OpRevoke b => base_payer (base b)
  | OpSetAuthority b => base_payer (base b)
  | OpTransfer b => base_payer (base b)
  | OpTransferChecked b => base_payer (base b)
  | OpCreateAccount b _ => ca_payer b
  | OpCreateMint b _ => cm_payer b
  | OpCreateMultisig b _ => cs_payer b
  | OpCreateAta b => at_payer b
  | OpCreateAtaIdempotent b => ai_payer b
  | OpSyncNative b => sn_payer b
  end.

Definition without_address (r : outcome (LiteSVM * result FailedTransactionMetadata ()))
    : outcome (LiteSVM * result FailedTransactionMetadata (option address)) :=
  r ← r; Ret (r.1, map_ok (λ _, None) r.2).

Definition with_address (r : outcome (LiteSVM * result FailedTransactionMetadata address))
    : outcome (LiteSVM * result FailedTransactionMetadata (option address)) :=
  r ← r; Ret (r.1, map_ok Some r.2).

Definition op_send (op : TokenOp)
    : outcome (LiteSVM * result FailedTransactionMetadata (option address)) :=
  match op with
  | OpApprove b => without_address (approve_send b)
  | OpApproveChecked b => without_address (approve_checked_send b)
  | OpBurn b => without_address (burn_send b)
  | OpBurnChecked b => without_address (burn_checked_send b)
  | OpCloseAccount b => without_address (close_account_send b)
  | OpFreezeAccount b => without_address (freeze_account_send b)
  | OpThawAccount b => without_address (thaw_account_send b)
  | OpMintTo b => without_address (mint_to_send b)
  | OpMintToChecked b => without_address (mint_to_checked_send b)
  | OpRevoke b => without_address (revoke_send b)
  | OpSetAuthority b => without_address (set_authority_send b)
  | OpTransfer b => without_address (transfer_send b)
  | OpTransferChecked b => without_address (transfer_checked_send b)
  | OpCreateAccount b fresh => with_address (create_account_send b fresh)
  | OpCreateMint b fresh => with_address (create_mint_send b fresh)
  | OpCreateMultisig b fresh => with_address (create_multisig_send b fresh)
  | OpCreateAta b => with_address (create_ata_send b)
  | OpCreateAtaIdempotent b => with_address (create_ata_idempotent_send b)
  | OpSyncNative b => without_address (sync_native_send b)
  end.

(** ** The effect of one transaction of a payer *)

(** A failure costs the payer at most the fee it reports, and leaves at most a
    record of itself in the history. *)
Definition failure_effect (s : LiteSVM) (payer : address) (s' : LiteSVM)
    (f : FailedTransactionMetadata) : Prop :=
  s' = s ∨ ∃ acc h,
    inner (accounts s) !! payer = Some acc ∧
    (meta_fee (failed_meta f) ≤ lamports acc)%N ∧
    s' = with_history (debit s payer acc (meta_fee (failed_meta f))) h ∧
    (h = history s ∨ ∃ sig, h = add_new_transaction (history s) sig (Err f)).

(** Every way of sending ends with an error before the transaction is built, or
    with the outcome of one transaction of the payer. *)
Inductive one_send {A} (s : LiteSVM) (payer : address)
    : LiteSVM → result FailedTransactionMetadata A → Prop :=
| not_sent f : one_send s payer s (Err f)
| sent tx s' r r' :
    tx_fee_payer tx = Some payer → send_transaction s (tx_into_versioned tx) = Ret (s', r') →
    (∀ f, r = Err f → r' = Err f) → one_send s payer s' r.

Lemma one_send_map {A B} (g : A → B) s payer s' r :
  one_send s payer s' r → one_send s payer s' (map_ok g r).
Proof.
  intros [f|tx s'' r'' r' Hp Hs Hr]; [apply not_sent|].
  eapply sent; [done..|]. intros f. destruct r''; [done|]. intros [= ->]. by apply Hr.
Qed.

Context `{!TxBuilderLaws} `{!SystemLaws}.

Lemma built_fee_payer tx payer loader reserved stx :
  tx_fee_payer tx = Some payer → payer ≠ instructions_id →
  try_create (tx_into_versioned tx) loader reserved = Ret (Ok stx) →
  fee_payer (message stx) = Some payer.
Proof.
  intros Hp Hne Hc. unfold fee_payer. pose proof (tx_payer_not_invoked _ _ _ _ Hc) as Hi.
  apply tx_versioned_payer in Hc. rewrite Hp in Hc.
  destruct (account_keys _) as [|k ks]; [done|]. injection Hc as ->. simpl.
  unfold may_pay. by rewrite Hi, (proj2 (N.eqb_neq _ _) Hne).
Qed.

Lemma one_send_failure {A} s payer s' f :
  payer ≠ instructions_id → balances_wf (accounts s) → one_send (A := A) s payer s' (Err f) → failure_effect s payer s' f.
Proof.
  intros Hne Hwf Hone. remember (Err f) as r eqn:Hf.
  destruct Hone as [f'|tx s' r r' Hp Hs Hr]; [by left|]. specialize (Hr f Hf). subst r r'.
  destruct (send_Err_run _ _ _ _ Hwf Hs) as (er & lc & _ & _ & Hm & Heff).
  destruct (included er); [|by left]. right.
  destruct Heff as (stx & k & acc & [Hc _]%sanitize_try_create & Hfp & Hacc & Hle & ->).
  rewrite (built_fee_payer _ _ _ _ _ Hp Hne Hc) in Hfp. injection Hfp as <-.
  rewrite Hm. simpl. exists acc. destruct (is_enabled (history s)).
  - eexists. split_and!; [done..|]. by right; eexists.
  - exists (history s). split_and!; [done..| |by left]. by destruct s.
Qed.

Lemma send_tx_one s tx payer s' r :
  tx_fee_payer tx = Some payer → send_tx s tx = Ret (s', r) → one_send s payer s' r.
Proof.
  unfold send_tx. intros Hp Hs.
  destruct (send_transaction _ _) as [[s1 r1]|] eqn:Htx; simpl in Hs; [|done].
  injection Hs as <- <-. eapply sent; [done..|]. intros f. by destruct r1; [|intros [= ->]].
Qed.

Lemma send_signed_one s ixs payer kps s' r :
  send_signed s ixs payer kps = Ret (s', r) → one_send s payer s' r.
Proof.
  unfold send_signed. destruct (tx_new_signed_with_payer _ _ _ _) as [tx|] eqn:Htx; simpl; [|done].
  apply send_tx_one. by eapply tx_new_signed_payer.
Qed.

Lemma send_authorised_one b ix s' r :
  send_authorised b ix = Ret (s', r) → one_send (base_svm b) (pubkey (base_payer b)) s' r.
Proof.
  unfold send_authorised. destruct ix as [ix|f]; [|intros [= <- <-]; apply not_sent].
  destruct (tx_partial_sign (tx_new_with_payer _ _) _ _) as [tx|] eqn:Hs1; simpl; [|done].
  destruct (tx_partial_sign tx _ _) as [tx'|] eqn:Hs2; simpl; [|done].
  apply send_tx_one. rewrite (tx_partial_sign_payer _ _ _ _ Hs2), (tx_partial_sign_payer _ _ _ _ Hs1).
  apply tx_new_with_payer_payer.
Qed.

Lemma checked_decimals_one b mint d ix s' r :
  checked_decimals b mint d ix = Ret (s', r) →
  one_send (base_svm b) (pubkey (base_payer b)) s' r.
Proof.
  unfold checked_decimals. destruct (get_spl_account _ _ _ _) as [m|]; simpl; [|done].
  apply send_authorised_one.
Qed.

(** The creating builders: an instruction that may fail, then one signed send. *)
Lemma create_one {A} (ix : result FailedTransactionMetadata A) s (ixs : A → list Instruction)
    payer kps (pk : address) s' r :
  match ix with
  | Err f => Ret (s, Err f)
  | Ok ix => r ← send_signed s (ixs ix) payer kps; Ret (r.1, map_ok (λ _, pk) r.2)
  end = Ret (s', r) → one_send s payer s' r.
Proof.
  destruct ix as [ix|f]; [|intros [= <- <-]; apply not_sent].
  destruct (send_signed _ _ _ _) as [[s1 r1]|] eqn:Hs; simpl; [|done]. intros [= <- <-].
  apply one_send_map. by eapply send_signed_one.
Qed.

Lemma ata_one s ixs payer kps (pk : address) s' r :
  (r ← send_signed s ixs payer kps; Ret (r.1, map_ok (λ _, pk) r.2)) = Ret (s', r) →
  one_send s payer s' r.
Proof. exact (create_one (Ok ()) s (λ _, ixs) payer kps pk s' r). Qed.

Lemma without_address_one m s payer s' r :
  (∀ s' r, m = Ret (s', r) → one_send s payer s' r) →
  without_address m = Ret (s', r) → one_send s payer s' r.
Proof.
  intros Hm. unfold without_address. destruct m as [[s1 r1]|]; simpl; [|done].
  intros [= <- <-]. by apply one_send_map, Hm.
Qed.

Lemma with_address_one m s payer s' r :
  (∀ s' r, m = Ret (s', r) → one_send s payer s' r) →
  with_address m = Ret (s', r) → one_send s payer s' r.
Proof.
  intros Hm. unfold with_address. destruct m as [[s1 r1]|]; simpl; [|done].
  intros [= <- <-]. by apply one_send_map, Hm.
Qed.


Lemma sync_native_one b s' r :
  sync_native_send b = Ret (s', r) → one_send (sn_svm b) (pubkey (sn_payer b)) s' r.
Proof.
  unfold sync_native_send. destruct (program_error _) as [ix|f]; [by apply send_signed_one|].
  intros [= <- <-]. apply not_sent.
Qed.

Lemma op_send_one op s' r :
  op_send op = Ret (s', r) → one_send (op_svm op) (pubkey (op_payer op)) s' r.
Proof.
  destruct op; cbn [op_send op_svm op_payer];
    (apply without_address_one || apply with_address_one); intros ??;
    first [apply send_authorised_one|apply checked_decimals_one|apply create_one
          |apply ata_one|apply sync_native_one].
Qed.

(** ** Properties *)

(** C23.  A token helper that fails is free of side effects but for the fee: for
    every builder, with whatever was set on it, either the instance is unchanged, or
    exactly the reported fee is taken from the stored balance of the builder's
    payer and at most this failure is added to the history; no token account, mint
    or other account is touched, and no cache or setting either.  (The payer is an
    account that can pay, not the instructions sysvar.) *)
Theorem token_failure_costs_fee op s' f
  (Hpayer : pubkey (op_payer op) ≠ instructions_id)
  (Hwf : balances_wf (accounts (op_svm op))) (Hsend : op_send op = Ret (s', Err f)) :
  failure_effect (op_svm op) (pubkey (op_payer op)) s' f.
Proof. eapply one_send_failure; [done..|]. by eapply op_send_one. Qed.

(** The setters that the builders with an authority have in common. *)
Inductive Setting : Type :=
| SetTokenProgram (k : address)
| SetOwner (kp : Keypair)
| SetMultisig (multisig : address) (kps : list Keypair).

Definition set_on {F} (b : Builder F) (x : Setting) : Builder F :=
  match x with
  | SetTokenProgram k => builder_token_program_id b k
  | SetOwner kp => builder_owner b kp
  | SetMultisig m kps => builder_multisig b m kps
  end.

(** What a sequence of settings amounts to. *)
Definition program_set (k : address) (x : Setting) : address :=
  match x with SetTokenProgram k' => k' | _ => k end.
Definition authority_set (a : address * list Keypair) (x : Setting) : address * list Keypair :=
  match x with
  | SetOwner kp => (pubkey kp, [kp])
  | SetMultisig m kps => (m, kps)
  | SetTokenProgram _ => a
  end.

Definition program_of (xs : list Setting) : address := foldl program_set TOKEN_ID xs.
Definition authority_of (payer : Keypair) (xs : list Setting) : address * list Keypair :=
  foldl authority_set (pubkey payer, [payer]) xs.

Lemma settings_foldl {F} xs : ∀ b : Builder F,
  let b' := foldl set_on b xs in
  fields b' = fields b ∧ base_svm (base b') = base_svm (base b) ∧
  base_payer (base b') = base_payer (base b) ∧
  base_program (base b') = foldl program_set (base_program (base b)) xs ∧
  (base_authority (base b'), base_signers (base b'))
  = foldl authority_set (base_authority (base b), base_signers (base b)) xs.
Proof.
  induction xs as [|x xs IH]; intros b; [done|]. simpl.
  destruct (IH (set_on b x)) as (-> & -> & -> & -> & ->). by destruct x.
Qed.

Lemma settings_new {F} s payer (fs : F) xs authority signers :
  authority_of payer xs = (authority, signers) →
  let b := foldl set_on (mkBuilder (base_new s payer) fs) xs in
  fields b = fs ∧ base_svm (base b) = s ∧ base_payer (base b) = payer ∧
  base_program (base b) = program_of xs ∧ base_authority (base b) = authority ∧
  base_signers (base b) = signers.
Proof.
  intros Ha b. destruct (settings_foldl xs (mkBuilder (base_new s payer) fs))
    as (? & ? & ? & ? & Hau). fold b in Hau. change (foldl _ _ xs) with (authority_of payer xs) in Hau.
  rewrite Ha in Hau. by injection Hau as -> ->.
Qed.

(** Freezing and thawing reach one account only: whatever is set on the
    builder, in whatever order, the instruction names the associated token account
    of the authority, which is the owner or multisig set last, or the payer; the
    signer keys are those of that setting and are left out for a single owner.  No
    setter names the account of somebody else. *)
Theorem freeze_and_thaw_reach_own_account s payer mint xs :
  let program := program_of xs in
  let '(authority, signers) := authority_of payer xs in
  let account := get_associated_token_address_with_program_id authority mint program in
  let keys := if decide (pubkey <$> signers = [authority]) then [] else pubkey <$> signers in
  let sent ix := (tx ← tx_partial_sign (tx_new_with_payer [ix] (pubkey payer)) [payer]
                        (latest_blockhash s);
                  tx ← tx_partial_sign tx signers (latest_blockhash s);
                  send_tx s tx) in
  let reply r := match r with
                 | Err code => Ret (s, Err (failed_from_program_error code))
                 | Ok ix => sent ix
                 end in
  freeze_account_send (foldl set_on (freeze_account_new s payer mint) xs)
  = reply (ix_freeze_account program account mint authority keys) ∧
  thaw_account_send (foldl set_on (thaw_account_new s payer mint) xs)
  = reply (ix_thaw_account program account mint authority keys).
Proof.
  destruct (authority_of payer xs) as [authority signers] eqn:Ha.
  destruct (settings_new s payer {| fz_mint := mint; fz_account := None |} _ _ _ Ha)
    as (Hff & Hfs & Hfp & Hfg & Hfa & Hfk).
  destruct (settings_new s payer {| th_mint := mint; th_account := None |} _ _ _ Ha)
    as (Htf & Hts & Htp & Htg & Hta & Htk).
  split.
  - unfold freeze_account_send, freeze_account_new, or_associated, send_authorised,
      base_signer_keys. rewrite Hff, Hfs, Hfp, Hfg, Hfa, Hfk. simpl.
    by destruct (ix_freeze_account _ _ _ _ _).
  - unfold thaw_account_send, thaw_account_new, or_associated, send_authorised,
      base_signer_keys. rewrite Htf, Hts, Htp, Htg, Hta, Htk. simpl.
    by destruct (ix_thaw_account _ _ _ _ _).
Qed.
End operations.
