(* ===== verification/Token2022.v ===== *)
(** * Token helpers with the token-2022 feature (crates/token/src)

    What the feature changes: the interface crate is that of the Token-2022 program
    (another instance of the interface of Token.v), the sizes of accounts and mints
    come from a computation over extensions that may fail, and the native mint is
    created by a transaction instead of being written into the instance. *)

From S2P Require Import Prelude Errors ComputeBudget Runtime RentState Utils Types History.
From S2P Require Import EpochStake AccountsDb Vm InnerInstructions Features Svm Process.
From S2P Require Import ProcessLemmas Exec ExecLemmas ExecProps TxBuild Token TokenProps.

(** What the builders use of [spl_token_2022_interface] beyond the common part. *)
Class Token2022Api `{TokenApi} : Type := {
  ExtensionType : Type;
  (** [ExtensionType::try_calculate_account_len::<Account>] and [::<Mint>] *)
  try_calculate_account_len : list ExtensionType → result N N;
  try_calculate_mint_len : list ExtensionType → result N N;
  (** program, payer *)
  ix_create_native_mint : address → address → result N Instruction }.

(** Without extensions an account or mint has its packed length. *)
Class Token2022Laws `{Token2022Api} : Prop := {
  account_len_plain : try_calculate_account_len [] = Ok ACCOUNT_LEN;
  mint_len_plain : try_calculate_mint_len [] = Ok MINT_LEN }.

Section token2022.
Context `{Token2022Api}.

(** ** Accounts and mints *)

(** The builder has no setter for the extensions. *)
Record CreateAccount2022 : Type := {
  ca_plain : CreateAccount;
  ca_extensions : list ExtensionType }.

Definition create_account_2022_new (s : LiteSVM) (kp : Keypair) (mint : address)
    : CreateAccount2022 :=
  {| ca_plain := create_account_new s kp mint; ca_extensions := [] |}.

Definition create_account_2022_send (b : CreateAccount2022) (fresh : Keypair)
    : outcome (LiteSVM * result FailedTransactionMetadata address) :=
  match program_error (try_calculate_account_len (ca_extensions b)) with
  | Err f => Ret (ca_svm (ca_plain b), Err f)
  | Ok account_len => create_account_of_len (ca_plain b) fresh account_len
  end.

Definition create_mint_2022_send (b : CreateMint) (mint_kp : Keypair)
    : outcome (LiteSVM * result FailedTransactionMetadata address) :=
  match program_error (try_calculate_mint_len []) with
  | Err f => Ret (cm_svm b, Err f)
  | Ok mint_size => create_mint_of_len b mint_kp mint_size
  end.

(** ** The native mint *)

Record CreateNativeMint : Type := {
  nm_svm : LiteSVM;
  nm_payer : Keypair;
  nm_token_program_id : option address }.

Definition create_native_mint_new (s : LiteSVM) (kp : Keypair) : CreateNativeMint :=
  {| nm_svm := s; nm_payer := kp; nm_token_program_id := None |}.

Definition create_native_mint_token_program_id (b : CreateNativeMint) (x : address)
    : CreateNativeMint :=
  {| nm_svm := nm_svm b; nm_payer := nm_payer b; nm_token_program_id := Some x |}.

Definition create_native_mint_send (b : CreateNativeMint)
    : outcome (LiteSVM * result FailedTransactionMetadata ()) :=
  let token_program_id := default TOKEN_ID (nm_token_program_id b) in
  let payer_pk := pubkey (nm_payer b) in
  match program_error (ix_create_native_mint token_program_id payer_pk) with
  | Err f => Ret (nm_svm b, Err f)
  | Ok ix => send_signed (nm_svm b) [ix] payer_pk [nm_payer b]
  end.

(** ** Properties *)

Context `{!TxBuilderLaws} `{!SystemLaws}.

Lemma create_account_2022_one b fresh s' r :
  create_account_2022_send b fresh = Ret (s', r) →
  one_send (ca_svm (ca_plain b)) (pubkey (ca_payer (ca_plain b))) s' r.
Proof.
  unfold create_account_2022_send. destruct (program_error _) as [n|f].
  - apply create_one.
  - intros [= <- <-]. apply not_sent.
Qed.

Lemma create_mint_2022_one b kp s' r :
  create_mint_2022_send b kp = Ret (s', r) → one_send (cm_svm b) (pubkey (cm_payer b)) s' r.
Proof.
  unfold create_mint_2022_send. destruct (program_error _) as [n|f].
  - apply create_one.
  - intros [= <- <-]. apply not_sent.
Qed.

Lemma create_native_mint_one b s' r :
  create_native_mint_send b = Ret (s', r) → one_send (nm_svm b) (pubkey (nm_payer b)) s' r.
Proof.
  unfold create_native_mint_send. destruct (program_error _) as [ix|f].
  - apply send_signed_one.
  - intros [= <- <-]. apply not_sent.
Qed.

(** A failure of one of these builders costs its payer at most the reported fee,
    whatever the extensions or the program. *)
Theorem token_2022_failure_costs_fee :
  (∀ b fresh s' f, pubkey (ca_payer (ca_plain b)) ≠ instructions_id →
     balances_wf (accounts (ca_svm (ca_plain b))) →
     create_account_2022_send b fresh = Ret (s', Err f) →
     failure_effect (ca_svm (ca_plain b)) (pubkey (ca_payer (ca_plain b))) s' f) ∧
  (∀ b kp s' f, pubkey (cm_payer b) ≠ instructions_id → balances_wf (accounts (cm_svm b)) →
     create_mint_2022_send b kp = Ret (s', Err f) →
     failure_effect (cm_svm b) (pubkey (cm_payer b)) s' f) ∧
  (∀ b s' f, pubkey (nm_payer b) ≠ instructions_id → balances_wf (accounts (nm_svm b)) →
     create_native_mint_send b = Ret (s', Err f) →
     failure_effect (nm_svm b) (pubkey (nm_payer b)) s' f).
Proof.
  split_and!; intros; eapply one_send_failure; eauto using create_account_2022_one,
    create_mint_2022_one, create_native_mint_one.
Qed.

(** The two builds agree on what both have: without extensions, creating accounts
    and mints is the same operation. *)
Theorem token_builds_agree `{!Token2022Laws} :
  (∀ s kp mint fresh,
     create_account_2022_send (create_account_2022_new s kp mint) fresh
     = create_account_send (create_account_new s kp mint) fresh) ∧
  (∀ b kp, create_mint_2022_send b kp = create_mint_send b kp).
Proof.
  split.
  - intros s kp mint fresh. unfold create_account_2022_send. simpl. by rewrite account_len_plain.
  - intros b kp. unfold create_mint_2022_send. by rewrite mint_len_plain.
Qed.
End token2022.
