(* ===== verification/NodeUtil.v ===== *)
(** * Values crossing the JavaScript boundary (crates/node-litesvm/src/util.rs)

    The conversions of [BigInt] arguments, the errors they raise, and the pattern
    of the property accessors of the wrapper classes: an interface that a wrapper's
    getters and setters implement, and what follows from it for a script that
    assigns properties one after another. *)

From S2P Require Import Prelude Text.

(** [napi::bindgen_prelude::BigInt]: a pair of flags tells whether the number is
    negative and whether the returned word holds all of it. *)
Class BigIntApi : Type := {
  BigInt : Type;
  (** The integer that a [BigInt] stands for. *)
  bigint_value : BigInt → Z;
  get_u64 : BigInt → bool * N * bool;
  get_u128 : BigInt → bool * N * bool;
  get_i64 : BigInt → Z * bool;
  bigint_from_u64 : N → BigInt;
  bigint_from_i64 : Z → BigInt;
  (** [{val:?}] *)
  bigint_debug : BigInt → str }.

Definition i64_min : Z := -9223372036854775808.
Definition i64_max : Z := 9223372036854775807.
Definition u128_max : N := 340282366920938463463374607431768211455.
(** The targets have 64-bit addresses. *)
Definition usize_max : N := u64_max.

(** What a word of magnitude and a lossless flag say of an integer. *)
Definition word_of (max : N) (z : Z) (r : bool * N * bool) : Prop :=
  r.1.1 = (z <? 0)%Z ∧ r.2 = (Z.abs_N z <=? max)%N ∧ (r.2 = true → r.1.2 = Z.abs_N z).

Class BigIntLaws `{BigIntApi} : Prop := {
  get_u64_word b : word_of u64_max (bigint_value b) (get_u64 b);
  get_u128_word b : word_of u128_max (bigint_value b) (get_u128 b);
  get_i64_lossless b :
    (get_i64 b).2 = (i64_min <=? bigint_value b)%Z && (bigint_value b <=? i64_max)%Z;
  get_i64_value b : (get_i64 b).2 = true → (get_i64 b).1 = bigint_value b;
  bigint_from_u64_value n : (n ≤ u64_max)%N → bigint_value (bigint_from_u64 n) = Z.of_N n;
  bigint_from_i64_value z :
    (i64_min ≤ z ≤ i64_max)%Z → bigint_value (bigint_from_i64 z) = z }.

(** ** Errors *)

Inductive JsStatus : Type := GenericFailure | InvalidArg.

(** [napi::Error] *)
Record JsError : Type := { status : JsStatus; reason : str }.

Definition generic_failure (r : str) : JsError := {| status := GenericFailure; reason := r |}.

Section conversions.
Context `{BigIntApi}.

Definition bigint_to_u64 (val : BigInt) : result JsError N :=
  let '(negative, value, lossless) := get_u64 val in
  if (negative : bool)
  then Err (generic_failure (lit "Cannot convert negative bigint to u64: " ++ bigint_debug val))
  else if negb lossless
  then Err (generic_failure (lit "Bigint too large for u64: " ++ bigint_debug val))
  else Ok value.

Definition bigint_to_u128 (val : BigInt) : result JsError N :=
  let '(negative, value, lossless) := get_u128 val in
  if (negative : bool)
  then Err (generic_failure (lit "Cannot convert negative bigint to u128: " ++ bigint_debug val))
  else if negb lossless
  then Err (generic_failure (lit "Bigint too large for u128: " ++ bigint_debug val))
  else Ok value.

Definition bigint_to_i64 (val : BigInt) : result JsError Z :=
  let '(value, lossless) := get_i64 val in
  if negb lossless
  then Err (generic_failure (lit "Bigint too large for i64: " ++ bigint_debug val))
  else Ok value.

Definition bigint_to_usize (val : BigInt) : result JsError N :=
  let '(negative, value, lossless) := get_u64 val in
  if (negative : bool)
  then Err (generic_failure (lit "Cannot convert negative bigint to usize: " ++ bigint_debug val))
  else if negb lossless
  then Err (generic_failure (lit "Bigint too large for usize: " ++ bigint_debug val))
  else if (value <=? usize_max)%N then Ok value
  else Err (generic_failure (lit "Bigint too large for usize: " ++ to_decimal value)).

(** ** Property accessors *)

(** [Ok(self.0.field = convert(&val)?)] *)
Definition assign {T A} (convert : BigInt → result JsError A) (set : T → A → T)
    (self : T) (val : BigInt) : T * result JsError () :=
  match convert val with
  | Err e => (self, Err e)
  | Ok x => (set self x, Ok ())
  end.

Lemma assign_keeps {T A B} (get : T → B) (convert : BigInt → result JsError A)
    (set : T → A → T) self val :
  (∀ x, get (set self x) = get self) → get (assign convert set self val).1 = get self.
Proof. intros Hget. unfold assign. by destruct (convert val); simpl. Qed.

(** The integer types of properties. *)
Inductive Width : Type := U64 | U128 | I64 | Usize.

Definition in_width (w : Width) (z : Z) : bool :=
  match w with
  | U64 => (0 <=? z)%Z && (z <=? Z.of_N u64_max)%Z
  | U128 => (0 <=? z)%Z && (z <=? Z.of_N u128_max)%Z
  | I64 => (i64_min <=? z)%Z && (z <=? i64_max)%Z
  | Usize => (0 <=? z)%Z && (z <=? Z.of_N usize_max)%Z
  end.

(** A conversion accepts a [BigInt] exactly when the type holds its value. *)
Definition converts {A} (w : Width) (value : A → Z) (convert : BigInt → result JsError A) : Prop :=
  ∀ val, match convert val with
         | Ok x => in_width w (bigint_value val) = true ∧ value x = bigint_value val
         | Err _ => in_width w (bigint_value val) = false
         end.

Section laws.
Context `{!BigIntLaws}.

Lemma word_converts max (z : Z) (r : bool * N * bool) (e1 e2 : JsError) :
  word_of max z r →
  match (let '(negative, value, lossless) := r in
         if (negative : bool) then Err e1 else if negb lossless then Err e2 else Ok value) with
  | Ok x => ((0 <=? z)%Z && (z <=? Z.of_N max)%Z = true) ∧ Z.of_N x = z
  | Err _ => (0 <=? z)%Z && (z <=? Z.of_N max)%Z = false
  end.
Proof.
  destruct r as [[n v] l]. intros (Hn & Hl & Hv). simpl in *. subst n l.
  pose proof (N2Z.inj_abs_N z) as Habs.
  destruct (Z.ltb_spec z 0); simpl; [by rewrite (proj2 (Z.leb_gt 0 z))|].
  rewrite (proj2 (Z.leb_le 0 z)) by done. simpl.
  destruct (N.leb_spec (Z.abs_N z) max); simpl.
  - rewrite Hv by done. split; [|lia]. apply Z.leb_le. lia.
  - apply Z.leb_gt. lia.
Qed.

Lemma bigint_to_u64_converts : converts U64 Z.of_N bigint_to_u64.
Proof. intros val. apply word_converts, get_u64_word. Qed.

Lemma bigint_to_u128_converts : converts U128 Z.of_N bigint_to_u128.
Proof. intros val. apply word_converts, get_u128_word. Qed.

Lemma bigint_to_i64_converts : converts I64 id bigint_to_i64.
Proof.
  intros val. unfold bigint_to_i64. pose proof (get_i64_lossless val) as Hl.
  pose proof (get_i64_value val) as Hv. destruct (get_i64 val) as [v l]. simpl in *.
  destruct l; simpl; [|done]. split; [done|]. by apply Hv.
Qed.

Lemma bigint_to_usize_converts : converts Usize Z.of_N bigint_to_usize.
Proof.
  intros val. unfold bigint_to_usize.
  pose proof (word_converts u64_max _ _ (generic_failure []) (generic_failure [])
                (get_u64_word val)) as Hw.
  destruct (get_u64 val) as [[n v] l]. destruct n; [done|]. destruct l; [|done].
  cbn [negb] in *. destruct Hw as [Hw Hz].
  destruct (N.leb_spec v usize_max) as [|Hgt]; [done|].
  apply andb_prop in Hw as [_ Hle%Z.leb_le]. unfold usize_max in Hgt. lia.
Qed.
End laws.
End conversions.

Create HintDb svm_node.
#[export] Hint Resolve bigint_to_u64_converts bigint_to_u128_converts bigint_to_i64_converts
  bigint_to_usize_converts : svm_node.

(** ** The accessors of a wrapper class *)

(** The numeric properties of a class, with their getters and setters; a getter's
    result is taken as an integer. *)
Class Accessors (T : Type) `{BigIntApi} : Type := {
  property : Type;
  property_eq_dec :: EqDecision property;
  property_width : property → Width;
  property_get : property → T → Z;
  property_set : property → T → BigInt → T * result JsError () }.

(** A value the property's type holds is stored in this property and in no other;
    any other value is refused and nothing changes. *)
Definition set_behaves {T} `{Accessors T} (p : property) (x : T) (val : BigInt) : Prop :=
  let r := property_set p x val in
  if in_width (property_width p) (bigint_value val)
  then r.2 = Ok () ∧
       ∀ q, property_get q r.1 = if decide (q = p) then bigint_value val else property_get q x
  else r.1 = x ∧ is_err r.2 = true.

Class AccessorLaws (T : Type) `{Accessors T} : Prop := {
  property_set_behaves p (x : T) val : set_behaves p x val }.

Section accessors.
Context `{BigIntApi} `{!BigIntLaws}.

(** Setters written with [assign] behave when the update is one of the field. *)
Lemma assign_behaves {T A} `{!Accessors T} (p : property) (convert : BigInt → result JsError A)
    (set : T → A → T) (value : A → Z) (x : T) (val : BigInt) :
  property_set p x val = assign convert set x val →
  converts (property_width p) value convert →
  (∀ y q, in_width (property_width p) (value y) = true →
          property_get q (set x y) = if decide (q = p) then value y else property_get q x) →
  set_behaves p x val.
Proof.
  intros Hset Hconv Hget. unfold set_behaves. rewrite Hset. unfold assign.
  specialize (Hconv val). destruct (convert val) as [y|e].
  - destruct Hconv as [Hw Hy]. rewrite Hw. split; [done|]. intros q. cbn [fst].
    rewrite Hget by (by rewrite Hy). by rewrite Hy.
  - by rewrite Hconv.
Qed.

Context {T : Type} `{!Accessors T} `{!AccessorLaws T}.

(** A script: assignments one after another, errors caught and ignored. *)
Definition run_script (x : T) (script : list (property * BigInt)) : T :=
  foldl (λ x s, (property_set s.1 x s.2).1) x script.

(** The value a script leaves in a property: the last it assigned that fits. *)
Definition last_fitting (p : property) (init : Z) (script : list (property * BigInt)) : Z :=
  foldl (λ z s, if decide (p = s.1)
                then if in_width (property_width p) (bigint_value s.2)
                     then bigint_value s.2 else z
                else z) init script.

Lemma run_script_get p script : ∀ x,
  property_get p (run_script x script) = last_fitting p (property_get p x) script.
Proof.
  induction script as [|[q val] script IH]; intros x; [done|]. simpl. rewrite IH. f_equal.
  pose proof (property_set_behaves q x val) as Hb. unfold set_behaves in Hb. simpl.
  destruct (in_width _ _) eqn:Hw.
  - destruct Hb as [_ ->]. destruct (decide (p = q)) as [->|]; [|done]. by rewrite Hw.
  - destruct Hb as [-> _]. destruct (decide (p = q)) as [->|]; [|done]. by rewrite Hw.
Qed.
End accessors.
