(* ===== verification/NodeBudget.v ===== *)
(** * The compute budget of the bindings (crates/node-litesvm/src/compute_budget.rs)

    The getters and setters of the wrapper class [ComputeBudget], one definition
    each, and that together they behave as independent properties. *)

From coqutil Require Import Datatypes.RecordSetters.
From S2P Require Import Prelude Text ComputeBudget NodeUtil.
Import TriangleBracketNotations.

Section budget.
Context `{BigIntApi}.
Implicit Types self : ComputeBudget.

(** [ComputeBudgetOriginal::new_with_defaults(simd_0268_active)] *)
Context (new_with_defaults : bool → ComputeBudget).

Definition cb_new : ComputeBudget := new_with_defaults false.

(** ** Setters *)

Definition cb_set_compute_unit_limit self (val : BigInt) : ComputeBudget * result JsError () :=
  assign bigint_to_u64 (λ self x, self<|compute_unit_limit := x|>) self val.
Definition cb_set_log_64_units self (val : BigInt) : ComputeBudget * result JsError () :=
  assign bigint_to_u64 (λ self x, self<|log_64_units := x|>) self val.
Definition cb_set_create_program_address_units self (val : BigInt) : ComputeBudget * result JsError () :=
  assign bigint_to_u64 (λ self x, self<|create_program_address_units := x|>) self val.
Definition cb_set_invoke_units self (val : BigInt) : ComputeBudget * result JsError () :=
  assign bigint_to_u64 (λ self x, self<|invoke_units := x|>) self val.
Definition cb_set_max_instruction_stack_depth self (val : BigInt) : ComputeBudget * result JsError () :=
  assign bigint_to_usize (λ self x, self<|max_instruction_stack_depth := x|>) self val.
Definition cb_set_max_instruction_trace_length self (val : BigInt) : ComputeBudget * result JsError () :=
  assign bigint_to_usize (λ self x, self<|max_instruction_trace_length := x|>) self val.
Definition cb_set_sha256_base_cost self (val : BigInt) : ComputeBudget * result JsError () :=
  assign bigint_to_u64 (λ self x, self<|sha256_base_cost := x|>) self val.
Definition cb_set_sha256_byte_cost self (val : BigInt) : ComputeBudget * result JsError () :=
  assign bigint_to_u64 (λ self x, self<|sha256_byte_cost := x|>) self val.
Definition cb_set_sha256_max_slices self (val : BigInt) : ComputeBudget * result JsError () :=
  assign bigint_to_u64 (λ self x, self<|sha256_max_slices := x|>) self val.
Definition cb_set_max_call_depth self (val : BigInt) : ComputeBudget * result JsError () :=
  assign bigint_to_usize (λ self x, self<|max_call_depth := x|>) self val.
Definition cb_set_stack_frame_size self (val : BigInt) : ComputeBudget * result JsError () :=
  assign bigint_to_usize (λ self x, self<|stack_frame_size := x|>) self val.
Definition cb_set_log_pubkey_units self (val : BigInt) : ComputeBudget * result JsError () :=
  assign bigint_to_u64 (λ self x, self<|log_pubkey_units := x|>) self val.
Definition cb_set_cpi_bytes_per_unit self (val : BigInt) : ComputeBudget * result JsError () :=
  assign bigint_to_u64 (λ self x, self<|cpi_bytes_per_unit := x|>) self val.
Definition cb_set_sysvar_base_cost self (val : BigInt) : ComputeBudget * result JsError () :=
  assign bigint_to_u64 (λ self x, self<|sysvar_base_cost := x|>) self val.
Definition cb_set_secp256k1_recover_cost self (val : BigInt) : ComputeBudget * result JsError () :=
  assign bigint_to_u64 (λ self x, self<|secp256k1_recover_cost := x|>) self val.
Definition cb_set_syscall_base_cost self (val : BigInt) : ComputeBudget * result JsError () :=
  assign bigint_to_u64 (λ self x, self<|syscall_base_cost := x|>) self val.
Definition cb_set_curve25519_edwards_validate_point_cost self (val : BigInt) : ComputeBudget * result JsError () :=
  assign bigint_to_u64 (λ self x, self<|curve25519_edwards_validate_point_cost := x|>) self val.
Definition cb_set_curve25519_edwards_add_cost self (val : BigInt) : ComputeBudget * result JsError () :=
  assign bigint_to_u64 (λ self x, self<|curve25519_edwards_add_cost := x|>) self val.
Definition cb_set_curve25519_edwards_subtract_cost self (val : BigInt) : ComputeBudget * result JsError () :=
  assign bigint_to_u64 (λ self x, self<|curve25519_edwards_subtract_cost := x|>) self val.
Definition cb_set_curve25519_edwards_multiply_cost self (val : BigInt) : ComputeBudget * result JsError () :=
  assign bigint_to_u64 (λ self x, self<|curve25519_edwards_multiply_cost := x|>) self val.
Definition cb_set_curve25519_edwards_msm_base_cost self (val : BigInt) : ComputeBudget * result JsError () :=
  assign bigint_to_u64 (λ self x, self<|curve25519_edwards_msm_base_cost := x|>) self val.
Definition cb_set_curve25519_edwards_msm_incremental_cost self (val : BigInt) : ComputeBudget * result JsError () :=
  assign bigint_to_u64 (λ self x, self<|curve25519_edwards_msm_incremental_cost := x|>) self val.
Definition cb_set_curve25519_ristretto_validate_point_cost self (val : BigInt) : ComputeBudget * result JsError () :=
  assign bigint_to_u64 (λ self x, self<|curve25519_ristretto_validate_point_cost := x|>) self val.
Definition cb_set_curve25519_ristretto_add_cost self (val : BigInt) : ComputeBudget * result JsError () :=
  assign bigint_to_u64 (λ self x, self<|curve25519_ristretto_add_cost := x|>) self val.
Definition cb_set_curve25519_ristretto_subtract_cost self (val : BigInt) : ComputeBudget * result JsError () :=
  assign bigint_to_u64 (λ self x, self<|curve25519_ristretto_subtract_cost := x|>) self val.
Definition cb_set_curve25519_ristretto_multiply_cost self (val : BigInt) : ComputeBudget * result JsError () :=
  assign bigint_to_u64 (λ self x, self<|curve25519_ristretto_multiply_cost := x|>) self val.
Definition cb_set_curve25519_ristretto_msm_base_cost self (val : BigInt) : ComputeBudget * result JsError () :=
  assign bigint_to_u64 (λ self x, self<|curve25519_ristretto_msm_base_cost := x|>) self val.
Definition cb_set_curve25519_ristretto_msm_incremental_cost self (val : BigInt) : ComputeBudget * result JsError () :=
  assign bigint_to_u64 (λ self x, self<|curve25519_ristretto_msm_incremental_cost := x|>) self val.
Definition cb_set_heap_size self (val : N) : ComputeBudget := self<|heap_size := val|>.
Definition cb_set_heap_cost self (val : BigInt) : ComputeBudget * result JsError () :=
  assign bigint_to_u64 (λ self x, self<|heap_cost := x|>) self val.
Definition cb_set_mem_op_base_cost self (val : BigInt) : ComputeBudget * result JsError () :=
  assign bigint_to_u64 (λ self x, self<|mem_op_base_cost := x|>) self val.
Definition cb_set_alt_bn128_addition_cost self (val : BigInt) : ComputeBudget * result JsError () :=
  assign bigint_to_u64 (λ self x, self<|alt_bn128_g1_addition_cost := x|>) self val.
Definition cb_set_alt_bn128_multiplication_cost self (val : BigInt) : ComputeBudget * result JsError () :=
  assign bigint_to_u64 (λ self x, self<|alt_bn128_g1_multiplication_cost := x|>) self val.
Definition cb_set_alt_bn128_pairing_one_pair_cost_first self (val : BigInt) : ComputeBudget * result JsError () :=
  assign bigint_to_u64 (λ self x, self<|alt_bn128_pairing_one_pair_cost_first := x|>) self val.
Definition cb_set_alt_bn128_pairing_one_pair_cost_other self (val : BigInt) : ComputeBudget * result JsError () :=
  assign bigint_to_u64 (λ self x, self<|alt_bn128_pairing_one_pair_cost_other := x|>) self val.
Definition cb_set_poseidon_cost_coefficient_a self (val : BigInt) : ComputeBudget * result JsError () :=
  assign bigint_to_u64 (λ self x, self<|poseidon_cost_coefficient_a := x|>) self val.
Definition cb_set_poseidon_cost_coefficient_c self (val : BigInt) : ComputeBudget * result JsError () :=
  assign bigint_to_u64 (λ self x, self<|poseidon_cost_coefficient_c := x|>) self val.
Definition cb_set_get_remaining_compute_units_cost self (val : BigInt) : ComputeBudget * result JsError () :=
  assign bigint_to_u64 (λ self x, self<|get_remaining_compute_units_cost := x|>) self val.
Definition cb_set_alt_bn128_g1_compress self (val : BigInt) : ComputeBudget * result JsError () :=
  assign bigint_to_u64 (λ self x, self<|alt_bn128_g1_compress := x|>) self val.
Definition cb_set_alt_bn128_g1_decompress self (val : BigInt) : ComputeBudget * result JsError () :=
  assign bigint_to_u64 (λ self x, self<|alt_bn128_g1_decompress := x|>) self val.
Definition cb_set_alt_bn128_g2_compress self (val : BigInt) : ComputeBudget * result JsError () :=
  assign bigint_to_u64 (λ self x, self<|alt_bn128_g2_compress := x|>) self val.
Definition cb_set_alt_bn128_g2_decompress self (val : BigInt) : ComputeBudget * result JsError () :=
  assign bigint_to_u64 (λ self x, self<|alt_bn128_g2_decompress := x|>) self val.

(** ** Getters *)

Definition cb_compute_unit_limit self : N := compute_unit_limit self.
Definition cb_log_64_units self : N := log_64_units self.
Definition cb_create_program_address_units self : N := create_program_address_units self.
Definition cb_invoke_units self : N := invoke_units self.
Definition cb_max_instruction_stack_depth self : N := max_instruction_stack_depth self.
Definition cb_max_instruction_trace_length self : N := max_instruction_trace_length self.
Definition cb_sha256_base_cost self : N := sha256_base_cost self.
Definition cb_sha256_byte_cost self : N := sha256_byte_cost self.
Definition cb_sha256_max_slices self : N := sha256_max_slices self.
Definition cb_max_call_depth self : N := max_call_depth self.
Definition cb_stack_frame_size self : N := stack_frame_size self.
Definition cb_log_pubkey_units self : N := log_pubkey_units self.
Definition cb_cpi_bytes_per_unit self : N := cpi_bytes_per_unit self.
Definition cb_sysvar_base_cost self : N := sysvar_base_cost self.
Definition cb_secp256k1_recover_cost self : N := secp256k1_recover_cost self.
Definition cb_syscall_base_cost self : N := syscall_base_cost self.
Definition cb_curve25519_edwards_validate_point_cost self : N := curve25519_edwards_validate_point_cost self.
Definition cb_curve25519_edwards_add_cost self : N := curve25519_edwards_add_cost self.
Definition cb_curve25519_edwards_subtract_cost self : N := curve25519_edwards_subtract_cost self.
Definition cb_curve25519_edwards_multiply_cost self : N := curve25519_edwards_multiply_cost self.
Definition cb_curve25519_edwards_msm_base_cost self : N := curve25519_edwards_msm_base_cost self.
Definition cb_curve25519_edwards_msm_incremental_cost self : N := curve25519_edwards_msm_incremental_cost self.
Definition cb_curve25519_ristretto_validate_point_cost self : N := curve25519_ristretto_validate_point_cost self.
Definition cb_curve25519_ristretto_add_cost self : N := curve25519_ristretto_add_cost self.
Definition cb_curve25519_ristretto_subtract_cost self : N := curve25519_ristretto_subtract_cost self.
Definition cb_curve25519_ristretto_multiply_cost self : N := curve25519_ristretto_multiply_cost self.
Definition cb_curve25519_ristretto_msm_base_cost self : N := curve25519_ristretto_msm_base_cost self.
Definition cb_curve25519_ristretto_msm_incremental_cost self : N := curve25519_ristretto_msm_incremental_cost self.
Definition cb_heap_size self : N := heap_size self.
Definition cb_heap_cost self : N := heap_cost self.
Definition cb_mem_op_base_cost self : N := mem_op_base_cost self.
Definition cb_alt_bn128_addition_cost self : N := alt_bn128_g1_addition_cost self.
Definition cb_alt_bn128_multiplication_cost self : N := alt_bn128_g1_multiplication_cost self.
Definition cb_alt_bn128_pairing_one_pair_cost_first self : N := alt_bn128_pairing_one_pair_cost_first self.
Definition cb_alt_bn128_pairing_one_pair_cost_other self : N := alt_bn128_pairing_one_pair_cost_other self.
Definition cb_poseidon_cost_coefficient_a self : N := poseidon_cost_coefficient_a self.
Definition cb_poseidon_cost_coefficient_c self : N := poseidon_cost_coefficient_c self.
Definition cb_remaining_compute_units_cost self : N := get_remaining_compute_units_cost self.
Definition cb_alt_bn128_g1_compress self : N := alt_bn128_g1_compress self.
Definition cb_alt_bn128_g1_decompress self : N := alt_bn128_g1_decompress self.
Definition cb_alt_bn128_g2_compress self : N := alt_bn128_g2_compress self.
Definition cb_alt_bn128_g2_decompress self : N := alt_bn128_g2_decompress self.

(** ** The class as properties *)

Inductive BudgetProperty : Type :=
| P_compute_unit_limit
| P_log_64_units
| P_create_program_address_units
| P_invoke_units
| P_max_instruction_stack_depth
| P_max_instruction_trace_length
| P_sha256_base_cost
| P_sha256_byte_cost
| P_sha256_max_slices
| P_max_call_depth
| P_stack_frame_size
| P_log_pubkey_units
| P_cpi_bytes_per_unit
| P_sysvar_base_cost
| P_secp256k1_recover_cost
| P_syscall_base_cost
| P_curve25519_edwards_validate_point_cost
| P_curve25519_edwards_add_cost
| P_curve25519_edwards_subtract_cost
| P_curve25519_edwards_multiply_cost
| P_curve25519_edwards_msm_base_cost
| P_curve25519_edwards_msm_incremental_cost
| P_curve25519_ristretto_validate_point_cost
| P_curve25519_ristretto_add_cost
| P_curve25519_ristretto_subtract_cost
| P_curve25519_ristretto_multiply_cost
| P_curve25519_ristretto_msm_base_cost
| P_curve25519_ristretto_msm_incremental_cost
| P_heap_cost
| P_mem_op_base_cost
| P_alt_bn128_addition_cost
| P_alt_bn128_multiplication_cost
| P_alt_bn128_pairing_one_pair_cost_first
| P_alt_bn128_pairing_one_pair_cost_other
| P_poseidon_cost_coefficient_a
| P_poseidon_cost_coefficient_c
| P_get_remaining_compute_units_cost
| P_alt_bn128_g1_compress
| P_alt_bn128_g1_decompress
| P_alt_bn128_g2_compress
| P_alt_bn128_g2_decompress.

#[local] Instance BudgetProperty_eq_dec : EqDecision BudgetProperty.
Proof. solve_decision. Defined.

Definition budget_width (p : BudgetProperty) : Width :=
  match p with
  | P_max_instruction_stack_depth | P_max_instruction_trace_length
  | P_max_call_depth | P_stack_frame_size => Usize
  | _ => U64
  end.

Definition budget_get (p : BudgetProperty) self : N :=
  match p with
  | P_compute_unit_limit => cb_compute_unit_limit self
  | P_log_64_units => cb_log_64_units self
  | P_create_program_address_units => cb_create_program_address_units self
  | P_invoke_units => cb_invoke_units self
  | P_max_instruction_stack_depth => cb_max_instruction_stack_depth self
  | P_max_instruction_trace_length => cb_max_instruction_trace_length self
  | P_sha256_base_cost => cb_sha256_base_cost self
  | P_sha256_byte_cost => cb_sha256_byte_cost self
  | P_sha256_max_slices => cb_sha256_max_slices self
  | P_max_call_depth => cb_max_call_depth self
  | P_stack_frame_size => cb_stack_frame_size self
  | P_log_pubkey_units => cb_log_pubkey_units self
  | P_cpi_bytes_per_unit => cb_cpi_bytes_per_unit self
  | P_sysvar_base_cost => cb_sysvar_base_cost self
  | P_secp256k1_recover_cost => cb_secp256k1_recover_cost self
  | P_syscall_base_cost => cb_syscall_base_cost self
  | P_curve25519_edwards_validate_point_cost => cb_curve25519_edwards_validate_point_cost self
  | P_curve25519_edwards_add_cost => cb_curve25519_edwards_add_cost self
  | P_curve25519_edwards_subtract_cost => cb_curve25519_edwards_subtract_cost self
  | P_curve25519_edwards_multiply_cost => cb_curve25519_edwards_multiply_cost self
  | P_curve25519_edwards_msm_base_cost => cb_curve25519_edwards_msm_base_cost self
  | P_curve25519_edwards_msm_incremental_cost => cb_curve25519_edwards_msm_incremental_cost self
  | P_curve25519_ristretto_validate_point_cost => cb_curve25519_ristretto_validate_point_cost self
  | P_curve25519_ristretto_add_cost => cb_curve25519_ristretto_add_cost self
  | P_curve25519_ristretto_subtract_cost => cb_curve25519_ristretto_subtract_cost self
  | P_curve25519_ristretto_multiply_cost => cb_curve25519_ristretto_multiply_cost self
  | P_curve25519_ristretto_msm_base_cost => cb_curve25519_ristretto_msm_base_cost self
  | P_curve25519_ristretto_msm_incremental_cost => cb_curve25519_ristretto_msm_incremental_cost self
  | P_heap_cost => cb_heap_cost self
  | P_mem_op_base_cost => cb_mem_op_base_cost self
  | P_alt_bn128_addition_cost => cb_alt_bn128_addition_cost self
  | P_alt_bn128_multiplication_cost => cb_alt_bn128_multiplication_cost self
  | P_alt_bn128_pairing_one_pair_cost_first => cb_alt_bn128_pairing_one_pair_cost_first self
  | P_alt_bn128_pairing_one_pair_cost_other => cb_alt_bn128_pairing_one_pair_cost_other self
  | P_poseidon_cost_coefficient_a => cb_poseidon_cost_coefficient_a self
  | P_poseidon_cost_coefficient_c => cb_poseidon_cost_coefficient_c self
  | P_get_remaining_compute_units_cost => cb_remaining_compute_units_cost self
  | P_alt_bn128_g1_compress => cb_alt_bn128_g1_compress self
  | P_alt_bn128_g1_decompress => cb_alt_bn128_g1_decompress self
  | P_alt_bn128_g2_compress => cb_alt_bn128_g2_compress self
  | P_alt_bn128_g2_decompress => cb_alt_bn128_g2_decompress self
  end.

Definition budget_set (p : BudgetProperty) self (val : BigInt)
    : ComputeBudget * result JsError () :=
  match p with
  | P_compute_unit_limit => cb_set_compute_unit_limit self val
  | P_log_64_units => cb_set_log_64_units self val
  | P_create_program_address_units => cb_set_create_program_address_units self val
  | P_invoke_units => cb_set_invoke_units self val
  | P_max_instruction_stack_depth => cb_set_max_instruction_stack_depth self val
  | P_max_instruction_trace_length => cb_set_max_instruction_trace_length self val
  | P_sha256_base_cost => cb_set_sha256_base_cost self val
  | P_sha256_byte_cost => cb_set_sha256_byte_cost self val
  | P_sha256_max_slices => cb_set_sha256_max_slices self val
  | P_max_call_depth => cb_set_max_call_depth self val
  | P_stack_frame_size => cb_set_stack_frame_size self val
  | P_log_pubkey_units => cb_set_log_pubkey_units self val
  | P_cpi_bytes_per_unit => cb_set_cpi_bytes_per_unit self val
  | P_sysvar_base_cost => cb_set_sysvar_base_cost self val
  | P_secp256k1_recover_cost => cb_set_secp256k1_recover_cost self val
  | P_syscall_base_cost => cb_set_syscall_base_cost self val
  | P_curve25519_edwards_validate_point_cost => cb_set_curve25519_edwards_validate_point_cost self val
  | P_curve25519_edwards_add_cost => cb_set_curve25519_edwards_add_cost self val
  | P_curve25519_edwards_subtract_cost => cb_set_curve25519_edwards_subtract_cost self val
  | P_curve25519_edwards_multiply_cost => cb_set_curve25519_edwards_multiply_cost self val
  | P_curve25519_edwards_msm_base_cost => cb_set_curve25519_edwards_msm_base_cost self val
  | P_curve25519_edwards_msm_incremental_cost => cb_set_curve25519_edwards_msm_incremental_cost self val
  | P_curve25519_ristretto_validate_point_cost => cb_set_curve25519_ristretto_validate_point_cost self val
  | P_curve25519_ristretto_add_cost => cb_set_curve25519_ristretto_add_cost self val
  | P_curve25519_ristretto_subtract_cost => cb_set_curve25519_ristretto_subtract_cost self val
  | P_curve25519_ristretto_multiply_cost => cb_set_curve25519_ristretto_multiply_cost self val
  | P_curve25519_ristretto_msm_base_cost => cb_set_curve25519_ristretto_msm_base_cost self val
  | P_curve25519_ristretto_msm_incremental_cost => cb_set_curve25519_ristretto_msm_incremental_cost self val
  | P_heap_cost => cb_set_heap_cost self val
  | P_mem_op_base_cost => cb_set_mem_op_base_cost self val
  | P_alt_bn128_addition_cost => cb_set_alt_bn128_addition_cost self val
  | P_alt_bn128_multiplication_cost => cb_set_alt_bn128_multiplication_cost self val
  | P_alt_bn128_pairing_one_pair_cost_first => cb_set_alt_bn128_pairing_one_pair_cost_first self val
  | P_alt_bn128_pairing_one_pair_cost_other => cb_set_alt_bn128_pairing_one_pair_cost_other self val
  | P_poseidon_cost_coefficient_a => cb_set_poseidon_cost_coefficient_a self val
  | P_poseidon_cost_coefficient_c => cb_set_poseidon_cost_coefficient_c self val
  | P_get_remaining_compute_units_cost => cb_set_get_remaining_compute_units_cost self val
  | P_alt_bn128_g1_compress => cb_set_alt_bn128_g1_compress self val
  | P_alt_bn128_g1_decompress => cb_set_alt_bn128_g1_decompress self val
  | P_alt_bn128_g2_compress => cb_set_alt_bn128_g2_compress self val
  | P_alt_bn128_g2_decompress => cb_set_alt_bn128_g2_decompress self val
  end.

#[export] Instance budget_accessors : Accessors ComputeBudget := {
  property := BudgetProperty;
  property_width := budget_width;
  property_get p self := Z.of_N (budget_get p self);
  property_set := budget_set }.

Context `{!BigIntLaws}.

(** One goal per pair of properties. *)
Ltac budget_case :=
  eapply assign_behaves with (value := Z.of_N);
  [reflexivity|simpl; auto with svm_node|intros y q _; destruct q; reflexivity].

#[export] Instance budget_accessor_laws : AccessorLaws ComputeBudget.
Proof. constructor. intros p x val. destruct p; budget_case. Qed.

Lemma budget_set_heap_size p self val : heap_size (budget_set p self val).1 = heap_size self.
Proof. destruct p; cbv [budget_set]; apply assign_keeps; reflexivity. Qed.

(** C29.  The properties of a compute budget are independent variables.  After any
    sequence of assignments, refused ones included, each of the 41 [BigInt]
    properties reads as the last value assigned to it that its Rust type holds, or
    as before when there was none; no assignment moves the heap size, and setting
    the heap size moves nothing else. *)
Theorem budget_properties_independent self
  (script : list (property (T := ComputeBudget) * BigInt)) (p : property (T := ComputeBudget)) n :
  Z.of_N (budget_get p (run_script self script))
  = last_fitting p (Z.of_N (budget_get p self)) script ∧
  cb_heap_size (run_script self script) = cb_heap_size self ∧
  cb_heap_size (cb_set_heap_size self n) = n ∧
  budget_get p (cb_set_heap_size self n) = budget_get p self.
Proof.
  split_and!.
  - apply (run_script_get p script self).
  - unfold cb_heap_size. revert self. induction script as [|[q val] script IH]; intros self; [done|].
    simpl. by rewrite IH, budget_set_heap_size.
  - done.
  - by destruct p.
Qed.
End budget.
