(* ===== verification/NodeTypes.v ===== *)
(** * The wrapper classes of the bindings (crates/node-litesvm/src)

    [Account], [FeatureSet], the transaction metadata and the sysvars as JavaScript
    sees them: account.rs, feature_set.rs, transaction_metadata.rs and sysvar/.  A
    wrapper is the Rust struct it wraps, a [Uint8Array] its bytes. *)

From coqutil Require Import Datatypes.RecordSetters.
From Stdlib Require Import Floats.SpecFloat.
From S2P Require Import Prelude Errors ComputeBudget Runtime RentState Utils Types History.
From S2P Require Import EpochStake AccountsDb Vm InnerInstructions Features Svm.
From S2P Require Import Text Bytes F64 FormatLogs NodeErrors NodeUtil.
Import TriangleBracketNotations.

(** The public fields of [solana_epoch_rewards::EpochRewards]. *)
Record EpochRewardsData : Type := {
  distribution_starting_block_height : N;
  num_partitions : N;
  parent_blockhash : hash;
  total_points : N;
  total_rewards : N;
  distributed_rewards : N;
  active : bool }.

(** The public fields of [solana_epoch_schedule::EpochSchedule]. *)
Record EpochScheduleData : Type := {
  slots_per_epoch : N;
  leader_schedule_slot_offset : N;
  warmup : bool;
  first_normal_epoch : N;
  first_normal_slot : N }.

(** [solana_stake_history::StakeHistoryEntry] *)
Record StakeHistoryEntry : Type := {
  effective : N;
  activating : N;
  deactivating : N }.

(** [solana_slot_history::Check] *)
Inductive Check : Type := CheckFuture | CheckTooOld | CheckFound | CheckNotFound.

(** The parts of the Solana crates that only the bindings use. *)
Class NodeApi `{Host} : Type := {
  (** [Address::try_from(&[u8])], with the text of its error *)
  address_try_from : bytes → result str address;
  address_to_bytes : address → bytes;
  hash_from_str : str → result str hash;
  hash_to_string : hash → str;
  signature_try_from : bytes → option signature;
  signature_to_bytes : signature → bytes;
  litesvm_error_display : LiteSVMError → str;
  fs_all_enabled : FeatureSet;
  fs_activated_slot : FeatureSet → address → option N;
  fs_deactivate : FeatureSet → address → FeatureSet;
  epoch_rewards_fields : EpochRewards → EpochRewardsData;
  epoch_rewards_of : EpochRewardsData → EpochRewards;
  epoch_schedule_fields : EpochSchedule → EpochScheduleData;
  epoch_schedule_of : EpochScheduleData → EpochSchedule;
  last_restart_slot_of : N → LastRestartSlot;
  last_restart_slot : LastRestartSlot → N;
  slot_hashes_from_iter : list (N * hash) → SlotHashes;
  slot_hashes_slice : SlotHashes → list (N * hash);
  (** [SlotHistory { bits: BitVec::from(bits), next_slot }] *)
  slot_history_of : list N → N → SlotHistory;
  slot_history_blocks : SlotHistory → list N;
  slot_history_next_slot : SlotHistory → N;
  slot_history_add : SlotHistory → N → SlotHistory;
  slot_history_check : SlotHistory → N → Check;
  slot_history_oldest : SlotHistory → N;
  slot_history_newest : SlotHistory → N;
  stake_history_get : StakeHistory → N → option StakeHistoryEntry;
  stake_history_add : StakeHistory → N → StakeHistoryEntry → StakeHistory;
  rent_free : Rent;
  ACCOUNT_STORAGE_OVERHEAD : N }.

(** An address is its 32 bytes; the structs are their public fields. *)
Class NodeLaws `{NodeApi} : Prop := {
  address_try_from_to_bytes a : address_try_from (address_to_bytes a) = Ok a;
  hash_from_to_string h : hash_from_str (hash_to_string h) = Ok h;
  hash_to_from_string t h : hash_from_str t = Ok h → hash_to_string h = t;
  slot_hashes_slice_from_iter l : slot_hashes_slice (slot_hashes_from_iter l) = l;
  epoch_rewards_fields_of x : epoch_rewards_fields (epoch_rewards_of x) = x;
  epoch_schedule_fields_of x : epoch_schedule_fields (epoch_schedule_of x) = x;
  last_restart_slot_field n : last_restart_slot (last_restart_slot_of n) = n;
  slot_hashes_codec_laws :: CodecLaws SlotHashes;
  epoch_rewards_codec_laws :: CodecLaws EpochRewards;
  epoch_schedule_codec_laws :: CodecLaws EpochSchedule;
  last_restart_slot_codec_laws :: CodecLaws LastRestartSlot;
  slot_history_codec_laws :: CodecLaws SlotHistory;
  stake_history_codec_laws :: CodecLaws StakeHistory }.

Section wrappers.
Context `{NodeApi} `{BigIntApi}.

(** ** Conversions of byte arrays and strings *)

(** [Address::try_from(address).unwrap()] *)
Definition convert_pubkey (b : bytes) : outcome address :=
  match address_try_from b with Ok a => Ret a | Err _ => Panic end.

Definition try_parse_hash (raw : str) : result JsError hash :=
  map_err (λ e, generic_failure (lit "Failed to parse blockhash: " ++ e)) (hash_from_str raw).

(** ** Account *)

Definition js_account_new (lamports : BigInt) (data owner : bytes) (executable : bool)
    (rent_epoch : BigInt) : result JsError account :=
  lamports ← bigint_to_u64 lamports;
  owner ← map_err generic_failure (address_try_from owner);
  rent_epoch ← bigint_to_u64 rent_epoch;
  Ok (Account lamports data owner executable rent_epoch).

Definition js_account_lamports (self : account) : N := lamports self.
Definition js_account_data (self : account) : bytes := data self.
Definition js_account_owner (self : account) : bytes := address_to_bytes (owner self).
Definition js_account_executable (self : account) : bool := executable self.
Definition js_account_rent_epoch (self : account) : N := rent_epoch self.

(** ** FeatureSet *)

Definition js_fs_new : FeatureSet := fs_default.
Definition js_fs_all_enabled : FeatureSet := fs_all_enabled.

Definition js_fs_is_active (self : FeatureSet) (feature_id : bytes) : outcome bool :=
  k ← convert_pubkey feature_id; Ret (fs_is_active self k).

Definition js_fs_activated_slot (self : FeatureSet) (feature_id : bytes) : outcome (option N) :=
  k ← convert_pubkey feature_id; Ret (fs_activated_slot self k).

Definition js_fs_activate (self : FeatureSet) (feature_id : bytes) (slot : BigInt)
    : outcome FeatureSet :=
  let slot_u64 := match bigint_to_u64 slot with Ok n => n | Err _ => 0%N end in
  k ← convert_pubkey feature_id; Ret (fs_activate self k slot_u64).

Definition js_fs_deactivate (self : FeatureSet) (feature_id : bytes) : outcome FeatureSet :=
  k ← convert_pubkey feature_id; Ret (fs_deactivate self k).

Definition js_fs_get_active_features (self : FeatureSet) : list bytes :=
  (λ x, address_to_bytes x.1) <$> fs_active self.
Definition js_fs_get_inactive_features (self : FeatureSet) : list bytes :=
  address_to_bytes <$> fs_inactive self.
Definition js_fs_get_active_features_count (self : FeatureSet) : N :=
  (len (fs_active self) mod 4294967296)%N.
Definition js_fs_get_inactive_features_count (self : FeatureSet) : N :=
  (len (fs_inactive self) mod 4294967296)%N.

(** ** Transaction metadata *)

Definition js_ci_new (program_id_index : N) (accounts : list N) (data : bytes)
    : CompiledInstruction :=
  {| program_id_index := program_id_index; ix_accounts := accounts; ix_data := data |}.
Definition js_ci_program_id_index (self : CompiledInstruction) : N := program_id_index self.
Definition js_ci_accounts (self : CompiledInstruction) : list N := ix_accounts self.
Definition js_ci_data (self : CompiledInstruction) : bytes := ix_data self.

Definition js_ii_instruction (self : InnerInstruction) : CompiledInstruction :=
  ii_instruction self.
Definition js_ii_stack_height (self : InnerInstruction) : N := ii_stack_height self.

Definition js_rd_program_id (self : TransactionReturnData) : bytes :=
  address_to_bytes (rd_program_id self).
Definition js_rd_data (self : TransactionReturnData) : bytes := rd_data self.

Definition js_meta_signature (self : TransactionMetadata) : bytes :=
  signature_to_bytes (meta_signature self).
Definition js_meta_logs (self : TransactionMetadata) : list str := logs self.
Definition js_meta_inner_instructions (self : TransactionMetadata)
    : list (list InnerInstruction) := inner_instructions self.
Definition js_meta_compute_units_consumed (self : TransactionMetadata) : N :=
  compute_units_consumed self.
Definition js_meta_return_data (self : TransactionMetadata) : TransactionReturnData :=
  return_data self.

Definition js_failed_err (self : FailedTransactionMetadata) : NodeTransactionError :=
  convert_transaction_error (failed_err self).
Definition js_failed_meta (self : FailedTransactionMetadata) : TransactionMetadata :=
  failed_meta self.

Record AddressAndAccount : Type := { aa_address : bytes; aa_account : account }.
Definition js_aa_account (self : AddressAndAccount) : account := aa_account self.

Definition js_sim_meta (self : SimulatedTransactionInfo) : TransactionMetadata := sim_meta self.
Definition js_sim_post_accounts (self : SimulatedTransactionInfo) : list AddressAndAccount :=
  (λ x, {| aa_address := address_to_bytes x.1; aa_account := x.2 |}) <$> sim_post_accounts self.
End wrappers.

(** [pretty_logs] of the metadata. *)
Definition js_meta_pretty_logs `{UnicodeCase} `{AnsiTerm} (self : TransactionMetadata) : str :=
  pretty_logs self.
