(* ===== verification/NodeSysvars.v ===== *)
(** * The sysvar classes of the bindings (crates/node-litesvm/src/sysvar)

    [Clock], [EpochRewards], [EpochSchedule], [Rent], [SlotHash], [SlotHistory] and
    [StakeHistory]: constructors, getters and setters, and the methods of [Rent]. *)

From coqutil Require Import Datatypes.RecordSetters.
From Stdlib Require Import Floats.SpecFloat.
From S2P Require Import Prelude Errors ComputeBudget Runtime RentState Utils Types History.
From S2P Require Import EpochStake AccountsDb Vm InnerInstructions Features Svm.
From S2P Require Import Text Bytes F64 NodeErrors NodeUtil NodeTypes.
Import TriangleBracketNotations.

Section sysvars.
Context `{NodeApi} `{BigIntApi}.

(** ** Clock *)

Definition js_clock_new (slot epoch_start_timestamp epoch leader_schedule_epoch
    unix_timestamp : BigInt) : result JsError Clock :=
  slot ← bigint_to_u64 slot;
  epoch_start_timestamp ← bigint_to_i64 epoch_start_timestamp;
  epoch ← bigint_to_u64 epoch;
  leader_schedule_epoch ← bigint_to_u64 leader_schedule_epoch;
  unix_timestamp ← bigint_to_i64 unix_timestamp;
  Ok {| slot := slot; epoch_start_timestamp := epoch_start_timestamp; epoch := epoch;
        leader_schedule_epoch := leader_schedule_epoch; unix_timestamp := unix_timestamp |}.

Definition js_clock_slot (self : Clock) : N := slot self.
Definition js_clock_set_slot (self : Clock) (val : BigInt) : Clock * result JsError () :=
  assign bigint_to_u64 (λ self x, self<|slot := x|>) self val.
Definition js_clock_epoch (self : Clock) : N := epoch self.
Definition js_clock_set_epoch (self : Clock) (val : BigInt) : Clock * result JsError () :=
  assign bigint_to_u64 (λ self x, self<|epoch := x|>) self val.
Definition js_clock_epoch_start_timestamp (self : Clock) : BigInt :=
  bigint_from_i64 (epoch_start_timestamp self).
Definition js_clock_set_epoch_start_timestamp (self : Clock) (val : BigInt)
    : Clock * result JsError () :=
  assign bigint_to_i64 (λ self x, self<|epoch_start_timestamp := x|>) self val.
Definition js_clock_leader_schedule_epoch (self : Clock) : N := leader_schedule_epoch self.
Definition js_clock_set_leader_schedule_epoch (self : Clock) (val : BigInt)
    : Clock * result JsError () :=
  assign bigint_to_u64 (λ self x, self<|leader_schedule_epoch := x|>) self val.
Definition js_clock_unix_timestamp (self : Clock) : BigInt :=
  bigint_from_i64 (unix_timestamp self).
Definition js_clock_set_unix_timestamp (self : Clock) (val : BigInt)
    : Clock * result JsError () :=
  assign bigint_to_i64 (λ self x, self<|unix_timestamp := x|>) self val.

(** ** EpochRewards *)

Definition js_er_new (distribution_starting_block_height num_partitions : BigInt)
    (parent_blockhash : str) (total_points total_rewards distributed_rewards : BigInt)
    (active : bool) : result JsError EpochRewardsData :=
  hash_parsed ← try_parse_hash parent_blockhash;
  height ← bigint_to_u64 distribution_starting_block_height;
  num_partitions ← bigint_to_u64 num_partitions;
  total_points ← bigint_to_u128 total_points;
  total_rewards ← bigint_to_u64 total_rewards;
  distributed_rewards ← bigint_to_u64 distributed_rewards;
  Ok {| distribution_starting_block_height := height; num_partitions := num_partitions;
        parent_blockhash := hash_parsed; total_points := total_points;
        total_rewards := total_rewards; distributed_rewards := distributed_rewards;
        active := active |}.

Definition js_er_distribution_starting_block_height (self : EpochRewardsData) : N :=
  distribution_starting_block_height self.
Definition js_er_set_distribution_starting_block_height (self : EpochRewardsData)
    (val : BigInt) : EpochRewardsData * result JsError () :=
  assign bigint_to_u64 (λ self x, self<|distribution_starting_block_height := x|>) self val.
Definition js_er_num_partitions (self : EpochRewardsData) : N := num_partitions self.
Definition js_er_set_num_partitions (self : EpochRewardsData) (val : BigInt)
    : EpochRewardsData * result JsError () :=
  assign bigint_to_u64 (λ self x, self<|num_partitions := x|>) self val.
Definition js_er_parent_blockhash (self : EpochRewardsData) : str :=
  hash_to_string (parent_blockhash self).
Definition js_er_set_parent_blockhash (self : EpochRewardsData) (val : str)
    : EpochRewardsData * result JsError () :=
  match try_parse_hash val with
  | Err e => (self, Err e)
  | Ok hash_parsed => (self<|parent_blockhash := hash_parsed|>, Ok ())
  end.
Definition js_er_total_points (self : EpochRewardsData) : N := total_points self.
Definition js_er_set_total_points (self : EpochRewardsData) (val : BigInt)
    : EpochRewardsData * result JsError () :=
  assign bigint_to_u128 (λ self x, self<|total_points := x|>) self val.
Definition js_er_total_rewards (self : EpochRewardsData) : N := total_rewards self.
Definition js_er_set_total_rewards (self : EpochRewardsData) (val : BigInt)
    : EpochRewardsData * result JsError () :=
  assign bigint_to_u64 (λ self x, self<|total_rewards := x|>) self val.
Definition js_er_distributed_rewards (self : EpochRewardsData) : N := distributed_rewards self.
Definition js_er_set_distributed_rewards (self : EpochRewardsData) (val : BigInt)
    : EpochRewardsData * result JsError () :=
  assign bigint_to_u64 (λ self x, self<|distributed_rewards := x|>) self val.
Definition js_er_active (self : EpochRewardsData) : bool := active self.
Definition js_er_set_active (self : EpochRewardsData) (val : bool) : EpochRewardsData :=
  self<|active := val|>.

(** ** EpochSchedule *)

Definition js_es_new (slots_per_epoch leader_schedule_slot_offset : BigInt) (warmup : bool)
    (first_normal_epoch first_normal_slot : BigInt) : result JsError EpochScheduleData :=
  slots_per_epoch ← bigint_to_u64 slots_per_epoch;
  leader_schedule_slot_offset ← bigint_to_u64 leader_schedule_slot_offset;
  first_normal_epoch ← bigint_to_u64 first_normal_epoch;
  first_normal_slot ← bigint_to_u64 first_normal_slot;
  Ok {| slots_per_epoch := slots_per_epoch;
        leader_schedule_slot_offset := leader_schedule_slot_offset; warmup := warmup;
        first_normal_epoch := first_normal_epoch; first_normal_slot := first_normal_slot |}.

Definition js_es_slots_per_epoch (self : EpochScheduleData) : N := slots_per_epoch self.
Definition js_es_set_slots_per_epoch (self : EpochScheduleData) (val : BigInt)
    : EpochScheduleData * result JsError () :=
  assign bigint_to_u64 (λ self x, self<|slots_per_epoch := x|>) self val.
Definition js_es_leader_schedule_slot_offset (self : EpochScheduleData) : N :=
  leader_schedule_slot_offset self.
Definition js_es_set_leader_schedule_slot_offset (self : EpochScheduleData) (val : BigInt)
    : EpochScheduleData * result JsError () :=
  assign bigint_to_u64 (λ self x, self<|leader_schedule_slot_offset := x|>) self val.
Definition js_es_warmup (self : EpochScheduleData) : bool := warmup self.
Definition js_es_set_warmup (self : EpochScheduleData) (val : bool) : EpochScheduleData :=
  self<|warmup := val|>.
Definition js_es_first_normal_epoch (self : EpochScheduleData) : N := first_normal_epoch self.
Definition js_es_set_first_normal_epoch (self : EpochScheduleData) (val : BigInt)
    : EpochScheduleData * result JsError () :=
  assign bigint_to_u64 (λ self x, self<|first_normal_epoch := x|>) self val.
Definition js_es_first_normal_slot (self : EpochScheduleData) : N := first_normal_slot self.
Definition js_es_set_first_normal_slot (self : EpochScheduleData) (val : BigInt)
    : EpochScheduleData * result JsError () :=
  assign bigint_to_u64 (λ self x, self<|first_normal_slot := x|>) self val.

(** ** Rent *)

Definition js_rent_new (lamports_per_byte_year : BigInt) (exemption_threshold : f64)
    (burn_percent : N) : result JsError Rent :=
  lamports_per_byte ← bigint_to_u64 lamports_per_byte_year;
  Ok {| lamports_per_byte := lamports_per_byte;
        exemption_threshold := f64_to_le_bytes exemption_threshold;
        burn_percent := burn_percent |}.

Definition js_rent_new_default : Rent := default_rent.

Definition js_rent_lamports_per_byte_year (self : Rent) : N := lamports_per_byte self.
Definition js_rent_set_lamports_per_byte_year (self : Rent) (val : BigInt)
    : Rent * result JsError () :=
  assign bigint_to_u64 (λ self x, self<|lamports_per_byte := x|>) self val.
Definition js_rent_exemption_threshold (self : Rent) : f64 :=
  f64_from_le_bytes (exemption_threshold self).
Definition js_rent_set_exemption_threshold (self : Rent) (val : f64) : Rent :=
  self<|exemption_threshold := f64_to_le_bytes val|>.
Definition js_rent_burn_percent (self : Rent) : N := burn_percent self.
Definition js_rent_set_burn_percent (self : Rent) (val : N) : Rent :=
  self<|burn_percent := val|>.

(** [saturating_sub] is [N]'s subtraction. *)
Definition calculate_burn (self : Rent) (rent_collected : BigInt) : result JsError (N * N) :=
  rent_collected ← bigint_to_u64 rent_collected;
  let burned := (saturating_mul u64_max rent_collected (burn_percent self) / 100)%N in
  Ok (burned, rent_collected - burned)%N.

Definition checked_minimum_balance (self : Rent) (data_len : N) : result JsError N :=
  ok_or (rent_try_minimum_balance self data_len)
    {| status := InvalidArg; reason := lit "maximum permitted data length exceeded" |}.

Definition js_rent_minimum_balance (self : Rent) (data_len : BigInt) : result JsError N :=
  data_len ← bigint_to_usize data_len;
  checked_minimum_balance self data_len.

Definition js_rent_is_exempt (self : Rent) (balance data_len : BigInt) : result JsError bool :=
  balance ← bigint_to_u64 balance;
  data_len ← bigint_to_usize data_len;
  minimum ← checked_minimum_balance self data_len;
  Ok (minimum <=? balance)%N.

(** The sum and the product panic on overflow, as in the debug build. *)
Definition due_amount_inner (self : Rent) (data_len : N) (years_elapsed : f64) : outcome N :=
  size ← unwrap (checked_add u64_max ACCOUNT_STORAGE_OVERHEAD data_len);
  let rent := (size * lamports_per_byte self)%N in
  if (rent <=? u64_max)%N
  then Ret (f64_as_u64 (f64_mul (u64_as_f64 rent) years_elapsed))
  else Panic.

Definition js_rent_due (self : Rent) (balance data_len : BigInt) (years_elapsed : f64)
    : outcome (result JsError (option N)) :=
  match (balance ← bigint_to_u64 balance;
         data_len ← bigint_to_usize data_len;
         minimum ← checked_minimum_balance self data_len;
         Ok (balance, data_len, minimum)) with
  | Err e => Ret (Err e)
  | Ok (balance, data_len, minimum) =>
      if (minimum <=? balance)%N then Ret (Ok None)
      else due ← due_amount_inner self data_len years_elapsed; Ret (Ok (Some due))
  end.

Definition js_rent_due_amount (self : Rent) (data_len : BigInt) (years_elapsed : f64)
    : outcome (result JsError N) :=
  match bigint_to_usize data_len with
  | Err e => Ret (Err e)
  | Ok data_len => due ← due_amount_inner self data_len years_elapsed; Ret (Ok due)
  end.

Definition js_rent_free : Rent := rent_free.
Definition js_rent_with_slots_per_epoch (_slots_per_epoch : BigInt) : result JsError Rent :=
  Ok default_rent.

(** ** SlotHash *)

Record SlotHash : Type := { sh_slot : BigInt; sh_hash : str }.

Definition js_sh_slot (self : SlotHash) : BigInt := sh_slot self.
Definition js_sh_hash (self : SlotHash) : str := sh_hash self.
Definition js_sh_set_slot (self : SlotHash) (x : BigInt) : SlotHash :=
  {| sh_slot := x; sh_hash := sh_hash self |}.
Definition js_sh_set_hash (self : SlotHash) (x : str) : SlotHash :=
  {| sh_slot := sh_slot self; sh_hash := x |}.

(** ** SlotHistory *)

Inductive SlotHistoryCheck : Type := Future | TooOld | Found | NotFound.

Definition slot_history_check_from (c : Check) : SlotHistoryCheck :=
  match c with
  | CheckFuture => Future
  | CheckTooOld => TooOld
  | CheckFound => Found
  | CheckNotFound => NotFound
  end.

Definition js_sy_new (bits : list N) (next_slot : BigInt) : result JsError SlotHistory :=
  next_slot ← bigint_to_u64 next_slot;
  Ok (slot_history_of bits next_slot).
Definition js_sy_new_default : SlotHistory := default_slot_history.
Definition js_sy_bits (self : SlotHistory) : list N := slot_history_blocks self.
Definition js_sy_set_bits (self : SlotHistory) (bits : list N) : SlotHistory :=
  slot_history_of bits (slot_history_next_slot self).
Definition js_sy_next_slot (self : SlotHistory) : N := slot_history_next_slot self.
Definition js_sy_set_next_slot (self : SlotHistory) (slot : BigInt)
    : SlotHistory * result JsError () :=
  assign bigint_to_u64 (λ self x, slot_history_of (slot_history_blocks self) x) self slot.
Definition js_sy_add (self : SlotHistory) (slot : BigInt) : SlotHistory * result JsError () :=
  assign bigint_to_u64 slot_history_add self slot.
Definition js_sy_check (self : SlotHistory) (slot : BigInt) : result JsError SlotHistoryCheck :=
  slot ← bigint_to_u64 slot;
  Ok (slot_history_check_from (slot_history_check self slot)).
Definition js_sy_oldest (self : SlotHistory) : N := slot_history_oldest self.
Definition js_sy_newest (self : SlotHistory) : N := slot_history_newest self.

(** ** StakeHistory *)

Definition js_she_new (effective activating deactivating : BigInt)
    : result JsError StakeHistoryEntry :=
  effective ← bigint_to_u64 effective;
  activating ← bigint_to_u64 activating;
  deactivating ← bigint_to_u64 deactivating;
  Ok {| effective := effective; activating := activating; deactivating := deactivating |}.

Definition js_she_effective (self : StakeHistoryEntry) : N := effective self.
Definition js_she_set_effective (self : StakeHistoryEntry) (val : BigInt)
    : StakeHistoryEntry * result JsError () :=
  assign bigint_to_u64 (λ self x, self<|effective := x|>) self val.
Definition js_she_activating (self : StakeHistoryEntry) : N := activating self.
Definition js_she_set_activating (self : StakeHistoryEntry) (val : BigInt)
    : StakeHistoryEntry * result JsError () :=
  assign bigint_to_u64 (λ self x, self<|effective := x|>) self val.
Definition js_she_deactivating (self : StakeHistoryEntry) : N := deactivating self.
Definition js_she_set_deactivating (self : StakeHistoryEntry) (val : BigInt)
    : StakeHistoryEntry * result JsError () :=
  assign bigint_to_u64 (λ self x, self<|effective := x|>) self val.

Definition js_sth_new : StakeHistory := default_stake_history.
Definition js_sth_get (self : StakeHistory) (epoch : BigInt)
    : result JsError (option StakeHistoryEntry) :=
  epoch ← bigint_to_u64 epoch;
  Ok (stake_history_get self epoch).
Definition js_sth_add (self : StakeHistory) (epoch : BigInt) (entry : StakeHistoryEntry)
    : StakeHistory * result JsError () :=
  assign bigint_to_u64 (λ self epoch, stake_history_add self epoch entry) self epoch.
End sysvars.
