(* ===== verification/NodeProps.v ===== *)
(** * Properties of the sysvar classes of the bindings

    The setters as independent properties, the two that are not, and the arithmetic
    of [Rent]. *)

From coqutil Require Import Datatypes.RecordSetters.
From Stdlib Require Import Floats.SpecFloat.
From S2P Require Import Prelude Errors ComputeBudget Runtime RentState Utils Types History.
From S2P Require Import EpochStake AccountsDb Vm InnerInstructions Features Svm.
From S2P Require Import Text Bytes F64 NodeErrors NodeUtil NodeTypes NodeSysvars.

(** ** The classes as properties *)

Inductive ClockProperty : Type :=
| ClockSlot | ClockEpoch | ClockEpochStart | ClockLeaderEpoch | ClockUnix.
Inductive RewardsProperty : Type :=
| RewardsHeight | RewardsPartitions | RewardsPoints | RewardsTotal | RewardsDistributed.
Inductive ScheduleProperty : Type :=
| ScheduleSlots | ScheduleOffset | ScheduleFirstEpoch | ScheduleFirstSlot.
Inductive EntryProperty : Type := EntryEffective | EntryActivating | EntryDeactivating.

#[export] Instance ClockProperty_eq_dec : EqDecision ClockProperty.
Proof. solve_decision. Defined.
#[export] Instance RewardsProperty_eq_dec : EqDecision RewardsProperty.
Proof. solve_decision. Defined.
#[export] Instance ScheduleProperty_eq_dec : EqDecision ScheduleProperty.
Proof. solve_decision. Defined.
#[export] Instance EntryProperty_eq_dec : EqDecision EntryProperty.
Proof. solve_decision. Defined.

Section classes.
Context `{NodeApi} `{BigIntApi}.

#[export] Instance clock_accessors : Accessors Clock := {
  property := ClockProperty;
  property_width p := match p with ClockEpochStart | ClockUnix => I64 | _ => U64 end;
  property_get p self :=
    match p with
    | ClockSlot => Z.of_N (js_clock_slot self)
    | ClockEpoch => Z.of_N (js_clock_epoch self)
    | ClockEpochStart => bigint_value (js_clock_epoch_start_timestamp self)
    | ClockLeaderEpoch => Z.of_N (js_clock_leader_schedule_epoch self)
    | ClockUnix => bigint_value (js_clock_unix_timestamp self)
    end;
  property_set p :=
    match p with
    | ClockSlot => js_clock_set_slot
    | ClockEpoch => js_clock_set_epoch
    | ClockEpochStart => js_clock_set_epoch_start_timestamp
    | ClockLeaderEpoch => js_clock_set_leader_schedule_epoch
    | ClockUnix => js_clock_set_unix_timestamp
    end }.

#[export] Instance rewards_accessors : Accessors EpochRewardsData := {
  property := RewardsProperty;
  property_width p := match p with RewardsPoints => U128 | _ => U64 end;
  property_get p self := Z.of_N
    match p with
    | RewardsHeight => js_er_distribution_starting_block_height self
    | RewardsPartitions => js_er_num_partitions self
    | RewardsPoints => js_er_total_points self
    | RewardsTotal => js_er_total_rewards self
    | RewardsDistributed => js_er_distributed_rewards self
    end;
  property_set p :=
    match p with
    | RewardsHeight => js_er_set_distribution_starting_block_height
    | RewardsPartitions => js_er_set_num_partitions
    | RewardsPoints => js_er_set_total_points
    | RewardsTotal => js_er_set_total_rewards
    | RewardsDistributed => js_er_set_distributed_rewards
    end }.

#[export] Instance schedule_accessors : Accessors EpochScheduleData := {
  property := ScheduleProperty;
  property_width p := U64;
  property_get p self := Z.of_N
    match p with
    | ScheduleSlots => js_es_slots_per_epoch self
    | ScheduleOffset => js_es_leader_schedule_slot_offset self
    | ScheduleFirstEpoch => js_es_first_normal_epoch self
    | ScheduleFirstSlot => js_es_first_normal_slot self
    end;
  property_set p :=
    match p with
    | ScheduleSlots => js_es_set_slots_per_epoch
    | ScheduleOffset => js_es_set_leader_schedule_slot_offset
    | ScheduleFirstEpoch => js_es_set_first_normal_epoch
    | ScheduleFirstSlot => js_es_set_first_normal_slot
    end }.

#[export] Instance entry_accessors : Accessors StakeHistoryEntry := {
  property := EntryProperty;
  property_width p := U64;
  property_get p self := Z.of_N
    match p with
    | EntryEffective => js_she_effective self
    | EntryActivating => js_she_activating self
    | EntryDeactivating => js_she_deactivating self
    end;
  property_set p :=
    match p with
    | EntryEffective => js_she_set_effective
    | EntryActivating => js_she_set_activating
    | EntryDeactivating => js_she_set_deactivating
    end }.

Context `{!BigIntLaws}.

Lemma i64_property z : in_width I64 z = true → bigint_value (bigint_from_i64 z) = z.
Proof. intros [?%Z.leb_le ?%Z.leb_le]%andb_prop. by apply bigint_from_i64_value. Qed.

Ltac accessor_case :=
  eapply assign_behaves; [reflexivity|simpl; auto with svm_node|];
  intros y q Hy; destruct q; first [reflexivity|exact (i64_property _ Hy)].

#[export] Instance clock_accessor_laws : AccessorLaws Clock.
Proof. constructor. intros p x val. destruct p; accessor_case. Qed.
#[export] Instance rewards_accessor_laws : AccessorLaws EpochRewardsData.
Proof. constructor. intros p x val. destruct p; accessor_case. Qed.
#[export] Instance schedule_accessor_laws : AccessorLaws EpochScheduleData.
Proof. constructor. intros p x val. destruct p; accessor_case. Qed.

(** ** Properties *)

(** The numeric properties of [Clock], [EpochRewards] and [EpochSchedule] are
    independent variables too, at their own widths (64 and 128 bits without sign,
    64 bits with sign for the timestamps): after any script of assignments each
    reads as the last value assigned to it that fits, or as before. *)
Theorem sysvar_properties_independent
  (clock : Clock) (cs : list (property (T := Clock) * BigInt)) (cp : property (T := Clock))
  (rewards : EpochRewardsData) (rs : list (property (T := EpochRewardsData) * BigInt))
  (rp : property (T := EpochRewardsData))
  (schedule : EpochScheduleData) (ss : list (property (T := EpochScheduleData) * BigInt))
  (sp : property (T := EpochScheduleData)) :
  property_get cp (run_script clock cs) = last_fitting cp (property_get cp clock) cs ∧
  property_get rp (run_script rewards rs) = last_fitting rp (property_get rp rewards) rs ∧
  property_get sp (run_script schedule ss) = last_fitting sp (property_get sp schedule) ss.
Proof. split_and!; apply run_script_get. Qed.

(** [StakeHistoryEntry] is different: assigning [activating] or
    [deactivating] reports success, leaves both properties as they were and
    overwrites [effective]. *)
Theorem stake_entry_setters_overwrite_effective (self : StakeHistoryEntry) val n
  (Hval : bigint_to_u64 val = Ok n) :
  js_she_set_activating self val
  = ({| effective := n; activating := js_she_activating self;
        deactivating := js_she_deactivating self |}, Ok ()) ∧
  js_she_set_deactivating self val = js_she_set_activating self val ∧
  (Z.of_N (js_she_activating self) ≠ bigint_value val →
   ¬ set_behaves (T := StakeHistoryEntry) EntryActivating self val).
Proof.
  unfold js_she_set_deactivating, js_she_set_activating, assign. rewrite Hval.
  split_and!; [done..|]. intros Hne Hb. unfold set_behaves in Hb.
  cbn [property_set entry_accessors property_width] in Hb.
  unfold js_she_set_activating, assign in Hb. rewrite Hval in Hb.
  pose proof (bigint_to_u64_converts val) as Hc. rewrite Hval in Hc. destruct Hc as [Hw _].
  rewrite Hw in Hb. destruct Hb as [_ Hb]. by specialize (Hb EntryActivating).
Qed.

(** The split of collected rent.  For a percentage up to 100 the two parts add
    up to what was collected, for every [u64]; the burnt part is the rounded-down
    percentage as long as the product fits a [u64], and never more than it.  A
    [BigInt] outside [u64] is refused. *)
Theorem calculate_burn_splits (self : Rent) (val : BigInt)
  (Hpct : (js_rent_burn_percent self ≤ 100)%N) :
  match calculate_burn self val with
  | Ok (burned, distributed) =>
      let collected := Z.to_N (bigint_value val) in
      let exact := (collected * js_rent_burn_percent self / 100)%N in
      in_width U64 (bigint_value val) = true ∧
      (burned + distributed = collected)%N ∧ (burned ≤ exact)%N ∧
      ((collected * js_rent_burn_percent self ≤ u64_max)%N → burned = exact)
  | Err _ => in_width U64 (bigint_value val) = false
  end.
Proof.
  unfold calculate_burn, js_rent_burn_percent in *.
  pose proof (bigint_to_u64_converts val) as Hc.
  destruct (bigint_to_u64 val) as [n|e]; simpl; [|done]. destruct Hc as [Hw Hv].
  rewrite <-Hv, N2Z.id. set (p := burn_percent self) in *. unfold saturating_mul.
  assert (n * p / 100 ≤ n)%N as Hle.
  { apply N.Div0.div_le_upper_bound. nia. }
  assert (N.min u64_max (n * p) / 100 ≤ n * p / 100)%N as Hmin.
  { apply N.Div0.div_le_mono. lia. }
  split_and!; [by rewrite Hv|lia|done|]. intros Hfit. by rewrite N.min_r.
Qed.

(** Rent is due exactly on accounts that are not exempt: [due] answers [None]
    when [isExempt] answers yes, an amount computed by [dueAmount] when it answers
    no, and throws whenever [isExempt] throws; an amount that overflows [u64] before
    the years are applied panics in both. *)
Theorem rent_due_iff_not_exempt (self : Rent) balance data_len years :
  match js_rent_is_exempt self balance data_len with
  | Err e => js_rent_due self balance data_len years = Ret (Err e)
  | Ok true => js_rent_due self balance data_len years = Ret (Ok None)
  | Ok false =>
      js_rent_due self balance data_len years
      = (r ← js_rent_due_amount self data_len years; Ret (map_ok Some r))
  end.
Proof.
  unfold js_rent_is_exempt, js_rent_due, js_rent_due_amount.
  destruct (bigint_to_u64 balance) as [b|e]; simpl; [|done].
  destruct (bigint_to_usize data_len) as [d|e]; simpl; [|done].
  destruct (checked_minimum_balance self d) as [m|e]; simpl; [|done].
  destruct (m <=? b)%N; [done|]. by destruct (due_amount_inner self d years).
Qed.

(** What a [Rent] is built from can be read back: the constructor accepts
    exactly the rates that fit [u64], and a valid threshold survives its encoding
    as eight bytes. *)
Theorem rent_constructor_roundtrip rate threshold percent (Ht : f64_valid threshold = true) :
  match js_rent_new rate threshold percent with
  | Ok self =>
      Z.of_N (js_rent_lamports_per_byte_year self) = bigint_value rate ∧
      js_rent_exemption_threshold self = threshold ∧ js_rent_burn_percent self = percent
  | Err _ => in_width U64 (bigint_value rate) = false
  end.
Proof.
  unfold js_rent_new. pose proof (bigint_to_u64_converts rate) as Hc.
  destruct (bigint_to_u64 rate) as [n|e]; simpl; [|done]. destruct Hc as [_ Hv].
  split_and!; [done| |done]. by apply f64_le_bytes_roundtrip.
Qed.
End classes.
