(* ===== verification/NodeSvm.v ===== *)
(** * The [LiteSvm] class of the bindings (crates/node-litesvm/src/lib.rs)

    The methods of the wrapper over the instance it owns, and the native mints of
    native_mint.rs.  A method that throws has an [Err]; one whose argument cannot
    be an address, a signature or a transaction panics. *)

From Stdlib Require Import Floats.SpecFloat.
From S2P Require Import Prelude Errors ComputeBudget Runtime RentState Utils Types History.
From S2P Require Import EpochStake AccountsDb Vm InnerInstructions Features Svm Process Exec Api.
From S2P Require Import Text Bytes F64 NodeErrors NodeUtil NodeTypes NodeSysvars.

(** [wincode::deserialize] of transactions: the bytes of a legacy transaction give
    the versioned one it converts into. *)
Class NodeTxApi `{Host} : Type := {
  deserialize_legacy : bytes → option VersionedTransaction;
  deserialize_versioned : bytes → option VersionedTransaction }.

Inductive JsTransactionResult : Type :=
| TransactionResultA (meta : TransactionMetadata)
| TransactionResultB (failed : FailedTransactionMetadata).

Inductive SimulateResult : Type :=
| SimulateResultA (info : SimulatedTransactionInfo)
| SimulateResultB (failed : FailedTransactionMetadata).

Section litesvm.
Context `{NodeApi} `{BigIntApi} `{!NodeTxApi}.

Definition to_js_error (e : LiteSVMError) (msg : str) : JsError :=
  generic_failure (msg ++ lit ": " ++ litesvm_error_display e).

Definition convert_transaction_result (inner : TransactionResult) : JsTransactionResult :=
  match inner with
  | Ok x => TransactionResultA x
  | Err e => TransactionResultB e
  end.

Definition convert_sim_result (inner : result FailedTransactionMetadata SimulatedTransactionInfo)
    : SimulateResult :=
  match inner with
  | Ok x => SimulateResultA x
  | Err e => SimulateResultB e
  end.

(** [Ok(self.0.f(convert(&val)?))] for an operation that returns nothing. *)
Definition call_with {A} (convert : BigInt → result JsError A) (f : LiteSVM → A → outcome LiteSVM)
    (self : LiteSVM) (val : BigInt) : outcome (LiteSVM * result JsError ()) :=
  match convert val with
  | Err e => Ret (self, Err e)
  | Ok x => s ← f self x; Ret (s, Ok ())
  end.

(** ** Construction and configuration *)

Definition js_new (kp : bytes) : outcome LiteSVM := svm_new kp.
Definition js_new_default (kp : bytes) : LiteSVM := svm_default kp.
Definition js_set_compute_budget (self : LiteSVM) (budget : ComputeBudget) : LiteSVM :=
  set_compute_budget self budget.
Definition js_set_sigverify (self : LiteSVM) (b : bool) : LiteSVM := set_sigverify self b.
Definition js_set_blockhash_check (self : LiteSVM) (check : bool) : LiteSVM :=
  set_blockhash_check self check.
Definition js_set_sysvars (self : LiteSVM) : outcome LiteSVM := set_sysvars self.
Definition js_set_feature_set (self : LiteSVM) (fs : FeatureSet) : LiteSVM :=
  set_feature_set self fs.
Definition js_set_builtins (self : LiteSVM) : outcome LiteSVM := set_builtins self.
Definition js_set_lamports (self : LiteSVM) (lamports : BigInt)
    : outcome (LiteSVM * result JsError ()) :=
  call_with bigint_to_u64 svm_set_lamports self lamports.
Definition js_set_default_programs (self : LiteSVM) : outcome LiteSVM :=
  set_default_programs self.
Definition js_set_transaction_history (self : LiteSVM) (capacity : BigInt)
    : outcome (LiteSVM * result JsError ()) :=
  call_with bigint_to_usize (λ s n, Ret (set_transaction_history s n)) self capacity.
Definition js_set_log_bytes_limit (self : LiteSVM) (limit : option BigInt)
    : outcome (LiteSVM * result JsError ()) :=
  match limit with
  | None => Ret (set_log_bytes_limit self None, Ok ())
  | Some x => call_with bigint_to_usize (λ s n, Ret (set_log_bytes_limit s (Some n))) self x
  end.
Definition js_set_precompiles (self : LiteSVM) : outcome LiteSVM := set_precompiles self.

(** ** Accounts and history *)

Definition js_minimum_balance_for_rent_exemption (self : LiteSVM) (data_len : BigInt)
    : result JsError N :=
  data_len ← bigint_to_usize data_len;
  Ok (minimum_balance_for_rent_exemption self data_len).

Definition js_get_account (self : LiteSVM) (pubkey : bytes) : outcome (option account) :=
  k ← convert_pubkey pubkey; Ret (svm_get_account self k).

Definition js_get_program_accounts (self : LiteSVM) (program_id : bytes)
    : outcome (list AddressAndAccount) :=
  k ← convert_pubkey program_id;
  Ret ((λ x, {| aa_address := address_to_bytes x.1; aa_account := x.2 |})
         <$> get_program_accounts self k).

Definition js_set_account (self : LiteSVM) (pubkey : bytes) (acc : account)
    : outcome (LiteSVM * result JsError ()) :=
  k ← convert_pubkey pubkey;
  let r := set_account self k acc in
  Ret (r.1, map_err (λ e, to_js_error e (lit "Failed to set account")) r.2).

Definition js_get_balance (self : LiteSVM) (pubkey : bytes) : outcome (option N) :=
  k ← convert_pubkey pubkey; Ret (get_balance self k).

Definition js_latest_blockhash (self : LiteSVM) : str := hash_to_string (latest_blockhash self).

Definition js_get_transaction (self : LiteSVM) (sig : bytes)
    : outcome (option JsTransactionResult) :=
  sig ← unwrap (signature_try_from sig);
  Ret (convert_transaction_result <$> get_transaction self sig).

Definition js_airdrop (self : LiteSVM) (pubkey : bytes) (lamports : BigInt)
    : outcome (LiteSVM * result JsError JsTransactionResult) :=
  k ← convert_pubkey pubkey;
  match bigint_to_u64 lamports with
  | Err e => Ret (self, Err e)
  | Ok l => r ← airdrop self k l; Ret (r.1, Ok (convert_transaction_result r.2))
  end.

(** ** Programs *)

Definition failed_to_add (r : outcome (LiteSVM * result LiteSVMError ()))
    : outcome (LiteSVM * result JsError ()) :=
  r ← r;
  Ret (r.1, map_err (λ e, generic_failure
                            (lit "Failed to add program: " ++ litesvm_error_display e)) r.2).

Definition js_add_program_from_file (self : LiteSVM) (program_id : bytes) (file : option bytes)
    : outcome (LiteSVM * result JsError ()) :=
  k ← convert_pubkey program_id; failed_to_add (add_program_from_file self k file).

Definition js_add_program (self : LiteSVM) (program_id program_bytes : bytes)
    : outcome (LiteSVM * result JsError ()) :=
  k ← convert_pubkey program_id; failed_to_add (add_program self k program_bytes).

Definition js_add_program_with_loader (self : LiteSVM) (program_id program_bytes loader_id : bytes)
    : outcome (LiteSVM * result JsError ()) :=
  k ← convert_pubkey program_id;
  loader ← convert_pubkey loader_id;
  failed_to_add (add_program_with_loader self k program_bytes loader).

(** ** Transactions *)

Definition send_deserialized (self : LiteSVM) (tx : option VersionedTransaction)
    : outcome (LiteSVM * JsTransactionResult) :=
  tx ← unwrap tx;
  r ← send_transaction self tx;
  Ret (r.1, convert_transaction_result r.2).

Definition js_send_legacy_transaction (self : LiteSVM) (tx_bytes : bytes)
    : outcome (LiteSVM * JsTransactionResult) :=
  send_deserialized self (deserialize_legacy tx_bytes).
Definition js_send_versioned_transaction (self : LiteSVM) (tx_bytes : bytes)
    : outcome (LiteSVM * JsTransactionResult) :=
  send_deserialized self (deserialize_versioned tx_bytes).

Definition simulate_deserialized (self : LiteSVM) (tx : option VersionedTransaction)
    : outcome SimulateResult :=
  tx ← unwrap tx;
  convert_sim_result <$> simulate_transaction self tx.

Definition js_simulate_legacy_transaction (self : LiteSVM) (tx_bytes : bytes)
    : outcome SimulateResult :=
  simulate_deserialized self (deserialize_legacy tx_bytes).
Definition js_simulate_versioned_transaction (self : LiteSVM) (tx_bytes : bytes)
    : outcome SimulateResult :=
  simulate_deserialized self (deserialize_versioned tx_bytes).

(** ** Blockhash, clock and sysvars *)

Definition js_expire_blockhash (self : LiteSVM) : outcome LiteSVM := expire_blockhash self.
Definition js_warp_to_slot (self : LiteSVM) (slot : BigInt)
    : outcome (LiteSVM * result JsError ()) :=
  call_with bigint_to_u64 warp_to_slot self slot.
Definition js_get_compute_budget (self : LiteSVM) : option ComputeBudget :=
  get_compute_budget self.
Definition js_get_sigverify (self : LiteSVM) : bool := get_sigverify self.
Definition js_get_clock (self : LiteSVM) : outcome Clock := get_sysvar self.
Definition js_set_clock (self : LiteSVM) (clock : Clock) : outcome LiteSVM :=
  set_sysvar self clock.
Definition js_get_rent (self : LiteSVM) : outcome Rent := get_sysvar self.
Definition js_set_rent (self : LiteSVM) (rent : Rent) : outcome LiteSVM := set_sysvar self rent.
Definition js_get_epoch_rewards (self : LiteSVM) : outcome EpochRewardsData :=
  epoch_rewards_fields <$> get_sysvar self.
Definition js_set_epoch_rewards (self : LiteSVM) (rewards : EpochRewardsData)
    : outcome LiteSVM := set_sysvar self (epoch_rewards_of rewards).
Definition js_get_epoch_schedule (self : LiteSVM) : outcome EpochScheduleData :=
  epoch_schedule_fields <$> get_sysvar self.
Definition js_set_epoch_schedule (self : LiteSVM) (schedule : EpochScheduleData)
    : outcome LiteSVM := set_sysvar self (epoch_schedule_of schedule).
Definition js_get_last_restart_slot (self : LiteSVM) : outcome N :=
  last_restart_slot <$> get_sysvar self.
Definition js_set_last_restart_slot (self : LiteSVM) (slot : BigInt)
    : outcome (LiteSVM * result JsError ()) :=
  call_with bigint_to_u64 (λ s n, set_sysvar s (last_restart_slot_of n)) self slot.

Definition js_get_slot_hashes (self : LiteSVM) : outcome (list SlotHash) :=
  fetched ← get_sysvar (T := SlotHashes) self;
  Ret ((λ x, {| sh_slot := bigint_from_u64 x.1; sh_hash := hash_to_string x.2 |})
         <$> slot_hashes_slice fetched).

(** Each entry: its hash first, then its slot. *)
Fixpoint convert_slot_hashes (hashes : list SlotHash) : result JsError (list (N * hash)) :=
  match hashes with
  | [] => Ok []
  | h :: hashes =>
      converted_hash ← try_parse_hash (sh_hash h);
      slot ← bigint_to_u64 (sh_slot h);
      rest ← convert_slot_hashes hashes;
      Ok ((slot, converted_hash) :: rest)
  end.

Definition js_set_slot_hashes (self : LiteSVM) (hashes : list SlotHash)
    : outcome (LiteSVM * result JsError ()) :=
  match convert_slot_hashes hashes with
  | Err e => Ret (self, Err e)
  | Ok intermediate =>
      s ← set_sysvar self (slot_hashes_from_iter intermediate); Ret (s, Ok ())
  end.

Definition js_get_slot_history (self : LiteSVM) : outcome SlotHistory := get_sysvar self.
Definition js_set_slot_history (self : LiteSVM) (h : SlotHistory) : outcome LiteSVM :=
  set_sysvar self h.
Definition js_get_stake_history (self : LiteSVM) : outcome StakeHistory := get_sysvar self.
Definition js_set_stake_history (self : LiteSVM) (h : StakeHistory) : outcome LiteSVM :=
  set_sysvar self h.

(** ** Native mints *)

Definition SPL_TOKEN_PROGRAM_ID : address :=
  address_literal "TokenkegQfeZyiNwAJbNbGKPFXCWuBvf9Ss623VQ5DA".
Definition SPL_TOKEN_2022_PROGRAM_ID : address :=
  address_literal "TokenzQdBNbLqP5VEhdkAS6EPFLC1PHnBqCXEpPxuEb".

(** 82 bytes: no authorities, supply 0, 9 decimals, initialized. *)
Definition native_mint_data : bytes := zeros 44 ++ [Byte.x09; Byte.x01] ++ zeros 36.

Definition create_native_mint_with_program_id (s : LiteSVM) (k token_program : address)
    : outcome LiteSVM :=
  rent ← get_sysvar (T := Rent) s;
  let acc := Account (rent_minimum_balance rent 82) native_mint_data token_program false 0 in
  match set_account s k acc with
  | (s, Ok _) => Ret s
  | (_, Err _) => Panic
  end.

Definition js_create_native_mint (s : LiteSVM) : outcome LiteSVM :=
  create_native_mint_with_program_id s
    (address_literal "So11111111111111111111111111111111111111112") SPL_TOKEN_PROGRAM_ID.
Definition js_create_native_mint_2022 (s : LiteSVM) : outcome LiteSVM :=
  create_native_mint_with_program_id s
    (address_literal "9pan9bMn5HatX4EJdBwg9VgCa7Uz5HL8N1m5D3NdXejP") SPL_TOKEN_2022_PROGRAM_ID.

Definition js_with_native_mints (self : LiteSVM) : outcome LiteSVM :=
  s ← (match inner (accounts_db self) !! SPL_TOKEN_PROGRAM_ID with
       | Some _ => js_create_native_mint self
       | None => Ret self
       end);
  match inner (accounts_db s) !! SPL_TOKEN_2022_PROGRAM_ID with
  | Some _ => js_create_native_mint_2022 s
  | None => Ret s
  end.
End litesvm.
