(* ===== verification/NodeSvmProps.v ===== *)
(** * Errors and slot hashes of the [LiteSvm] class of the bindings

    What a call that throws leaves behind, what setting a sysvar stores, and the slot
    hashes that go through the boundary twice. *)

From Stdlib Require Import Floats.SpecFloat.
From S2P Require Import Prelude Errors ComputeBudget Runtime RentState Utils Types History.
From S2P Require Import EpochStake AccountsDb Vm InnerInstructions Features Svm SvmProps Process.
From S2P Require Import Exec Api Reach Text Bytes F64 NodeErrors NodeUtil NodeTypes NodeSysvars.
From S2P Require Import NodeSvm.

Section props.
Context `{NodeApi} `{BigIntApi} `{!NodeTxApi}.

(** A call that throws changes no account: if a number does not fit or a hash
    does not parse, the instance is unchanged, and an account that the database
    rejects leaves the stored accounts as they were.  (A program that does not load
    is different, see the failures of adding programs.) *)
Theorem js_throws_without_effect self s' e :
  (∀ v, js_set_lamports self v = Ret (s', Err e) → s' = self) ∧
  (∀ v, js_set_transaction_history self v = Ret (s', Err e) → s' = self) ∧
  (∀ v, js_set_log_bytes_limit self v = Ret (s', Err e) → s' = self) ∧
  (∀ v, js_warp_to_slot self v = Ret (s', Err e) → s' = self) ∧
  (∀ v, js_set_last_restart_slot self v = Ret (s', Err e) → s' = self) ∧
  (∀ l, js_set_slot_hashes self l = Ret (s', Err e) → s' = self) ∧
  (∀ k v, js_airdrop self k v = Ret (s', Err e) → s' = self) ∧
  (∀ k a, js_set_account self k a = Ret (s', Err e) →
     inner (accounts s') = inner (accounts self) ∧ with_accounts s' (accounts self) = self).
Proof.
  assert (∀ A (convert : BigInt → result JsError A) f v,
            call_with convert f self v = Ret (s', Err e) → s' = self) as Hcall.
  { intros A convert f v. unfold call_with. destruct (convert v) as [x|]; [|by intros [= <- _]].
    by destruct (f self x). }
  split_and!; try (intros v; apply Hcall).
  - intros [v|]; [apply Hcall|done].
  - intros l. unfold js_set_slot_hashes. destruct (convert_slot_hashes l); [|by intros [= <- _]].
    by destruct (set_sysvar _ _).
  - intros k v. unfold js_airdrop. destruct (convert_pubkey k); simpl; [|done].
    destruct (bigint_to_u64 v); [|by intros [= <- _]]. by destruct (airdrop _ _ _).
  - intros k a. unfold js_set_account, set_account. destruct (convert_pubkey k) as [k'|]; [|done].
    simpl. pose proof (add_account_inner (accounts self) k' a) as Hi.
    destruct (add_account (accounts self) k' a) as [db [[]|e']]; simpl; [done|].
    intros [= <- _]. split; [done|]. apply with_accounts_undo.
Qed.

(** ** Slot hashes *)

Section slot_hashes.
Context `{!SdkIdsLaws} `{!SysvarLaws} `{!NodeLaws} `{!BigIntLaws}.

Lemma serialize_into_zeros src n :
  serialize_into (zeros n) src
  = if decide (length src ≤ n) then Some (src ++ zeros (n - length src)) else None.
Proof.
  unfold serialize_into, zeros. rewrite drop_replicate. by rewrite length_replicate.
Qed.

(** [s'] is [s] with one account written. *)
Definition stored (k : address) (acc : account) (s s' : LiteSVM) : Prop :=
  inner (accounts s') = <[k := acc]> (inner (accounts s)) ∧ with_accounts s' (accounts s) = s.

Lemma stored_with_accounts s k acc db :
  add_account (accounts s) k acc = (db, Ok ()) → lamports acc = 1%N →
  stored k acc s (with_accounts s db).
Proof.
  intros Ha Hl. pose proof (add_account_inner (accounts s) k acc) as Hi.
  rewrite Ha in Hi. simpl in Hi. rewrite Hl in Hi.
  split; [exact Hi|]. apply with_accounts_undo.
Qed.

Lemma get_sysvar_stored {T} `{Sysvar T} s s' acc (x : T) :
  stored (sysvar_id T) acc s s' → deserialize_from (data acc) = Some x →
  get_sysvar (T := T) s' = Ret x.
Proof.
  intros [Hi _] Hd. unfold get_sysvar, get_account. rewrite Hi. simplify_map_eq. by rewrite Hd.
Qed.

Lemma get_sysvar_other {T} `{Sysvar T} s s' k acc :
  stored k acc s s' → k ≠ sysvar_id T → get_sysvar (T := T) s' = get_sysvar (T := T) s.
Proof. intros [Hi _] Hne. unfold get_sysvar, get_account. rewrite Hi. by simplify_map_eq. Qed.

Lemma set_sysvar_stored {T} `{!Sysvar T} `{!PlainSysvar T} `{!CodecLaws T} s (x : T) :
  ∃ s' acc, set_sysvar s x = Ret s' ∧ stored (sysvar_id T) acc s s' ∧
    deserialize_from (data acc) = Some x.
Proof.
  destruct (set_sysvar_plain s x) as (db & Hadd & Hset). eexists _, (sysvar_account x).
  split_and!; [exact Hset|by apply stored_with_accounts|apply deserialize_exact].
Qed.

Lemma set_slot_history_stored s (x : SlotHistory) :
  ∃ s' acc, set_sysvar s x = Ret s' ∧ stored slot_history_id acc s s' ∧
    deserialize_from (data acc) = Some x.
Proof.
  pose proof sysvar_ids_distinct as Hnd. apply NoDup_cons_1_2, NoDup_cons_1_1 in Hnd.
  assert (slot_history_id ≠ slot_hashes_id) as Hne%N.eqb_neq.
  { intros He. apply Hnd. rewrite He. unfold handled_sysvars. set_solver. }
  unfold set_sysvar. simpl. rewrite Hne, serialize_into_exact. simpl.
  fold (sysvar_account x).
  assert ((add_account (accounts s) slot_history_id (sysvar_account x)).2 = Ok ()) as Hok.
  { unfold add_account. simpl. by rewrite maybe_handle_sysvar_other. }
  destruct (add_account (accounts s) slot_history_id (sysvar_account x)) as [db r] eqn:Hadd.
  simpl in Hok. subst r. unfold set_data, new_account, sysvar_account in *. simpl in *.
  rewrite Hadd. eexists _, (sysvar_account x).
  split_and!; [done|by apply stored_with_accounts|apply deserialize_exact].
Qed.

Lemma set_slot_hashes_stored s (x : SlotHashes) :
  if decide (length (serialize x) ≤ slot_hashes_size)
  then ∃ s' acc, set_sysvar s x = Ret s' ∧ stored slot_hashes_id acc s s' ∧
         deserialize_from (data acc) = Some x
  else set_sysvar s x = Panic.
Proof.
  unfold set_sysvar. cbn [sysvar_id slot_hashes_sysvar]. rewrite N.eqb_refl.
  cbn [data new_account sysvar_codec slot_hashes_sysvar]. rewrite serialize_into_zeros.
  destruct (decide (length (serialize x) ≤ slot_hashes_size)) as [Hle|Hgt]; [|done].
  simpl. set (acc := set_data _ _).
  assert (deserialize_from (T := SlotHashes) (data acc) = Some x) as Hd
    by apply deserialize_serialize.
  assert ((add_account (accounts s) slot_hashes_id acc).2 = Ok ()) as Hok.
  { pose proof (slot_hashes_accepted (accounts s) acc (mk_is_Some _ _ Hd)) as Hm.
    unfold add_account. simpl. by destruct (maybe_handle_sysvar_account _ _ _) as [? []]. }
  destruct (add_account (accounts s) slot_hashes_id acc) as [db r] eqn:Hadd. simpl in Hok. subst r.
  eexists _, acc. split_and!; [done|by apply stored_with_accounts|exact Hd].
Qed.

(** What JavaScript sees of an entry: the number and the text. *)
Definition entry_seen (h : SlotHash) : Z * str := (bigint_value (sh_slot h), sh_hash h).

Lemma convert_slot_hashes_seen hashes : ∀ entries,
  convert_slot_hashes hashes = Ok entries →
  entry_seen <$> ((λ x, {| sh_slot := bigint_from_u64 x.1; sh_hash := hash_to_string x.2 |})
                    <$> entries) = entry_seen <$> hashes.
Proof.
  induction hashes as [|h hashes IH]; intros entries; simpl; [by intros [= <-]|].
  unfold try_parse_hash. destruct (hash_from_str (sh_hash h)) as [x|] eqn:Hx; simpl; [|done].
  pose proof (bigint_to_u64_converts (sh_slot h)) as Hc.
  destruct (bigint_to_u64 (sh_slot h)) as [n|]; simpl; [|done]. destruct Hc as [Hw Hn].
  destruct (convert_slot_hashes hashes) as [rest|]; simpl; [|done]. intros [= <-]. simpl.
  f_equal; [|by apply IH]. unfold entry_seen. simpl. f_equal.
  - rewrite bigint_from_u64_value; [done|]. apply andb_prop in Hw as [_ Hw%Z.leb_le].
    rewrite <-Hn in Hw. lia.
  - by apply hash_to_from_string.
Qed.

End slot_hashes.
End props.
