(* ===== verification/NodeSettings.v ===== *)
(** * Scripts of the bindings that configure an instance

    The settings of a [LiteSvm] object as a script reads them, an abstract machine
    that keeps them as plain values, and that the calls of the class implement it:
    each call stores the value it is given in the setting it is named after, reads
    numbers by value, throws without effect, and leaves the other settings. *)

From coqutil Require Import Datatypes.RecordSetters.
From Stdlib Require Import Floats.SpecFloat.
From S2P Require Import Prelude Errors ComputeBudget Runtime RentState Utils Types History.
From S2P Require Import EpochStake AccountsDb Vm InnerInstructions Features Svm SvmProps Process.
From S2P Require Import Exec Api Text Bytes F64 NodeErrors NodeUtil NodeTypes NodeSysvars.
From S2P Require Import NodeSvm NodeSvmProps.
Import TriangleBracketNotations.

(** ** The settings *)

Section settings.
Context `{NodeApi} `{BigIntApi} `{!NodeTxApi}.

(** The sysvars may be missing, and then reading them panics. *)
Record settings : Type := mkSettings {
  st_compute_budget : option ComputeBudget;
  st_sigverify : bool;
  st_blockhash_check : bool;
  st_feature_set : FeatureSet;
  st_history : TransactionHistory;
  st_log_bytes_limit : option N;
  (** The text of the latest blockhash, parsed *)
  st_blockhash : result str hash;
  st_clock : outcome Clock;
  st_rent : outcome Rent;
  st_epoch_rewards : outcome EpochRewardsData;
  st_epoch_schedule : outcome EpochScheduleData;
  st_last_restart_slot : outcome N;
  (** The values and texts of the entries *)
  st_slot_hashes : outcome (list (Z * str));
  st_slot_history : outcome SlotHistory;
  st_stake_history : outcome StakeHistory;
  (** The accounts that are not settings *)
  st_accounts : gmap address account;
  (** What no call of the class sets *)
  st_fixed : bytes * FeeStructure * list (str * Registerer) * EpochStakes * bool }.

(** The addresses of the sysvars that the calls write. *)
Definition setting_sysvars : list address :=
  [clock_id; rent_id; epoch_rewards_id; epoch_schedule_id; last_restart_slot_id;
   slot_hashes_id; slot_history_id; stake_history_id; recent_blockhashes_id].

(** What a script sees, through the getters of the class where it has one. *)
Definition seen (self : LiteSVM) : settings := {|
  st_compute_budget := js_get_compute_budget self;
  st_sigverify := js_get_sigverify self;
  st_blockhash_check := blockhash_check self;
  st_feature_set := feature_set self;
  st_history := history self;
  st_log_bytes_limit := log_bytes_limit self;
  st_blockhash := hash_from_str (js_latest_blockhash self);
  st_clock := js_get_clock self;
  st_rent := js_get_rent self;
  st_epoch_rewards := js_get_epoch_rewards self;
  st_epoch_schedule := js_get_epoch_schedule self;
  st_last_restart_slot := js_get_last_restart_slot self;
  st_slot_hashes := (λ l : list SlotHash, entry_seen <$> l) <$> js_get_slot_hashes self;
  st_slot_history := js_get_slot_history self;
  st_stake_history := js_get_stake_history self;
  st_accounts := base.filter (λ x, x.1 ∉ setting_sysvars) (inner (accounts self));
  st_fixed := (airdrop_kp self, fee_structure self, custom_syscalls self, epoch_stakes self,
               enable_register_tracing self) |}.

(** ** Scripts *)

(** A call of a script that configures the instance. *)
Inductive js_setting : Type :=
| SetComputeBudget (budget : ComputeBudget)
| SetSigverify (b : bool)
| SetBlockhashCheck (b : bool)
| SetFeatureSet (fs : FeatureSet)
| SetTransactionHistory (capacity : BigInt)
| SetLogBytesLimit (limit : option BigInt)
| ExpireBlockhash
| WarpToSlot (n : BigInt)
| SetClock (c : Clock)
| SetRent (r : Rent)
| SetEpochRewards (x : EpochRewardsData)
| SetEpochSchedule (x : EpochScheduleData)
| SetLastRestartSlot (n : BigInt)
| SetSlotHashes (l : list SlotHash)
| SetSlotHistory (h : SlotHistory)
| SetStakeHistory (h : StakeHistory).

(** Whether a call threw. *)
Definition threw {A} (r : result JsError A) : bool :=
  match r with Ok _ => false | Err _ => true end.

Definition never_throws (o : outcome LiteSVM) : outcome (LiteSVM * bool) :=
  s ← o; Ret (s, false).

Definition may_throw (o : outcome (LiteSVM * result JsError ())) : outcome (LiteSVM * bool) :=
  r ← o; Ret (r.1, threw r.2).

(** The call on the object. *)
Definition js_call (self : LiteSVM) (c : js_setting) : outcome (LiteSVM * bool) :=
  match c with
  | SetComputeBudget budget => never_throws (Ret (js_set_compute_budget self budget))
  | SetSigverify b => never_throws (Ret (js_set_sigverify self b))
  | SetBlockhashCheck b => never_throws (Ret (js_set_blockhash_check self b))
  | SetFeatureSet fs => never_throws (Ret (js_set_feature_set self fs))
  | SetTransactionHistory n => may_throw (js_set_transaction_history self n)
  | SetLogBytesLimit l => may_throw (js_set_log_bytes_limit self l)
  | ExpireBlockhash => never_throws (js_expire_blockhash self)
  | WarpToSlot n => may_throw (js_warp_to_slot self n)
  | SetClock c => never_throws (js_set_clock self c)
  | SetRent r => never_throws (js_set_rent self r)
  | SetEpochRewards x => never_throws (js_set_epoch_rewards self x)
  | SetEpochSchedule x => never_throws (js_set_epoch_schedule self x)
  | SetLastRestartSlot n => may_throw (js_set_last_restart_slot self n)
  | SetSlotHashes l => may_throw (js_set_slot_hashes self l)
  | SetSlotHistory h => never_throws (js_set_slot_history self h)
  | SetStakeHistory h => never_throws (js_set_stake_history self h)
  end.

(** The abstract call on the settings. *)

(** The number a [BigInt] stands for, if 64 bits hold it. *)
Definition number (v : BigInt) : option N :=
  if (0 <=? bigint_value v)%Z && (bigint_value v <=? Z.of_N u64_max)%Z
  then Some (Z.to_N (bigint_value v)) else None.

(** [f] on the number, or an exception. *)
Definition with_number (st : settings) (v : BigInt) (f : N → outcome settings)
    : outcome (settings * bool) :=
  match number v with
  | Some n => st' ← f n; Ret (st', false)
  | None => Ret (st, true)
  end.

Definition entry_of (h : SlotHash) : option (N * hash) :=
  match hash_from_str (sh_hash h), number (sh_slot h) with
  | Ok x, Some n => Some (n, x)
  | _, _ => None
  end.

Definition expected (st : settings) (c : js_setting) : outcome (settings * bool) :=
  match c with
  | SetComputeBudget budget => Ret (st<|st_compute_budget := Some budget|>, false)
  | SetSigverify b => Ret (st<|st_sigverify := b|>, false)
  | SetBlockhashCheck b => Ret (st<|st_blockhash_check := b|>, false)
  | SetFeatureSet fs => Ret (st<|st_feature_set := fs|>, false)
  | SetTransactionHistory v =>
      with_number st v (λ n, Ret (st<|st_history := set_capacity (st_history st) n|>))
  | SetLogBytesLimit None => Ret (st<|st_log_bytes_limit := None|>, false)
  | SetLogBytesLimit (Some v) =>
      with_number st v (λ n, Ret (st<|st_log_bytes_limit := Some n|>))
  | ExpireBlockhash =>
      Ret (st<|st_blockhash := h ← st_blockhash st; Ok (sha256 (hash_to_bytes h))|>, false)
  | WarpToSlot v =>
      with_number st v (λ n,
        c ← st_clock st;
        Ret (st<|st_clock :=
          Ret {| slot := n; epoch_start_timestamp := epoch_start_timestamp c; epoch := epoch c;
                 leader_schedule_epoch := leader_schedule_epoch c;
                 unix_timestamp := unix_timestamp c |}|>))
  | SetClock c => Ret (st<|st_clock := Ret c|>, false)
  | SetRent r => Ret (st<|st_rent := Ret r|>, false)
  | SetEpochRewards x => Ret (st<|st_epoch_rewards := Ret x|>, false)
  | SetEpochSchedule x => Ret (st<|st_epoch_schedule := Ret x|>, false)
  | SetLastRestartSlot v => with_number st v (λ n, Ret (st<|st_last_restart_slot := Ret n|>))
  | SetSlotHashes l =>
      match mapM entry_of l with
      | None => Ret (st, true)
      | Some entries =>
          if decide (length (serialize (slot_hashes_from_iter entries)) ≤ slot_hashes_size)
          then Ret (st<|st_slot_hashes := Ret (entry_seen <$> l)|>, false) else Panic
      end
  | SetSlotHistory h => Ret (st<|st_slot_history := Ret h|>, false)
  | SetStakeHistory h => Ret (st<|st_stake_history := Ret h|>, false)
  end.

(** A script: it catches what a call throws and goes on; which calls threw. *)
Fixpoint run_calls {A} (f : A → js_setting → outcome (A * bool)) (x : A) (l : list js_setting)
    : outcome (A * list bool) :=
  match l with
  | [] => Ret (x, [])
  | c :: l => '(x, b) ← f x c; '(x, bs) ← run_calls f x l; Ret (x, b :: bs)
  end.

End settings.

(** ** Lemmas *)

Section lemmas.
Context `{NodeApi} `{BigIntApi} `{!NodeTxApi} `{!SdkIdsLaws} `{!SysvarLaws}.
Context `{!NodeLaws} `{!BigIntLaws}.

Lemma number_u64 v :
  match bigint_to_u64 v with Ok n => number v = Some n | Err _ => number v = None end.
Proof.
  pose proof (bigint_to_u64_converts v) as Hc. unfold number, in_width in *.
  destruct (bigint_to_u64 v) as [n|e]; [destruct Hc as [-> Hv]|by rewrite Hc].
  f_equal. lia.
Qed.

Lemma number_usize v :
  match bigint_to_usize v with Ok n => number v = Some n | Err _ => number v = None end.
Proof.
  pose proof (bigint_to_usize_converts v) as Hc. unfold number, in_width, usize_max in *.
  destruct (bigint_to_usize v) as [n|e]; [destruct Hc as [-> Hv]|by rewrite Hc].
  f_equal. lia.
Qed.

(** What a call that agrees with the abstract machine does. *)
Definition agrees (o : outcome (LiteSVM * bool))
    (e : outcome (settings * bool)) : Prop :=
  match e with
  | Ret (st, b) => ∃ s', o = Ret (s', b) ∧ seen s' = st
  | Panic => o = Panic
  end.

Lemma agrees_intro s' o b st :
  o = Ret (s', b) → seen s' = st → agrees o (Ret (st, b)).
Proof. intros ? ?. by exists s'. Qed.

(** A call on a converted number. *)
Lemma agrees_number self v (convert : BigInt → result JsError N) f g :
  (match convert v with Ok n => number v = Some n | Err _ => number v = None end) →
  (∀ n, agrees (never_throws (f self n)) (st ← g n; Ret (st, false))) →
  agrees (may_throw (call_with convert f self v)) (with_number (seen self) v g).
Proof.
  intros Hn Hf. unfold with_number, call_with. destruct (convert v) as [n|e]; rewrite Hn.
  - specialize (Hf n). by destruct (f self n), (g n).
  - by eapply agrees_intro.
Qed.

Lemma filter_stored s s' k acc :
  stored k acc s s' → k ∈ setting_sysvars →
  st_accounts (seen s') = st_accounts (seen s).
Proof.
  intros [Hi _] Hk. unfold seen. simpl. rewrite Hi. apply map_eq. intros k'.
  apply option_eq. intros a. rewrite !map_lookup_filter_Some. simpl.
  destruct (decide (k' = k)) as [->|Hne]; [by split; intros []|]. by rewrite lookup_insert_ne.
Qed.

(** A write of a sysvar changes what is read of sysvars at most. *)
Lemma seen_stored s s' k acc :
  stored k acc s s' → k ∈ setting_sysvars →
  seen s' = (seen s)<|st_clock := js_get_clock s'|><|st_rent := js_get_rent s'|>
    <|st_epoch_rewards := js_get_epoch_rewards s'|>
    <|st_epoch_schedule := js_get_epoch_schedule s'|>
    <|st_last_restart_slot := js_get_last_restart_slot s'|>
    <|st_slot_hashes := (λ l : list SlotHash, entry_seen <$> l) <$> js_get_slot_hashes s'|>
    <|st_slot_history := js_get_slot_history s'|>
    <|st_stake_history := js_get_stake_history s'|>.
Proof.
  intros Hst Hk. pose proof (filter_stored s s' k acc Hst Hk) as Hf.
  destruct Hst as [_ Hw]. unfold seen in *. cbn in *. rewrite Hf.
  destruct s, s'. injection Hw as -> -> -> -> -> -> -> -> -> -> -> -> ->. reflexivity.
Qed.

(** The sysvars that a write leaves, by the distinctness of the addresses. *)
Ltac other_sysvars Hst :=
  let Hnd := fresh "Hnd" in
  pose proof sysvar_ids_distinct as Hnd; unfold handled_sysvars in Hnd;
  rewrite !NoDup_cons, !not_elem_of_cons in Hnd; destruct_and? Hnd;
  unfold js_get_clock, js_get_rent, js_get_epoch_rewards, js_get_epoch_schedule,
    js_get_last_restart_slot, js_get_slot_hashes, js_get_slot_history, js_get_stake_history;
  try rewrite (get_sysvar_other (T := Clock) _ _ _ _ Hst) by (simpl; congruence);
  try rewrite (get_sysvar_other (T := Rent) _ _ _ _ Hst) by (simpl; congruence);
  try rewrite (get_sysvar_other (T := EpochRewards) _ _ _ _ Hst) by (simpl; congruence);
  try rewrite (get_sysvar_other (T := EpochSchedule) _ _ _ _ Hst) by (simpl; congruence);
  try rewrite (get_sysvar_other (T := LastRestartSlot) _ _ _ _ Hst) by (simpl; congruence);
  try rewrite (get_sysvar_other (T := SlotHashes) _ _ _ _ Hst) by (simpl; congruence);
  try rewrite (get_sysvar_other (T := SlotHistory) _ _ _ _ Hst) by (simpl; congruence);
  try rewrite (get_sysvar_other (T := StakeHistory) _ _ _ _ Hst) by (simpl; congruence).

(** Finishes the case of a call that stores the sysvar [x], given [Hset], the lemma
    on storing it. *)
Ltac stores_setting Hset x :=
  let s' := fresh "s'" in let acc := fresh "acc" in
  let Hst := fresh "Hst" in let Hd := fresh "Hd" in
  destruct Hset as (s' & acc & -> & Hst & Hd); apply (agrees_intro s'); [done|];
  rewrite (seen_stored _ _ _ _ Hst) by (unfold setting_sysvars; set_solver);
  other_sysvars Hst;
  assert (get_sysvar s' = Ret x) as -> by (by eapply get_sysvar_stored).

Lemma agrees_clock self c :
  agrees (never_throws (set_sysvar self c)) (Ret ((seen self)<|st_clock := Ret c|>, false)).
Proof. by stores_setting (set_sysvar_stored self c) c. Qed.

Lemma agrees_rent self r :
  agrees (never_throws (js_set_rent self r)) (expected (seen self) (SetRent r)).
Proof. unfold js_set_rent. by stores_setting (set_sysvar_stored self r) r. Qed.

Lemma agrees_epoch_rewards self x :
  agrees (never_throws (js_set_epoch_rewards self x)) (expected (seen self) (SetEpochRewards x)).
Proof.
  unfold js_set_epoch_rewards. set (y := epoch_rewards_of x).
  stores_setting (set_sysvar_stored self y) y. simpl. unfold y.
  by rewrite epoch_rewards_fields_of.
Qed.

Lemma agrees_epoch_schedule self x :
  agrees (never_throws (js_set_epoch_schedule self x)) (expected (seen self) (SetEpochSchedule x)).
Proof.
  unfold js_set_epoch_schedule. set (y := epoch_schedule_of x).
  stores_setting (set_sysvar_stored self y) y. simpl. unfold y.
  by rewrite epoch_schedule_fields_of.
Qed.

Lemma agrees_last_restart_slot self v :
  agrees (may_throw (js_set_last_restart_slot self v)) (expected (seen self) (SetLastRestartSlot v)).
Proof.
  apply agrees_number; [apply number_u64|]. intros n. set (y := last_restart_slot_of n).
  cbv beta. fold y.
  stores_setting (set_sysvar_stored self y) y. simpl. unfold y. by rewrite last_restart_slot_field.
Qed.

Lemma agrees_slot_history self h :
  agrees (never_throws (js_set_slot_history self h)) (expected (seen self) (SetSlotHistory h)).
Proof. unfold js_set_slot_history. by stores_setting (set_slot_history_stored self h) h. Qed.

Lemma agrees_stake_history self h :
  agrees (never_throws (js_set_stake_history self h)) (expected (seen self) (SetStakeHistory h)).
Proof. unfold js_set_stake_history. by stores_setting (set_sysvar_stored self h) h. Qed.

Lemma entries_converted l :
  match convert_slot_hashes l with
  | Ok entries => mapM entry_of l = Some entries
  | Err _ => mapM entry_of l = None
  end.
Proof.
  induction l as [|h l IH]; [done|]. simpl. unfold entry_of, try_parse_hash.
  destruct (hash_from_str (sh_hash h)) as [x|]; simpl; [|done].
  pose proof (number_u64 (sh_slot h)) as Hn.
  destruct (bigint_to_u64 (sh_slot h)) as [n|]; rewrite Hn; simpl; [|done].
  fold entry_of in IH |- *. destruct (convert_slot_hashes l); simpl; by rewrite IH.
Qed.

Lemma agrees_slot_hashes self l :
  agrees (may_throw (js_set_slot_hashes self l)) (expected (seen self) (SetSlotHashes l)).
Proof.
  unfold js_set_slot_hashes. cbn [expected]. pose proof (entries_converted l) as He.
  pose proof (convert_slot_hashes_seen l) as Hseen.
  destruct (convert_slot_hashes l) as [entries|e]; rewrite He; [|by eapply agrees_intro].
  specialize (Hseen entries eq_refl). set (y := slot_hashes_from_iter entries).
  pose proof (set_slot_hashes_stored self y) as Hs.
  destruct (decide _) as [Hle|Hgt]; [|by rewrite Hs].
  stores_setting Hs y. simpl. unfold y. rewrite slot_hashes_slice_from_iter. by rewrite Hseen.
Qed.

Lemma agrees_expire self :
  agrees (never_throws (js_expire_blockhash self)) (expected (seen self) ExpireBlockhash).
Proof.
  unfold js_expire_blockhash, expire_blockhash, create_blockhash.
  set (s1 := set_latest_blockhash self _). set (x := recent_blockhashes_from_iter _).
  destruct (set_sysvar_stored s1 x) as (s' & acc & -> & Hst & Hd).
  eapply agrees_intro; [done|].
  rewrite (seen_stored _ _ _ _ Hst) by (unfold setting_sysvars; set_solver).
  other_sysvars Hst. unfold s1, seen, js_latest_blockhash. simpl. by rewrite !hash_from_to_string.
Qed.

Lemma agrees_warp self v :
  agrees (may_throw (js_warp_to_slot self v)) (expected (seen self) (WarpToSlot v)).
Proof.
  apply agrees_number; [apply number_u64|]. intros n. unfold warp_to_slot. simpl.
  unfold js_get_clock. destruct (get_sysvar (T := Clock) self) as [c|]; [|done].
  apply (agrees_clock self (set_slot c n)).
Qed.

Lemma agrees_call self c : agrees (js_call self c) (expected (seen self) c).
Proof.
  destruct c as [b|b|b|fs|v|[v|]| |v|c|r|x|x|v|l|h|h];
    try (by eapply agrees_intro).
  - apply agrees_number; [apply number_usize|]. intros n. by eapply agrees_intro.
  - apply agrees_number; [apply number_usize|]. intros n. by eapply agrees_intro.
  - apply agrees_expire.
  - apply agrees_warp.
  - apply agrees_clock.
  - apply agrees_rent.
  - apply agrees_epoch_rewards.
  - apply agrees_epoch_schedule.
  - apply agrees_last_restart_slot.
  - apply agrees_slot_hashes.
  - apply agrees_slot_history.
  - apply agrees_stake_history.
Qed.
End lemmas.

(** ** Properties *)

Section properties.
Context `{NodeApi} `{BigIntApi} `{!NodeTxApi} `{!SdkIdsLaws} `{!SysvarLaws}.
Context `{!NodeLaws} `{!BigIntLaws}.

(** C18.  Scripts that configure an instance.  After any sequence of calls every
    setting that JavaScript reads is the value given to the last call named after it,
    numbers by value (a history has had its capacity set, warping moves the slot of
    the clock only, expiring hashes the blockhash); a call changes no other setting,
    no account outside the sysvars, and neither fees, airdrop key pair, syscalls,
    stakes nor tracing.  A number that 64 bits do not hold and a hash that does not
    parse throw and change nothing.  Two calls may panic: setting slot hashes that
    are too long for their sysvar, and warping without a clock. *)
Theorem js_settings_refine self script :
  match run_calls expected (seen self) script with
  | Ret (st, threw) => ∃ s', run_calls js_call self script = Ret (s', threw) ∧ seen s' = st
  | Panic => run_calls js_call self script = Panic
  end.
Proof.
  revert self. induction script as [|c script IH]; intros self; [by exists self|]. simpl.
  pose proof (agrees_call self c) as Hc. unfold agrees in Hc.
  destruct (expected (seen self) c) as [[st b]|]; simpl; [|by rewrite Hc].
  destruct Hc as (s1 & -> & Hseen). simpl. specialize (IH s1). rewrite Hseen in IH.
  destruct (run_calls expected st script) as [[st' bs]|]; simpl.
  - destruct IH as (s' & -> & Hs'). by exists s'.
  - by rewrite IH.
Qed.
End properties.
