(* ===== verification/SampleHost.v ===== *)
(** * A sample host

    A small concrete implementation of every interface of the development: a
    self-delimiting binary encoding, a runtime whose one instruction transfers
    lamports between two writable accounts, and an instance with a handful of
    accounts.  It satisfies all the laws, so the theorems that assume them are
    about something; their witnesses evaluate it. *)

From S2P Require Import Prelude Errors ComputeBudget Runtime RentState Utils Types History.
From S2P Require Import EpochStake AccountsDb Vm InnerInstructions Features Svm Process.

(** ** Encodings *)

Fixpoint enc_pos (p : positive) : bytes :=
  match p with
  | xH => [Byte.x03]
  | xO p => Byte.x01 :: enc_pos p
  | xI p => Byte.x02 :: enc_pos p
  end.

Fixpoint dec_pos (b : bytes) : option (positive * bytes) :=
  match b with
  | Byte.x03 :: b => Some (xH, b)
  | Byte.x01 :: b => r ← dec_pos b; Some (xO r.1, r.2)
  | Byte.x02 :: b => r ← dec_pos b; Some (xI r.1, r.2)
  | _ => None
  end.

Lemma dec_enc_pos p b : dec_pos (enc_pos p ++ b) = Some (p, b).
Proof. induction p as [p IH|p IH|]; simpl; [by rewrite IH..|done]. Qed.

Definition enc_N (n : N) : bytes :=
  match n with N0 => [Byte.x00] | Npos p => enc_pos p end.

Definition dec_N (b : bytes) : option (N * bytes) :=
  match b with
  | Byte.x00 :: b => Some (0%N, b)
  | _ => r ← dec_pos b; Some (Npos r.1, r.2)
  end.

Lemma dec_enc_N n b : dec_N (enc_N n ++ b) = Some (n, b).
Proof.
  destruct n as [|p]; [done|]. pose proof (dec_enc_pos p b) as Hp. unfold dec_N, enc_N.
  rewrite Hp. by destruct p.
Qed.

Definition enc_Z (z : Z) : bytes :=
  match z with Z0 => [Byte.x00] | Zpos p => Byte.x01 :: enc_pos p | Zneg p => Byte.x02 :: enc_pos p end.

Definition dec_Z (b : bytes) : option (Z * bytes) :=
  match b with
  | Byte.x00 :: b => Some (0%Z, b)
  | Byte.x01 :: b => r ← dec_pos b; Some (Zpos r.1, r.2)
  | Byte.x02 :: b => r ← dec_pos b; Some (Zneg r.1, r.2)
  | _ => None
  end.

Lemma dec_enc_Z z b : dec_Z (enc_Z z ++ b) = Some (z, b).
Proof. destruct z as [|p|p]; simpl; [done| |]; by rewrite dec_enc_pos. Qed.

Definition enc_clock (c : Clock) : bytes :=
  enc_N (slot c) ++ enc_Z (epoch_start_timestamp c) ++ enc_N (epoch c)
  ++ enc_N (leader_schedule_epoch c) ++ enc_Z (unix_timestamp c).

Definition dec_clock (b : bytes) : option Clock :=
  '(s, b) ← dec_N b; '(t, b) ← dec_Z b; '(e, b) ← dec_N b; '(l, b) ← dec_N b; '(u, b) ← dec_Z b;
  Some {| slot := s; epoch_start_timestamp := t; epoch := e; leader_schedule_epoch := l;
          unix_timestamp := u |}.

Definition enc_rent (r : Rent) : bytes :=
  enc_N (lamports_per_byte r) ++ enc_N (burn_percent r)
  ++ enc_N (len (exemption_threshold r)) ++ exemption_threshold r.

Definition dec_rent (b : bytes) : option Rent :=
  '(l, b) ← dec_N b; '(p, b) ← dec_N b; '(n, b) ← dec_N b;
  Some {| lamports_per_byte := l; exemption_threshold := take (N.to_nat n) b; burn_percent := p |}.

(** Slot hashes: their number, then slot and hash of each. *)
Fixpoint enc_pairs (l : list (N * N)) : bytes :=
  match l with [] => [] | (a, b) :: l => enc_N a ++ enc_N b ++ enc_pairs l end.

Fixpoint dec_pairs (n : nat) (b : bytes) : option (list (N * N)) :=
  match n with
  | 0 => Some []
  | S n => '(x, b) ← dec_N b; '(y, b) ← dec_N b; l ← dec_pairs n b; Some ((x, y) :: l)
  end.

Definition enc_slot_hashes (l : list (N * N)) : bytes := enc_N (len l) ++ enc_pairs l.
Definition dec_slot_hashes (b : bytes) : option (list (N * N)) :=
  '(n, b) ← dec_N b; dec_pairs (N.to_nat n) b.

Lemma dec_enc_slot_hashes l b : dec_slot_hashes (enc_slot_hashes l ++ b) = Some l.
Proof.
  unfold dec_slot_hashes, enc_slot_hashes. rewrite <-app_assoc, dec_enc_N. simpl.
  unfold len. rewrite Nat2N.id. induction l as [|[x y] l IH]; [done|]. simpl.
  rewrite <-!app_assoc, dec_enc_N. simpl. rewrite dec_enc_N. simpl. by rewrite IH.
Qed.

(** ** Interfaces *)

#[export] Instance sample_ids : SdkIds := {|
  native_loader_id := 1; bpf_loader_id := 2; bpf_loader_deprecated_id := 3;
  bpf_loader_upgradeable_id := 4; loader_v4_id := 5; system_program_id := 6;
  config_program_id := 7; stake_config_id := 8; stake_program_id := 9;
  address_lookup_table_id := 10; incinerator_id := 11; sysvar_owner_id := 12;
  instructions_id := 13; clock_id := 14; epoch_rewards_id := 15; epoch_schedule_id := 16;
  fees_id := 17; last_restart_slot_id := 18; recent_blockhashes_id := 19; rent_id := 20;
  slot_hashes_id := 21; slot_history_id := 22; stake_history_id := 23;
  feature_id name := (1000 + N.of_nat (String.length name))%N |}.

#[export] Instance sample_ids_laws : SdkIdsLaws.
Proof. split; apply (bool_decide_unpack _); vm_compute; exact I. Qed.

#[export] Instance sample_features : FeatureApi := {|
  FeatureSet := list (address * N) * list address;
  fs_default := ([], []);
  fs_new := pair;
  fs_is_active fs a := bool_decide (a ∈ fs.1.*1);
  fs_activate fs a n := ((a, n) :: fs.1, fs.2);
  fs_active := fst;
  fs_inactive := snd;
  ReservedAccountKeys := list address;
  rk_default := [];
  rk_update_active_set k _ := k;
  rk_active k := k |}.

#[export] Instance sample_feature_laws : FeatureLaws.
Proof. split. by intros []. Qed.

#[export] Instance sample_rent_api : RentApi := {|
  default_rent := {| lamports_per_byte := 1; exemption_threshold := []; burn_percent := 50 |};
  default_lamports_per_byte := 1;
  rent_is_exempt r l n := (lamports_per_byte r * (128 + n) <=? l)%N;
  rent_minimum_balance r n := (lamports_per_byte r * (128 + n))%N;
  rent_try_minimum_balance r n := Some (lamports_per_byte r * (128 + n))%N |}.

#[export] Instance sample_rent_laws : RentLaws.
Proof. split. done. Qed.

Definition unit_codec : Codec () := {| serialize _ := []; deserialize_from _ := Some () |}.
Definition N_codec : Codec N := {| serialize := enc_N; deserialize_from b := fst <$> dec_N b |}.

Definition bit (b : bool) : N := if b then 1%N else 0%N.

Notation sample_rewards := (N * N * N * N * N * N * bool)%type.
Notation sample_schedule := (N * N * bool * N * N)%type.

Definition enc_rewards (x : sample_rewards) : bytes :=
  let '(h, n, p, tp, tr, d, a) := x in
  enc_N h ++ enc_N n ++ enc_N p ++ enc_N tp ++ enc_N tr ++ enc_N d ++ enc_N (bit a).

Definition dec_rewards (b : bytes) : option sample_rewards :=
  '(h, b) ← dec_N b; '(n, b) ← dec_N b; '(p, b) ← dec_N b; '(tp, b) ← dec_N b;
  '(tr, b) ← dec_N b; '(d, b) ← dec_N b; '(a, b) ← dec_N b;
  Some (h, n, p, tp, tr, d, (a =? 1)%N).

Definition enc_schedule (x : sample_schedule) : bytes :=
  let '(s, o, w, e, f) := x in enc_N s ++ enc_N o ++ enc_N (bit w) ++ enc_N e ++ enc_N f.

Definition dec_schedule (b : bytes) : option sample_schedule :=
  '(s, b) ← dec_N b; '(o, b) ← dec_N b; '(w, b) ← dec_N b; '(e, b) ← dec_N b;
  '(f, b) ← dec_N b; Some (s, o, (w =? 1)%N, e, f).

Lemma dec_enc_rewards x b : dec_rewards (enc_rewards x ++ b) = Some x.
Proof.
  destruct x as [[[[[[h n] p] tp] tr] d] []]; unfold dec_rewards, enc_rewards;
    rewrite <-!app_assoc; by repeat (rewrite dec_enc_N; simpl).
Qed.

Lemma dec_enc_schedule x b : dec_schedule (enc_schedule x ++ b) = Some x.
Proof.
  destruct x as [[[[s o] []] e] f]; unfold dec_schedule, enc_schedule;
    rewrite <-!app_assoc; by repeat (rewrite dec_enc_N; simpl).
Qed.

Definition dec_number (b : bytes) : option N := fst <$> dec_N b.

(** The cached sysvars. *)
Record sample_cache : Type := mkCache {
  sc_clock : option Clock; sc_rent : option Rent; sc_slot_hashes : option (list (N * N));
  sc_epoch_schedule : option sample_schedule; sc_epoch_rewards : option sample_rewards;
  sc_last_restart_slot : option N; sc_stake_history : option () }.

Definition empty_cache : sample_cache := mkCache None None None None None None None.

Definition sample_fill (c : sample_cache) (f : address → option bytes) : sample_cache :=
  let fill {A} (o : option A) (id : address) (dec : bytes → option A) :=
    match o with Some x => Some x | None => f id ≫= dec end in
  let unit_of (_ : bytes) := Some () in
  mkCache (fill (sc_clock c) clock_id dec_clock) (fill (sc_rent c) rent_id dec_rent)
    (fill (sc_slot_hashes c) slot_hashes_id dec_slot_hashes)
    (fill (sc_epoch_schedule c) epoch_schedule_id dec_schedule)
    (fill (sc_epoch_rewards c) epoch_rewards_id dec_rewards)
    (fill (sc_last_restart_slot c) last_restart_slot_id dec_number)
    (fill (sc_stake_history c) stake_history_id unit_of).

#[export] Instance sample_sysvars : SysvarApi := {|
  EpochRewards := sample_rewards; EpochSchedule := sample_schedule; Fees := ();
  LastRestartSlot := N;
  RecentBlockhashes := N; SlotHashes := list (N * N); SlotHistory := (); StakeHistory := ();
  clock_codec := {| serialize := enc_clock; deserialize_from := dec_clock |};
  rent_codec := {| serialize := enc_rent; deserialize_from := dec_rent |};
  epoch_rewards_codec := {| serialize := enc_rewards; deserialize_from := dec_rewards |};
  epoch_schedule_codec := {| serialize := enc_schedule; deserialize_from := dec_schedule |};
  fees_codec := unit_codec; last_restart_slot_codec := N_codec;
  recent_blockhashes_codec := N_codec;
  slot_hashes_codec := {| serialize := enc_slot_hashes; deserialize_from := dec_slot_hashes |};
  slot_history_codec := unit_codec; stake_history_codec := unit_codec;
  default_epoch_rewards := (0, 0, 0, 0, 0, 0, false)%N;
  default_epoch_schedule := (32, 32, false, 0, 0)%N; default_fees := ();
  fees_lamports_per_signature _ := 0%N; default_last_restart_slot := 0%N;
  recent_blockhashes_from_iter l := match l with (_, h, _) :: _ => h | [] => 0%N end;
  slot_hashes_new l := l; default_slot_history := (); default_stake_history := ();
  slot_hashes_size := 600;
  SysvarCache := sample_cache;
  cache_default := empty_cache; cache_reset _ := empty_cache; cache_fill := sample_fill;
  cache_get_clock := sc_clock; cache_get_rent := sc_rent;
  cache_get_slot_hashes := sc_slot_hashes; cache_get_epoch_schedule := sc_epoch_schedule;
  cache_get_epoch_rewards := sc_epoch_rewards;
  cache_get_last_restart_slot := sc_last_restart_slot;
  cache_get_stake_history := sc_stake_history |}.

#[export] Instance sample_sysvar_laws : SysvarLaws.
Proof.
  split.
  - split. intros [] n. cbn. unfold enc_clock, dec_clock. simpl. rewrite <-!app_assoc.
    by repeat (rewrite dec_enc_N || rewrite dec_enc_Z; simpl).
  - split. intros [l t p] n. cbn. unfold enc_rent, dec_rent. simpl. rewrite <-!app_assoc.
    repeat (rewrite dec_enc_N; simpl). unfold len. rewrite Nat2N.id. by rewrite take_app_length.
  - split. intros x n. cbn. by rewrite dec_enc_N.
  - intros c f g Hfg. cbn. unfold sample_fill. by rewrite !Hfg.
  - done.
  - done.
  - done.
  - done.
  - done.
  - done.
  - done.
Qed.

#[export] Instance sample_programs : ProgramApi := {|
  RuntimeEnvironment := (); mock_environment := ();
  ProgramCacheEntry := N; ProgramCache := gmap N N; Registerer := ();
  entry_new _ _ d _ elf _ := match elf with [] => None | _ => Some d end;
  entry_reload _ _ d _ _ _ := Some d;
  entry_new_builtin d _ _ := d;
  entry_closed_tombstone d := d;
  entry_set_effective_slot _ n := n;
  cache_new _ := ∅;
  cache_replenish c k e := <[k := e]> c;
  cache_find c k := c !! k;
  cache_set_slot c _ := c;
  deserialize_program_state b := fst <$> dec_N b;
  serialize_program_state := enc_N;
  serialize_programdata_state _ := [Byte.x03];
  size_of_programdata_metadata := 2;
  loader_v4_program_data_offset := 3;
  find_program_address k _ := (k + 100000)%N;
  delay_visibility_slot_offset := 1 |}.

#[export] Instance sample_program_laws : ProgramLaws.
Proof.
  split.
  - intros a. cbn. rewrite <-(app_nil_r (enc_N a)), dec_enc_N. done.
  - intros n. simpl. lia.
  - intros c k e. cbn. rewrite lookup_insert_eq. eauto.
  - intros c k k' e Hne. cbn. by rewrite lookup_insert_ne.
  - done.
Qed.

#[export] Instance sample_system : SystemApi := {|
  get_system_account_kind a :=
    if (owner a =? 6)%N then Some (match data a with [] => System | _ => Nonce end) else None;
  nonce_state_size := 80;
  verify_nonce_account a h :=
    match dec_N (data a) with
    | Some (h', _) => if (h' =? h)%N then Some 100%N else None
    | None => None
    end;
  durable_nonce_from_blockhash h := (h + 7)%N |}.

#[export] Instance sample_system_laws : SystemLaws.
Proof. split. done. Qed.

#[export] Instance sample_lookup : LookupApi := {|
  LookupTable := ();
  lookup_table_deserialize _ := Some ();
  lookup_table_lookup _ _ _ _ := Ok [];
  loaded_addresses_collect l := {| la_writable := l ≫= la_writable; la_readonly := l ≫= la_readonly |} |}.

#[export] Instance sample_partition : PartitionApi := {|
  partition A p l := filter (λ x, p x = true) l ++ filter (λ x, ¬ p x = true) l |}.

#[export] Instance sample_partition_laws : PartitionLaws.
Proof.
  split.
  - intros A p l. simpl. induction l as [|x l IH]; [done|].
    rewrite !filter_cons. destruct (p x) eqn:Hx; simpl.
    + by constructor.
    + rewrite <-Permutation_middle. by constructor.
  - intros A p l. eexists _, _. split; [done|]. split; apply Forall_forall; intros x.
    + by intros [? _]%list_elem_of_filter.
    + intros [Hx _]%list_elem_of_filter. by destruct (p x).
Qed.

#[export] Instance sample_precompiles : PrecompileApi := {|
  PrecompileError := (); precompile_invalid_public_key := (); Precompile := ();
  precompile_is _ _ := false; precompile_get _ _ := None; precompile_verify _ _ _ _ := Ok ();
  precompiles_all := [] |}.

(** ** The runtime *)

(** A transaction: keys, of which the first [sx_writable] are writable and the
    rest programs, and transfers (program, from, to, amount) by index. *)
Record sample_tx : Type := {
  sx_keys : list address;
  sx_writable : nat;
  sx_transfers : list (N * nat * nat * N);
  sx_blockhash : hash;
  sx_signature : signature }.

Definition sample_instruction (t : N * nat * nat * N) : CompiledInstruction :=
  let '(p, i, j, amount) := t in
  {| program_id_index := p; ix_accounts := [N.of_nat i; N.of_nat j]; ix_data := enc_N amount |}.

Definition sample_message (tx : sample_tx) : SanitizedMessage := {|
  account_keys := sx_keys tx;
  instructions := sample_instruction <$> sx_transfers tx;
  program_instructions_iter :=
    (λ t, (default 0%N (sx_keys tx !! N.to_nat t.1.1.1), sample_instruction t))
      <$> sx_transfers tx;
  recent_blockhash := sx_blockhash tx;
  is_writable i := bool_decide (i < sx_writable tx ∧ i < length (sx_keys tx));
  is_instruction_account i := bool_decide (i < sx_writable tx);
  is_invoked i := negb (bool_decide (i < sx_writable tx));
  num_lookup_tables := 0;
  get_durable_nonce := None;
  get_ix_signers _ := [] |}.

Definition sample_try_create (tx : sample_tx) : result TransactionError SanitizedTransaction :=
  if forallb (λ t, bool_decide (N.to_nat t.1.1.1 < length (sx_keys tx))) (sx_transfers tx)
  then Ok {| message := sample_message tx; tx_signature := sx_signature tx |}
  else Err TE_SanitizeFailure.

(** The invoke context: accounts, permissions, instructions left, log. *)
Record sample_invoke : Type := {
  si_accounts : list (address * account);
  si_permissions : nat → bool;
  si_queue : list CompiledInstruction;
  si_logs : list str }.

(** Moves lamports between two accounts of the list. *)
Definition transfer (l : list (address * account)) (i j : nat) (amount : N)
    : list (address * account) :=
  alter (prod_map id (λ a, set_lamports a (lamports a + amount))) j
    (alter (prod_map id (λ a, set_lamports a (lamports a - amount))) i l).

Definition sample_step (ic : sample_invoke) (ix : CompiledInstruction) (rest : list CompiledInstruction)
    : sample_invoke * result InstructionError () :=
  let fail e := ({| si_accounts := si_accounts ic; si_permissions := si_permissions ic;
                    si_queue := rest; si_logs := si_logs ic ++ [[0%N]] |}, Err e) in
  match ix_accounts ix, dec_N (ix_data ix) with
  | [i; j], Some (amount, _) =>
      let i := N.to_nat i in
      let j := N.to_nat j in
      match si_accounts ic !! i, si_accounts ic !! j with
      | Some from, Some _ =>
          if si_permissions ic i && si_permissions ic j && negb (i =? j)%nat
             && (amount <=? lamports from.2)%N
          then ({| si_accounts := transfer (si_accounts ic) i j amount;
                   si_permissions := si_permissions ic; si_queue := rest;
                   si_logs := si_logs ic ++ [[1%N]] |}, Ok ())
          else fail IE_InsufficientFunds
      | _, _ => fail IE_NotEnoughAccountKeys
      end
  | _, _ => fail IE_InvalidInstructionData
  end.

Definition sample_instruction_run (ic : sample_invoke)
    : N * sample_invoke * result InstructionError () :=
  match si_queue ic with
  | [] => (0%N, ic, Err IE_CallDepth)
  | ix :: rest => let (ic, r) := sample_step ic ix rest in (150%N, ic, r)
  end.

Definition default_budget : ComputeBudget :=
  ltac:(constructor; exact 8%N).

#[export] Instance sample_vm : VmApi := {|
  VersionedTransaction := sample_tx;
  try_create tx _ _ := Ret (sample_try_create tx);
  validate_account_locks msg n :=
    if bool_decide (NoDup (account_keys msg)) then
      if (len (account_keys msg) <=? n)%N then Ok () else Err TE_TooManyAccountLocks
    else Err TE_AccountLoadedTwice;
  tx_verify _ := Ok ();
  max_tx_account_locks := 128;
  try_from_sanitized_message _ _ :=
    Ok {| tc_compute_unit_limit := 200000; tc_updated_heap_bytes := 32768;
          tc_priority_fee_lamports := 0; tc_loaded_accounts_data_size_limit := 1000 |};
  calculate_fee _ lps _ _ := lps;
  construct_instructions_data _ := Some [];
  compute_budget_with_defaults _ := default_budget;
  nonced_tx_marker_ix_index := 0;
  TransactionContext := list (address * account);
  context_new l _ _ _ _ := l;
  context_try_borrow c i := ok_or (snd <$> c !! i) IE_MissingAccount;
  context_key_at c i := ok_or (fst <$> c !! i) IE_MissingAccount;
  context_accounts c := c;
  context_return_data _ := default_return_data;
  context_trace _ := [];
  LogCollector := list str;
  log_collector_new _ := [];
  log_messages l := l;
  InvokeContext := sample_invoke;
  invoke_context_new c _ _ lc _ :=
    {| si_accounts := c; si_permissions _ := false; si_queue := []; si_logs := lc |};
  ic_context := si_accounts;
  ic_log_collector := si_logs;
  ic_prepare_top_level_instructions ic msg :=
    ({| si_accounts := si_accounts ic; si_permissions := is_writable msg;
        si_queue := instructions msg; si_logs := si_logs ic |}, Ok ());
  ic_is_precompile _ _ := false;
  ic_process_precompile ic _ _ _ := (ic, Ok ());
  ic_process_instruction := sample_instruction_run |}.

#[export] Instance sample_permissions : VmPermissions := {| ic_permissions := si_permissions |}.

Lemma list_sum_alter {A} (f : A → N) (g : A → A) (l : list A) (i : nat) (x : A) :
  l !! i = Some x → (list_sum f (alter g i l) + f x = list_sum f l + f (g x))%N.
Proof.
  revert i. induction l as [|y l IH]; intros [|i] Hi; [done|done| |].
  - injection Hi as ->. simpl. lia.
  - specialize (IH i Hi). change (alter g (S i) (y :: l)) with (y :: alter g i l). simpl. lia.
Qed.

Lemma transfer_balanced l i j amount from to :
  l !! i = Some from → l !! j = Some to → i ≠ j → (amount ≤ lamports from.2)%N →
  list_sum (λ x, lamports x.2) (transfer l i j amount) = list_sum (λ x, lamports x.2) l.
Proof.
  intros Hi Hj Hne Hle. unfold transfer.
  pose proof (list_sum_alter (λ x : address * account, lamports x.2)
    (prod_map id (λ a, set_lamports a (lamports a - amount))) l i from Hi) as H1.
  pose proof (list_sum_alter (λ x : address * account, lamports x.2)
    (prod_map id (λ a, set_lamports a (lamports a + amount)))
    (alter (prod_map id (λ a, set_lamports a (lamports a - amount))) i l) j to) as H2.
  rewrite list_lookup_alter_ne in H2 by done. specialize (H2 Hj). simpl in *. lia.
Qed.

Lemma alter_keys (f : account → account) (l : list (address * account)) i :
  (alter (prod_map id f) i l).*1 = l.*1.
Proof.
  revert i. induction l as [|[k a] l IH]; intros [|i]; simpl; [done..|].
  f_equal. apply IH.
Qed.

Lemma sample_step_frame ic ix rest ic' r :
  sample_step ic ix rest = (ic', r) →
  si_permissions ic' = si_permissions ic ∧
  readonly_kept (si_permissions ic) (si_accounts ic) (si_accounts ic') ∧
  (r = Ok () → context_lamports (si_accounts ic') = context_lamports (si_accounts ic)).
Proof.
  unfold sample_step. intros Hs.
  destruct (ix_accounts ix) as [|i [|j [|]]]; try (by simplify_eq/=).
  destruct (dec_N (ix_data ix)) as [[amount b]|]; [|by simplify_eq/=].
  destruct (si_accounts ic !! N.to_nat i) as [from|] eqn:Hi; [|by simplify_eq/=].
  destruct (si_accounts ic !! N.to_nat j) as [to|] eqn:Hj; [|by simplify_eq/=].
  destruct (_ && _ && _ && _) eqn:Hc; [|by simplify_eq/=]. injection Hs as <- <-. simpl.
  apply andb_prop in Hc as [[[Hpi Hpj]%andb_prop Hne%negb_true_iff%Nat.eqb_neq]%andb_prop
    Hle%N.leb_le].
  split_and!; [done| |by intros _; eapply transfer_balanced].
  unfold readonly_kept, transfer. simpl. split; [by rewrite !alter_keys|].
  intros k Hk. rewrite !list_lookup_alter_ne; congruence.
Qed.

#[export] Instance sample_vm_laws : VmLaws.
Proof.
  split; simpl; try done.
  - intros c i acc. rewrite list_lookup_fmap. by destruct (c !! i); simpl; intros [= ->].
  - intros c i k. rewrite list_lookup_fmap. by destruct (c !! i); simpl; intros [= ->].
  - intros ic msg ic' [= <-]. done.
  - intros ic p d ds ic' r [= <- <-]. done.
  - intros ic u ic' r. unfold sample_instruction_run.
    destruct (si_queue ic) as [|ix rest]; [intros [= _ <- <-]; done|].
    destruct (sample_step ic ix rest) as [ic1 r1] eqn:Hs. intros [= _ <- <-].
    destruct (sample_step_frame _ _ _ _ _ Hs) as (Hp & Hro & _). by rewrite Hp.
  - intros ic u ic'. unfold sample_instruction_run.
    destruct (si_queue ic) as [|ix rest]; [done|].
    destruct (sample_step ic ix rest) as [ic1 r1] eqn:Hs. intros [= _ <- ->].
    destruct (sample_step_frame _ _ _ _ _ Hs) as (_ & _ & Hl). auto.
Qed.

#[export] Instance sample_sanitize_laws : SanitizeLaws.
Proof.
  split; simpl.
  - intros tx loader reserved stx i. unfold sample_try_create.
    destruct (forallb _ _); [|done]. intros [= <-]. simpl. rewrite bool_decide_eq_true. tauto.
  - intros tx loader reserved stx ix. unfold sample_try_create.
    destruct (forallb _ _) eqn:Hf; [|done]. intros [= <-]. simpl.
    intros ([[[p i] j] a] & -> & Hin)%list_elem_of_fmap. simpl.
    rewrite forallb_forall in Hf. apply list_elem_of_In, Hf in Hin.
    by apply bool_decide_eq_true in Hin.
  - intros msg n. destruct (bool_decide_reflect (NoDup (account_keys msg))); done.
Qed.

(** ** The host and an instance *)

#[export] Instance sample_hash : HashApi := {|
  sha256 b := (1 + N.of_nat (length b))%N; hash_to_bytes := enc_N |}.

(** The loaders are builtins. *)
Definition sample_builtin (k : address) : Builtin :=
  {| enable_feature_id := None; program_id := k; name := [Byte.x6c]; register_fn := () |}.

#[export] Instance sample_host : Host := {|
  host_ids := sample_ids; host_features := sample_features; host_rent := sample_rent_api;
  host_sysvars := sample_sysvars; host_programs := sample_programs; host_system := sample_system;
  host_lookup := sample_lookup; host_partition := sample_partition;
  host_precompiles := sample_precompiles; host_vm := sample_vm; host_hash := sample_hash;
  host_alloc := exact_alloc;
  BUILTINS := sample_builtin <$> [2; 3; 4]%N; dummy_inheritable_account_fields := (1%N, 0%N);
  TRANSACTION_LEVEL_STACK_HEIGHT := 1;
  default_fee_structure := {| lamports_per_signature := 5000; lamports_per_write_lock := 0;
                              compute_fee_bins := [] |};
  create_program_runtime_environment _ _ _ := Some (); env_trace_dir := false;
  BuiltinProgram := (); SyscallFn := (); program_new_loader _ := ();
  env_function_registry _ := []; program_register_function _ _ _ := Some ();
  registerer_call _ _ _ := Some (); env_from_program _ := ();
  keypair_pubkey b := fst <$> dec_N b;
  feature_size := 9; feature_create_account n l := Account l (enc_N n) 1000 false 0;
  elf_file _ := [Byte.x7f]; address_literal s := (2000 + N.of_nat (String.length s))%N;
  transfer_transaction _ payer to l h :=
    Some {| sx_keys := [payer; to; 6%N]; sx_writable := 2; sx_transfers := [(2%N, 0, 1, l)];
            sx_blockhash := h; sx_signature := 1 |} |}.

#[export] Instance sample_alloc_laws : IndexMapAllocLaws (H := host_alloc) := exact_alloc_laws.

Definition system_account (l : N) : account := Account l [] 6 false 0.

Definition sample_rent : Rent :=
  {| lamports_per_byte := 1; exemption_threshold := []; burn_percent := 50 |}.

Definition sample_store : gmap address account :=
  list_to_map
    [(100%N, system_account 1000000); (101%N, system_account 500);
     (6%N, Account 1 [] 1 true 0); (14%N, Account 1 (enc_clock default_clock) 12 false 0);
     (20%N, Account 1 (enc_rent sample_rent) 12 false 0)].

Definition sample_db : AccountsDb :=
  mkDb sample_store ∅ (mkCache (Some default_clock) (Some sample_rent) None None None None None)
    () ().

Definition sample_svm : LiteSVM :=
  mkSvm sample_db (enc_N 100) ([], []) [] 42%N history_new None true true default_fee_structure
    (Some 10000%N) [] no_stakes false.

(** A transfer of 200 from 100 to 101, one that asks for too much, and a stale
    one. *)
Definition sample_transfer (amount h : N) : sample_tx :=
  {| sx_keys := [100; 101; 6]%N; sx_writable := 2; sx_transfers := [(2%N, 0, 1, amount)];
     sx_blockhash := h; sx_signature := 77 |}.

Definition sanitized (tx : sample_tx) : SanitizedTransaction :=
  {| message := sample_message tx; tx_signature := sx_signature tx |}.
