(* ===== verification/SampleWire.v ===== *)
(** * Sample encodings

    Self-delimiting encodings of the primitive types of the snapshot layouts; with
    them every snapshot of the sample host whose errors are among two has bytes. *)

From S2P Require Import Prelude Errors ComputeBudget Runtime Utils Types History.
From S2P Require Import EpochStake AccountsDb Vm Features Svm Persistence Wire SampleHost.

Definition sN : schema N := {| write n := Some (enc_N n); read := dec_N |}.

Lemma sN_lawful : lawful sN.
Proof. intros n b rest [= <-]. apply dec_enc_N. Qed.

Definition s_bool : schema bool :=
  schema_as sN (λ b : bool, if b then 1%N else 0%N)
    (λ n, if (n =? 0)%N then Some false else Some true).

Lemma s_bool_lawful : lawful s_bool.
Proof. apply schema_as_lawful; [apply sN_lawful|by intros []]. Qed.

Definition s_byte : schema Byte.byte := schema_as sN Byte.to_N Byte.of_N.

Lemma s_byte_lawful : lawful s_byte.
Proof. apply schema_as_lawful; [apply sN_lawful|by intros []]. Qed.

(** The number of elements, then the elements. *)
Fixpoint write_list {A} (c : schema A) (l : list A) : option bytes :=
  match l with
  | [] => Some []
  | x :: l => b ← write c x; b' ← write_list c l; Some (b ++ b')
  end.

Fixpoint read_list {A} (c : schema A) (n : nat) (b : bytes) : option (list A * bytes) :=
  match n with
  | 0 => Some ([], b)
  | S n => '(x, b) ← read c b; '(l, b) ← read_list c n b; Some (x :: l, b)
  end.

Definition s_vec {A} (c : schema A) : schema (list A) := {|
  write l := b ← write_list c l; Some (enc_N (len l) ++ b);
  read b := '(n, b) ← dec_N b; read_list c (N.to_nat n) b |}.

Lemma s_vec_lawful {A} (c : schema A) : lawful c → lawful (s_vec c).
Proof.
  intros Hc l b rest. simpl. destruct (write_list c l) as [b1|] eqn:Hw; simpl; [|done].
  intros [= <-]. rewrite <-app_assoc, dec_enc_N. simpl. unfold len. rewrite Nat2N.id.
  revert b1 Hw. induction l as [|x l IH]; simpl; intros b1 Hw; [by injection Hw as <-|].
  destruct (write c x) as [bx|] eqn:Hx; simpl in Hw; [|done].
  destruct (write_list c l) as [bl|]; simpl in Hw; [|done]. injection Hw as <-.
  rewrite <-app_assoc, (Hc _ _ _ Hx). simpl. by rewrite (IH bl).
Qed.

Definition s_option {A} (c : schema A) : schema (option A) := {|
  write o :=
    match o with None => Some (enc_N 0) | Some x => b ← write c x; Some (enc_N 1 ++ b) end;
  read b :=
    '(n, b) ← dec_N b;
    if (n =? 0)%N then Some (None, b) else '(x, b) ← read c b; Some (Some x, b) |}.

Definition s_account : schema account :=
  schema_as (sN ⊗ s_vec s_byte ⊗ sN ⊗ s_bool ⊗ sN)
    (λ a, (lamports a, data a, owner a, executable a, rent_epoch a))
    (λ '(l, d, o, e, r), Some (Account l d o e r)).

Definition s_instruction : schema CompiledInstruction :=
  schema_as (sN ⊗ s_vec sN ⊗ s_vec s_byte) (λ i, (program_id_index i, ix_accounts i, ix_data i))
    (λ '(p, a, d), Some {| program_id_index := p; ix_accounts := a; ix_data := d |}).

Definition s_return_data : schema TransactionReturnData :=
  schema_as (sN ⊗ s_vec s_byte) (λ r, (rd_program_id r, rd_data r))
    (λ '(p, d), Some {| rd_program_id := p; rd_data := d |}).

(** Insufficient funds in an instruction, and a missing account. *)
Definition s_error : schema TransactionError := {|
  write e :=
    match e with
    | TE_AccountNotFound => Some (enc_N 0)
    | TE_InstructionError i IE_InsufficientFunds => Some (enc_N (1 + i))
    | _ => None
    end;
  read b :=
    '(n, b) ← dec_N b;
    Some (if (n =? 0)%N then TE_AccountNotFound
          else TE_InstructionError (n - 1) IE_InsufficientFunds, b) |}.

Lemma s_error_lawful : lawful s_error.
Proof.
  intros e b rest Hw. unfold s_error in *. cbn [write read] in *.
  assert (∃ n, b = enc_N n ∧ e = if (n =? 0)%N then TE_AccountNotFound
            else TE_InstructionError (n - 1) IE_InsufficientFunds) as (n & -> & ->).
  { destruct e; try discriminate.
    - injection Hw as <-. by exists 0%N.
    - match type of Hw with match ?e with _ => _ end = _ => destruct e; try discriminate end.
      injection Hw as <-. eexists. split; [done|].
      match goal with |- context [(1 + ?i =? 0)%N] => destruct (N.eqb_spec (1 + i) 0); [lia|];
        by replace (1 + i - 1)%N with i by lia end. }
  by rewrite dec_enc_N.
Qed.

#[export] Instance sample_wincode : Wincode := {|
  wc_u8 := sN; wc_u32 := sN; wc_u64 := sN; wc_usize := sN; wc_bool := s_bool;
  wc_string := s_vec sN; wc_vec := @s_vec; wc_option := @s_option;
  wc_none := enc_N 0; wc_some := enc_N 1; wc_tag := sN;
  wc_bytes64 := s_vec s_byte; wc_address := sN; wc_hash := sN; wc_signature := sN;
  wc_account := s_account; wc_compiled_instruction := s_instruction;
  wc_return_data := s_return_data; wc_transaction_error := s_error;
  wc_accepts_rest _ := true |}.

#[local] Hint Resolve sN_lawful s_bool_lawful s_byte_lawful s_vec_lawful
  s_error_lawful : wire.

#[export] Instance sample_wincode_laws : WincodeLaws.
Proof.
  split; cbn [wc_u8 wc_u32 wc_u64 wc_usize wc_bool wc_string wc_vec wc_option wc_none wc_some
    wc_tag wc_bytes64 wc_address wc_hash wc_signature wc_account wc_compiled_instruction
    wc_return_data wc_transaction_error wc_accepts_rest sample_wincode]; auto 10 with wire.
  all: apply schema_as_lawful; [auto 10 with wire|by intros []].
Qed.
