(* ===== verification/TestsPersistence.v ===== *)
(** * The unit tests of snapshots (crates/persistence/src/lib.rs)

    The tests of the snapshot format as executable checks of the model, on a fresh
    instance of the sample host and with its byte encodings.  All of them evaluate
    to true. *)

From S2P Require Import Prelude Errors ComputeBudget Runtime Utils Types History EpochStake.
From S2P Require Import AccountsDb Vm Features Svm Process Exec Api Persistence Wire.
From S2P Require Import SampleHost SampleWire.

Module PersistenceTests.

(** [Address::new_unique]. *)
Definition unique (n : N) : address := (5000 + n)%N.

Definition keypair : bytes := enc_N 100.

Definition serialize_v2 (snapshot : LiteSvmSnapshotV2) : outcome bytes :=
  payload ← unwrap (write SnapshotV2Schema snapshot); Ret (V2_STATE_VERSION :: payload).

Definition serialize_v3 (snapshot : LiteSvmSnapshotV3) : outcome bytes :=
  payload ← unwrap (write SnapshotV3Schema snapshot); Ret (STATE_VERSION :: payload).

(** A test passes if it does not panic and its assertion holds. *)
Definition passes (o : outcome bool) : bool :=
  match o with Ret b => b | Panic => false end.

Definition version_two_snapshot_is_still_loadable : bool :=
  passes (
    svm ← svm_new keypair;
    match svm_set_epoch_stake svm (unique 1) 456 with
    | (svm, Ok _) =>
        b ← serialize_v2 (extract_snapshot_v2 svm);
        restored ← from_bytes keypair b;
        match restored with
        | Ok restored => Ret (svm_epoch_total_stake restored =? 0)%N
        | Err _ => Panic
        end
    | (_, Err _) => Panic
    end).

Definition duplicate_epoch_stakes_are_rejected : bool :=
  let vote_account := unique 1 in
  passes (
    svm ← svm_new keypair;
    b ← serialize_v3 {| v3_state := extract_snapshot_v2 svm;
                        v3_epoch_vote_stakes := [(vote_account, 100%N); (vote_account, 200%N)] |};
    restored ← from_bytes keypair b;
    Ret match restored with
        | Err (PE_DuplicateEpochStake address) => (address =? vote_account)%N
        | _ => false
        end).

Definition overflowing_unique_epoch_stakes_are_rejected : bool :=
  passes (
    svm ← svm_new keypair;
    b ← serialize_v3 {| v3_state := extract_snapshot_v2 svm;
                        v3_epoch_vote_stakes := [(unique 1, u64_max); (unique 2, 1%N)] |};
    restored ← from_bytes keypair b;
    Ret match restored with
        | Err (PE_InvalidEpochStakes LE_EpochStakeOverflow) => true
        | _ => false
        end).

(** The model of the snapshot format passes the unit tests of the crate. *)
Theorem persistence_tests_pass :
  version_two_snapshot_is_still_loadable = true ∧
  duplicate_epoch_stakes_are_rejected = true ∧
  overflowing_unique_epoch_stakes_are_rejected = true.
Proof. split_and!; by_evaluation. Qed.
End PersistenceTests.
