(* ===== verification/Witnesses.v ===== *)
(** * Witnesses

    The theorems that assume laws of the host, or that an operation returned, at
    concrete inputs on the sample host. *)

From S2P Require Import Prelude Errors ComputeBudget Runtime RentState Utils Types History.
From S2P Require Import EpochStake AccountsDb Vm InnerInstructions Features Svm SvmProps.
From S2P Require Import Process ProcessLemmas ProcessProps Fresh Exec ExecLemmas ExecProps.
From S2P Require Import Ledger SampleHost Persistence Wire SampleWire Text CpiTree.

(** ** Sample runs *)

Lemma sample_balances_wf : balances_wf (accounts sample_svm).
Proof.
  change (map_Forall (λ _ a, (lamports a ≤ u64_max)%N) sample_store). by_decision.
Qed.

Definition state_after (o : outcome (LiteSVM * TransactionResult)) : LiteSVM :=
  match o with Ret (s, _) => s | Panic => sample_svm end.

(** A transfer that succeeds, one that fails in the runtime, a stale one. *)
Definition good : sample_tx := sample_transfer 200 42.
Definition too_much : sample_tx := sample_transfer 2000000 42.
Definition stale : sample_tx := sample_transfer 200 43.

Definition sample_meta (log : N) : TransactionMetadata :=
  {| meta_signature := 77; logs := [[log]]; inner_instructions := [];
     compute_units_consumed := 150; return_data := default_return_data; meta_fee := 5000 |}.

Definition sample_failure : FailedTransactionMetadata :=
  {| failed_err := TE_InstructionError 0 IE_InsufficientFunds; failed_meta := sample_meta 0 |}.

Lemma good_sent :
  send_transaction sample_svm good
  = Ret (state_after (send_transaction sample_svm good), Ok (sample_meta 1)).
Proof. by_evaluation. Qed.

Lemma too_much_sent :
  send_transaction sample_svm too_much
  = Ret (state_after (send_transaction sample_svm too_much), Err sample_failure).
Proof. by_evaluation. Qed.

Lemma sanitize_sample amount h :
  sanitize sample_svm (sample_transfer amount h) = Ret (Ok (sanitized (sample_transfer amount h))).
Proof. reflexivity. Qed.

(** ** Sending and simulating *)

Lemma simulate_agrees_with_send_witness :
  ∃ s', send_transaction sample_svm too_much = Ret (s', Err sample_failure).
Proof.
  pose proof (simulate_agrees_with_send sample_svm too_much sample_balances_wf) as H.
  assert (simulate_transaction sample_svm too_much = Ret (Err sample_failure)) as Hs
    by by_evaluation.
  rewrite Hs in H. exact H.
Defined.

Lemma failed_send_charges_only_fee_witness :
  ∃ er lc, executes sample_svm too_much = Ret (er, lc) ∧ tx_result er = Err (failed_err sample_failure).
Proof.
  destruct (failed_send_charges_only_fee _ _ _ _ sample_balances_wf too_much_sent)
    as (er & lc & Hex & Hr & _).
  exists er, lc. exact (conj Hex Hr).
Defined.

Lemma good_instructions i :
  account_keys (message (sanitized good)) !! i = Some 13%N →
  is_writable (message (sanitized good)) i = false.
Proof. destruct i as [|[|[|i]]]; simpl; congruence. Qed.

Lemma good_payer i k :
  account_keys (message (sanitized good)) !! i = Some k →
  fee_payer (message (sanitized good)) = Some k →
  is_writable (message (sanitized good)) i = true.
Proof.
  replace (fee_payer (message (sanitized good))) with (Some 100%N) by reflexivity.
  destruct i as [|[|[|i]]]; simpl; [reflexivity|congruence..|done].
Qed.

Lemma send_conserves_lamports_witness :
  (store_total (inner (accounts (state_after (send_transaction sample_svm good)))) + 5000
   = store_total sample_store)%N.
Proof.
  exact (send_conserves_lamports _ _ _ _ _ sample_balances_wf good_sent (sanitize_sample 200 42)
    good_instructions good_payer).
Defined.

Lemma send_changes_only_writable_witness :
  inner (accounts (state_after (send_transaction sample_svm good))) !! 6%N = sample_store !! 6%N.
Proof.
  refine (send_changes_only_writable _ _ _ _ _ 6%N sample_balances_wf good_sent
    (sanitize_sample 200 42) _).
  intros [|[|[|i]]]; simpl; congruence || reflexivity.
Defined.

Lemma send_respects_rent_witness :
  100%N = 11%N ∨
  transition_allowed (pre_state sample_svm sample_rent 100)
    (pre_state (state_after (send_transaction sample_svm good)) sample_rent 100) = true.
Proof.
  exact (send_respects_rent _ _ _ _ _ sample_rent 0 100%N sample_balances_wf good_sent
    (sanitize_sample 200 42) eq_refl eq_refl eq_refl).
Defined.

Lemma replay_rejected_witness :
  ∃ f, send_transaction (state_after (send_transaction sample_svm good)) good
       = Ret (state_after (send_transaction sample_svm good), Err f) ∧
       failed_err f = TE_AlreadyProcessed.
Proof.
  destruct (executes sample_svm good) as [[er lc]|] eqn:Hex.
  2:{ exfalso. assert (is_ret (executes sample_svm good) = true) as Hr by by_evaluation.
      rewrite Hex in Hr. discriminate Hr. }
  assert (included er = true) as Hinc.
  { transitivity (match executes sample_svm good with
                  | Ret (er, _) => included er | Panic => false end);
      [rewrite Hex; reflexivity|by_evaluation]. }
  assert (history_wf (history sample_svm)) as Hh.
  { split; [apply NoDup_nil_2|vm_compute; discriminate]. }
  assert (sanitize (state_after (send_transaction sample_svm good)) good
          = sanitize sample_svm good) as Hsame by reflexivity.
  destruct (replay_rejected sample_svm good _ _ _ _ _ sample_balances_wf Hh
    eq_refl eq_refl Hex Hinc good_sent (sanitize_sample 200 42) Hsame) as (_ & f & Hsend & Hf).
  exists f. split; [exact Hsend|]. destruct Hf as [Hf|[Hne _]]; [exact Hf|].
  exfalso. apply Hne. reflexivity.
Defined.

Lemma stale_blockhash_rejected_witness :
  ∃ f, send_transaction sample_svm stale = Ret (sample_svm, Err f) ∧
       failed_err f = TE_BlockhashNotFound.
Proof.
  destruct (stale_blockhash_rejected sample_svm stale _ (sanitize_sample 200 43) eq_refl) as [_ H].
  eexists. split; [apply H|reflexivity].
  intros [Heq|(_ & n & a & au & Hn & _)]; [discriminate Heq|discriminate Hn].
Defined.

(** ** The ledger *)

Definition signed_transfer (amount : N) (sig : signature) : sample_tx :=
  {| sx_keys := [100; 101; 6]%N; sx_writable := 2; sx_transfers := [(2%N, 0, 1, amount)];
     sx_blockhash := 42; sx_signature := sig |}.

Lemma signed_regular amount sig s : regular s (signed_transfer amount sig).
Proof.
  intros stx [Hc _]%sanitize_try_create. injection Hc as <-. split.
  - intros [|[|[|i]]]; simpl; congruence.
  - intros i k. replace (fee_payer _) with (Some 100%N) by reflexivity.
    destruct i as [|[|[|i]]]; simpl; [reflexivity|congruence..|done].
Qed.

Definition sent (s : LiteSVM) (tx : sample_tx) : LiteSVM := state_after (send_transaction s tx).

(** A success, the same transaction again, and another one that fails. *)
Definition sample_receipts : list receipt := [Receipt 5000 true; Receipt 0 false; Receipt 5000 false].
Definition sample_end : LiteSVM :=
  sent (sent (sent sample_svm good) good) (signed_transfer 2000000 78).

Definition gives (s : LiteSVM) (tx : sample_tx) (r : receipt) : bool :=
  match send_transaction s tx with
  | Ret (_, res) => (rc_fee (receipt_of res) =? rc_fee r)%N && Bool.eqb (rc_ok (receipt_of res)) (rc_ok r)
  | Panic => false
  end.

Lemma client_send_sample s amount sig r rs s' :
  gives s (signed_transfer amount sig) r = true →
  client_run (sent s (signed_transfer amount sig)) rs s' → client_run s (r :: rs) s'.
Proof.
  unfold gives, sent, state_after. intros Hg Hrun.
  destruct (send_transaction s (signed_transfer amount sig)) as [[s1 res]|] eqn:Hs; [|done].
  apply andb_prop in Hg as [Hf%N.eqb_eq Ho%eqb_prop].
  assert (receipt_of res = r) as <-
    by (destruct (receipt_of res), r; simpl in *; congruence).
  apply (client_next s (Some (receipt_of res)) s1); [|done].
  by eapply client_send; [apply signed_regular|].
Qed.

Lemma sample_client_run : client_run sample_svm sample_receipts sample_end.
Proof.
  apply (client_send_sample _ 200 77); [by_evaluation|].
  apply (client_send_sample _ 200 77); [by_evaluation|].
  apply (client_send_sample _ 2000000 78); [by_evaluation|]. apply client_done.
Qed.

Lemma client_run_balances_witness :
  balances_wf (accounts sample_end) ∧
  ∃ burnt, (store_total (inner (accounts sample_end)) + burnt = 1000503)%N ∧
    (5000 ≤ burnt ≤ 10000)%N.
Proof.
  destruct (client_run_balances sample_svm sample_receipts sample_end) as (Hwf & burnt & Hs & Hb);
    [vm_compute; discriminate|exact sample_client_run|].
  split; [exact Hwf|]. exists burnt. split; [exact Hs|exact Hb].
Defined.

(** ** Processing *)

Lemma validate_fee_payer_correct_witness :
  validate_fee_payer 100 (system_account 1000000) 0 sample_rent 5000
  = Ret (system_account 995000, Ok ()).
Proof.
  rewrite (validate_fee_payer_correct 100 (system_account 1000000) 0 sample_rent 5000).
  vm_compute. reflexivity.
Defined.

Lemma sample_processable : processable sample_svm (message (sanitized good)).
Proof.
  split.
  - eexists. reflexivity.
  - intros k [e He]. discriminate He.
  - intros k acc Hk He Hn. exfalso.
    assert (map_Forall (λ _ a, ¬ (executable a = true ∧ owner a ≠ 1%N)) sample_store) as Hall
      by by_decision.
    exact (Hall k acc Hk (conj He Hn)).
  - intros ix Hix. apply list_elem_of_singleton in Hix as ->. simpl. lia.
Qed.

Definition sample_config : TransactionConfiguration :=
  {| tc_compute_unit_limit := 200000; tc_updated_heap_bytes := 32768;
     tc_priority_fee_lamports := 0; tc_loaded_accounts_data_size_limit := 1000 |}.

Lemma process_transaction_total_witness :
  ∃ p, process_transaction sample_svm (sanitized good) sample_config [] = Ret p.
Proof. exact (process_transaction_total _ _ _ _ sample_processable). Defined.

#[export] Instance unit_codec_laws : CodecLaws (H := unit_codec) ().
Proof. split. intros [] n. reflexivity. Qed.

#[export] Instance sample_boot_laws : BootLaws.
Proof.
  split.
  - intros n k. reflexivity.
  - intros c n k. reflexivity.
  - intros l Hl. exists (sample_builtin l). split; [|done].
    change BUILTINS with (sample_builtin <$> program_loaders).
    by apply list_elem_of_fmap_2.
  - intros n l. reflexivity.
  - intros k f Hk. by apply elem_of_nil in Hk.
  - intros fs b t. eexists. reflexivity.
  - split. intros x n. apply dec_enc_rewards.
  - split. intros x n. apply dec_enc_schedule.
  - exact unit_codec_laws.
  - split. intros x n. cbn. by rewrite dec_enc_N.
  - split. intros x n. apply dec_enc_slot_hashes.
  - exact unit_codec_laws.
  - apply Nat.leb_le. by_evaluation.
  - intros fs k file loader env d e n _. eexists. reflexivity.
Qed.


Lemma loaded_data_within_limit_witness :
  (0 * ADDRESS_LOOKUP_TABLE_BASE_SIZE
   + list_sum (key_size sample_svm) [100; 101; 6] ≤ 1000)%N.
Proof.
  destruct (process_transaction sample_svm (sanitized good) sample_config []) as [p|] eqn:Hp.
  2:{ exfalso.
      assert (is_ret (process_transaction sample_svm (sanitized good) sample_config []) = true) as Hr
        by by_evaluation.
      rewrite Hp in Hr. discriminate Hr. }
  destruct (po_context p) as [ctx|] eqn:Hctx.
  - refine (loaded_data_within_limit _ _ sample_config _ p ctx _ Hp Hctx). reflexivity.
  - exfalso.
    assert (match process_transaction sample_svm (sanitized good) sample_config [] with
            | Ret p => if po_context p then true else false | Panic => false end = true) as Hsome
      by by_evaluation.
    rewrite Hp, Hctx in Hsome. discriminate Hsome.
Defined.

(** ** Sysvars and programs *)

Definition sample_clock : Clock := set_slot default_clock 9.

Lemma set_sysvar_roundtrip_witness :
  ∃ s', set_sysvar sample_svm sample_clock = Ret s' ∧ get_sysvar (T := Clock) s' = Ret sample_clock.
Proof.
  destruct (set_sysvar_roundtrip (T := Clock) sample_svm sample_clock) as (s' & Hs & Hg & _).
  exists s'. exact (conj Hs Hg).
Defined.

Lemma warp_to_slot_correct_witness :
  ∃ s', warp_to_slot sample_svm 9 = Ret s' ∧ get_sysvar (T := Clock) s' = Ret sample_clock.
Proof.
  assert (get_sysvar (T := Clock) sample_svm = Ret default_clock) as Hc by by_evaluation.
  destruct (warp_to_slot_correct sample_svm default_clock 9 Hc) as (s' & Hs & Hg & _).
  exists s'. exact (conj Hs Hg).
Defined.

Lemma expire_blockhash_correct_witness :
  ∃ s', expire_blockhash sample_svm = Ret s' ∧ latest_blockhash s' = sha256 (hash_to_bytes 42).
Proof.
  destruct (expire_blockhash_correct sample_svm) as (s' & Hs & Hl & _).
  exists s'. exact (conj Hs Hl).
Defined.

Definition program_after (o : outcome (LiteSVM * result LiteSVMError ())) : LiteSVM :=
  match o with Ret (s, _) => s | Panic => sample_svm end.

Lemma add_program_installs_witness :
  try_program_elf_bytes (accounts (program_after (add_program sample_svm 300 [Byte.x7f]))) 300
  = Ok [Byte.x7f].
Proof.
  assert (add_program sample_svm 300 [Byte.x7f]
          = Ret (program_after (add_program sample_svm 300 [Byte.x7f]), Ok ())) as Ha
    by by_evaluation.
  refine (proj1 (add_program_installs false sample_svm 300 [Byte.x7f] 4 _ Ha _)). discriminate.
Defined.

Lemma add_program_failures_witness :
  programs_cache (accounts (program_after (add_program sample_svm 300 []))) = ∅.
Proof.
  assert (add_program sample_svm 300 []
          = Ret (program_after (add_program sample_svm 300 []), Err LE_ProgramLoad)) as Ha
    by by_evaluation.
  destruct (add_program_failures false sample_svm 300 [] 4 _ _ Ha) as [(He & _)|(_ & _ & _ & Hc)].
  - discriminate.
  - discriminate He.
  - exact Hc.
Defined.

(** ** The accounts database *)

Lemma sample_coherent : db_coherent sample_db.
Proof. split_and!; by_evaluation. Qed.

(** An empty account at the clock's address removes the clock from the store only. *)
Lemma add_account_keeps_cache_coherent_witness :
  inner (add_account sample_db 14 (Account 0 (enc_clock sample_clock) 12 false 0)).1 !! 14%N
  = None ∧
  cache_get_clock (sysvar_cache
    (add_account sample_db 14 (Account 0 (enc_clock sample_clock) 12 false 0)).1)
  = Some sample_clock.
Proof.
  set (acc := Account 0 (enc_clock sample_clock) 12 false 0).
  assert (add_account sample_db 14 acc = ((add_account sample_db 14 acc).1, Ok ())) as Ha
    by by_evaluation.
  destruct (add_account_keeps_cache_coherent _ _ 14%N acc sample_coherent Ha)
    as (Hi & _ & (Hc & _) & _).
  split; [exact Hi|]. rewrite Hc. reflexivity.
Defined.

Lemma rejected_rent_write_loses_cached_rent_witness :
  cache_get_rent (sysvar_cache (add_account sample_db 20 (Account 1 [] 12 false 0)).1) = None.
Proof.
  exact (proj1 (proj2 (proj2 (rejected_rent_write_loses_cached_rent sample_db
    (Account 1 [] 12 false 0) eq_refl eq_refl eq_refl)))).
Defined.

Lemma sync_accounts_store_witness :
  inner (sync_accounts sample_db [(101%N, system_account 7); (100%N, system_account 0)]).1 !! 100%N
  = None.
Proof.
  assert (sync_accounts sample_db [(101%N, system_account 7); (100%N, system_account 0)]
    = ((sync_accounts sample_db [(101%N, system_account 7); (100%N, system_account 0)]).1, Ok ()))
    as Hs by by_evaluation.
  refine (proj1 (sync_accounts_store _ _ _ _ Hs) 100%N (system_account 0) _).
  - by_decision.
  - right. left.
Defined.

Lemma elf_bytes_match_loaded_program_witness :
  load_program sample_db (Account 1 [] 1 true 0) = Err IE_IncorrectProgramId.
Proof. exact (elf_bytes_match_loaded_program sample_db 6 (Account 1 [] 1 true 0) eq_refl). Defined.

Lemma withdraw_correct_witness :
  withdraw sample_db 101 500
  = Ret (with_inner sample_db (<[101%N := system_account 0]> sample_store), Ok ()).
Proof.
  rewrite (withdraw_correct sample_db 101 500 (system_account 500) sample_rent eq_refl eq_refl).
  - by_evaluation.
  - vm_compute. discriminate.
Defined.

(** ** Rent, messages, traces *)

Lemma fee_debit_rent_check_witness :
  check_rent_state_with_account (get_account_rent_state sample_rent 1000 0)
    (get_account_rent_state sample_rent (1000 - 1000) 0) 100 0 = Ok ().
Proof.
  apply (fee_debit_rent_check sample_rent 1000 1000 0 100 0).
  - vm_compute. discriminate.
  - right. left. reflexivity.
Defined.

Definition sample_context : @InvokeContext _ _ _ _ sample_vm :=
  {| si_accounts := [(100%N, system_account 1); (101%N, system_account 2); (6%N, system_account 1)];
     si_permissions _ := false; si_queue := []; si_logs := [] |}.

Lemma process_message_error_index_witness :
  ∃ j err, (j < 1)%nat ∧ TE_InstructionError 0 IE_InsufficientFunds
                         = TE_InstructionError (as_u8 (N.of_nat j)) err.
Proof.
  set (r := process_message (sample_message too_much) [2%N] sample_context 0).
  assert (r = (r.1.1, r.1.2, Err (TE_InstructionError 0 IE_InsufficientFunds))) as Hr
    by (unfold r; by_evaluation).
  destruct (process_message_error_index _ _ _ _ _ _ _ Hr)
    as [(i & err & Hp & _)|(j & err & _ & _ & _ & Hj & _ & He & _)].
  - discriminate Hp.
  - exists j, err. exact (conj Hj He).
Defined.

(** Two top-level instructions; the second calls a program, which calls another. *)
Definition sample_entry (height caller : N) : option InstructionContext :=
  Some {| get_stack_height := height; get_index_of_caller := caller;
          get_index_of_program_account := Some 2%N; get_instruction_data := [];
          get_instruction_accounts := [] |}.

Definition sample_trace : list (option InstructionContext) :=
  [sample_entry 1 0; sample_entry 1 0; sample_entry 2 1; sample_entry 3 2].

Lemma inner_instructions_grouped_witness :
  length <$> inner_instructions_list_from_instruction_trace 1 sample_trace = [0; 2].
Proof.
  rewrite (inner_instructions_grouped 1 sample_trace); [reflexivity|].
  split.
  - intros i Hi. simpl in Hi. destruct i as [|[|[|[|i]]]]; [eexists; reflexivity..|lia].
  - intros i Hi. cbn in Hi. destruct i as [|[|[|[|i]]]]; cbn; lia.
Defined.

(** ** Snapshots *)

Lemma snapshot_roundtrip_witness :
  ∃ s', restore_from_snapshot [] (extract_snapshot sample_svm) = Ret (Ok s') ∧
        latest_blockhash s' = 42%N ∧ is_enabled (history s') = true ∧
        inner (accounts s') !! 100%N = Some (system_account 1000000).
Proof.
  assert (history_wf (history sample_svm)) as Hh.
  { split; [apply NoDup_nil_2|vm_compute; discriminate]. }
  pose proof (snapshot_roundtrip sample_svm [] Hh no_stakes_wf) as Hr.
  assert (match restore_from_snapshot [] (extract_snapshot sample_svm) with
          | Ret (Ok _) => true | _ => false end = true) as Hok by by_evaluation.
  destruct (restore_from_snapshot [] (extract_snapshot sample_svm)) as [[s'|e]|];
    [|discriminate Hok..].
  destruct Hr as [Hr _]. exists s'. split; [reflexivity|].
  split; [exact (restored_blockhash _ _ Hr)|]. split; [exact (restored_enabled _ _ Hr)|].
  rewrite (restored_store _ _ Hr). by_evaluation.
Defined.

(** The bytes of an instance after a success and a failure. *)
Definition sample_bytes : bytes :=
  match to_bytes sample_end with Ok b => b | Err _ => [] end.

Lemma sample_end_bytes : to_bytes sample_end = Ok sample_bytes.
Proof. by_evaluation. Qed.

Lemma bytes_roundtrip_witness :
  from_bytes [] sample_bytes = restore_from_snapshot [] (extract_snapshot sample_end).
Proof. exact (proj1 (bytes_roundtrip []) sample_end _ sample_end_bytes). Defined.

(** A version 1 snapshot of one account, with a compute budget and the two obsolete
    costs 7 and 8. *)
Definition v1_payload : list (option bytes) :=
  payload_parts [write wc_u64 7%N; write wc_u64 8%N]
    {| v2_accounts := [{| ae_address := 100; ae_account := system_account 1000 |}];
       v2_airdrop_kp := enc_N 100; v2_feature_set := {| fss_active := []; fss_inactive := [] |};
       v2_latest_blockhash := 42; v2_history := []; v2_history_capacity := 32;
       v2_compute_budget := Some default_budget; v2_sigverify := true;
       v2_blockhash_check := true; v2_fee_structure := default_fee_structure;
       v2_log_bytes_limit := None |}.

Lemma snapshot_layouts_witness :
  ∃ b s, write_all v1_payload = Some b ∧ v2_compute_budget s = Some default_budget ∧
    from_bytes [] (V1_STATE_VERSION :: b)
    = restore_from_snapshot [] {| v3_state := s; v3_epoch_vote_stakes := [] |}.
Proof.
  destruct (write_all v1_payload) as [b|] eqn:Hb; [|exfalso; vm_compute in Hb; discriminate].
  eexists b, _. split_and!; [reflexivity| |exact (proj1 (proj2 (snapshot_layouts [] _)) _ _ b Hb)].
  reflexivity.
Defined.

(** ** CPI trees *)

Fixpoint text_of_pos (p : positive) : str :=
  match p with xH => [67%N] | xO p => 65%N :: text_of_pos p | xI p => 66%N :: text_of_pos p end.

Fixpoint pos_of_text (s : str) : option positive :=
  match s with
  | [] => None
  | c :: s =>
      if (c =? 67)%N then (match s with [] => Some xH | _ => None end)
      else if (c =? 65)%N then xO <$> pos_of_text s
      else if (c =? 66)%N then xI <$> pos_of_text s
      else None
  end.

#[export] Instance sample_text : AddressText := {|
  address_from_str s := Pos.pred_N <$> pos_of_text s;
  address_to_string a := text_of_pos (N.succ_pos a) |}.

Lemma text_of_pos_chars p c : c ∈ text_of_pos p → (65 ≤ c ≤ 67)%N.
Proof. induction p; simpl; rewrite elem_of_cons; intros [->|?]; [lia|auto|lia|auto|lia|set_solver]. Qed.

#[export] Instance sample_text_laws : AddressTextLaws.
Proof.
  split.
  - intros a. cbn. assert (∀ p, pos_of_text (text_of_pos p) = Some p) as Hp.
    { induction p as [p IH|p IH|]; simpl; by rewrite ?IH. }
    rewrite Hp. simpl. by rewrite N.pos_pred_succ.
  - intros a Hin%text_of_pos_chars. unfold SPACE in Hin. lia.
  - intros a Hin%text_of_pos_chars. lia.
Qed.

Definition sample_frame : CpiFrame :=
  mkFrame 7 Success (Some {| consumed := 5000; available_at_start := 200000 |})
    (Some (lit "Mint")) [Msg (lit "hello world"); Data (lit "AAE=")]
    [mkFrame 9 (Failed (Some (lit "custom program error: 0x1"))) None None [] []].

Lemma cpi_tree_roundtrip_witness : cpi_tree (frames_lines 1 [sample_frame]) = [sample_frame].
Proof.
  apply (cpi_tree_roundtrip [sample_frame]). apply Forall_singleton.
  constructor.
  - vm_compute. discriminate.
  - exact I.
  - split; vm_compute; discriminate.
  - repeat constructor.
  - apply Forall_singleton. constructor; try exact I.
    + vm_compute. discriminate.
    + split; [discriminate|vm_compute; reflexivity].
    + constructor.
    + constructor.
Defined.
