(* ===== verification/SampleText.v ===== *)
(** * A sample parser library, debug stub and file system

    Concrete implementations of the interfaces of the trace filter, the debugger
    client, register tracing, snapshot files and serialized strings, with their
    laws. *)

From S2P Require Import Prelude Errors ComputeBudget Runtime RentState Utils Types History.
From S2P Require Import EpochStake AccountsDb Vm InnerInstructions Features Svm.
From S2P Require Import Persistence PersistenceFile Text SerdeStr Bytes TraceFilter Debugger.
From S2P Require Import RegisterTrace SampleHost.

(** ** Parser combinators *)

(** The list of at least one element; the fuel is the length of the input. *)
Fixpoint sample_list1 {A B} (sep : str → result () (str * A)) (f : str → result () (str * B))
    (fuel : nat) (i : str) : result () (str * list B) :=
  match f i with
  | Err e => Err e
  | Ok (i1, o) =>
      match fuel, sep i1 with
      | S fuel, Ok (i2, _) =>
          if decide (length i2 < length i1 ≤ length i) then
            match sample_list1 sep f fuel i2 with
            | Ok (r, os) => Ok (r, o :: os)
            | Err _ => Ok (i1, [o])
            end
          else Ok (i1, [o])
      | _, _ => Ok (i1, [o])
      end
  end.

#[export] Instance sample_nom : Nom := {|
  nom_error := ();
  nom_error_to_string _ := lit "error";
  multispace0 i := Ok (drop_while is_multispace i, take_while is_multispace i);
  tag t i := match strip_prefix t i with Some r => Ok (r, t) | None => Err () end;
  take_while1 p i :=
    match take_while p i with [] => Err () | w => Ok (drop_while p i, w) end;
  pmap A B f p i := (r ← p i; Ok (r.1, f r.2));
  tuple3 A B C p q r i := (a ← p i; b ← q a.1; c ← r b.1; Ok (c.1, (a.2, b.2, c.2)));
  alt A p q i := match p i with Ok r => Ok r | Err _ => q i end;
  delimited A B C p q r i := (a ← p i; b ← q a.1; c ← r b.1; Ok (c.1, b.2));
  separated_list1 A B sep f i := sample_list1 sep f (length i) i |}.

(** More fuel than the input is long changes nothing. *)
Lemma sample_list1_fuel {A B} (sep : str → result () (str * A)) (f : str → result () (str * B))
    fuel : ∀ i fuel', (length i ≤ fuel)%nat → (length i ≤ fuel')%nat →
  sample_list1 sep f fuel i = sample_list1 sep f fuel' i.
Proof.
  induction fuel as [|fuel IH]; intros i fuel' Hf Hf'.
  - destruct fuel' as [|fuel']; [done|]. simpl. destruct (f i) as [[i1 o]|]; [|done].
    destruct (sep i1) as [[i2 x]|]; [|done]. by rewrite decide_False by lia.
  - simpl. destruct fuel' as [|fuel'].
    + simpl. destruct (f i) as [[i1 o]|]; [|done].
      destruct (sep i1) as [[i2 x]|]; [|done]. by rewrite decide_False by lia.
    + simpl. destruct (f i) as [[i1 o]|]; [|done]. destruct (sep i1) as [[i2 x]|]; [|done].
      destruct (decide _) as [[? ?]|]; [|done]. by rewrite (IH i2 fuel') by lia.
Qed.

Lemma sample_list1_Ok {A B} (sep : str → result () (str * A)) (f : str → result () (str * B))
    fuel i y : f i = Ok y → ∃ r, sample_list1 sep f fuel i = Ok r.
Proof.
  intros Hf. destruct fuel; simpl; rewrite Hf; destruct y as [i1 o]; [eauto|].
  destruct (sep i1) as [[i2 x]|]; [|eauto]. destruct (decide _); [|eauto].
  destruct (sample_list1 _ _ _ _) as [[]|]; eauto.
Qed.

#[export] Instance sample_nom_laws : NomLaws.
Proof.
  split; cbn [multispace0 tag take_while1 pmap tuple3 alt delimited separated_list1 sample_nom];
    try done.
  - intros t i. by destruct (strip_prefix t i).
  - intros p i. by destruct (take_while p i).
  - intros A p q i. destruct (p i); [done|]. by destruct (q i).
  - intros A B sep f i Hf. destruct i; simpl; by destruct (f _).
  - intros A B sep f i i1 o Hf Hs. destruct (length i) as [|n]; simpl; rewrite Hf; [done|].
    destruct (sep i1) as [[i2 x]|]; [|done]. destruct (decide _); [|done].
    apply is_err_true in Hs as [e He]. destruct n; simpl; by rewrite He.
  - intros A B sep f i i1 o i2 x y Hf Hs Hlen Hf2. destruct (length i) as [|n] eqn:Hn; [lia|].
    cbn [sample_list1]. rewrite Hf, Hs, decide_True by (by rewrite Hn).
    rewrite (sample_list1_fuel sep f n i2 (length i2)) by lia.
    destruct (sample_list1_Ok sep f (length i2) i2 y Hf2) as [[r os] Hr]. by rewrite Hr.
Qed.

#[export] Instance sample_chars : CharClass := {| is_alphanumeric := is_ascii_alphanumeric |}.
#[export] Instance sample_chars_laws : CharClassLaws.
Proof. by split. Qed.

(** ** Hexadecimal digits *)

Definition hex_value (c : N) : option N :=
  if ((48 <=? c) && (c <=? 57))%N then Some (c - 48)%N
  else if ((97 <=? c) && (c <=? 102))%N then Some (c - 87)%N else None.

Fixpoint sample_hex_decode (s : str) : option bytes :=
  match s with
  | [] => Some []
  | a :: b :: s =>
      x ← hex_value a; y ← hex_value b; r ← sample_hex_decode s;
      Some (byte_of (16 * x + y) :: r)
  | _ => None
  end.

#[export] Instance sample_hex : HexApi := {| hex_decode := sample_hex_decode |}.

Lemma sample_hex_decode_byte x s :
  sample_hex_decode (to_hex2 (Byte.to_N x) ++ s) = (r ← sample_hex_decode s; Some (x :: r)).
Proof. by destruct x. Qed.

#[export] Instance sample_hex_laws : HexLaws.
Proof.
  split. induction b as [|x b IH]; [done|].
  transitivity (r ← sample_hex_decode (hex_encode b); Some (x :: r)).
  - apply sample_hex_decode_byte.
  - by rewrite (IH : sample_hex_decode (hex_encode b) = Some b).
Qed.

(** The number that a text of digits stands for. *)
Definition hex_number (s : str) : N :=
  foldl (λ n c, 16 * n + default 0 (hex_value c))%N 0%N s.

Lemma hex_value_digit d : (d < 16)%N → hex_value (hex_digit d) = Some d.
Proof.
  intros Hd. unfold hex_value, hex_digit. destruct (N.ltb_spec d 10).
  - rewrite (proj2 (andb_true_iff _ _)) by (rewrite !N.leb_le; lia). f_equal. lia.
  - rewrite (proj2 (andb_false_iff _ _)) by (right; apply N.leb_gt; lia).
    rewrite (proj2 (andb_true_iff _ _)) by (rewrite !N.leb_le; lia). f_equal. lia.
Qed.

Lemma hex_number_digits fuel : ∀ n, (n < 2 ^ N.of_nat fuel)%N → (0 < fuel)%nat →
  hex_number (hex_digits fuel n) = n.
Proof.
  induction fuel as [|fuel IH]; intros n Hn Hf; [lia|]. cbn [hex_digits].
  destruct (N.ltb_spec n 16) as [Hlt|Hge].
  - unfold hex_number. cbn. by rewrite hex_value_digit.
  - rewrite Nat2N.inj_succ, N.pow_succ_r' in Hn.
    assert (n / 16 < 2 ^ N.of_nat fuel)%N as Hdiv.
    { apply N.Div0.div_lt_upper_bound. lia. }
    destruct fuel as [|fuel]; [simpl in Hn; lia|].
    specialize (IH (n / 16)%N Hdiv ltac:(lia)). unfold hex_number in *.
    rewrite foldl_app, IH. cbn. rewrite hex_value_digit by (by apply N.mod_lt). simpl.
    pose proof (N.div_mod n 16). lia.
Qed.

Lemma hex_number_to_hex n : hex_number (to_hex n) = n.
Proof.
  apply hex_number_digits; [|lia]. rewrite Nat2N.inj_succ, N.pow_succ_r'.
  pose proof (N.size_gt n) as Hs. destruct n as [|p]; [simpl; lia|].
  assert (N.size (N.pos p) = N.of_nat (N.size_nat (N.pos p))) as <-; [|lia].
  clear Hs. simpl. induction p as [p IH|p IH|]; cbn [Pos.size Pos.size_nat]; [lia..|done].
Qed.

(** The texts of the protocol are of letters and digits and marks. *)
Lemma hex_digits_plain fuel : ∀ n, Forall (λ c, is_ascii_alphanumeric c = true) (hex_digits fuel n).
Proof.
  induction fuel as [|fuel IH]; intros n; [done|]. cbn [hex_digits].
  destruct (N.ltb_spec n 16); [repeat constructor; by apply hex_digit_plain|].
  apply Forall_app. split; [apply IH|]. repeat constructor. by apply hex_digit_plain, N.mod_lt.
Qed.

Lemma plain_not_in c s :
  is_ascii_alphanumeric c = false → Forall (λ c, is_ascii_alphanumeric c = true) s → c ∉ s.
Proof. intros Hc Hs Hin. rewrite Forall_forall in Hs. apply Hs in Hin. congruence. Qed.

Lemma plain_ascii s :
  Forall (λ c, is_ascii_alphanumeric c = true) s → Forall (λ c, c < 128)%N s.
Proof.
  intros Hs. eapply Forall_impl; [exact Hs|]. intros c. unfold is_ascii_alphanumeric.
  rewrite !orb_true_iff, !andb_true_iff, !N.leb_le. lia.
Qed.

Lemma from_utf8_ascii s : Forall (λ c, c < 128)%N s → from_utf8_lossy (ascii_bytes s) = s.
Proof.
  induction 1 as [|c s Hc _ IH]; [done|]. unfold ascii_bytes in *. cbn [fmap list_fmap].
  cbn [from_utf8_lossy]. rewrite byte_of_to_N, N.mod_small by lia.
  destruct (second_range c). rewrite (proj2 (N.ltb_lt c 128)) by done. f_equal. exact IH.
Qed.

(** ** The stub *)

(** Up to and including the first mark. *)
Fixpoint take_until (d : Byte.byte) (b : bytes) : bytes * bytes :=
  match b with
  | [] => ([], [])
  | x :: b =>
      if Byte.eqb x d then ([x], b) else let r := take_until d b in (x :: r.1, r.2)
  end.

(** The memory: each byte is the low byte of its address. *)
Definition sample_memory (addr size : N) : bytes :=
  (λ i, byte_of (addr + N.of_nat i)) <$> seq 0 (N.to_nat size).

(** The reply to a request [$m<addr>,<size>#..]. *)
Definition stub_answer (request : bytes) : bytes :=
  match split_on 44 (drop 2 (Byte.to_N <$> request)) with
  | [a; rest] =>
      match split_on 35 rest with
      | size :: _ => packet (hex_encode (sample_memory (hex_number a) (hex_number size)))
      | [] => []
      end
  | _ => []
  end.

(** A connection is what the stub has sent and nobody has read. *)
#[export] Instance sample_connection : Connection := {|
  conn := bytes;
  io_error := ();
  write_all c b := Ok (c ++ stub_answer b);
  flush c := Ok c;
  read_until d c := Ok ((take_until d c).2, (take_until d c).1);
  read_byte c := Ok (match c with [] => ([], None) | x :: c => (c, Some x) end) |}.

#[export] Instance sample_stub : MemoryStub := {|
  stub_memory a := byte_of a;
  packet_limit := 64;
  serving c := c = [] |}.

Lemma ascii_to_N s : Forall (λ c, c < 128)%N s → Byte.to_N <$> ascii_bytes s = s.
Proof.
  induction 1 as [|c s Hc _ IH]; [done|]. unfold ascii_bytes in *. cbn [fmap list_fmap].
  rewrite byte_of_to_N, N.mod_small by lia. f_equal. exact IH.
Qed.

Lemma to_hex2_plain n : (n < 256)%N → Forall (λ c, is_ascii_alphanumeric c = true) (to_hex2 n).
Proof.
  intros Hn. repeat constructor; apply hex_digit_plain.
  - apply N.Div0.div_lt_upper_bound. lia.
  - by apply N.mod_lt.
Qed.

Lemma checksum_bound s : (checksum s < 256)%N.
Proof.
  unfold checksum. destruct s as [|x s _] using rev_ind; [done|].
  rewrite foldl_app. by apply N.mod_lt.
Qed.

Lemma stub_answer_request addr size :
  stub_answer (gdb_read_memory_cmd addr size)
  = packet (hex_encode (sample_memory addr size)).
Proof.
  unfold gdb_read_memory_cmd. set (payload := lit "m" ++ _).
  pose proof (to_hex2_plain (checksum payload) (checksum_bound _)) as Hsum.
  pose proof (hex_digits_plain (S (N.size_nat addr)) addr : Forall _ (to_hex addr)) as Ha.
  pose proof (hex_digits_plain (S (N.size_nat size)) size : Forall _ (to_hex size)) as Hs.
  unfold stub_answer, packet at 1. rewrite ascii_to_N.
  2:{ unfold payload. repeat (apply Forall_app; split); try (by repeat constructor);
        by apply plain_ascii. }
  replace (drop 2 (lit "$" ++ payload ++ lit "#" ++ to_hex2 (checksum payload)))
    with (to_hex addr ++ 44%N :: (to_hex size ++ 35%N :: to_hex2 (checksum payload)))
    by (unfold payload; cbn; by rewrite <-app_assoc).
  rewrite split_on_app by (by apply plain_not_in).
  rewrite (split_on_word 44).
  2:{ rewrite not_elem_of_app, not_elem_of_cons.
      split_and!; [by apply plain_not_in|done|by apply plain_not_in]. }
  rewrite split_on_app by (by apply plain_not_in). by rewrite !hex_number_to_hex.
Qed.

Lemma take_until_app d s r :
  d ∉ s → take_until d (s ++ d :: r) = (s ++ [d], r).
Proof.
  induction s as [|x s IH]; intros Hd; simpl.
  - by rewrite (Byte.byte_dec_lb eq_refl).
  - destruct (Byte.eqb x d) eqn:Hx; [apply Byte.byte_dec_bl in Hx; set_solver|].
    by rewrite IH by set_solver.
Qed.

Lemma rle_plain s : Forall (λ c, is_ascii_alphanumeric c = true) s → rle s s.
Proof.
  induction s as [|c s IH] using rev_ind; [constructor|]. intros [Hs Hc]%Forall_app.
  constructor; [by apply IH|]. inversion_clear Hc as [|? ? Hcc _]. intros Hin.
  assert (c = 42 ∨ c = 35)%N as [->| ->] by (revert Hin; cbn; set_solver); done.
Qed.

#[export] Instance sample_stub_laws : MemoryStubLaws.
Proof.
  split. intros c addr size -> _. set (mem := hex_encode (memory_range addr size)).
  pose proof (hex_encode_plain (memory_range addr size) : Forall _ mem) as Hmem.
  pose proof (to_hex2_plain (checksum mem) (checksum_bound _)) as Hsum.
  set (pre := ascii_bytes (lit "$" ++ mem)).
  assert (byte_of 35 ∉ pre) as Hpre.
  { unfold pre. intros (c & Hc & Hin)%list_elem_of_fmap.
    assert (c < 128 ∧ c ≠ 35)%N as [Hlt Hne].
    { apply elem_of_app in Hin as [Hin|Hin]; [by apply list_elem_of_singleton in Hin as ->|].
      split; [|by intros ->; revert Hin; apply plain_not_in].
      pose proof (plain_ascii _ Hmem) as Hall. rewrite Forall_forall in Hall. auto. }
    apply Hne. apply (f_equal Byte.to_N) in Hc. rewrite !byte_of_to_N in Hc.
    rewrite !N.mod_small in Hc by lia. done. }
  set (x := byte_of (hex_digit (checksum mem / 16))).
  set (y := byte_of (hex_digit (checksum mem mod 16))).
  assert (stub_answer (gdb_read_memory_cmd addr size) = pre ++ byte_of 35 :: [x; y]) as Hans.
  { rewrite stub_answer_request. unfold packet, ascii_bytes, pre.
    rewrite (app_assoc (lit "$")), fmap_app. done. }
  eexists _, _, [x; y], [y], [], (pre ++ [byte_of 35]), x, y, false, mem, (to_hex2 (checksum mem)).
  split_and!; [done|done| |done|done|done|by apply rle_plain|].
  - cbn [read_until write_all sample_connection app]. rewrite Hans. by rewrite take_until_app.
  - transitivity (from_utf8_lossy (packet mem)).
    + f_equal. unfold packet, pre, ascii_bytes.
      by rewrite <-app_assoc, (app_assoc (lit "$") mem), (fmap_app _ (lit "$" ++ mem)).
    + unfold packet. rewrite from_utf8_ascii; [done|].
      repeat (apply Forall_app; split); try (by repeat constructor); by apply plain_ascii.
Qed.

(** ** The file system *)

#[export] Instance sample_fs : FsApi := {|
  FileSystem := gmap str bytes;
  IoError := ();
  current_dir _ := Ok (lit "/work");
  create_dir_all fs _ := (fs, Ok ());
  file_create fs p := (<[p := []]> fs, Ok ());
  file_write fs p b :=
    match fs !! p with
    | Some old => (<[p := old ++ b]> fs, Ok (len b))
    | None => (fs, Err ())
    end;
  path_join a b := a ++ lit "/" ++ b;
  with_extension p e := p ++ lit "." ++ e;
  file_content fs p := fs !! p |}.

#[export] Instance sample_fs_laws : FsLaws.
Proof.
  split; cbn [create_dir_all file_create file_write with_extension file_content sample_fs].
  - by intros fs p fs' r q [= <- _].
  - intros fs p fs' q [= <-]. destruct (decide (q = p)) as [->|]; by simplify_map_eq.
  - intros fs p b fs' n q old Hw Hold. rewrite Hold in Hw. injection Hw as <- <-.
    unfold len. rewrite Nat2N.id, take_ge by done.
    destruct (decide (q = p)) as [->|]; by simplify_map_eq.
  - intros fs p b fs' r q Hw Hne. case_match; simplify_eq; by simplify_map_eq.
  - intros base e e' _ Hne Heq. by apply app_inv_head, app_inv_head in Heq.
Qed.

#[export] Instance sample_full_writes : FullWrites.
Proof.
  split. cbn [file_write sample_fs]. intros fs p b fs' n Hw. by case_match; simplify_eq.
Qed.

#[export] Instance sample_trace : TraceApi := {|
  Executable := bytes;
  get_text_bytes exe := exe;
  get_insn program pc := take 8 (drop (N.to_nat (8 * pc)) program);
  disassemble_into fs p exe _ := <[p := exe]> fs;
  InstrContext := address;
  get_program_key k := Ok k;
  address_to_string := to_decimal;
  signature_to_string := to_decimal;
  tx_signatures tx := [tx_signature tx];
  sha256_digest b := take 32 (b ++ zeros 32);
  ic_set_debug_port ic _ := ic;
  vm_traces ic :=
    (λ _, (6%N, replicate 8 Byte.xb7, [[1; 2; 3; 4; 5; 6; 7; 8; 9; 10; 11; 0]%N])) <$> si_logs ic;
  set_order := remove_dups;
  text_set_order := remove_dups |}.

#[export] Instance sample_trace_laws : TraceLaws.
Proof.
  split; cbn [disassemble_into file_content sha256_digest set_order text_set_order sample_trace
              sample_fs]; [|  |done..].
  - intros fs p exe trace q Hne. by simplify_map_eq.
  - intros b. rewrite length_take, length_app. unfold zeros. rewrite length_replicate. lia.
Qed.

(** ** Snapshot files and serialized strings *)

(** A writer is its path and what it was given; writes go through at once. *)
#[export] Instance sample_snapshot_fs : SnapshotFs := {|
  Disk := gmap str bytes;
  Writer := str * bytes;
  writer_create d p := (<[p := []]> d, Some (p, []));
  writer_write_all d w b := (<[w.1 := w.2 ++ b]> d, Some (w.1, w.2 ++ b));
  writer_flush d w := (<[w.1 := w.2]> d, true);
  writer_drop d _ := d;
  disk_read d p := d !! p;
  writer_path := fst;
  writer_given := snd |}.

#[export] Instance sample_snapshot_fs_laws : SnapshotFsLaws.
Proof.
  split; cbn [writer_create writer_write_all writer_flush writer_drop disk_read writer_path
              writer_given sample_snapshot_fs]; [| | |done].
  - intros d p d' w [= <- <-]. split_and!; [done..|]. apply lookup_insert_eq.
  - by intros d w b d' w' [= _ <-].
  - intros d w d' [= <-]. apply lookup_insert_eq.
Qed.

#[export] Instance sample_serde : SerdeFormat := {|
  wire := str; serde_error := str; serialize_str := Ok; deserialize_str := Ok;
  custom_error e := e |}.

#[export] Instance sample_serde_laws : SerdeFormatLaws.
Proof. split. by intros s w [= ->]. Qed.
