(* ===== verification/TestsText.v ===== *)
(** * The unit tests of the trace filter and of the log formatter

    The tests of crates/litesvm/src/register_tracing_filter.rs and format_logs.rs
    as executable checks of the model, with the sample combinators and the escape
    sequences of a terminal.  All of them evaluate to true. *)

From S2P Require Import Prelude Errors ComputeBudget Runtime Types Text FormatLogs TraceFilter.
From S2P Require Import SampleText.

Module FilterTests.

Definition TOKEN_PROGRAM : str := lit "TokenkegQfeZyiNwAJbNbGKPFXCWuBvf9Ss623VQ5DA".
Definition SYSTEM_PROGRAM : str := lit "11111111111111111111111111111111".
Definition SPL_MEMO : str := lit "MemoSq4gqABAXKb96qnH8TysNcWxMyWCqXgDLGmfcHr".

(** [expr(filter).unwrap()] evaluated on a row of one field. *)
Definition accepts (filter : str) (f : string) (values : list str) : bool :=
  match expr filter with
  | Ok ast => eval ast {[ lit f := values ]}
  | Err _ => false
  end.

(** It parses, and does not accept. *)
Definition rejects (filter : str) (f : string) (values : list str) : bool :=
  match expr filter with
  | Ok ast => negb (eval ast {[ lit f := values ]})
  | Err _ => false
  end.

Definition test_empty_filter_matches_all : bool :=
  let filter := lit "" in
  accepts filter "program_id" [TOKEN_PROGRAM].

Definition test_simple_equality : bool :=
  let filter := lit "program_id == " ++ TOKEN_PROGRAM in
  accepts filter "program_id" [TOKEN_PROGRAM]
  && rejects filter "program_id" [SYSTEM_PROGRAM].

Definition test_simple_inequality : bool :=
  let filter := lit "program_id != " ++ TOKEN_PROGRAM in
  accepts filter "program_id" [SYSTEM_PROGRAM]
  && rejects filter "program_id" [TOKEN_PROGRAM].

Definition test_and_expression : bool :=
  let filter := lit "program_id == " ++ TOKEN_PROGRAM ++ lit " && program_id != " ++ SYSTEM_PROGRAM in
  accepts filter "program_id" [TOKEN_PROGRAM]
  && rejects filter "program_id" [SYSTEM_PROGRAM].

Definition test_and_expression2 : bool :=
  let filter := lit "program_id == " ++ TOKEN_PROGRAM ++ lit " && program_id == " ++ SYSTEM_PROGRAM in
  rejects filter "program_id" [TOKEN_PROGRAM; SYSTEM_PROGRAM].

Definition test_or_expression : bool :=
  let filter := lit "program_id == " ++ TOKEN_PROGRAM ++ lit " || program_id == " ++ SYSTEM_PROGRAM in
  accepts filter "program_id" [TOKEN_PROGRAM]
  && accepts filter "program_id" [SYSTEM_PROGRAM]
  && rejects filter "program_id" [SPL_MEMO].

Definition test_parentheses_grouping : bool :=
  let filter := lit "program_id == " ++ TOKEN_PROGRAM ++ lit " || (program_id == " ++ SYSTEM_PROGRAM ++ lit " && program_id != " ++ SPL_MEMO ++ lit ")" in
  accepts filter "program_id" [TOKEN_PROGRAM]
  && accepts filter "program_id" [SYSTEM_PROGRAM]
  && rejects filter "program_id" [SPL_MEMO].

Definition test_multi_value_equality : bool :=
  let filter := lit "program_id == " ++ TOKEN_PROGRAM in
  accepts filter "program_id" [SYSTEM_PROGRAM; TOKEN_PROGRAM].

Definition test_multi_value_inequality : bool :=
  let filter := lit "program_id != " ++ TOKEN_PROGRAM in
  accepts filter "program_id" [SYSTEM_PROGRAM; SPL_MEMO]
  && rejects filter "program_id" [SYSTEM_PROGRAM; TOKEN_PROGRAM].

Definition test_whitespace_handling : bool :=
  let filter := lit "  program_id   ==   " ++ TOKEN_PROGRAM ++ lit "  " in
  accepts filter "program_id" [TOKEN_PROGRAM].

Definition test_missing_field : bool :=
  let filter := lit "program_id == " ++ TOKEN_PROGRAM in
  rejects filter "other_field" [SYSTEM_PROGRAM].

Definition test_nested_field : bool :=
  let filter := lit "account.owner == " ++ TOKEN_PROGRAM in
  accepts filter "account.owner" [TOKEN_PROGRAM]
  && rejects filter "account.owner" [SYSTEM_PROGRAM].

Definition filter_tests : list bool :=
  [test_empty_filter_matches_all;
   test_simple_equality;
   test_simple_inequality;
   test_and_expression;
   test_and_expression2;
   test_or_expression;
   test_parentheses_grouping;
   test_multi_value_equality;
   test_multi_value_inequality;
   test_whitespace_handling;
   test_missing_field;
   test_nested_field].

(** The model of the filter passes every unit test of the module. *)
Theorem filter_tests_pass : Forall (λ t, t = true) filter_tests.
Proof. by_decision. Qed.
End FilterTests.

Module FormatTests.

(** A text in a colour, with the escape sequences of a terminal. *)
Definition ESC : N := 27.

Definition paint_escapes (style : Style) (s : str) : str :=
  [ESC] ++ lit "[" ++ (if bold style then lit "1;" else [])
  ++ match colour style with Green => lit "32" | Fixed n => lit "38;5;" ++ to_decimal n end
  ++ lit "m" ++ s ++ [ESC] ++ lit "[0m".

#[local] Instance terminal : AnsiTerm := {| paint := paint_escapes |}.
#[local] Instance ascii_case : UnicodeCase := {| lower_unicode s := s |}.

Definition test_format_line : bool :=
  bool_decide
    (format_line (lit "Program 11111111111111111111111111111111 failed: Computational budget exceeded")
     = [ESC] ++ lit "[1;38;5;9mProgram 11111111111111111111111111111111 failed: Computational budget exceeded"
       ++ [ESC] ++ lit "[0m")
  && bool_decide (format_line (lit "Program log: static string")
                  = [ESC] ++ lit "[32mstatic string" ++ [ESC] ++ lit "[0m").

Definition test_format_logs : bool :=
  bool_decide
    (format_logs
       [lit "Program 1111111QLbz7JHiBTspS962RLKV8GndWFwiEaqKM invoke [1]";
        lit "Program log: panicked at clock-example/src/lib.rs:17:5:" ++ [NEWLINE]
        ++ lit "assertion failed: got_clock.unix_timestamp < 100";
        lit "Program 1111111QLbz7JHiBTspS962RLKV8GndWFwiEaqKM consumed 1751 of 200000 compute units";
        lit "Program 1111111QLbz7JHiBTspS962RLKV8GndWFwiEaqKM failed: SBF program panicked"]
     = [ESC] ++ lit "[38;5;239mProgram 1111111QLbz7JHiBTspS962RLKV8GndWFwiEaqKM invoke [1]"
       ++ [ESC] ++ lit "[0m" ++ [NEWLINE]
       ++ [ESC] ++ lit "[1;38;5;9mpanicked at clock-example/src/lib.rs:17:5:" ++ [NEWLINE]
       ++ lit "assertion failed: got_clock.unix_timestamp < 100" ++ [ESC] ++ lit "[0m" ++ [NEWLINE]
       ++ [ESC]
       ++ lit "[38;5;239mProgram 1111111QLbz7JHiBTspS962RLKV8GndWFwiEaqKM consumed 1751 of 200000 compute units"
       ++ [ESC] ++ lit "[0m" ++ [NEWLINE]
       ++ [ESC]
       ++ lit "[1;38;5;9mProgram 1111111QLbz7JHiBTspS962RLKV8GndWFwiEaqKM failed: SBF program panicked"
       ++ [ESC] ++ lit "[0m" ++ [NEWLINE]).

(** The model of the formatter passes the unit tests of the module. *)
Theorem format_tests_pass : test_format_line = true ∧ test_format_logs = true.
Proof. split; by_evaluation. Qed.
End FormatTests.
