(* ===== verification/SampleClient.v ===== *)
(** * Sample clients

    Concrete implementations of the interfaces of the transaction builders and of
    the bindings, with their laws, over the sample host. *)

From Stdlib Require Import Floats.SpecFloat.
From S2P Require Import Prelude Errors ComputeBudget Runtime RentState Utils Types History.
From S2P Require Import EpochStake AccountsDb Vm InnerInstructions Features Svm Process.
From S2P Require Import ProcessLemmas Exec Text Bytes TxBuild Loader Token NodeUtil NodeTypes.
From S2P Require Import NodeSvm SampleHost.

(** ** Numbers *)

#[export] Instance sample_bigint : BigIntApi := {|
  BigInt := Z;
  bigint_value z := z;
  get_u64 z := ((z <? 0)%Z, (Z.abs_N z mod 2 ^ 64)%N, (Z.abs_N z <=? u64_max)%N);
  get_u128 z := ((z <? 0)%Z, (Z.abs_N z mod 2 ^ 128)%N, (Z.abs_N z <=? u128_max)%N);
  get_i64 z := (z, (i64_min <=? z)%Z && (z <=? i64_max)%Z);
  bigint_from_u64 := Z.of_N;
  bigint_from_i64 z := z;
  bigint_debug z := to_decimal (Z.abs_N z) |}.

#[export] Instance sample_bigint_laws : BigIntLaws.
Proof.
  split; try done.
  - intros b. split_and!; [done..|]. cbn. intros Hb%N.leb_le. apply N.mod_small.
    unfold u64_max in Hb. lia.
  - intros b. split_and!; [done..|]. cbn. intros Hb%N.leb_le. apply N.mod_small.
    unfold u128_max in Hb. lia.
Qed.

(** ** Transactions *)

(** An instruction: its signers and an amount to move from the payer to account
    101. *)
Record sample_ix : Type := { sx_signers : list address; sx_amount : N }.

Definition sample_new_tx (ixs : list sample_ix) (payer h : N) : sample_tx :=
  {| sx_keys := [payer; 101; 6]%N; sx_writable := 2;
     sx_transfers := (λ ix, (2%N, 0, 1, sx_amount ix)) <$> ixs;
     sx_blockhash := h; sx_signature := 77 |}.

#[export] Instance sample_builder : TxBuilder := {|
  Keypair := N;
  pubkey k := k;
  Instruction := sample_ix;
  Transaction := list sample_ix * N * N;
  tx_new_with_payer ixs payer := (ixs, payer, 0%N);
  tx_partial_sign tx _ h := Ret (tx.1, h);
  tx_new_signed_with_payer ixs payer kps h :=
    if decide (Forall (λ k, k ∈ kps) (payer :: mjoin (sx_signers <$> ixs)))
    then Ret (ixs, payer, h) else Panic;
  tx_into_versioned tx := sample_new_tx tx.1.1 tx.1.2 tx.2;
  tx_fee_payer tx := Some tx.1.2;
  ix_signers := sx_signers;
  system_create_account from to _ _ _ := {| sx_signers := [from; to]; sx_amount := 0 |} |}.

#[export] Instance sample_builder_laws : TxBuilderLaws.
Proof.
  split; cbn [tx_new_with_payer tx_partial_sign tx_new_signed_with_payer tx_into_versioned
              tx_fee_payer ix_signers pubkey sample_builder].
  - done.
  - by intros tx kps h tx' [= <-].
  - intros ixs payer kps h tx. destruct (decide _); [|done]. by intros [= <-].
  - intros tx loader reserved stx. cbn [try_create sample_vm host_vm sample_host].
    unfold sample_try_create. destruct (forallb _ _); [|done]. by intros [= <-].
  - intros tx loader reserved stx. cbn [try_create sample_vm host_vm sample_host].
    unfold sample_try_create. destruct (forallb _ _); [|done]. by intros [= <-].
  - intros ixs payer kps h k Hk Hno. rewrite decide_False; [done|]. intros Hall.
    rewrite Forall_forall in Hall. apply Hno. rewrite list_fmap_id. by apply Hall.
Qed.

(** ** The loader *)

#[export] Instance sample_loader : LoaderApi := {|
  ix_set_upgrade_authority _ a _ := {| sx_signers := [a]; sx_amount := 0 |};
  ix_create_buffer payer buffer _ _ _ := Some [{| sx_signers := [payer; buffer]; sx_amount := 0 |}];
  ix_write _ authority _ _ := {| sx_signers := [authority]; sx_amount := 0 |};
  ix_deploy_with_max_program_len payer program _ _ _ _ _ :=
    Some [{| sx_signers := [payer; program]; sx_amount := 0 |}];
  size_of_buffer n := (n + 37)%N |}.

#[export] Instance sample_loader_laws : LoaderLaws.
Proof. split. intros p a n. apply list_elem_of_here. Qed.

(** ** Tokens *)

(** One signer; transfers move their amount. *)
Definition token_ix (authority amount : N) : result N sample_ix :=
  Ok {| sx_signers := [authority]; sx_amount := amount |}.

Definition free_ix (signer : N) : sample_ix := {| sx_signers := [signer]; sx_amount := 0 |}.

#[export] Instance sample_token : TokenApi := {|
  TOKEN_ID := 300; ACCOUNT_LEN := 165; MINT_LEN := 82; MULTISIG_LEN := 355;
  NATIVE_MINT_DECIMALS := 9; native_mint_id := 301;
  mint_unpack _ := Ok {| mint_authority := None; mint_supply := 0; mint_decimals := 9;
                         mint_is_initialized := true; mint_freeze_authority := None |};
  mint_pack _ n := Some (zeros (N.to_nat n));
  AuthorityType := ();
  get_associated_token_address_with_program_id wallet mint _ := (wallet * 1000 + mint)%N;
  ix_approve _ _ _ authority _ _ := token_ix authority 0;
  ix_approve_checked _ _ _ _ authority _ _ _ := token_ix authority 0;
  ix_burn _ _ _ authority _ _ := token_ix authority 0;
  ix_burn_checked _ _ _ authority _ _ _ := token_ix authority 0;
  ix_close_account _ _ _ authority _ := token_ix authority 0;
  ix_freeze_account _ _ _ authority _ := token_ix authority 0;
  ix_thaw_account _ _ _ authority _ := token_ix authority 0;
  ix_mint_to _ _ _ authority _ _ := token_ix authority 0;
  ix_mint_to_checked _ _ _ authority _ _ _ := token_ix authority 0;
  ix_revoke _ _ authority _ := token_ix authority 0;
  ix_set_authority _ _ _ _ authority _ := token_ix authority 0;
  ix_transfer _ _ _ authority _ amount := token_ix authority amount;
  ix_transfer_checked _ _ _ _ authority _ amount _ := token_ix authority amount;
  ix_sync_native _ a := token_ix a 0;
  ix_initialize_account3 _ a _ _ := token_ix a 0;
  ix_initialize_mint2 _ a _ _ _ := token_ix a 0;
  ix_initialize_multisig2 _ a _ _ := token_ix a 0;
  ix_create_associated_token_account payer _ _ _ := free_ix payer;
  ix_create_associated_token_account_idempotent payer _ _ _ := free_ix payer |}.

(** ** The bindings *)

#[export] Instance sample_node : NodeApi := {|
  address_try_from b := match dec_N b with Some (k, []) => Ok k | _ => Err (lit "invalid") end;
  address_to_bytes := enc_N;
  hash_from_str t := match t with [h] => Ok h | _ => Err (lit "invalid") end;
  hash_to_string h := [h];
  signature_try_from b := fst <$> dec_N b;
  signature_to_bytes := enc_N;
  litesvm_error_display _ := lit "error";
  fs_all_enabled := ([], []);
  fs_activated_slot fs k := snd <$> list_find (λ x, x.1 = k) fs.1 ≫= λ x, Some x.2;
  fs_deactivate fs k := (filter (λ x, x.1 ≠ k) fs.1, k :: fs.2);
  epoch_rewards_fields '(h, n, p, tp, tr, d, a) :=
    {| distribution_starting_block_height := h; num_partitions := n; parent_blockhash := p;
       total_points := tp; total_rewards := tr; distributed_rewards := d; active := a |};
  epoch_rewards_of x :=
    (distribution_starting_block_height x, num_partitions x, parent_blockhash x, total_points x,
     total_rewards x, distributed_rewards x, active x);
  epoch_schedule_fields '(s, o, w, e, f) :=
    {| slots_per_epoch := s; leader_schedule_slot_offset := o; warmup := w;
       first_normal_epoch := e; first_normal_slot := f |};
  epoch_schedule_of x :=
    (slots_per_epoch x, leader_schedule_slot_offset x, warmup x, first_normal_epoch x,
     first_normal_slot x);
  last_restart_slot_of n := n;
  last_restart_slot n := n;
  slot_hashes_from_iter l := l;
  slot_hashes_slice l := l;
  slot_history_of _ _ := ();
  slot_history_blocks _ := [];
  slot_history_next_slot _ := 0%N;
  slot_history_add h _ := h;
  slot_history_check _ _ := CheckTooOld;
  slot_history_oldest _ := 0%N;
  slot_history_newest _ := 0%N;
  stake_history_get _ _ := None;
  stake_history_add h _ _ := h;
  rent_free := sample_rent;
  ACCOUNT_STORAGE_OVERHEAD := 128 |}.

#[export] Instance sample_node_laws : NodeLaws.
Proof.
  split; cbn [address_try_from address_to_bytes hash_from_str hash_to_string slot_hashes_slice
              slot_hashes_from_iter sample_node]; try done.
  - intros a. by rewrite <-(app_nil_r (enc_N a)), dec_enc_N.
  - intros [|x [|]] h; try done. by intros [= ->].
  - by intros [].
  - by intros [].
  - split. intros x n. apply dec_enc_slot_hashes.
  - split. intros x n. apply dec_enc_rewards.
  - split. intros x n. apply dec_enc_schedule.
  - split. intros x n. cbn. by rewrite dec_enc_N.
  - split. by intros [] n.
  - split. by intros [] n.
Qed.

#[export] Instance sample_node_tx : NodeTxApi := {|
  deserialize_legacy b := (λ r, sample_transfer r.1 42) <$> dec_N b;
  deserialize_versioned b := (λ r, sample_transfer r.1 42) <$> dec_N b |}.
