(* ===== verification/HelperWitnesses.v ===== *)
(** * Witnesses of the helpers and the bindings

    The theorems on reachable instances, the trace filter, the debugger client,
    register tracing, the helper crates and the bindings that assume laws of their
    interfaces, at concrete inputs on the sample implementations. *)

From Stdlib Require Import Floats.SpecFloat.
From S2P Require Import Prelude Errors ComputeBudget Runtime RentState Utils Types History.
From S2P Require Import EpochStake AccountsDb Vm InnerInstructions Features Svm Process Exec.
From S2P Require Import ExecLemmas Api Reach Text Bytes F64 TraceFilter Debugger RegisterTrace.
From S2P Require Import Inspect TxBuild.
From S2P Require Import Loader Token TokenProps NodeUtil NodeBudget NodeTypes NodeSysvars.
From S2P Require Import NodeProps NodeSvm NodeSvmProps NodeSettings SampleHost Witnesses SampleText.
From S2P Require Import SampleClient.

(** ** Reachable instances *)

Definition sample_kp : bytes := enc_N 100.

Lemma sample_kp_valid : is_Some (keypair_pubkey sample_kp).
Proof. by exists 100%N. Qed.

Definition staked : LiteSVM :=
  (svm_set_epoch_stake (with_transaction_history (svm_default sample_kp) 3) 8 500).1.

(** All stakes replaced by a list that names account 8 twice. *)
Definition restaked : LiteSVM :=
  (svm_set_epoch_stakes staked [(8, 500); (8, 600)]%N).1.

(** With lists of all kinds the recorded stakes are still bounded; with lists of
    distinct accounts the total is their sum. *)
Lemma reachable_instances_wf_witness :
  instance_wf stakes_bounded restaked ∧
  epoch_total_stake (epoch_stakes staked)
  = map_sum id (epoch_vote_stakes (epoch_stakes staked)).
Proof.
  split.
  - refine (proj1 (reachable_instances_wf (λ _, True) sample_kp false restaked sample_kp_valid _)).
    refine (rtc_l _ _ _ _ (step_transaction_history _ _ 3) (rtc_l _ _ _ _ _ (rtc_once _ _ _))).
    + exact (step_set_epoch_stake _ _ 8%N 500%N _ _ (surjective_pairing _)).
    + exact (step_set_epoch_stakes _ _ [(8, 500); (8, 600)]%N _ _ I (surjective_pairing _)).
  - refine (proj2 (reachable_instances_wf (λ l, NoDup l.*1) sample_kp false staked sample_kp_valid _)
      (λ l Hl, Hl)).
    refine (rtc_l _ _ _ _ (step_transaction_history _ _ 3) (rtc_once _ _ _)).
    exact (step_set_epoch_stake _ _ 8%N 500%N _ _ (surjective_pairing _)).
Defined.

Definition big (z : Z) : BigInt := z.

(** ** The trace filter *)

Definition sample_filter : str := lit "program_id == 6 && (txsig != 5 || txsig == 77)".

Definition sample_condition (f : string) (o : Op) (v : string) : Expr :=
  ECond {| field := lit f; cond_op := o; value := lit v |}.

Definition sample_tree : Expr :=
  EAnd [sample_condition "program_id" Eq "6";
        EOr [sample_condition "txsig" Neq "5"; sample_condition "txsig" Eq "77"]].

Lemma expr_accepts_grammar_witness : filter_text sample_filter sample_tree.
Proof. apply (proj1 (expr_accepts_grammar sample_filter) sample_tree). by_evaluation. Defined.

Definition sample_callback : DefaultRegisterTracingCallback :=
  {| sbf_trace_dir := DEFAULT_PATH; sbf_trace_disassemble := true;
     sbf_trace_filter := sample_filter; sbf_debug_port := None |}.

Lemma match_filter_selects_witness :
  match_filter sample_callback [lit "77"] [lit "8"; lit "6"; lit "6"] = true.
Proof.
  rewrite (proj2 (match_filter_selects sample_callback [lit "77"] [lit "6"; lit "8"])
             [lit "8"; lit "6"; lit "6"]); [by_evaluation|set_solver].
Defined.

(** ** Register tracing *)

(** Two steps; the program counter is the last register. *)
Definition sample_registers : list (list N) :=
  [[1; 2; 3; 4; 5; 6; 7; 8; 9; 10; 11; 0]; [0; 2; 3; 4; 5; 6; 7; 8; 9; 10; 11; 1]]%N.

Definition sample_exe : bytes := replicate 8 Byte.xb7 ++ replicate 8 Byte.x95.

Definition traced : gmap str bytes :=
  (post_handler sample_callback sample_svm (sanitized good) 6%N sample_exe sample_registers ∅).1.

Lemma register_trace_files_witness :
  file_content (FsApi := sample_fs) traced
    (with_extension (trace_base sample_callback (lit "/work") sample_registers) (lit "insns"))
  = Some sample_exe.
Proof.
  pose proof (register_trace_files sample_callback sample_svm (sanitized good) 6%N sample_exe
    sample_registers 6%N (lit "/work") ∅ eq_refl eq_refl) as Hfiles.
  assert (match_filter sample_callback (signature_to_string <$> tx_signatures (sanitized good))
            [address_to_string 6%N] = true) as Hsel by by_evaluation.
  cbv zeta in Hfiles. rewrite Hsel in Hfiles.
  destruct (Hfiles traced eq_refl) as (rs & js & _ & _ & _ & Hinsns & _ & _ & Hfull).
  destruct (Hfull sample_full_writes) as [_ ->]. exact Hinsns.
Defined.

(** ** Inspection *)

Definition traced_svm : InspectedSVM FileSystem :=
  mkInspected sample_svm (tracing_callback sample_callback).

Lemma inspection_transparent_witness :
  ∃ fs, inspected_send_transaction traced_svm good ∅
        = Ret (fs, (mkInspected (sent sample_svm good) (tracing_callback sample_callback),
                    Ok (sample_meta 1))).
Proof.
  destruct (inspection_transparent (tracing_callback sample_callback) sample_svm good ∅
    (tracing_callback_transparent sample_callback eq_refl)) as [Hsend _].
  rewrite good_sent in Hsend. exact Hsend.
Defined.

Definition calls_seen {A} (o : outcome (list inspection * A)) : nat :=
  match o with Ret (w, _) => length w | Panic => 0 end.

Lemma inspection_calls_witness :
  calls_seen (inspected_simulate_transaction (mkInspected sample_svm recorder) too_much []) = 2.
Proof.
  destruct (executes sample_svm too_much) as [[er lc]|] eqn:Hex.
  - destruct (inspection_calls sample_svm too_much [] er lc Hex) as (w' & [r Hr] & _ & Hcalls).
    rewrite Hr. simpl.
    change (sanitize sample_svm too_much) with (Ret (Ok (sanitized too_much))
      : outcome (result TransactionError SanitizedTransaction)) in Hcalls.
    unfold calls_made in Hcalls.
    assert (included er = true) as Hinc.
    { transitivity (match executes sample_svm too_much with
                    | Ret (er, _) => included er | Panic => false end);
        [rewrite Hex; reflexivity|by_evaluation]. }
    rewrite Hinc in Hcalls. cbv zeta in Hcalls.
    destruct Hcalls as (? & ? & ? & ? & ? & ? & ? & ? & _ & _ & _ & _ & _ & ->). reflexivity.
  - exfalso. assert (is_ret (executes sample_svm too_much) = true) as Hr by by_evaluation.
    rewrite Hex in Hr. discriminate Hr.
Defined.

(** ** The debugger client *)

Definition idle : conn := [].

Lemma chunked_read_correct_witness :
  ∃ c', stub_read_memory_chunked idle 4096 100 30
        = Some (Ret (Ok (c', memory_range 4096 100))) ∧ serving c'.
Proof.
  apply (chunked_read_correct idle 4096 100 30); [reflexivity|split; by_decision|by_decision].
Defined.

(** Six zeros: one, and five more. *)
Lemma packet_roundtrip_witness :
  gdb_parse_packet (reply_packet true false (lit "0*" ++ [34%N]) (lit "a7"))
  = Some (replicate 3 Byte.x00).
Proof.
  apply (packet_roundtrip true false _ (replicate 3 Byte.x00)).
  apply (rle_run (lit "0") (lit "0") 48 5).
  - apply (rle_char [] []); [constructor|]. intros Hin. set_solver.
  - reflexivity.
  - by_decision.
  - discriminate.
Defined.

(** ** The helper crates *)

Definition keys (n : N) : Keypair := n.

Lemma upload_covers_program_witness :
  apply_writes (zeros 600) (buffer_writes (replicate 600 Byte.x7f)) = replicate 600 Byte.x7f.
Proof.
  refine (proj1 (proj2 (upload_covers_program sample_svm (keys 100) (keys 200) (replicate 600 Byte.x7f)
    _ eq_refl _))). by_decision.
Defined.

Lemma set_upgrade_authority_unsigned_witness :
  set_upgrade_authority sample_svm (keys 100) 8%N (keys 101) (Some 102%N) = Panic.
Proof.
  apply (set_upgrade_authority_unsigned sample_svm (keys 100) 8%N (keys 101) (Some 102%N)). discriminate.
Defined.

(** A transfer of more than the payer has. *)
Definition failing_op : TokenOp := OpTransfer (transfer_new sample_svm (keys 100) 9%N 101%N 2000000).

Definition op_state (o : outcome (LiteSVM * result FailedTransactionMetadata (option address)))
    : LiteSVM := match o with Ret (s, _) => s | Panic => sample_svm end.

Lemma token_failure_costs_fee_witness :
  failure_effect sample_svm 100%N (op_state (op_send failing_op)) sample_failure ∧
  (lamports <$> inner (accounts (op_state (op_send failing_op))) !! 100%N) = Some 995000%N.
Proof.
  split; [|by_evaluation].
  refine (token_failure_costs_fee failing_op _ _ _ sample_balances_wf _);
    [discriminate|by_evaluation].
Defined.

(** ** The bindings *)

Definition budget_script : list (property (T := ComputeBudget) * BigInt) :=
  [(P_heap_cost, big 5); (P_log_64_units, big 7); (P_heap_cost, big (-1))].

Lemma budget_properties_independent_witness :
  Z.of_N (budget_get P_heap_cost (run_script default_budget budget_script)) = 5%Z.
Proof.
  exact (proj1 (budget_properties_independent default_budget budget_script P_heap_cost 32768)).
Defined.

Definition sample_slot_hashes : list SlotHash :=
  [{| sh_slot := big 3; sh_hash := [11%N] |}; {| sh_slot := big 2; sh_hash := [10%N] |}].


(** The third call throws. *)
Definition settings_script : list js_setting :=
  [SetSigverify false; WarpToSlot (big 9); WarpToSlot (big (-1));
   SetSlotHashes sample_slot_hashes; SetLastRestartSlot (big 7)].

Lemma js_settings_refine_witness :
  ∃ s', run_calls js_call sample_svm settings_script = Ret (s', [false; false; true; false; false]) ∧
    js_get_sigverify s' = false ∧ (slot <$> js_get_clock s') = Ret 9%N ∧
    js_get_last_restart_slot s' = Ret 7%N.
Proof.
  pose proof (js_settings_refine sample_svm settings_script) as Hrun.
  assert (match run_calls expected (seen sample_svm) settings_script with
          | Ret (st, bs) =>
              bs = [false; false; true; false; false] ∧ st_sigverify st = false ∧
              (slot <$> st_clock st) = Ret 9%N ∧ st_last_restart_slot st = Ret 7%N
          | Panic => False
          end) as Hst by (vm_compute; repeat split; reflexivity).
  destruct (run_calls expected (seen sample_svm) settings_script) as [[st bs]|];
    [|destruct Hst].
  destruct Hst as (-> & Hs & Hc & Hl). destruct Hrun as (s' & Hj & Hseen). exists s'. subst st.
  exact (conj Hj (conj Hs (conj Hc Hl))).
Defined.

Lemma calculate_burn_splits_witness :
  calculate_burn sample_rent (big 1001) = Ok (500, 501)%N ∧ (500 + 501 = 1001)%N.
Proof.
  assert (js_rent_burn_percent sample_rent ≤ 100)%N as Hpct by by_decision.
  pose proof (calculate_burn_splits sample_rent (big 1001) Hpct) as Hburn.
  assert (calculate_burn sample_rent (big 1001) = Ok (500, 501)%N) as Hc by by_evaluation.
  split; [exact Hc|]. rewrite Hc in Hburn. exact (proj1 (proj2 Hburn)).
Defined.

Lemma stake_entry_setters_overwrite_effective_witness :
  js_she_set_activating {| effective := 1; activating := 2; deactivating := 3 |} (big 9)
  = ({| effective := 9; activating := 2; deactivating := 3 |}, Ok ()).
Proof.
  exact (proj1 (stake_entry_setters_overwrite_effective
    {| effective := 1; activating := 2; deactivating := 3 |} (big 9) 9 eq_refl)).
Defined.
